(** * NanobananaPro batch engine: a shallow embedding and its specification

    The development embeds the batch orchestration engine of the repository
    (batch_processor.py and database.py, with the polling loop of
    api_client.py and the downloader of downloader.py) and proves the
    properties its specification states about it, and further properties of
    the code.

    Part I is the embedding: Python strings and paths, the SQLite tables and
    the operations of [Database], the source pools, the [BatchProcessor]
    methods written in a small state-and-exception monad over an explicit
    world, the client's polling loop and the downloader.  Part II defines the
    words the properties are stated in, and the worlds the examples run in.
    Part III holds the proofs. *)

From Stdlib Require Import Ascii ZArith List Bool Lia Permutation.
From Stdlib Require String.
From Stdlib Require Import Sorting.Sorted.
From stdpp Require Import base option list gmap strings sorting pretty.

Local Open Scope Z_scope.

(* ===================================================================== *)
(** * Part I. The embedding                                                *)
(* ===================================================================== *)

(** ** Python strings

    A [str] is modelled by a Rocq [string].  Characters are the 256 values of
    [ascii]; [lower] maps A-Z to a-z and leaves every other character alone,
    which is what [str.lower] does on ASCII text. *)

Module Py.

Definition is_upper (c : ascii) : bool :=
  (65 <=? nat_of_ascii c)%nat && (nat_of_ascii c <=? 90)%nat.

Definition lower_char (c : ascii) : ascii :=
  if is_upper c then ascii_of_nat (nat_of_ascii c + 32) else c.

(** [s.lower()] *)
Fixpoint lower (s : string) : string :=
  match s with
  | EmptyString => EmptyString
  | String c s' => String (lower_char c) (lower s')
  end.

(** [bool(s)] for a string: the empty string is falsy. *)
Definition truthy (s : string) : bool :=
  match s with EmptyString => false | String _ _ => true end.

(** [bool(o)] for an [Optional[str]]: [None] and the empty string are falsy. *)
Definition truthy_opt (o : option string) : bool :=
  match o with Some s => truthy s | None => false end.

(** [o or d] for an [Optional[str]]. *)
Definition or_default (o : option string) (d : string) : string :=
  match o with Some s => if truthy s then s else d | None => d end.

(** [sub in s] *)
Fixpoint str_in (sub s : string) : bool :=
  String.prefix sub s ||
  match s with
  | EmptyString => false
  | String _ s' => str_in sub s'
  end.

(** Whitespace as [str.isspace] sees it on ASCII: TAB, LF, VT, FF, CR, the
    separators 0x1c-0x1f, and the space. *)
Definition is_space (c : ascii) : bool :=
  let n := nat_of_ascii c in
  ((9 <=? n)%nat && (n <=? 13)%nat) || ((28 <=? n)%nat && (n <=? 32)%nat).

Fixpoint lstrip (s : string) : string :=
  match s with
  | EmptyString => EmptyString
  | String c s' => if is_space c then lstrip s' else s
  end.

(** [rstrip] drops the trailing whitespace: a character stays when it is not
    a space or when something stays after it. *)
Fixpoint rstrip (s : string) : string :=
  match s with
  | EmptyString => EmptyString
  | String c s' =>
      match rstrip s' with
      | EmptyString => if is_space c then EmptyString else String c EmptyString
      | r => String c r
      end
  end.

(** [s.strip()] *)
Definition strip (s : string) : string := rstrip (lstrip s).

(** [s.replace(old, new)] for a non-empty [old]: occurrences are replaced
    left to right without overlap.  [skip] counts the characters of a matched
    occurrence that are still to be dropped. *)
Fixpoint replace_from (skip : nat) (old new s : string) : string :=
  match s with
  | EmptyString => EmptyString
  | String c s' =>
      match skip with
      | S k => replace_from k old new s'
      | O =>
          if String.prefix old s
          then new +:+ replace_from (String.length old - 1) old new s'
          else String c (replace_from 0 old new s')
      end
  end.

Definition replace (old new s : string) : string :=
  match old with
  | EmptyString => s
  | _ => replace_from 0 old new s
  end.

End Py.

(** ** The failure classifier (BatchProcessor._is_content_policy_error) *)

Definition content_error_keywords : list string :=
  [ "nsfw"; "content policy"; "content_policy"; "policy violation";
    "inappropriate"; "safety"; "moderation"; "banned"; "prohibited";
    "explicit"; "adult content"; "violates"; "not allowed"; "restricted" ].

Definition _is_content_policy_error (error_message : string) : bool :=
  if negb (Py.truthy error_message) then false
  else
    let error_lower := Py.lower error_message in
    existsb (fun keyword => Py.str_in keyword error_lower) content_error_keywords.

(** ** Paths and the file system

    Paths are the strings [str(Path(p))] gives, in POSIX form; [Path] is taken
    on strings that are already normal (no doubled or trailing slash), where
    it is the identity.  [name], [suffix] and [stem] follow pathlib. *)

Module Path.

Definition is_slash (c : ascii) : bool := Nat.eqb (nat_of_ascii c) 47.

Definition is_dot (c : ascii) : bool := Nat.eqb (nat_of_ascii c) 46.

(** [Path(p).name]: what follows the last slash. *)
Fixpoint name (p : string) : string :=
  match p with
  | EmptyString => EmptyString
  | String c p' =>
      if Py.str_in "/" p' then name p'
      else if is_slash c then p' else p
  end.

(** The suffix of a file name [n]: with [i = n.rfind('.')], it is [n[i:]]
    when [0 < i < len(n) - 1] and empty otherwise. *)
Fixpoint suffix_of (first : bool) (n : string) : string :=
  match n with
  | EmptyString => EmptyString
  | String c n' =>
      if Py.str_in "." n' then suffix_of false n'
      else if is_dot c && negb first && Py.truthy n' then n
      else EmptyString
  end.

(** [Path(p).suffix] *)
Definition suffix (p : string) : string := suffix_of true (name p).

(** [Path(p).stem] *)
Definition stem (p : string) : string :=
  let n := name p in
  String.substring 0 (String.length n - String.length (suffix p)) n.

(** [str(Path(p).parent)] *)
Definition parent (p : string) : string :=
  if Py.str_in "/" p then
    match String.substring 0 (String.length p - String.length (name p) - 1) p with
    | EmptyString => "/"
    | d => d
    end
  else ".".

(** [str(Path(folder) / n)] *)
Definition joinpath (folder n : string) : string :=
  if String.eqb folder "." then n
  else if String.eqb folder "/" then "/" +:+ n
  else folder +:+ "/" +:+ n.

End Path.

(** A file system maps a path to what is there: a regular file, whose text
    [read_text] can decode ([Some]) or cannot ([None]: unreadable, not UTF-8),
    or a directory. *)
Inductive node : Type :=
| File (content : option string)
| Dir.

Abbreviation FileSystem := (gmap string node).

Definition is_dir (fs : FileSystem) (p : string) : bool :=
  match fs !! p with Some Dir => true | _ => false end.

Definition is_file (fs : FileSystem) (p : string) : bool :=
  match fs !! p with Some (File _) => true | _ => false end.

Definition exists_ (fs : FileSystem) (p : string) : bool :=
  match fs !! p with Some _ => true | None => false end.

(** [folder.iterdir()], as the paths of the entries of [folder], in the order
    the map lists them (the operating system promises none). *)
Definition iterdir (fs : FileSystem) (folder : string) : list string :=
  filter (fun p => Path.parent p = folder) (map fst (map_to_list fs)).

(** [Path(p).read_text(encoding="utf-8")]: [None] stands for the exception. *)
Definition read_text (fs : FileSystem) (p : string) : option string :=
  match fs !! p with
  | Some (File (Some text)) => Some text
  | _ => None
  end.

(** The order [sorted] uses on strings. *)
Definition str_le (a b : string) : Prop := String.leb a b = true.

#[global] Instance str_le_dec : RelDecision str_le.
Proof. intros a b. unfold str_le. apply _. Defined.

(** [sorted(files)] *)
Definition sorted (files : list string) : list string := merge_sort str_le files.

(** ** Source pools *)

Record ImageSource : Type := mkImageSource {
  img_path : string;
  img_is_folder : bool;
  img_files : list string
}.

Definition image_extensions : list string :=
  [".jpg"; ".jpeg"; ".png"; ".webp"; ".gif"].

Definition has_extension (exts : list string) (f : string) : bool :=
  bool_decide (Py.lower (Path.suffix f) ∈ exts).

(** ImageSource._scan_folder *)
Definition image_scan_folder (fs : FileSystem) (folder : string) : list string :=
  sorted (filter (fun f => is_file fs f && has_extension image_extensions f)
                 (iterdir fs folder)).

(** ImageSource.__post_init__, run on [ImageSource(path)]. *)
Definition ImageSource_init (fs : FileSystem) (path : string) : ImageSource :=
  if is_dir fs path then
    mkImageSource path true (image_scan_folder fs path)
  else if is_file fs path then
    mkImageSource path false [path]
  else
    mkImageSource path false [].

(** The [_contents_cache] dict of a PromptSource is mutable: it lives in the
    world (below), the record holds the fields __post_init__ fixes. *)
Record PromptSource : Type := mkPromptSource {
  ps_path : string;
  ps_is_folder : bool;
  ps_files : list string
}.

(** PromptSource._scan_folder *)
Definition prompt_scan_folder (fs : FileSystem) (folder : string) : list string :=
  sorted (filter (fun f => is_file fs f && String.eqb (Py.lower (Path.suffix f)) ".txt")
                 (iterdir fs folder)).

(** PromptSource.__post_init__, run on [PromptSource(path)]. *)
Definition PromptSource_init (fs : FileSystem) (path : string) : PromptSource :=
  if negb (Py.truthy path) then mkPromptSource path false []
  else if is_dir fs path then
    mkPromptSource path true (prompt_scan_folder fs path)
  else if is_file fs path && String.eqb (Py.lower (Path.suffix path)) ".txt" then
    mkPromptSource path false [path]
  else
    mkPromptSource path false [].


(** ** What the engine takes from libraries

    [hashlib.md5(...).hexdigest()] and [json.dumps] are functions of the
    Python library; the development is parametric in them. *)

Unset Elimination Schemes.

Inductive json : Type :=
| JNull
| JBool (b : bool)
| JNum (z : Z)
| JStr (s : string)
| JList (l : list json)
| JDict (d : list (string * json)).

Set Elimination Schemes.

(** A Python [Dict] with string keys, in insertion order. *)
Definition Dict : Type := list (string * json).

(** [bool(d)] for an [Optional[Dict]]. *)
Definition truthy_dict (o : option Dict) : bool :=
  match o with Some (_ :: _) => true | _ => false end.

Class Runtime : Type := {
  md5_hexdigest : string -> string;
  json_dumps : Dict -> string
}.

(** ** The SQLite store (database.py)

    A table is the list of its rows in insertion order; a TIMESTAMP is an
    integer; a nullable TEXT column is an [option string].  Each operation
    that writes CURRENT_TIMESTAMP takes the time [now] of its statement. *)

Record batch_job : Type := mkJob {
  job_id : Z;
  job_name : string;
  job_status : string;
  total_count : Z;
  completed_count : Z;
  failed_count : Z;
  job_prompt_template : string;
  job_settings : string;
  job_created_at : Z;
  job_updated_at : Z
}.

Record generation_task : Type := mkTask {
  id : Z;
  batch_job_id : Z;
  api_request_id : option string;
  status : string;
  face_image_path : string;
  outfit_image_path : string;
  background_image_path : string;
  prompt : string;
  result_url : option string;
  local_path : option string;
  error_message : option string;
  api_response : option string;
  created_at : Z;
  updated_at : Z
}.

Record used_combination : Type := mkUsed {
  uc_id : Z;
  uc_batch_job_id : Z;
  combination_hash : string;
  face_image : string;
  outfit_image : string;
  background_image : string;
  uc_created_at : Z
}.

(** The three tables and, for each, the largest row id ever given
    (AUTOINCREMENT keeps it in sqlite_sequence). *)
Record Database : Type := mkDb {
  batch_jobs : list batch_job;
  generation_tasks : list generation_task;
  used_combinations : list used_combination;
  seq_batch_jobs : Z;
  seq_generation_tasks : Z;
  seq_used_combinations : Z
}.

Definition empty_db : Database := mkDb [] [] [] 0 0 0.

Definition with_batch_jobs (db : Database) (rows : list batch_job) : Database :=
  mkDb rows (generation_tasks db) (used_combinations db)
       (seq_batch_jobs db) (seq_generation_tasks db) (seq_used_combinations db).

Definition with_generation_tasks (db : Database) (rows : list generation_task) : Database :=
  mkDb (batch_jobs db) rows (used_combinations db)
       (seq_batch_jobs db) (seq_generation_tasks db) (seq_used_combinations db).

(** *** Batch job operations *)

Definition create_batch_job (db : Database) (now : Z) (name : string) (total : Z)
    (template settings : string) : Database * Z :=
  let rowid := seq_batch_jobs db + 1 in
  (mkDb (batch_jobs db ++ [mkJob rowid name "pending" total 0 0 template settings now now])
        (generation_tasks db) (used_combinations db)
        rowid (seq_generation_tasks db) (seq_used_combinations db),
   rowid).

(** UPDATE batch_jobs SET status = ?, updated_at = CURRENT_TIMESTAMP WHERE id = ? *)
Definition update_batch_job_status (db : Database) (now : Z) (job : Z) (st : string)
    : Database :=
  with_batch_jobs db
    (map (fun j => if Z.eqb (job_id j) job
                   then mkJob (job_id j) (job_name j) st (total_count j)
                          (completed_count j) (failed_count j)
                          (job_prompt_template j) (job_settings j)
                          (job_created_at j) now
                   else j)
         (batch_jobs db)).

(** UPDATE batch_jobs SET {field} = {field} + 1, updated_at = CURRENT_TIMESTAMP
    WHERE id = ?, with field = completed_count or failed_count. *)
Definition increment_batch_job_count (db : Database) (now : Z) (job : Z)
    (completed : bool) : Database :=
  with_batch_jobs db
    (map (fun j => if Z.eqb (job_id j) job
                   then if completed
                        then mkJob (job_id j) (job_name j) (job_status j) (total_count j)
                               (completed_count j + 1) (failed_count j)
                               (job_prompt_template j) (job_settings j)
                               (job_created_at j) now
                        else mkJob (job_id j) (job_name j) (job_status j) (total_count j)
                               (completed_count j) (failed_count j + 1)
                               (job_prompt_template j) (job_settings j)
                               (job_created_at j) now
                   else j)
         (batch_jobs db)).

(** SELECT * FROM batch_jobs WHERE id = ?, fetchone. *)
Definition get_batch_job (db : Database) (job : Z) : option batch_job :=
  find (fun j => Z.eqb (job_id j) job) (batch_jobs db).

(** *** Generation task operations *)

Definition create_generation_task (db : Database) (now : Z) (job : Z)
    (face_path outfit_path background_path prompt_text : string) : Database * Z :=
  let rowid := seq_generation_tasks db + 1 in
  (mkDb (batch_jobs db)
        (generation_tasks db ++
           [mkTask rowid job None "pending" face_path outfit_path background_path
                   prompt_text None None None None now now])
        (used_combinations db)
        (seq_batch_jobs db) rowid (seq_used_combinations db),
   rowid).

(** One "column = ?" of the SET clause update_task_status builds, with its
    parameter. *)
Inductive assignment : Type :=
| Set_status (v : string)
| Set_updated_at_current_timestamp
| Set_api_request_id (v : string)
| Set_result_url (v : string)
| Set_local_path (v : string)
| Set_error_message (v : string)
| Set_api_response (v : string).

Definition assign (now : Z) (r : generation_task) (a : assignment) : generation_task :=
  match a with
  | Set_status v =>
      mkTask (id r) (batch_job_id r) (api_request_id r) v
             (face_image_path r) (outfit_image_path r) (background_image_path r) (prompt r)
             (result_url r) (local_path r) (error_message r) (api_response r)
             (created_at r) (updated_at r)
  | Set_updated_at_current_timestamp =>
      mkTask (id r) (batch_job_id r) (api_request_id r) (status r)
             (face_image_path r) (outfit_image_path r) (background_image_path r) (prompt r)
             (result_url r) (local_path r) (error_message r) (api_response r)
             (created_at r) now
  | Set_api_request_id v =>
      mkTask (id r) (batch_job_id r) (Some v) (status r)
             (face_image_path r) (outfit_image_path r) (background_image_path r) (prompt r)
             (result_url r) (local_path r) (error_message r) (api_response r)
             (created_at r) (updated_at r)
  | Set_result_url v =>
      mkTask (id r) (batch_job_id r) (api_request_id r) (status r)
             (face_image_path r) (outfit_image_path r) (background_image_path r) (prompt r)
             (Some v) (local_path r) (error_message r) (api_response r)
             (created_at r) (updated_at r)
  | Set_local_path v =>
      mkTask (id r) (batch_job_id r) (api_request_id r) (status r)
             (face_image_path r) (outfit_image_path r) (background_image_path r) (prompt r)
             (result_url r) (Some v) (error_message r) (api_response r)
             (created_at r) (updated_at r)
  | Set_error_message v =>
      mkTask (id r) (batch_job_id r) (api_request_id r) (status r)
             (face_image_path r) (outfit_image_path r) (background_image_path r) (prompt r)
             (result_url r) (local_path r) (Some v) (api_response r)
             (created_at r) (updated_at r)
  | Set_api_response v =>
      mkTask (id r) (batch_job_id r) (api_request_id r) (status r)
             (face_image_path r) (outfit_image_path r) (background_image_path r) (prompt r)
             (result_url r) (local_path r) (error_message r) (Some v)
             (created_at r) (updated_at r)
  end.

(** UPDATE generation_tasks SET <updates> WHERE id = ? *)
Definition sql_update_generation_tasks (now : Z) (updates : list assignment)
    (task_id : Z) (rows : list generation_task) : list generation_task :=
  map (fun r => if Z.eqb (id r) task_id then fold_left (assign now) updates r else r) rows.

(** [if v: updates.append(...)] for an optional string argument. *)
Definition append_if_truthy (v : option string) (col : string -> assignment)
    (updates : list assignment) : list assignment :=
  match v with
  | Some s => if Py.truthy s then updates ++ [col s] else updates
  | None => updates
  end.

Definition update_task_status `{Runtime} (db : Database) (now : Z) (task_id : Z)
    (st : string) (api_request_id_ result_url_ local_path_ error_message_ : option string)
    (api_response_ : option Dict) : Database :=
  let updates := [Set_status st; Set_updated_at_current_timestamp] in
  let updates := append_if_truthy api_request_id_ Set_api_request_id updates in
  let updates := append_if_truthy result_url_ Set_result_url updates in
  let updates := append_if_truthy local_path_ Set_local_path updates in
  let updates := append_if_truthy error_message_ Set_error_message updates in
  let updates :=
    match api_response_ with
    | Some d => if truthy_dict (Some d) then updates ++ [Set_api_response (json_dumps d)]
                else updates
    | None => updates
    end in
  with_generation_tasks db
    (sql_update_generation_tasks now updates task_id (generation_tasks db)).

(** ORDER BY id *)
Definition id_le (a b : generation_task) : Prop := id a <= id b.

#[global] Instance id_le_dec : RelDecision id_le.
Proof. intros a b. unfold id_le. apply _. Defined.

(** SELECT * FROM generation_tasks WHERE batch_job_id = ? AND status = 'pending'
    ORDER BY id *)
Definition get_pending_tasks (db : Database) (job : Z) : list generation_task :=
  merge_sort id_le
    (filter (fun t => batch_job_id t = job /\ status t = "pending") (generation_tasks db)).

(** SELECT * FROM generation_tasks WHERE id = ?, fetchone. *)
Definition get_task (db : Database) (task_id : Z) : option generation_task :=
  find (fun t => Z.eqb (id t) task_id) (generation_tasks db).

(** *** The dedup ledger *)

Definition ledger_row_is (job : Z) (h : string) (r : used_combination) : bool :=
  Z.eqb (uc_batch_job_id r) job && String.eqb (combination_hash r) h.

(** SELECT 1 FROM used_combinations WHERE batch_job_id = ? AND
    combination_hash = ?, then [fetchone() is not None]. *)
Definition is_combination_used (db : Database) (job : Z) (h : string) : bool :=
  existsb (ledger_row_is job h) (used_combinations db).

(** INSERT INTO used_combinations ...: [None] is sqlite3.IntegrityError,
    raised when the row would break UNIQUE(batch_job_id, combination_hash);
    the statement then changes nothing. *)
Definition insert_used_combination (db : Database) (now : Z) (job : Z) (h : string)
    (face outfit background : string) : option Database :=
  if existsb (ledger_row_is job h) (used_combinations db) then None
  else
    let rowid := seq_used_combinations db + 1 in
    Some (mkDb (batch_jobs db) (generation_tasks db)
               (used_combinations db ++ [mkUsed rowid job h face outfit background now])
               (seq_batch_jobs db) (seq_generation_tasks db) rowid).

(** mark_combination_used: the insert, with IntegrityError swallowed. *)
Definition mark_combination_used (db : Database) (now : Z) (job : Z) (h : string)
    (face outfit background : string) : Database :=
  match insert_used_combination db now job h face outfit background with
  | Some db' => db'
  | None => db
  end.

(** The ledger rows of one (job, hash) pair. *)
Definition ledger_rows (db : Database) (job : Z) (h : string) : list used_combination :=
  List.filter (ledger_row_is job h) (used_combinations db).

(** SELECT COUNT( * ) FROM used_combinations WHERE batch_job_id = ? *)
Definition get_used_combination_count (db : Database) (job : Z) : nat :=
  length (List.filter (fun r => Z.eqb (uc_batch_job_id r) job) (used_combinations db)).

(** ** The world of a batch run

    What the engine does not decide itself comes from an [Environment]: the
    draws of [random.choice], the two control flags another thread sets, the
    answers of the remote service, the clock, and whether a file operation
    fails.  Each is a function of a logical time, the number of observations
    made so far ([tick]). *)

Inductive TaskStatus : Type := PENDING | PROCESSING | COMPLETED | FAILED | UNKNOWN.

Record GenerationResult : Type := mkResult {
  success : bool;
  task_id : option string;
  result_status : TaskStatus;
  image_url : option string;
  image_urls : option (list string);
  error : option string;
  raw_response : option Dict
}.

(** The arguments run_batch passes to [generate_and_wait] (the timeout and the
    poll interval, two floats, are left out). *)
Record ApiCall : Type := mkCall {
  call_prompt : string;
  call_reference_images : option (list string);
  call_model : string;
  call_resolution : string;
  call_aspect_ratio : string
}.

Inductive ApiOutcome : Type :=
| ApiReturns (r : GenerationResult)
| ApiRaises (e : string).

Class Environment : Type := {
  random_index : nat -> nat;
  stop_flag_is_set : nat -> bool;
  pause_flag_is_set : nat -> bool;
  generate_and_wait : nat -> ApiCall -> ApiOutcome;
  current_timestamp : nat -> Z;
  strftime_now : nat -> string;
  io_fails : nat -> bool
}.

(** The calls a run makes, in order: a ghost record beside the state, used to
    state what was and was not done.  The event of a remote call carries the
    task row it was made for and the answer it got. *)
Inductive event : Type :=
| Ev_stop_check (observed : bool)
| Ev_pause_check (observed : bool)
| Ev_sleep
| Ev_notify (st : option string) (task : option Z) (msg : option string)
| Ev_generate_and_wait (task : generation_task) (call : ApiCall) (answer : ApiOutcome)
| Ev_update_task_status (task : Z) (st : string)
| Ev_increment_batch_job_count (job : Z) (completed : bool)
| Ev_update_batch_job_status (job : Z) (st : string)
| Ev_is_combination_used (job : Z) (h : string)
| Ev_mark_combination_used (job : Z) (h : string)
| Ev_create_generation_task (task : Z) (face outfit background prompt_file : string)
| Ev_read_text (path : string)
| Ev_move_error_image (image_path folder : string)
| Ev_shutil_move (src dst : string).

Record World : Type := mkWorld {
  w_db : Database;
  w_fs : FileSystem;
  w_contents_cache : gmap string string;
  w_current_job_id : option Z;
  w_tick : nat;
  w_log : list event
}.

(** A call returns, raises, or never comes back ([Hangs]: the pause loop ran
    out of the polls it was given, the pause flag being still set). *)
Inductive outcome (A : Type) : Type :=
| Returns (a : A) (w : World)
| Raises (e : string) (w : World)
| Hangs.

Arguments Returns {A} a w.

Arguments Raises {A} e w.

Arguments Hangs {A}.

Definition M (A : Type) : Type := World -> outcome A.

#[global] Instance M_ret : MRet M := fun A a w => Returns a w.

#[global] Instance M_bind : MBind M := fun A B k m w =>
  match m w with
  | Returns a w' => k a w'
  | Raises e w' => Raises e w'
  | Hangs => Hangs
  end.

Definition raise {A} (e : string) : M A := fun w => Raises e w.

Definition hang {A} : M A := fun _ => Hangs.

(** [try: body except Exception: handler] *)
Definition try_except {A} (body : M A) (handler : string -> M A) : M A := fun w =>
  match body w with
  | Raises e w' => handler e w'
  | r => r
  end.

(** [try: body finally: cleanup] *)
Definition try_finally {A} (body : M A) (cleanup : M unit) : M A := fun w =>
  match body w with
  | Returns a w' => (cleanup ≫= fun _ => mret a) w'
  | Raises e w' => (cleanup ≫= fun _ => raise e) w'
  | Hangs => Hangs
  end.

Definition emit (e : event) : M unit := fun w =>
  Returns tt (mkWorld (w_db w) (w_fs w) (w_contents_cache w) (w_current_job_id w)
                      (w_tick w) (w_log w ++ [e])).

(** Read the environment at the present time and let the time pass. *)
Definition observe {A} (f : nat -> A) : M A := fun w =>
  Returns (f (w_tick w))
          (mkWorld (w_db w) (w_fs w) (w_contents_cache w) (w_current_job_id w)
                   (S (w_tick w)) (w_log w)).

Definition get_db : M Database := fun w => Returns (w_db w) w.

Definition put_db (d : Database) : M unit := fun w =>
  Returns tt (mkWorld d (w_fs w) (w_contents_cache w) (w_current_job_id w)
                      (w_tick w) (w_log w)).

Definition get_fs : M FileSystem := fun w => Returns (w_fs w) w.

Definition put_fs (f : FileSystem) : M unit := fun w =>
  Returns tt (mkWorld (w_db w) f (w_contents_cache w) (w_current_job_id w)
                      (w_tick w) (w_log w)).

Definition get_cache : M (gmap string string) := fun w => Returns (w_contents_cache w) w.

Definition put_cache (c : gmap string string) : M unit := fun w =>
  Returns tt (mkWorld (w_db w) (w_fs w) c (w_current_job_id w) (w_tick w) (w_log w)).

Definition set_current_job_id (j : option Z) : M unit := fun w =>
  Returns tt (mkWorld (w_db w) (w_fs w) (w_contents_cache w) j (w_tick w) (w_log w)).

Definition when (b : bool) (m : M unit) : M unit := if b then m else mret tt.

(** ** The batch processor (batch_processor.py) *)

Record BatchConfig : Type := mkConfig {
  cfg_name : string;
  cfg_total_count : Z;
  cfg_prompt_template : string;
  face_source : option ImageSource;
  outfit_source : option ImageSource;
  background_source : option ImageSource;
  prompt_source : option PromptSource;
  cfg_model : string;
  cfg_resolution : string;
  cfg_aspect_ratio : string;
  allow_duplicate_combinations : bool;
  error_folder : string
}.

(** The dict run_batch returns; [moved_images] is a key it adds on the first
    move. *)
Record Results : Type := mkResults {
  total : nat;
  completed : nat;
  failed : nat;
  stopped : bool;
  moved_images : option nat
}.

(** (face_path, outfit_path, background_path, prompt_file_path, prompt_content) *)
Definition combination : Type := string * string * string * string * string.

(** [mkdir(parents=True, exist_ok=True)] on the tree: [None] when a file is in
    the way. *)
Fixpoint mkdir_parents (fuel : nat) (fs : FileSystem) (p : string) : option FileSystem :=
  match fs !! p with
  | Some Dir => Some fs
  | Some (File _) => None
  | None =>
      if String.eqb p "." || String.eqb p "/" then Some fs
      else
        match fuel with
        | O => None
        | S fuel' =>
            match mkdir_parents fuel' fs (Path.parent p) with
            | Some fs' => Some (<[p := Dir]> fs')
            | None => None
            end
        end
  end.

(** Rename [src] (and, for a directory, what is under it) to [dst]. *)
Definition rename_entries (src dst : string) (fs : FileSystem) : FileSystem :=
  list_to_map
    (map (fun e : string * node =>
            (if String.eqb (fst e) src then dst
             else if String.prefix (src +:+ "/") (fst e)
                  then dst +:+ String.substring (String.length src)
                                 (String.length (fst e) - String.length src) (fst e)
                  else fst e,
             snd e))
         (map_to_list (delete dst fs))).

Section Engine.

Context `{Runtime} `{Environment}.

(** *** Calls to the store *)

Definition db_update_batch_job_status (job : Z) (st : string) : M unit :=
  emit (Ev_update_batch_job_status job st);;
  now ← observe current_timestamp;
  d ← get_db;
  put_db (update_batch_job_status d now job st).

Definition db_increment_batch_job_count (job : Z) (completed_ : bool) : M unit :=
  emit (Ev_increment_batch_job_count job completed_);;
  now ← observe current_timestamp;
  d ← get_db;
  put_db (increment_batch_job_count d now job completed_).

Definition db_update_task_status (task : Z) (st : string)
    (api_request_id_ result_url_ local_path_ error_message_ : option string)
    (api_response_ : option Dict) : M unit :=
  emit (Ev_update_task_status task st);;
  now ← observe current_timestamp;
  d ← get_db;
  put_db (update_task_status d now task st api_request_id_ result_url_ local_path_
                             error_message_ api_response_).

Definition db_get_pending_tasks (job : Z) : M (list generation_task) :=
  d ← get_db; mret (get_pending_tasks d job).

Definition db_is_combination_used (job : Z) (h : string) : M bool :=
  emit (Ev_is_combination_used job h);;
  d ← get_db; mret (is_combination_used d job h).

Definition db_mark_combination_used (job : Z) (h : string)
    (face outfit background : string) : M unit :=
  emit (Ev_mark_combination_used job h);;
  now ← observe current_timestamp;
  d ← get_db;
  put_db (mark_combination_used d now job h face outfit background).

(** The event of a creation carries, beside the row's id, the combination the
    row was made from: create_generation_task itself is not given the prompt
    file. *)
Definition db_create_generation_task (job : Z) (c : combination) (prompt_text : string)
    : M Z :=
  let '(face, outfit, background, prompt_file, _) := c in
  now ← observe current_timestamp;
  d ← get_db;
  let '(d', rowid) := create_generation_task d now job face outfit background prompt_text in
  put_db d';;
  emit (Ev_create_generation_task rowid face outfit background prompt_file);;
  mret rowid.

(** *** Calls to the file system *)

Definition path_exists (p : string) : M bool :=
  fs ← get_fs; mret (exists_ fs p).

Definition mkdir (p : string) : M unit :=
  fails ← observe io_fails;
  if fails : bool then raise "OSError"
  else
    fs ← get_fs;
    match mkdir_parents (S (String.length p)) fs p with
    | Some fs' => put_fs fs'
    | None => raise "FileExistsError"
    end.

(** [shutil.move(src, dst)]: into [dst] when it is a directory, onto [dst]
    otherwise. *)
Definition shutil_move (src dst : string) : M unit :=
  fails ← observe io_fails;
  if fails : bool then raise "OSError"
  else
    fs ← get_fs;
    match fs !! src with
    | None => raise "FileNotFoundError"
    | Some n =>
        let real_dst := if is_dir fs dst then Path.joinpath dst (Path.name src) else dst in
        if is_dir fs dst && exists_ fs real_dst then raise "shutil.Error"
        else
          match n, fs !! real_dst with
          | Dir, Some _ => raise "OSError"
          | _, _ =>
              put_fs (rename_entries src real_dst fs);;
              emit (Ev_shutil_move src real_dst)
          end
    end.

(** *** Source pools: draws and prompt contents *)

(** [random.choice(xs)] *)
Definition choice (xs : list string) : M string :=
  r ← observe random_index;
  match xs !! (r mod length xs)%nat with
  | Some x => mret x
  | None => raise "IndexError"
  end.

(** The list [get_random] draws from: the files, less the excluded ones when
    an exclusion set is given and not empty. *)
Definition available (files : list string) (exclude : option (gset string)) : list string :=
  match exclude with
  | Some ex => if bool_decide (ex = ∅) then files
               else filter (fun f => f ∉ ex) files
  | None => files
  end.

(** ImageSource.get_random *)
Definition ImageSource_get_random (self : ImageSource) (exclude : option (gset string))
    : M (option string) :=
  match img_files self with
  | [] => mret None
  | _ =>
      match available (img_files self) exclude with
      | [] => mret None
      | av => x ← choice av; mret (Some x)
      end
  end.

(** PromptSource._read_file *)
Definition _read_file (file_path : string) : M string :=
  cache ← get_cache;
  match cache !! file_path with
  | Some content => mret content
  | None =>
      try_except
        (emit (Ev_read_text file_path);;
         fs ← get_fs;
         match read_text fs file_path with
         | Some text =>
             let content := Py.strip text in
             put_cache (<[file_path := content]> cache);;
             mret content
         | None => raise "OSError"
         end)
        (fun _ => mret "")
  end.

(** PromptSource.get_content *)
Definition get_content (file_path : string) : M string := _read_file file_path.

(** PromptSource.get_random *)
Definition PromptSource_get_random (self : PromptSource) (exclude : option (gset string))
    : M (option (string * string)) :=
  match ps_files self with
  | [] => mret None
  | _ =>
      match available (ps_files self) exclude with
      | [] => mret None
      | av =>
          selected ← choice av;
          content ← _read_file selected;
          mret (Some (selected, content))
      end
  end.

(** *** Selection *)

Definition _generate_combination_hash (face outfit background prompt_file : string)
    : string :=
  md5_hexdigest (face +:+ "|" +:+ outfit +:+ "|" +:+ background +:+ "|" +:+ prompt_file).

(** [source and source.files], as a condition. *)
Definition has_files (source : option ImageSource) : bool :=
  match source with
  | Some s => match img_files s with [] => false | _ => true end
  | None => false
  end.

Definition has_prompt_files (source : option PromptSource) : bool :=
  match source with
  | Some s => match ps_files s with [] => false | _ => true end
  | None => false
  end.

(** [source.get_random() or ""] under [if source and source.files]. *)
Definition draw_image (source : option ImageSource) : M string :=
  match source with
  | Some s =>
      if has_files source
      then r ← ImageSource_get_random s None; mret (Py.or_default r "")
      else mret ""
  | None => mret ""
  end.

(** The prompt of one attempt: (prompt_file, prompt_content). *)
Definition draw_prompt (config : BatchConfig) (used_prompts : option (gset string))
    : M (string * string) :=
  match prompt_source config with
  | Some ps =>
      if has_prompt_files (prompt_source config) then
        result ← PromptSource_get_random ps used_prompts;
        match result with
        | Some r => mret r
        | None =>
            result ← PromptSource_get_random ps None;
            match result with
            | Some r => mret r
            | None => mret ("", "")
            end
        end
      else mret ("", cfg_prompt_template config)
  | None => mret ("", cfg_prompt_template config)
  end.

(** The body of [for _ in range(max_attempts)]; [attempts] is the number of
    iterations left, and the value after the loop is the fallback. *)
Fixpoint select_attempts (attempts : nat) (config : BatchConfig) (batch_job_id_ : Z)
    (used_prompts : option (gset string)) : M combination :=
  match attempts with
  | O => mret ("", "", "", "", cfg_prompt_template config)
  | S attempts' =>
      face ← draw_image (face_source config);
      outfit ← draw_image (outfit_source config);
      background ← draw_image (background_source config);
      '(prompt_file, prompt_content) ← draw_prompt config used_prompts;
      if negb (allow_duplicate_combinations config) then
        let combo_hash := _generate_combination_hash face outfit background prompt_file in
        used ← db_is_combination_used batch_job_id_ combo_hash;
        if used : bool then select_attempts attempts' config batch_job_id_ used_prompts
        else
          db_mark_combination_used batch_job_id_ combo_hash face outfit background;;
          mret (face, outfit, background, prompt_file, prompt_content)
      else mret (face, outfit, background, prompt_file, prompt_content)
  end.

Definition max_attempts : nat := 100.

Definition _select_combination (config : BatchConfig) (batch_job_id_ : Z)
    (used_prompts : option (gset string)) : M combination :=
  select_attempts max_attempts config batch_job_id_ used_prompts.

(** *** Task preparation *)

Definition stem_or_empty (p : string) : string :=
  if Py.truthy p then Path.stem p else "".

Definition _build_prompt (template face outfit background : string) : string :=
  let prompt_ := template in
  let prompt_ := Py.replace "{face}" (stem_or_empty face) prompt_ in
  let prompt_ := Py.replace "{outfit}" (stem_or_empty outfit) prompt_ in
  let prompt_ := Py.replace "{background}" (stem_or_empty background) prompt_ in
  prompt_.

(** The body of [for i in range(config.total_count)], [remaining] iterations
    from now. *)
Fixpoint prepare_loop (remaining : nat) (job : Z) (config : BatchConfig)
    (used_prompts : gset string) (created_count : nat) : M nat :=
  match remaining with
  | O => mret created_count
  | S remaining' =>
      c ← _select_combination config job (Some used_prompts);
      let '(face, outfit, background, prompt_file, prompt_content) := c in
      let used_prompts :=
        if Py.truthy prompt_file then {[prompt_file]} ∪ used_prompts else used_prompts in
      let prompt_ := _build_prompt prompt_content face outfit background in
      if negb (Py.truthy prompt_) then
        emit (Ev_notify None None None);;
        prepare_loop remaining' job config used_prompts created_count
      else
        db_create_generation_task job c prompt_;;
        prepare_loop remaining' job config used_prompts (S created_count)
  end.

Definition prepare_tasks (job : Z) (config : BatchConfig) : M nat :=
  prepare_loop (Z.to_nat (cfg_total_count config)) job config ∅ 0%nat.

(** *** Moving a flagged image *)

Definition _move_error_image (image_path error_folder_ : string) : M bool :=
  emit (Ev_move_error_image image_path error_folder_);;
  if negb (Py.truthy image_path) || negb (Py.truthy error_folder_) then mret false
  else
    try_except
      (src_exists ← path_exists image_path;
       if negb src_exists then mret false
       else
         mkdir error_folder_;;
         let dest_path := Path.joinpath error_folder_ (Path.name image_path) in
         dest_exists ← path_exists dest_path;
         dest_path ←
           (if dest_exists : bool then
              timestamp ← observe strftime_now;
              mret (Path.joinpath error_folder_
                      (Path.stem image_path +:+ "_" +:+ timestamp +:+ Path.suffix image_path))
            else mret dest_path);
         shutil_move image_path dest_path;;
         mret true)
      (fun _ => mret false).

(** *** The run *)

Definition is_set_stop : M bool :=
  b ← observe stop_flag_is_set; emit (Ev_stop_check b);; mret b.

Definition is_set_pause : M bool :=
  b ← observe pause_flag_is_set; emit (Ev_pause_check b);; mret b.

(** [while self._pause_flag.is_set(): ...]; the value is results["stopped"]
    after the loop.  [polls] bounds the number of iterations. *)
Fixpoint pause_loop (polls : nat) : M bool :=
  paused ← is_set_pause;
  if paused : bool then
    emit Ev_sleep;;
    stop ← is_set_stop;
    if stop : bool then mret true
    else
      match polls with
      | O => hang
      | S polls' => pause_loop polls'
      end
  else mret false.

Definition reference_images_of (task : generation_task) : list string :=
  (if Py.truthy (face_image_path task) then [face_image_path task] else []) ++
  (if Py.truthy (outfit_image_path task) then [outfit_image_path task] else []) ++
  (if Py.truthy (background_image_path task) then [background_image_path task] else []).

Definition api_generate_and_wait (task : generation_task) (call : ApiCall)
    : M GenerationResult :=
  r ← observe (fun t => generate_and_wait t call);
  emit (Ev_generate_and_wait task call r);;
  match r with
  | ApiReturns g => mret g
  | ApiRaises e => raise e
  end.

Definition is_completed (s : TaskStatus) : bool :=
  match s with COMPLETED => true | _ => false end.

Definition set_stopped (r : Results) : Results :=
  mkResults (total r) (completed r) (failed r) true (moved_images r).

Definition add_completed (r : Results) : Results :=
  mkResults (total r) (S (completed r)) (failed r) (stopped r) (moved_images r).

Definition add_failed (r : Results) : Results :=
  mkResults (total r) (completed r) (S (failed r)) (stopped r) (moved_images r).

(** [results["moved_images"] = results.get("moved_images", 0) + 1] *)
Definition add_moved (r : Results) : Results :=
  mkResults (total r) (completed r) (failed r) (stopped r)
            (Some (S (default 0%nat (moved_images r)))).

(** The success branch of the loop body. *)
Definition on_success (job : Z) (task : generation_task) (result : GenerationResult)
    (results : Results) : M Results :=
  let image_url_ :=
    if negb (Py.truthy_opt (image_url result))
    then match image_urls result with
         | Some (u :: _) => Some u
         | _ => image_url result
         end
    else image_url result in
  db_update_task_status (id task) "completed" (task_id result) image_url_ None None
                        (raw_response result);;
  db_increment_batch_job_count job true;;
  emit (Ev_notify (Some "completed") (Some (id task)) None);;
  mret (add_completed results).

(** The failure branch of the loop body. *)
Definition on_failure (job : Z) (config : BatchConfig) (task : generation_task)
    (result : GenerationResult) (results : Results) : M Results :=
  let error_msg := Py.or_default (error result) "Unknown error" in
  db_update_task_status (id task) "failed" (task_id result) None None (Some error_msg)
                        (raw_response result);;
  db_increment_batch_job_count job false;;
  let results := add_failed results in
  results ←
    (if Py.truthy (error_folder config) && Py.truthy (outfit_image_path task) then
       if _is_content_policy_error error_msg then
         moved ← _move_error_image (outfit_image_path task) (error_folder config);
         if moved : bool then mret (add_moved results) else mret results
       else mret results
     else mret results);
  emit (Ev_notify (Some "failed") (Some (id task)) (Some error_msg));;
  mret results.

(** The loop body from the "processing" transition on. *)
Definition process_task (job : Z) (config : BatchConfig) (task : generation_task)
    (results : Results) : M Results :=
  emit (Ev_notify (Some "processing") (Some (id task)) None);;
  db_update_task_status (id task) "processing" None None None None None;;
  let reference_images := reference_images_of task in
  result ← api_generate_and_wait task
             (mkCall (prompt task)
                     (match reference_images with [] => None | _ => Some reference_images end)
                     (cfg_model config) (cfg_resolution config) (cfg_aspect_ratio config));
  if success result && is_completed (result_status result)
  then on_success job task result results
  else on_failure job config task result results.

(** [for i, task in enumerate(tasks)], from index [i] on; [n] is len(tasks). *)
Fixpoint run_loop (polls : nat) (job : Z) (config : BatchConfig) (n i : nat)
    (tasks : list generation_task) (results : Results) : M Results :=
  match tasks with
  | [] => mret results
  | task :: rest =>
      stop ← is_set_stop;
      if stop : bool then mret (set_stopped results)
      else
        stop ← pause_loop polls;
        if stop : bool then mret (set_stopped results)
        else
          results ← process_task job config task results;
          when (i <? n - 1)%nat (emit Ev_sleep);;
          run_loop polls job config n (S i) rest results
  end.

(** run_batch.  [self._stop_flag.clear()] opens the history of the stop flag
    the environment gives; a progress notification is logged with its status,
    task id and error message (the message text and the percentage, a float,
    are left out), and the listener is taken not to raise; [time.sleep] is
    logged and takes no logical time. *)
Definition run_batch (polls : nat) (job : Z) (config : BatchConfig) : M Results :=
  set_current_job_id (Some job);;
  db_update_batch_job_status job "running";;
  let results := mkResults 0 0 0 false None in
  try_finally
    (try_except
       (tasks ← db_get_pending_tasks job;
        let results := mkResults (length tasks) 0 0 false None in
        results ← run_loop polls job config (length tasks) 0 tasks results;
        let final_status := if stopped results then "stopped" else "completed" in
        db_update_batch_job_status job final_status;;
        emit (Ev_notify (Some final_status) None None);;
        mret results)
       (fun e =>
          db_update_batch_job_status job "error";;
          emit (Ev_notify (Some "error") None (Some e));;
          raise e))
    (set_current_job_id None).

End Engine.

(** ** A runtime to run the embedding on

    MD5 (RFC 1321) on the bytes of a string, and a serialiser in the layout of
    [json.dumps] (strings are written without escapes).  The theorems of
    Part III hold for every [Runtime]; this one serves the examples. *)

Module MD5.

Definition wrap (z : Z) : Z := Z.land z 4294967295.

Definition rotl (x c : Z) : Z :=
  wrap (Z.lor (Z.shiftl x c) (Z.shiftr x (32 - c))).

Definition K : list Z :=
  [ 3614090360; 3905402710; 606105819; 3250441966; 4118548399; 1200080426; 2821735955; 4249261313;
    1770035416; 2336552879; 4294925233; 2304563134; 1804603682; 4254626195; 2792965006; 1236535329;
    4129170786; 3225465664; 643717713; 3921069994; 3593408605; 38016083; 3634488961; 3889429448;
    568446438; 3275163606; 4107603335; 1163531501; 2850285829; 4243563512; 1735328473; 2368359562;
    4294588738; 2272392833; 1839030562; 4259657740; 2763975236; 1272893353; 4139469664; 3200236656;
    681279174; 3936430074; 3572445317; 76029189; 3654602809; 3873151461; 530742520; 3299628645;
    4096336452; 1126891415; 2878612391; 4237533241; 1700485571; 2399980690; 4293915773; 2240044497;
    1873313359; 4264355552; 2734768916; 1309151649; 4149444226; 3174756917; 718787259; 3951481745 ].

Definition shifts : list Z :=
  [ 7; 12; 17; 22; 7; 12; 17; 22; 7; 12; 17; 22; 7; 12; 17; 22;
    5; 9; 14; 20; 5; 9; 14; 20; 5; 9; 14; 20; 5; 9; 14; 20;
    4; 11; 16; 23; 4; 11; 16; 23; 4; 11; 16; 23; 4; 11; 16; 23;
    6; 10; 15; 21; 6; 10; 15; 21; 6; 10; 15; 21; 6; 10; 15; 21 ].

Definition state : Type := Z * Z * Z * Z.

Definition round (block : list Z) (st : state) (i : nat) : state :=
  let '(a, b, c, d) := st in
  let nb := Z.lxor b 4294967295 in
  let nd := Z.lxor d 4294967295 in
  let '(f, g) :=
    if (i <? 16)%nat then (Z.lor (Z.land b c) (Z.land nb d), i)
    else if (i <? 32)%nat then (Z.lor (Z.land d b) (Z.land nd c), (5 * i + 1) mod 16)%nat
    else if (i <? 48)%nat then (Z.lxor (Z.lxor b c) d, (3 * i + 5) mod 16)%nat
    else (Z.lxor c (Z.lor b nd), (7 * i) mod 16)%nat in
  let f := wrap (f + a + nth i K 0 + nth g block 0) in
  (d, wrap (b + rotl f (nth i shifts 0)), b, c).

Definition compress (st : state) (block : list Z) : state :=
  let '(a0, b0, c0, d0) := st in
  let '(a, b, c, d) := fold_left (round block) (seq 0 64) st in
  (wrap (a0 + a), wrap (b0 + b), wrap (c0 + c), wrap (d0 + d)).

(** Little-endian words of a byte list whose length is a multiple of 4. *)
Fixpoint words (bytes : list Z) : list Z :=
  match bytes with
  | b0 :: b1 :: b2 :: b3 :: rest =>
      (b0 + 256 * b1 + 65536 * b2 + 16777216 * b3) :: words rest
  | _ => []
  end.

Fixpoint blocks (fuel : nat) (ws : list Z) : list (list Z) :=
  match fuel, ws with
  | S fuel', _ :: _ => take 16 ws :: blocks fuel' (drop 16 ws)
  | _, _ => []
  end.

Definition le_bytes (n : nat) (z : Z) : list Z :=
  map (fun k => Z.land (Z.shiftr z (8 * Z.of_nat k)) 255) (seq 0 n).

Definition pad (bytes : list Z) : list Z :=
  let len := length bytes in
  let zeros := ((119 - len mod 64) mod 64)%nat in
  bytes ++ [128] ++ replicate zeros 0 ++ le_bytes 8 (8 * Z.of_nat len).

Definition hex_digit (z : Z) : ascii :=
  if z <? 10 then ascii_of_nat (48 + Z.to_nat z) else ascii_of_nat (87 + Z.to_nat z).

Definition hex_byte (z : Z) : string :=
  String (hex_digit (Z.shiftr z 4)) (String (hex_digit (Z.land z 15)) EmptyString).

Definition digest (bytes : list Z) : state :=
  let ws := words (pad bytes) in
  fold_left compress (blocks (length ws) ws)
            (1732584193, 4023233417, 2562383102, 271733878).

Definition hexdigest (s : string) : string :=
  let '(a, b, c, d) :=
    digest (map (fun ch => Z.of_nat (nat_of_ascii ch)) (String.list_ascii_of_string s)) in
  String.concat "" (map hex_byte (le_bytes 4 a ++ le_bytes 4 b ++ le_bytes 4 c ++ le_bytes 4 d)).

End MD5.

Definition quote : string := String (ascii_of_nat 34) EmptyString.

Definition decimal (z : Z) : string :=
  let digits := fix go (fuel : nat) (n : N) (acc : string) : string :=
    match fuel with
    | O => acc
    | S fuel' =>
        let acc' := String (ascii_of_nat (48 + N.to_nat (n mod 10))) acc in
        if (n / 10 =? 0)%N then acc' else go fuel' (n / 10)%N acc'
    end in
  (if z <? 0 then "-" else "") +:+ digits (S (N.to_nat (N.log2 (Z.abs_N z)))) (Z.abs_N z) "".

Fixpoint dumps_value (j : json) : string :=
  match j with
  | JNull => "null"
  | JBool b => if b then "true" else "false"
  | JNum z => decimal z
  | JStr s => quote +:+ s +:+ quote
  | JList l => "[" +:+ String.concat ", " (map dumps_value l) +:+ "]"
  | JDict d =>
      "{" +:+ String.concat ", "
                (map (fun kv => let '(k, v) := kv in
                                quote +:+ k +:+ quote +:+ ": " +:+ dumps_value v) d) +:+ "}"
  end.

Definition python_runtime : Runtime :=
  {| md5_hexdigest := MD5.hexdigest;
     json_dumps := fun d => dumps_value (JDict d) |}.

(** ** The other queries of the store (database.py) *)

(** SELECT * FROM generation_tasks WHERE batch_job_id = ? ORDER BY id *)
Definition get_tasks_by_batch (db : Database) (job : Z) : list generation_task :=
  merge_sort id_le (filter (fun t => batch_job_id t = job) (generation_tasks db)).

(** ... WHERE batch_job_id = ? AND status = 'completed' AND result_url IS NOT
    NULL ORDER BY id *)
Definition get_tasks_with_results (db : Database) (job : Z) : list generation_task :=
  merge_sort id_le
    (filter (fun t => batch_job_id t = job /\ status t = "completed" /\ result_url t <> None)
            (generation_tasks db)).

(** ... WHERE batch_job_id = ? AND status = 'completed' AND result_url IS NOT
    NULL AND local_path IS NULL ORDER BY id *)
Definition get_downloadable_tasks (db : Database) (job : Z) : list generation_task :=
  merge_sort id_le
    (filter (fun t => batch_job_id t = job /\ status t = "completed" /\
                      result_url t <> None /\ local_path t = None)
            (generation_tasks db)).

(** ... WHERE batch_job_id = ? AND status IN ('processing', 'pending') AND
    api_request_id IS NOT NULL ORDER BY id *)
Definition get_processing_tasks (db : Database) (job : Z) : list generation_task :=
  merge_sort id_le
    (filter (fun t => batch_job_id t = job /\ status t ∈ ["processing"; "pending"] /\
                      api_request_id t <> None)
            (generation_tasks db)).

(** ... WHERE batch_job_id = ? AND status NOT IN ('completed', 'failed')
    ORDER BY id *)
Definition get_incomplete_tasks (db : Database) (job : Z) : list generation_task :=
  merge_sort id_le
    (filter (fun t => batch_job_id t = job /\ status t ∉ ["completed"; "failed"])
            (generation_tasks db)).

(** The row get_batch_statistics returns: COUNT( * ) and four SUMs, each NULL
    ([None]) when the job has no task row. *)
Record statistics : Type := mkStatistics {
  stat_total : nat;
  stat_completed : option nat;
  stat_failed : option nat;
  stat_pending : option nat;
  stat_processing : option nat
}.

(** SUM(CASE WHEN status = st THEN 1 ELSE 0 END) over [rows] *)
Definition sum_case (st : string) (rows : list generation_task) : option nat :=
  match rows with
  | [] => None
  | _ => Some (foldr (fun t n => ((if String.eqb (status t) st then 1 else 0) + n)%nat)
                     0%nat rows)
  end.

Definition get_batch_statistics (db : Database) (job : Z) : statistics :=
  let rows := filter (fun t => batch_job_id t = job) (generation_tasks db) in
  mkStatistics (length rows) (sum_case "completed" rows) (sum_case "failed" rows)
               (sum_case "pending" rows) (sum_case "processing" rows).

(** ** The size of the combination space (batch_processor.py) *)

(** BatchProcessor.get_max_combinations *)
Definition get_max_combinations (config : BatchConfig) : nat :=
  let face_count :=
    match face_source config with Some s => length (img_files s) | None => 1%nat end in
  let outfit_count :=
    match outfit_source config with Some s => length (img_files s) | None => 1%nat end in
  let bg_count :=
    match background_source config with Some s => length (img_files s) | None => 1%nat end in
  let prompt_count :=
    match prompt_source config with Some s => length (ps_files s) | None => 1%nat end in
  (face_count * outfit_count * bg_count * prompt_count)%nat.

(** ** The client of the remote service (api_client.py)

    [create_task] and [query_task] talk to the service over HTTP and are not
    embedded: a [Service] gives the result of create_task, the result of the
    n-th query_task, and whether the n-th reading of the clock finds the
    timeout exceeded.  The progress callback and [time.sleep] do not bear on
    the result and are left out. *)

Module KieAPI.

Definition mime_types : gmap string string :=
  list_to_map
    [(".jpg", "image/jpeg"); (".jpeg", "image/jpeg"); (".png", "image/png");
     (".webp", "image/webp"); (".gif", "image/gif")].

Definition _get_mime_type (image_path : string) : string :=
  default "image/png" (mime_types !! Py.lower (Path.suffix image_path)).

Class Service : Type := {
  create_task : ApiCall -> GenerationResult;
  query_task : nat -> option string -> GenerationResult;
  timeout_exceeded : nat -> bool
}.

Section Client.

Context `{Service}.

(** The [while True] loop, given [polls] rounds; [n] counts the rounds made.
    [timeout] is the text [str] gives for the timeout.  [None]: the rounds
    ran out with the task still in progress. *)
Fixpoint wait_for_completion (polls n : nat) (task_id_ : option string) (timeout : string)
    : option GenerationResult :=
  match polls with
  | O => None
  | S polls' =>
      if timeout_exceeded n then
        Some (mkResult false task_id_ UNKNOWN None None
                       (Some ("Timeout after " +:+ timeout +:+ "s")) None)
      else
        let result := query_task n task_id_ in
        match result_status result with
        | COMPLETED => Some result
        | FAILED =>
            let error_msg := Py.or_default (error result) "Task failed" in
            Some (mkResult false task_id_ FAILED None None (Some error_msg)
                           (raw_response result))
        | _ => wait_for_completion polls' (S n) task_id_ timeout
        end
  end.

Definition generate_and_wait (polls : nat) (call : ApiCall) (timeout : string)
    : option GenerationResult :=
  let create_result := create_task call in
  if negb (success create_result) then Some create_result
  else wait_for_completion polls 0 (task_id create_result) timeout.

End Client.

End KieAPI.

(** ** The downloader (downloader.py) *)

Fixpoint zeros (n : nat) : string :=
  match n with
  | O => EmptyString
  | S n' => String "0" (zeros n')
  end.

(** [f"{n:04d}"]: the decimal digits, filled with zeros after the sign to a
    width of four. *)
Definition format_04d (n : Z) : string :=
  match n with
  | Zneg p => "-" +:+ zeros (3 - String.length (pretty (Zpos p))) +:+ pretty (Zpos p)
  | _ => zeros (4 - String.length (pretty n)) +:+ pretty n
  end.

(** What a GET of a result meets: [requests.get] or [raise_for_status]
    raises, or a body arrives, of which [content] gets written, to the end
    ([complete]) or until reading it raises. *)
Inductive response : Type :=
| Refused (e : string)
| Body (content : option string) (complete : bool).

(** The network at a logical time, and the order in which the pool's workers
    finish: [as_completed] yields the futures by the rank the environment
    gives their tasks. *)
Class Network : Type := {
  http_get : nat -> string -> response;
  completion_rank : nat -> Z -> nat
}.

(** The dict download_batch_results returns; the early return has no "paths"
    key. *)
Record download_results : Type := mkDownloads {
  dl_downloaded : nat;
  dl_failed : nat;
  dl_skipped : nat;
  dl_paths : option (list string)
}.

(** The status and the path of the tuple download_task returns: "success"
    comes with the path, "failed" and "skipped" with None. *)
Inductive download_status : Type :=
| Success (path : string)
| Failed
| Skipped.

Definition rank_le (rank : Z -> nat) (a b : generation_task) : Prop :=
  (rank (id a) <= rank (id b))%nat.

#[global] Instance rank_le_dec (rank : Z -> nat) : RelDecision (rank_le rank).
Proof. intros a b. unfold rank_le. apply _. Defined.

Definition as_completed (rank : Z -> nat) (futures : list generation_task)
    : list generation_task :=
  merge_sort (rank_le rank) futures.

Record download_stats : Type := mkStats {
  ds_total : nat;
  ds_completed : nat;
  ds_with_url : nat;
  ds_downloaded : nat;
  ds_pending_download : Z
}.

(** BatchDownloader.get_download_stats *)
Definition get_download_stats (db : Database) (job : Z) : download_stats :=
  let tasks := get_tasks_by_batch db job in
  let stats :=
    fold_left
      (fun stats task =>
         let stats :=
           if String.eqb (status task) "completed"
           then mkStats (ds_total stats) (S (ds_completed stats)) (ds_with_url stats)
                        (ds_downloaded stats) (ds_pending_download stats)
           else stats in
         let stats :=
           if Py.truthy_opt (result_url task)
           then mkStats (ds_total stats) (ds_completed stats) (S (ds_with_url stats))
                        (ds_downloaded stats) (ds_pending_download stats)
           else stats in
         if Py.truthy_opt (local_path task)
         then mkStats (ds_total stats) (ds_completed stats) (ds_with_url stats)
                      (S (ds_downloaded stats)) (ds_pending_download stats)
         else stats)
      tasks (mkStats (length tasks) 0 0 0 0) in
  mkStats (ds_total stats) (ds_completed stats) (ds_with_url stats) (ds_downloaded stats)
          (Z.of_nat (ds_with_url stats) - Z.of_nat (ds_downloaded stats)).

Section Downloader.

Context `{Runtime} `{Environment} `{Network}.

(** BatchDownloader._notify_progress (the progress, a float, is left out). *)
Definition download_notify_progress (message : string) : M unit :=
  emit (Ev_notify None None (Some message)).

(** BatchDownloader.download_single: whatever is raised is caught and gives
    False; what was written before stays. *)
Definition download_single (url save_path : string) : M bool :=
  try_except
    (r ← observe (fun t => http_get t url);
     match r with
     | Refused e => raise e
     | Body content complete =>
         mkdir (Path.parent save_path);;
         fails ← observe io_fails;
         if fails : bool then raise "OSError"
         else
           fs ← get_fs;
           if is_dir fs save_path then raise "IsADirectoryError"
           else
             put_fs (<[save_path := File content]> fs);;
             if complete : bool then mret true else raise "ChunkedEncodingError"
     end)
    (fun _ => mret false).

(** The closure download_task of download_batch_results. *)
Definition download_task (job_dir : string) (task : generation_task)
    : M (Z * download_status) :=
  let task_id := id task in
  match result_url task with
  | Some url =>
      if negb (Py.truthy url) then mret (task_id, Skipped)
      else
        let ext :=
          if Py.str_in "jpg" (Py.lower url) || Py.str_in "jpeg" (Py.lower url)
          then ".jpg" else ".png" in
        let filename := "task_" +:+ format_04d task_id +:+ ext in
        let save_path := Path.joinpath job_dir filename in
        ok ← download_single url save_path;
        if ok : bool then mret (task_id, Success save_path) else mret (task_id, Failed)
  | None => mret (task_id, Skipped)
  end.

(** The loop over [as_completed]: the i-th future to finish is that of
    [task].  The workers write files only, each its own, and the store is
    written by this loop alone, so a download is run here when its result is
    taken. *)
Fixpoint collect_results (job_dir : string) (total i : nat)
    (futures : list generation_task) (results : download_results) : M download_results :=
  match futures with
  | [] => mret results
  | task :: futures' =>
      '(task_id, st) ← download_task job_dir task;
      results ←
        match st with
        | Success path =>
            db_update_task_status task_id "completed" None None (Some path) None None;;
            mret (mkDownloads (S (dl_downloaded results)) (dl_failed results)
                              (dl_skipped results)
                              ((fun ps => ps ++ [path]) <$> dl_paths results))
        | Failed =>
            mret (mkDownloads (dl_downloaded results) (S (dl_failed results))
                              (dl_skipped results) (dl_paths results))
        | Skipped =>
            mret (mkDownloads (dl_downloaded results) (dl_failed results)
                              (S (dl_skipped results)) (dl_paths results))
        end;
      download_notify_progress
        ("Downloaded " +:+ pretty (S i) +:+ "/" +:+ pretty total);;
      collect_results job_dir total (S i) futures' results
  end.

(** BatchDownloader.download_batch_results, for a downloader on
    [output_dir]. *)
Definition download_batch_results (output_dir : string) (job : Z) : M download_results :=
  d ← get_db;
  let tasks := get_downloadable_tasks d job in
  match tasks with
  | [] => mret (mkDownloads 0 0 0 None)
  | _ =>
      let job_name_ :=
        match get_batch_job d job with
        | Some j => job_name j
        | None => "job_" +:+ pretty job
        end in
      timestamp ← observe strftime_now;
      let job_dir := Path.joinpath output_dir (job_name_ +:+ "_" +:+ timestamp) in
      mkdir job_dir;;
      rank ← observe completion_rank;
      collect_results job_dir (length tasks) 0 (as_completed rank tasks)
                      (mkDownloads 0 0 0 (Some []))
  end.

End Downloader.

(* ===================================================================== *)
(** * Part II. The vocabulary of the specification                         *)
(* ===================================================================== *)

(** Predicates on stores, worlds and logs in which the properties are
    stated, the program logic used to prove them, and the worlds and
    environments the examples run in. *)

(** ** The store *)

(** UNIQUE(batch_job_id, combination_hash), the constraint SQLite keeps on
    the ledger table. *)
Definition ledger_unique (db : Database) : Prop :=
  forall job h, (length (ledger_rows db job h) <= 1)%nat.

(** What update_task_status leaves in a column it may write: the argument
    when it is truthy, the stored value otherwise. *)
Definition written (arg stored : option string) : option string :=
  if Py.truthy_opt arg then arg else stored.

(** The columns update_task_status never writes. *)
Definition same_fixed_columns (r r' : generation_task) : Prop :=
  id r' = id r /\ batch_job_id r' = batch_job_id r /\
  face_image_path r' = face_image_path r /\
  outfit_image_path r' = outfit_image_path r /\
  background_image_path r' = background_image_path r /\
  prompt r' = prompt r /\ created_at r' = created_at r.

(** From [db] to [db'] the counters of [job], if it has a row, advanced by
    [dc] completions and [df] failures. *)
Definition counts_advance (job : Z) (dc df : Z) (db db' : Database) : Prop :=
  forall j, get_batch_job db job = Some j ->
    exists j', get_batch_job db' job = Some j' /\
               completed_count j' = completed_count j + dc /\
               failed_count j' = failed_count j + df.

Definition terminal (st : string) : Prop := st = "completed" \/ st = "failed".

(** From [db] to [db'] the tasks [touched] reached a terminal status and
    every other task row is as it was. *)
Definition tasks_settle (touched : list Z) (db db' : Database) : Prop :=
  (forall i, i ∉ touched -> get_task db' i = get_task db i) /\
  (forall i, i ∈ touched -> forall t, get_task db i = Some t ->
     exists t', get_task db' i = Some t' /\ terminal (status t')).

(** ** Source pools and the prompt cache *)

#[global] Instance str_le_total : Total str_le.
Proof. intros a b. unfold str_le. apply String.leb_total. Qed.

Definition with_fs (w : World) (fs : FileSystem) : World :=
  mkWorld (w_db w) fs (w_contents_cache w) (w_current_job_id w) (w_tick w) (w_log w).

Definition with_cache_and_event (w : World) (cache : gmap string string) (e : event)
    : World :=
  mkWorld (w_db w) (w_fs w) cache (w_current_job_id w) (w_tick w) (w_log w ++ [e]).

(** The number of disk reads of [p] a log records. *)
Definition reads_of (p : string) (log : list event) : nat :=
  length (List.filter (fun e => match e with
                                | Ev_read_text q => String.eqb q p
                                | _ => false
                                end) log).

(** A series of content requests on one prompt pool; before each, the disk is
    what the rest of the machine made of it. *)
Fixpoint serve (requests : list (FileSystem * string)) : M (list string) :=
  match requests with
  | [] => mret []
  | (disk, p) :: rest =>
      put_fs disk;;
      content ← get_content p;
      contents ← serve rest;
      mret (content :: contents)
  end.

(** ** A program logic for [M]

    [run_spec m w Q E H] reads the outcome of [m] in [w]: [Q] on a return,
    [E] on an exception, [H] when the call never comes back. *)

Definition run_spec {A} (m : M A) (w : World)
    (Q : A -> World -> Prop) (E : string -> World -> Prop) (H : Prop) : Prop :=
  match m w with
  | Returns a w' => Q a w'
  | Raises e w' => E e w'
  | Hangs => H
  end.

(** Total correctness: the call returns, and [Q] holds then. *)
Definition returns {A} (m : M A) (w : World) (Q : A -> World -> Prop) : Prop :=
  run_spec m w Q (fun _ _ => False) False.

(** Partial correctness: [Q] holds if the call returns. *)
Definition wp {A} (m : M A) (w : World) (Q : A -> World -> Prop) : Prop :=
  run_spec m w Q (fun _ _ => True) True.

(** What a step adds to the log. *)
Definition log_grows (P : event -> Prop) (w w' : World) : Prop :=
  exists evs, w_log w' = w_log w ++ evs /\ Forall P evs.

(** ** Selection and preparation *)

Definition is_read_text (e : event) : Prop :=
  match e with Ev_read_text _ => True | _ => False end.

(** A draw leaves the store alone and logs at most disk reads. *)
Definition quiet (w w' : World) : Prop :=
  w_db w' = w_db w /\ log_grows is_read_text w w'.

Definition is_ledger_call (e : event) : bool :=
  match e with
  | Ev_is_combination_used _ _ | Ev_mark_combination_used _ _ => true
  | _ => false
  end.

(** The calls to is_combination_used and mark_combination_used in a log. *)
Definition ledger_calls (log : list event) : list event :=
  List.filter is_ledger_call log.

(** The (face, outfit, background, prompt_file) tuple of a combination. *)
Definition tuple : Type := string * string * string * string.

Definition tuple_of (c : combination) : tuple :=
  let '(face, outfit, background, prompt_file, _) := c in
  (face, outfit, background, prompt_file).

Definition empty_tuple : tuple := ("", "", "", "").

(** The three image paths, as a task row and as a tuple have them. *)
Definition images_of_task (t : generation_task) : string * string * string :=
  (face_image_path t, outfit_image_path t, background_image_path t).

Definition images_of_tuple (c : tuple) : string * string * string :=
  let '(face, outfit, background, _) := c in (face, outfit, background).

(** The tuples of the tasks a log records as created, in creation order. *)
Fixpoint creations (log : list event) : list tuple :=
  match log with
  | [] => []
  | Ev_create_generation_task _ face outfit background prompt_file :: rest =>
      (face, outfit, background, prompt_file) :: creations rest
  | _ :: rest => creations rest
  end.

(** Two tasks with the same tuple both have the all-empty tuple. *)
Definition distinct_or_empty (cs : list tuple) : Prop :=
  forall (i j : nat) c, i <> j -> cs !! i = Some c -> cs !! j = Some c -> c = empty_tuple.

Definition is_selection_event (e : event) : Prop :=
  match e with
  | Ev_read_text _ | Ev_is_combination_used _ _ | Ev_mark_combination_used _ _ => True
  | _ => False
  end.

Section PreparationVocabulary.
Context `{Runtime} `{Environment}.

Definition hash_of (t : tuple) : string :=
  let '(face, outfit, background, prompt_file) := t in
  _generate_combination_hash face outfit background prompt_file.

(** What one selection does when duplicates are disallowed: the ledger only
    grows, nothing is created, and the combination returned is the fallback
    or one whose hash was not in the ledger and now is. *)
Definition selected (job : Z) (w : World) (c : combination) (w' : World) : Prop :=
  log_grows is_selection_event w w' /\
  generation_tasks (w_db w') = generation_tasks (w_db w) /\
  (forall h, is_combination_used (w_db w) job h = true ->
             is_combination_used (w_db w') job h = true) /\
  (tuple_of c = empty_tuple \/
   (is_combination_used (w_db w) job (hash_of (tuple_of c)) = false /\
    is_combination_used (w_db w') job (hash_of (tuple_of c)) = true)).

(** The invariant of the preparation loop over the events [evs] logged since
    it started: created tuples are distinct unless empty, and each non-empty
    one has its hash in the ledger. *)
Definition prepared (job : Z) (evs : list event) (db : Database) : Prop :=
  distinct_or_empty (creations evs) /\
  forall c, c ∈ creations evs -> c <> empty_tuple ->
            is_combination_used db job (hash_of c) = true.

End PreparationVocabulary.

(** ** The run *)

(** [e] is a move of [src] to a place in [folder], or in a directory that
    was in the way there. *)
Definition is_move_into (src folder : string) (e : event) : Prop :=
  match e with
  | Ev_shutil_move s d =>
      s = src /\
      exists x, d = Path.joinpath folder x \/
                d = Path.joinpath (Path.joinpath folder x) (Path.name src)
  | _ => False
  end.

(** A file operation leaves the store alone and logs at most such moves. *)
Definition fs_step (src folder : string) (w w' : World) : Prop :=
  w_db w' = w_db w /\ log_grows (is_move_into src folder) w w'.

(** [m] returns or raises, and is an [fs_step] either way. *)
Definition fs_only (src folder : string) {A} (m : M A) : Prop :=
  forall w, run_spec m w (fun _ w' => fs_step src folder w w')
                         (fun _ w' => fs_step src folder w w') False.

(** The run counts a task as completed. *)
Definition task_ok (r : GenerationResult) : bool :=
  success r && is_completed (result_status r).

Definition error_text (r : GenerationResult) : string :=
  Py.or_default (error r) "Unknown error".

(** The three conditions under which a failed task has its outfit image
    moved. *)
Definition move_due (config : BatchConfig) (task : generation_task) (r : GenerationResult)
    : bool :=
  Py.truthy (error_folder config) && Py.truthy (outfit_image_path task) &&
  _is_content_policy_error (error_text r).

(** What the run logs for a task once the remote call has answered [r];
    [moved] is what the move logged after its call. *)
Definition outcome_events (job : Z) (config : BatchConfig) (task : generation_task)
    (r : GenerationResult) (moved : list event) : list event :=
  if task_ok r then
    [ Ev_update_task_status (id task) "completed";
      Ev_increment_batch_job_count job true;
      Ev_notify (Some "completed") (Some (id task)) None ]
  else
    [ Ev_update_task_status (id task) "failed";
      Ev_increment_batch_job_count job false ] ++
    (if move_due config task r
     then Ev_move_error_image (outfit_image_path task) (error_folder config) :: moved
     else []) ++
    [ Ev_notify (Some "failed") (Some (id task)) (Some (error_text r)) ].

Definition task_events (job : Z) (config : BatchConfig) (task : generation_task)
    (call : ApiCall) (r : GenerationResult) (moved : list event) : list event :=
  [ Ev_notify (Some "processing") (Some (id task)) None;
    Ev_update_task_status (id task) "processing";
    Ev_generate_and_wait task call (ApiReturns r) ] ++
  outcome_events job config task r moved.

(** What holds when process_task returns. *)
Definition processed (job : Z) (config : BatchConfig) (task : generation_task)
    (results : Results) (w : World) (results' : Results) (w' : World) : Prop :=
  exists call r moved,
    w_log w' = w_log w ++ task_events job config task call r moved /\
    Forall (is_move_into (outfit_image_path task) (error_folder config)) moved /\
    total results' = total results /\ stopped results' = stopped results /\
    completed results' = (completed results + if task_ok r then 1 else 0)%nat /\
    failed results' = (failed results + if task_ok r then 0 else 1)%nat /\
    counts_advance job (if task_ok r then 1 else 0) (if task_ok r then 0 else 1)
                   (w_db w) (w_db w') /\
    tasks_settle [id task] (w_db w) (w_db w').

(** The tasks the remote service was called for, in order. *)
Definition dispatched (log : list event) : list generation_task :=
  flat_map (fun e => match e with Ev_generate_and_wait t _ _ => [t] | _ => [] end) log.

(** The ids of the tasks written as "processing", in order. *)
Definition processing_transitions (log : list event) : list Z :=
  flat_map (fun e => match e with
                     | Ev_update_task_status i st =>
                         if String.eqb st "processing" then [i] else []
                     | _ => []
                     end) log.

(** The number of calls increment_batch_job_count(job, completed). *)
Definition increments (job : Z) (completed_ : bool) (log : list event) : nat :=
  length (flat_map (fun e => match e with
                             | Ev_increment_batch_job_count j b =>
                                 if Z.eqb j job && Bool.eqb b completed_ then [tt] else []
                             | _ => []
                             end) log).

(** The calls _move_error_image(image_path, folder), in order. *)
Definition move_calls (log : list event) : list (string * string) :=
  flat_map (fun e => match e with Ev_move_error_image p f => [(p, f)] | _ => [] end) log.

(** The move calls the answers of the remote service call for: one for each
    task that failed with the three conditions met. *)
Definition expected_move_calls (config : BatchConfig) (log : list event)
    : list (string * string) :=
  flat_map (fun e => match e with
                     | Ev_generate_and_wait t _ (ApiReturns r) =>
                         if negb (task_ok r) && move_due config t r
                         then [(outfit_image_path t, error_folder config)] else []
                     | _ => []
                     end) log.

(** Every file moved was moved into the error folder by one of the move
    calls. *)
Definition moves_justified (config : BatchConfig) (log : list event) : Prop :=
  forall s d, In (Ev_shutil_move s d) log ->
    In (s, error_folder config) (move_calls log) /\
    is_move_into s (error_folder config) (Ev_shutil_move s d).

Definition no_stop_seen (evs : list event) : Prop :=
  Forall (fun e => e <> Ev_stop_check true) evs.

Definition is_control (e : event) : Prop :=
  match e with
  | Ev_stop_check _ | Ev_pause_check _ | Ev_sleep => True
  | _ => False
  end.

(** The events [evs] are those of a stretch of the loop in which exactly the
    tasks [ts] were dispatched. *)
Definition run_segment (job : Z) (config : BatchConfig) (ts : list generation_task)
    (evs : list event) : Prop :=
  dispatched evs = ts /\
  processing_transitions evs = map id ts /\
  (increments job true evs + increments job false evs = length ts)%nat /\
  move_calls evs = expected_move_calls config evs /\
  moves_justified config evs.

(** What holds when the pause loop is left, with [stop] the value of
    results["stopped"]: only flags were read, and a stop was observed, as the
    last thing, exactly when [stop] is set. *)
Definition waited (w : World) (stop : bool) (w' : World) : Prop :=
  w_db w' = w_db w /\
  exists evs, w_log w' = w_log w ++ evs /\ Forall is_control evs /\
    if stop then exists pre, evs = pre ++ [Ev_stop_check true] /\ no_stop_seen pre
    else no_stop_seen evs.

(** What holds when the loop over [tasks] is left, with [k] the number of
    tasks dispatched. *)
Definition looped (job : Z) (config : BatchConfig) (tasks : list generation_task)
    (results : Results) (w : World) (results' : Results) (w' : World) : Prop :=
  exists evs (k : nat),
    w_log w' = w_log w ++ evs /\
    (k <= length tasks)%nat /\
    run_segment job config (take k tasks) evs /\
    total results' = total results /\
    completed results' = (completed results + increments job true evs)%nat /\
    failed results' = (failed results + increments job false evs)%nat /\
    counts_advance job (Z.of_nat (increments job true evs))
                   (Z.of_nat (increments job false evs)) (w_db w) (w_db w') /\
    tasks_settle (map id (take k tasks)) (w_db w) (w_db w') /\
    ((stopped results' = stopped results /\ k = length tasks /\ no_stop_seen evs) \/
     (stopped results' = true /\ (k < length tasks)%nat /\
      exists pre, evs = pre ++ [Ev_stop_check true] /\ no_stop_seen pre)).

Definition final_status (results : Results) : string :=
  if stopped results then "stopped" else "completed".

(** What holds when run_batch returns: the log of the run is the "running"
    write, the events [evs] of the loop, the final status write and the
    summary; [k] tasks of the pending ones were dispatched. *)
Definition ran (job : Z) (config : BatchConfig) (w : World) (results : Results)
    (w' : World) : Prop :=
  let tasks := get_pending_tasks (w_db w) job in
  exists evs (k : nat),
    w_log w' = w_log w ++
               [Ev_update_batch_job_status job "running"] ++ evs ++
               [Ev_update_batch_job_status job (final_status results);
                Ev_notify (Some (final_status results)) None None] /\
    (k <= length tasks)%nat /\
    run_segment job config (take k tasks) evs /\
    total results = length tasks /\
    completed results = increments job true evs /\
    failed results = increments job false evs /\
    counts_advance job (Z.of_nat (completed results)) (Z.of_nat (failed results))
                   (w_db w) (w_db w') /\
    (forall j, get_batch_job (w_db w) job = Some j ->
       exists j', get_batch_job (w_db w') job = Some j' /\
                  job_status j' = final_status results) /\
    tasks_settle (map id (take k tasks)) (w_db w) (w_db w') /\
    ((stopped results = false /\ k = length tasks /\ no_stop_seen evs) \/
     (stopped results = true /\ (k < length tasks)%nat /\
      exists pre, evs = pre ++ [Ev_stop_check true] /\ no_stop_seen pre)).

(** ** Worlds to run the embedding in

    A small tree, stores, and environments with scripted answers. *)

(** A small tree to run the pools on. *)
Definition demo_fs : FileSystem :=
  list_to_map
    [ ("in", Dir); ("in/faces", Dir);
      ("in/faces/b.PNG", File (Some "png"));
      ("in/faces/a.jpg", File (Some "jpg"));
      ("in/faces/c.webp", File (Some "webp"));
      ("in/faces/notes.txt", File (Some "a prompt"));
      ("in/faces/sub.png", Dir);
      ("in/faces/sub.png/deep.png", File (Some "png"));
      ("in/scan.pdf", File (Some "pdf"));
      ("in/p.txt", File (Some "  a cat
")) ].

Definition fresh_world (fs : FileSystem) : World := mkWorld empty_db fs ∅ None 0 [].

(** A ledger with two rows of other pairs. *)
Definition demo_ledger : Database :=
  mark_combination_used
    (mark_combination_used empty_db 10 1 "2edf2958166561c5c08cd228e53bbcdc" "" "" "")
    11 2 "2edf2958166561c5c08cd228e53bbcdc" "" "" "".

(** A finished task that is then marked failed: its result URL stays. *)
Definition demo_task_row : generation_task :=
  mkTask 7 1 (Some "req-7") "completed" "f.png" "o.png" "" "a cat"
         (Some "https://cdn/7.png") None None None 100 120.

Definition demo_tasks_db : Database :=
  with_generation_tasks empty_db
    [ mkTask 6 1 None "pending" "f.png" "" "" "a dog" None None None None 100 100;
      demo_task_row ].

(** An environment in which every draw takes the first entry, no flag is
    ever set, and the remote service completes every task. *)
Definition completed_result : GenerationResult :=
  mkResult true (Some "kie-task") COMPLETED (Some "https://cdn/out.png") None None
           (Some [("code", JNum 200)]).

Definition steady_env : Environment :=
  {| random_index := fun _ => 0%nat;
     stop_flag_is_set := fun _ => false;
     pause_flag_is_set := fun _ => false;
     generate_and_wait := fun _ _ => ApiReturns completed_result;
     current_timestamp := fun t => 1700000000 + Z.of_nat t;
     strftime_now := fun _ => "20231114_221320";
     io_fails := fun _ => false |}.

Definition faces_config (count : Z) (allow_duplicates : bool) : BatchConfig :=
  mkConfig "faces" count "portrait of {face}"
           (Some (ImageSource_init demo_fs "in/faces")) None None None
           "google/nano-banana-pro" "2K" "1:1" allow_duplicates "".

(** Job 1 has five pending tasks.  The remote service rejects the first two
    for content, fails the third with an HTTP error and completes the others;
    the outfit image of the second is not on disk; the stop flag is set from
    the logical time [stop_from] on. *)

Definition outfits_fs : FileSystem :=
  <["in/outfits" := Dir]>
  (<["in/outfits/o1.png" := File (Some "png")]>
  (<["in/outfits/o2.png" := File (Some "png")]> demo_fs)).

Definition scripted_db : Database :=
  let d := fst (create_batch_job empty_db 1000 "demo" 5 "a portrait" "{}") in
  let d := fst (create_generation_task d 1001 1 "" "in/outfits/o1.png" "" "a portrait") in
  let d := fst (create_generation_task d 1002 1 "" "in/outfits/gone.png" "" "a portrait") in
  let d := fst (create_generation_task d 1003 1 "" "in/outfits/o2.png" "" "a portrait") in
  let d := fst (create_generation_task d 1004 1 "in/faces/a.jpg" "" "" "a portrait") in
  fst (create_generation_task d 1005 1 "in/faces/b.PNG" "" "" "a portrait").

Definition scripted_world : World := mkWorld scripted_db outfits_fs ∅ None 0 [].

Definition failed_result (e : string) : GenerationResult :=
  mkResult false (Some "kie-task") FAILED None None (Some e) None.

Definition scripted_answer (call : ApiCall) : ApiOutcome :=
  match call_reference_images call with
  | Some ["in/outfits/o1.png"] => ApiReturns (failed_result "NSFW content detected")
  | Some ["in/outfits/gone.png"] =>
      ApiReturns (failed_result "content policy violation: explicit imagery")
  | Some ["in/outfits/o2.png"] => ApiReturns (failed_result "HTTP 503")
  | _ => ApiReturns completed_result
  end.

Definition scripted_env (stop_from : nat) : Environment :=
  {| random_index := fun t => t;
     stop_flag_is_set := fun t => (stop_from <=? t)%nat;
     pause_flag_is_set := fun _ => false;
     generate_and_wait := fun _ call => scripted_answer call;
     current_timestamp := fun t => 1700000000 + Z.of_nat t;
     strftime_now := fun _ => "20231114_221320";
     io_fails := fun _ => false |}.

Definition scripted_config : BatchConfig :=
  mkConfig "demo" 5 "a portrait" None None None None
           "google/nano-banana-pro" "2K" "1:1" false "in/err".

(** ** Keys and counts *)

(** What SQLite keeps of the two tables with an AUTOINCREMENT key: the ids are
    unique and none is above the sequence of its table. *)
Definition keys_ok (db : Database) : Prop :=
  NoDup (map id (generation_tasks db)) /\
  Forall (fun t => id t <= seq_generation_tasks db) (generation_tasks db) /\
  NoDup (map job_id (batch_jobs db)) /\
  Forall (fun j => job_id j <= seq_batch_jobs db) (batch_jobs db).

(** The number of rows of [rows] with status [st]. *)
Definition count_status (st : string) (rows : list generation_task) : nat :=
  length (filter (fun t => status t = st) rows).

(** ** Draws *)

(** What a pool can give to a selection: one of its files, or the empty
    string when it has none. *)
Definition candidates (files : list string) : list string :=
  match files with [] => [""] | _ => files end.

Definition image_candidates (source : option ImageSource) : list string :=
  match source with Some s => candidates (img_files s) | None => [""] end.

Definition prompt_candidates (source : option PromptSource) : list string :=
  match source with Some s => candidates (ps_files s) | None => [""] end.

(** The tuples a round of draws can give. *)
Definition all_tuples (config : BatchConfig) : list tuple :=
  list_prod (list_prod (list_prod (image_candidates (face_source config))
                                  (image_candidates (outfit_source config)))
                       (image_candidates (background_source config)))
            (prompt_candidates (prompt_source config)).

(** The content a prompt pool has for a file: what the cache holds, else the
    stripped text on disk, else (unreadable) the empty string. *)
Definition content_of (cache : gmap string string) (fs : FileSystem) (p : string) : string :=
  match cache !! p with
  | Some content => content
  | None => match read_text fs p with Some text => Py.strip text | None => "" end
  end.

(** [f] is not excluded by [exclude]. *)
Definition allowed (exclude : option (gset string)) (f : string) : Prop :=
  forall ex, exclude = Some ex -> f ∉ ex.

(** A draw or a read leaves the store, the disk and the job at work alone. *)
Definition reads_only (w w' : World) : Prop :=
  w_db w' = w_db w /\ w_fs w' = w_fs w /\ w_current_job_id w' = w_current_job_id w.

(** ** Selections and preparations *)

Definition is_fallback (config : BatchConfig) (c : combination) : Prop :=
  c = ("", "", "", "", cfg_prompt_template config).

(** The prompt content that goes with a prompt file drawn in the world [w]:
    the pool's content for the file, or the template when there is no prompt
    pool to draw from. *)
Definition prompt_content_in (config : BatchConfig) (w : World) (prompt_file : string)
    : string :=
  if has_prompt_files (prompt_source config)
  then content_of (w_contents_cache w) (w_fs w) prompt_file
  else cfg_prompt_template config.

(** The prompt pool answers in [w'] as it did in [w]. *)
Definition same_contents (w w' : World) : Prop :=
  forall p, content_of (w_contents_cache w') (w_fs w') p =
            content_of (w_contents_cache w) (w_fs w) p.

(** Selecting and preparing leave the job table, the disk, the job at work
    and the answers of the prompt pool as they were. *)
Definition preparing (w w' : World) : Prop :=
  w_fs w' = w_fs w /\ w_current_job_id w' = w_current_job_id w /\
  same_contents w w' /\
  batch_jobs (w_db w') = batch_jobs (w_db w) /\
  seq_batch_jobs (w_db w') = seq_batch_jobs (w_db w).

Section SelectionVocabulary.

Context `{Runtime}.

(** The ledger row mark_combination_used writes for the tuple [t]. *)
Definition ledger_row_of (job : Z) (t : tuple) (r : used_combination) : Prop :=
  uc_batch_job_id r = job /\ combination_hash r = hash_of t /\
  (face_image r, outfit_image r, background_image r) = images_of_tuple t.

(** A combination a selection made in [w] can return. *)
Definition selectable (config : BatchConfig) (w : World) (c : combination) : Prop :=
  is_fallback config c \/
  (tuple_of c ∈ all_tuples config /\
   snd c = prompt_content_in config w (snd (tuple_of c))).

(** What one call of _select_combination does, from [w] to [w'] with the
    combination [c] returned: no task row is touched; [c] is the fallback or
    a tuple of the pools with the content of its prompt; the ledger gains no
    row, or (duplicates disallowed) the row of the tuple, which was not
    there. *)
Definition selection (config : BatchConfig) (job : Z) (w : World) (c : combination)
    (w' : World) : Prop :=
  preparing w w' /\
  generation_tasks (w_db w') = generation_tasks (w_db w) /\
  seq_generation_tasks (w_db w') = seq_generation_tasks (w_db w) /\
  selectable config w c /\
  exists ext,
    used_combinations (w_db w') = used_combinations (w_db w) ++ ext /\
    (ext = [] \/
     (allow_duplicate_combinations config = false /\
      tuple_of c ∈ all_tuples config /\
      is_combination_used (w_db w) job (hash_of (tuple_of c)) = false /\
      exists r, ext = [r] /\ ledger_row_of job (tuple_of c) r)).

(** The task row prepare_tasks writes for the combination [c]. *)
Definition row_of_combination (job : Z) (c : combination) (t : generation_task) : Prop :=
  let '(face, outfit, background, _, content) := c in
  batch_job_id t = job /\ status t = "pending" /\
  images_of_task t = (face, outfit, background) /\
  prompt t = _build_prompt content face outfit background /\
  Py.truthy (prompt t) = true /\
  api_request_id t = None /\ result_url t = None /\ local_path t = None /\
  error_message t = None /\ api_response t = None.

Definition prepared_row (config : BatchConfig) (job : Z) (w : World) (t : generation_task)
    : Prop :=
  exists c, selectable config w c /\ row_of_combination job c t.

(** What prepare_tasks does, from [w] to [w'] with [n] returned: [n] pending
    rows of the job are appended to the task table, with the next [n] ids;
    the ledger gains rows of the job with distinct hashes that were not in
    it, each the hash of a tuple of the pools. *)
Definition preparation (config : BatchConfig) (job : Z) (w : World) (n : nat) (w' : World)
    : Prop :=
  preparing w w' /\
  exists rows ext,
    generation_tasks (w_db w') = generation_tasks (w_db w) ++ rows /\
    length rows = n /\
    map id rows = map (fun k => seq_generation_tasks (w_db w) + Z.of_nat k) (seq 1 n) /\
    seq_generation_tasks (w_db w') = seq_generation_tasks (w_db w) + Z.of_nat n /\
    Forall (prepared_row config job w) rows /\
    used_combinations (w_db w') = used_combinations (w_db w) ++ ext /\
    (allow_duplicate_combinations config = true -> ext = []) /\
    Forall (fun r => uc_batch_job_id r = job /\
                     combination_hash r ∈ map hash_of (all_tuples config) /\
                     is_combination_used (w_db w) job (combination_hash r) = false) ext /\
    NoDup (map combination_hash ext).

End SelectionVocabulary.

(** A configuration whose prompt pool is a folder without .txt files. *)
Definition folder_without_prompts : BatchConfig :=
  mkConfig "empty" 4 "" (Some (ImageSource_init outfits_fs "in/faces")) None None
           (Some (PromptSource_init outfits_fs "in/outfits"))
           "google/nano-banana-pro" "2K" "1:1" false "".

(** ** The frame of a run *)

(** A task row after a run: the columns no status write touches are as they
    were, and the whole row is unless its id is one of [ids]. *)
Definition task_kept (ids : list Z) (t t' : generation_task) : Prop :=
  same_fixed_columns t t' /\ (id t ∉ ids -> t' = t).

(** A job row after a run of [job]: only status, counters and updated_at can
    differ, the counters can only have grown, and the rows of the other jobs
    are as they were. *)
Definition job_kept (job : Z) (j j' : batch_job) : Prop :=
  job_id j' = job_id j /\ job_name j' = job_name j /\ total_count j' = total_count j /\
  job_prompt_template j' = job_prompt_template j /\ job_settings j' = job_settings j /\
  job_created_at j' = job_created_at j /\
  completed_count j <= completed_count j' /\ failed_count j <= failed_count j' /\
  (job_id j <> job -> j' = j).

(** The store after a run of [job] over the tasks [ids]: no row was added or
    removed, rows were kept as above, and the ledger and the three sequences
    are as they were. *)
Definition store_kept (ids : list Z) (job : Z) (db db' : Database) : Prop :=
  Forall2 (task_kept ids) (generation_tasks db) (generation_tasks db') /\
  Forall2 (job_kept job) (batch_jobs db) (batch_jobs db') /\
  used_combinations db' = used_combinations db /\
  seq_batch_jobs db' = seq_batch_jobs db /\
  seq_generation_tasks db' = seq_generation_tasks db /\
  seq_used_combinations db' = seq_used_combinations db.

(** A stretch of a run that went through. *)
Definition run_step (ids : list Z) (job : Z) (w w' : World) : Prop :=
  store_kept ids job (w_db w) (w_db w') /\ exists evs, w_log w' = w_log w ++ evs.

(** A stretch of a run over [tasks] that ended in the exception [e]: the last
    thing logged is the remote call that raised it, made for a task of
    [tasks] whose row is then at "processing". *)
Definition raised_in (tasks : list generation_task) (job : Z) (e : string) (w w' : World)
    : Prop :=
  store_kept (map id tasks) job (w_db w) (w_db w') /\
  exists pre t call,
    w_log w' = w_log w ++ pre ++ [Ev_generate_and_wait t call (ApiRaises e)] /\
    t ∈ tasks /\
    Forall (fun t1 => id t1 = id t -> status t1 = "processing") (generation_tasks (w_db w')).

(** [m] never raises, and relates the world it returns to the one it
    started in by [R]. *)
Definition steps (R : World -> World -> Prop) {A} (m : M A) : Prop :=
  forall w, run_spec m w (fun _ w' => R w w') (fun _ _ => False) True.

(** [m] relates the world it ends in to the one it started in by [R] when it
    returns and by [X e] when it raises [e]. *)
Definition tracks (R : World -> World -> Prop) (X : string -> World -> World -> Prop)
    {A} (m : M A) : Prop :=
  forall w, run_spec m w (fun _ w' => R w w') (fun e w' => X e w w') True.

(** A world for a run in which the remote service cannot be reached. *)
Definition unreachable_env : Environment :=
  {| random_index := fun t => t;
     stop_flag_is_set := fun _ => false;
     pause_flag_is_set := fun _ => false;
     generate_and_wait := fun t call =>
       match call_reference_images call with
       | Some ["in/outfits/o2.png"] => ApiRaises "ConnectionError"
       | _ => scripted_answer call
       end;
     current_timestamp := fun t => 1700000000 + Z.of_nat t;
     strftime_now := fun _ => "20231114_221320";
     io_fails := fun _ => false |}.

(** What holds however run_batch ends. *)
Definition run_ended (job : Z) (w w' : World) : Prop :=
  store_kept (map id (get_pending_tasks (w_db w) job)) job (w_db w) (w_db w') /\
  w_current_job_id w' = None.

(** What holds when run_batch raises [e]. *)
Definition run_raised (job : Z) (e : string) (w w' : World) : Prop :=
  run_ended job w w' /\
  Forall (fun j => job_id j = job -> job_status j = "error") (batch_jobs (w_db w')) /\
  exists pre t call,
    w_log w' = w_log w ++ pre ++
               [Ev_generate_and_wait t call (ApiRaises e);
                Ev_update_batch_job_status job "error";
                Ev_notify (Some "error") None (Some e)] /\
    t ∈ get_pending_tasks (w_db w) job /\
    Forall (fun t1 => id t1 = id t -> status t1 = "processing") (generation_tasks (w_db w')).

(** A tree in which the error folder already holds an image named o1.png. *)
Definition crowded_fs : FileSystem :=
  <["in/err" := Dir]> (<["in/err/o1.png" := File (Some "older")]> outfits_fs).

(** A service that creates the task, answers the first two queries with
    "processing" and the third with the finished image; the clock passes the
    timeout at the sixth reading. *)
Definition slow_service : KieAPI.Service :=
  {| KieAPI.create_task := fun _ =>
       mkResult true (Some "kie-task") PENDING None None None None;
     KieAPI.query_task := fun n tid =>
       if (n <? 2)%nat then mkResult true tid PROCESSING None None None None
       else mkResult true tid COMPLETED (Some "https://cdn/out.png") None None None;
     KieAPI.timeout_exceeded := fun n => (5 <=? n)%nat |}.

(** ** Downloads *)

(** The file download_task saves the result of task [task_id] to. *)
Definition task_file (job_dir : string) (task_id : Z) (ext : string) : string :=
  Path.joinpath job_dir ("task_" +:+ format_04d task_id +:+ ext).

(** A download that went through: the task, the path of its file, and the
    time of the write to its row. *)
Definition download : Type := generation_task * string * Z.

Definition mark_downloaded `{Runtime} (d : Database) (x : download) : Database :=
  update_task_status d x.2 (id x.1.1) "completed" None None (Some x.1.2) None None.

Definition keeps_files (fs fs' : FileSystem) : Prop :=
  forall q, is_file fs q = true -> is_file fs' q = true.

(** The row [t] after its result was saved to [p]: the local path is [p],
    and but for updated_at the other columns are as they were. *)
Definition downloaded_row (p : string) (t t' : generation_task) : Prop :=
  local_path t' = Some p /\ status t' = status t /\ result_url t' = result_url t /\
  api_request_id t' = api_request_id t /\ error_message t' = error_message t /\
  api_response t' = api_response t /\ same_fixed_columns t t'.

(** [s] without its leading zeros. *)
Fixpoint lstrip_zeros (s : string) : string :=
  match s with
  | String "0" s' => lstrip_zeros s'
  | _ => s
  end.

(** A finished job with four completed tasks: two results that can be
    fetched, one on a host that refuses, and one whose URL is the empty
    string. *)
Definition results_db : Database :=
  mkDb [mkJob 1 "demo" "completed" 4 4 0 "a portrait" "{}" 1000 1100]
       [mkTask 1 1 (Some "r1") "completed" "f.png" "" "" "a portrait"
               (Some "https://cdn/1.png") None None None 1001 1050;
        mkTask 2 1 (Some "r2") "completed" "f.png" "" "" "a portrait"
               (Some "https://cdn/2.JPG") None None None 1002 1060;
        mkTask 3 1 (Some "r3") "completed" "f.png" "" "" "a portrait"
               (Some "https://down/3.png") None None None 1003 1070;
        mkTask 4 1 (Some "r4") "completed" "f.png" "" "" "a portrait"
               (Some "") None None None 1004 1080]
       [] 1 4 0.

Definition results_world : World := mkWorld results_db demo_fs ∅ None 0 [].

(** A network on which the host "down" refuses and every other request is
    answered in full; the workers finish in the reverse of the order of the
    ids. *)
Definition sample_network : Network :=
  {| http_get := fun _ url =>
       if String.prefix "https://down/" url then Refused "ConnectionError"
       else Body None true;
     completion_rank := fun _ i => Z.to_nat (10 - i) |}.

(** ** What a run records *)

(** The arguments of the remote call run_batch makes for [task]. *)
Definition call_of (config : BatchConfig) (task : generation_task) : ApiCall :=
  mkCall (prompt task)
         (match reference_images_of task with
          | [] => None
          | _ => Some (reference_images_of task)
          end)
         (cfg_model config) (cfg_resolution config) (cfg_aspect_ratio config).

(** The URL the success branch passes to update_task_status: image_url, or
    the first of image_urls when image_url is empty. *)
Definition stored_url (r : GenerationResult) : option string :=
  if negb (Py.truthy_opt (image_url r))
  then match image_urls r with
       | Some (u :: _) => Some u
       | _ => image_url r
       end
  else image_url r.

(** The row [t] after the answer [r] to its call was recorded in it. *)
Definition recorded `{Runtime} (r : GenerationResult) (t t' : generation_task) : Prop :=
  same_fixed_columns t t' /\ local_path t' = local_path t /\
  api_request_id t' = written (task_id r) (api_request_id t) /\
  api_response t' =
    (if truthy_dict (raw_response r) then json_dumps <$> raw_response r
     else api_response t) /\
  if task_ok r
  then status t' = "completed" /\ result_url t' = written (stored_url r) (result_url t) /\
       error_message t' = error_message t
  else status t' = "failed" /\ result_url t' = result_url t /\
       error_message t' = Some (error_text r).

(** ** A run that raises *)

(** The events of a dispatch whose remote call raises [e]. *)
Definition raising_events (task : generation_task) (call : ApiCall) (e : string)
    : list event :=
  [ Ev_notify (Some "processing") (Some (id task)) None;
    Ev_update_task_status (id task) "processing";
    Ev_generate_and_wait task call (ApiRaises e) ].

(** What holds when the loop over [tasks] raises [e]: the first [k] tasks
    were dispatched and counted, and the call made for the next one, [t],
    raised; its row is left at "processing". *)
Definition loop_raised (job : Z) (config : BatchConfig) (tasks : list generation_task)
    (e : string) (w w' : World) : Prop :=
  exists evs (k : nat) t,
    w_log w' = w_log w ++ evs ++ raising_events t (call_of config t) e /\
    tasks !! k = Some t /\
    run_segment job config (take k tasks) evs /\ no_stop_seen evs /\
    counts_advance job (Z.of_nat (increments job true evs))
                   (Z.of_nat (increments job false evs)) (w_db w) (w_db w') /\
    (forall t0, get_task (w_db w) (id t) = Some t0 ->
       exists t', get_task (w_db w') (id t) = Some t' /\ status t' = "processing").

(** What holds when run_batch raises [e]. *)
Definition batch_raised (job : Z) (config : BatchConfig) (e : string) (w w' : World)
    : Prop :=
  let tasks := get_pending_tasks (w_db w) job in
  exists evs (k : nat) t,
    w_log w' = w_log w ++
               [Ev_update_batch_job_status job "running"] ++ evs ++
               raising_events t (call_of config t) e ++
               [Ev_update_batch_job_status job "error";
                Ev_notify (Some "error") None (Some e)] /\
    tasks !! k = Some t /\
    run_segment job config (take k tasks) evs /\ no_stop_seen evs /\
    (forall j, get_batch_job (w_db w) job = Some j ->
       exists j', get_batch_job (w_db w') job = Some j' /\ job_status j' = "error" /\
                  completed_count j' = completed_count j + Z.of_nat (increments job true evs) /\
                  failed_count j' = failed_count j + Z.of_nat (increments job false evs)) /\
    (forall t0, get_task (w_db w) (id t) = Some t0 ->
       exists t', get_task (w_db w') (id t) = Some t' /\ status t' = "processing") /\
    w_current_job_id w' = None.

(** The files a log records as moved, in order, as (source, destination). *)
Definition file_moves (log : list event) : list (string * string) :=
  flat_map (fun e => match e with Ev_shutil_move s d => [(s, d)] | _ => [] end) log.

(** The folder download_batch_results makes for the results of [job]. *)
Definition job_folder `{Environment} (output_dir : string) (job : Z) (w : World) : string :=
  Path.joinpath output_dir
    ((match get_batch_job (w_db w) job with
      | Some j => job_name j
      | None => "job_" +:+ pretty job
      end) +:+ "_" +:+ strftime_now (w_tick w)).

(** An environment in which every file operation fails. *)
Definition failing_disk_env : Environment :=
  {| random_index := fun _ => 0%nat;
     stop_flag_is_set := fun _ => false;
     pause_flag_is_set := fun _ => false;
     generate_and_wait := fun _ _ => ApiReturns completed_result;
     current_timestamp := fun t => 1700000000 + Z.of_nat t;
     strftime_now := fun _ => "20231114_221320";
     io_fails := fun _ => true |}.

(* ===================================================================== *)
(** * Part III. Properties                                                 *)
(* ===================================================================== *)

(** ** The embedding at work *)

Example classify_nsfw :
  _is_content_policy_error "Error: NSFW content detected in image" = true.
Proof. reflexivity. Qed.

Example classify_http500 :
  _is_content_policy_error "HTTP 500 Internal Server Error" = false.
Proof. reflexivity. Qed.

Example replace_ex : Py.replace "{face}" "anna" "a {face} and {face}." = "a anna and anna.".
Proof. reflexivity. Qed.

Example strip_ex : Py.strip "  a b
 " = "a b".
Proof. reflexivity. Qed.

Example suffix_ex1 : Path.suffix "in/faces/Anna.Smith.JPG" = ".JPG".
Proof. reflexivity. Qed.

Example suffix_ex2 : Path.suffix "in/.hidden" = "" /\ Path.suffix "in/trailing." = "".
Proof. split; reflexivity. Qed.

Example stem_ex : Path.stem "in/faces/anna.png" = "anna" /\ Path.stem "in/README" = "README".
Proof. split; reflexivity. Qed.

Example parent_ex : Path.parent "in/faces/anna.png" = "in/faces" /\ Path.parent "/a" = "/" /\ Path.parent "a" = ".".
Proof. repeat split; reflexivity. Qed.

Example image_folder_ex :
  img_files (ImageSource_init demo_fs "in/faces")
  = ["in/faces/a.jpg"; "in/faces/b.PNG"; "in/faces/c.webp"].
Proof. vm_compute. reflexivity. Qed.

Example prompt_folder_ex :
  ps_files (PromptSource_init demo_fs "in/faces") = ["in/faces/notes.txt"].
Proof. vm_compute. reflexivity. Qed.

Example image_single_ex :
  img_files (ImageSource_init demo_fs "in/scan.pdf") = ["in/scan.pdf"].
Proof. vm_compute. reflexivity. Qed.

Example md5_empty : MD5.hexdigest "" = "d41d8cd98f00b204e9800998ecf8427e".
Proof. vm_compute. reflexivity. Qed.

Example md5_separators : MD5.hexdigest "|||" = "2edf2958166561c5c08cd228e53bbcdc".
Proof. vm_compute. reflexivity. Qed.

Example md5_two_blocks :
  MD5.hexdigest "xxxxxxxxxxxxxxxxxxxxxxxxxxxxxxxxxxxxxxxxxxxxxxxxxxxxxxxxxxxxxxxxxxxxxx"
  = "7d56c0f83fd1e320d60ea2f13dfdeedd".
Proof. vm_compute. reflexivity. Qed.

Example dumps_ex :
  @json_dumps python_runtime [("code", JNum 200); ("ok", JBool true)]
  = "{" +:+ quote +:+ "code" +:+ quote +:+ ": 200, " +:+ quote +:+ "ok" +:+ quote +:+ ": true}".
Proof. vm_compute. reflexivity. Qed.

(** ** Strings *)

Lemma app_cons (c : ascii) (a b : string) : String c a +:+ b = String c (a +:+ b).
Proof. reflexivity. Qed.

Lemma app_nil_l (b : string) : "" +:+ b = b.
Proof. reflexivity. Qed.

Lemma prefix_app (a b : string) :
  String.prefix a b = true <-> exists post, b = a +:+ post.
Proof.
  revert b. induction a as [|c a IH]; intros b; simpl.
  - split; [intros _; exists b; destruct b; reflexivity | destruct b; reflexivity].
  - destruct b as [|c' b]; simpl.
    + split; [discriminate | intros [post Hp]; discriminate].
    + destruct (Ascii.ascii_dec c c') as [->|Hne].
      * rewrite IH. split; intros [post Hp]; exists post;
          rewrite app_cons in *; congruence.
      * split; [discriminate | intros [post Hp]; rewrite app_cons in Hp; congruence].
Qed.

Lemma str_in_spec (sub s : string) :
  Py.str_in sub s = true <-> exists pre post, s = pre +:+ sub +:+ post.
Proof.
  induction s as [|c s IH]; cbn [Py.str_in].
  - rewrite orb_false_r, prefix_app. split.
    + intros [post Hp]. exists "", post. exact Hp.
    + intros [pre [post Hp]]. destruct pre; [exists post; exact Hp | discriminate].
  - rewrite orb_true_iff, prefix_app, IH. split.
    + intros [[post Hp] | [pre [post Hp]]].
      * exists "", post. exact Hp.
      * exists (String c pre), post. rewrite app_cons. congruence.
    + intros [pre [post Hp]]. destruct pre as [|c' pre].
      * left. exists post. exact Hp.
      * right. exists pre, post. rewrite app_cons in Hp. congruence.
Qed.

Lemma lower_app (a b : string) : Py.lower (a +:+ b) = Py.lower a +:+ Py.lower b.
Proof.
  induction a as [|c a IH]; [reflexivity |].
  rewrite app_cons. simpl. rewrite app_cons. now rewrite IH.
Qed.

Lemma app_empty_inv (a b : string) : a +:+ b = "" -> a = "" /\ b = "".
Proof.
  destruct a; [| discriminate].
  rewrite app_nil_l. intros ->. split; reflexivity.
Qed.

(** ** The failure classifier *)

Lemma keywords_not_empty :
  forall kw, In kw content_error_keywords -> kw <> "".
Proof.
  intros kw Hin ->. unfold content_error_keywords in Hin. simpl in Hin.
  repeat (destruct Hin as [Hin | Hin]; [discriminate Hin |]). exact Hin.
Qed.

Lemma classifier_spec (msg : string) :
  _is_content_policy_error msg = true <->
  exists kw, In kw content_error_keywords /\
             exists pre post, Py.lower msg = pre +:+ kw +:+ post.
Proof.
  unfold _is_content_policy_error.
  destruct (Py.truthy msg) eqn:Hm; cbn [negb].
  - rewrite existsb_exists. split.
    + intros [kw [Hin Hk]]. exists kw. split; [exact Hin |]. now apply str_in_spec.
    + intros [kw [Hin Hk]]. exists kw. split; [exact Hin |]. now apply str_in_spec.
  - split; [discriminate |].
    intros [kw [Hin [pre [post Hk]]]]. exfalso.
    destruct msg; [| discriminate Hm]. symmetry in Hk. change (Py.lower "") with "" in Hk.
    apply app_empty_inv in Hk as [_ Hk]. apply app_empty_inv in Hk as [Hk _].
    exact (keywords_not_empty kw Hin Hk).
Qed.

(** C5. The failure classifier is a function of the message alone; it
    returns true exactly when some keyword of its fixed list occurs as a
    substring of the lower-cased message.  Every message that contains
    "NSFW content detected", in any letter casing, is classified as a
    content-policy failure, and "HTTP 500 Internal Server Error" is not. *)
Theorem C5_failure_classifier :
  (forall msg, _is_content_policy_error msg = true <->
     exists kw, In kw content_error_keywords /\
                exists pre post, Py.lower msg = pre +:+ kw +:+ post) /\
  (forall pre s post, Py.lower s = "nsfw content detected" ->
     _is_content_policy_error (pre +:+ s +:+ post) = true) /\
  _is_content_policy_error "HTTP 500 Internal Server Error" = false.
Proof.
  split; [exact classifier_spec | split; [| reflexivity]].
  intros pre s post Hs. apply classifier_spec.
  exists "nsfw". split; [left; reflexivity |].
  exists (Py.lower pre), (" content detected" +:+ Py.lower post).
  rewrite !lower_app, Hs. reflexivity.
Qed.

Lemma C5_failure_classifier_witness :
  Py.lower "NsFw CONTENT Detected" = "nsfw content detected" /\
  _is_content_policy_error ("Task 7 failed: " +:+ "NsFw CONTENT Detected" +:+ " (code 422)") = true.
Proof.
  split; [reflexivity |].
  apply (proj1 (proj2 C5_failure_classifier) "Task 7 failed: " "NsFw CONTENT Detected" " (code 422)").
  reflexivity.
Defined.

(** ** The store *)

Lemma existsb_filter_length {A} (p : A -> bool) (l : list A) :
  existsb p l = true <-> (1 <= length (List.filter p l))%nat.
Proof.
  induction l as [|x l IH]; simpl.
  - split; [discriminate | lia].
  - destruct (p x); simpl; [split; [lia | reflexivity] | exact IH].
Qed.

Lemma existsb_false_filter {A} (p : A -> bool) (l : list A) :
  existsb p l = false -> List.filter p l = [].
Proof.
  induction l as [|x l IH]; simpl; [reflexivity |].
  destruct (p x); simpl; [discriminate | exact IH].
Qed.

Lemma ledger_row_is_refl job h id_ f o b t :
  ledger_row_is job h (mkUsed id_ job h f o b t) = true.
Proof.
  unfold ledger_row_is. simpl. rewrite Z.eqb_refl, String.eqb_refl. reflexivity.
Qed.

Lemma ledger_row_is_eq job h job' h' r :
  ledger_row_is job h r = true -> ledger_row_is job' h' r = true -> job = job' /\ h = h'.
Proof.
  unfold ledger_row_is. rewrite !andb_true_iff, !Z.eqb_eq, !String.eqb_eq.
  intros [<- <-] [<- <-]. split; reflexivity.
Qed.

Lemma is_used_after_mark db now job h f o b :
  is_combination_used (mark_combination_used db now job h f o b) job h = true.
Proof.
  unfold mark_combination_used, insert_used_combination, is_combination_used.
  destruct (existsb (ledger_row_is job h) (used_combinations db)) eqn:E; [exact E |].
  simpl. rewrite existsb_app. simpl. rewrite ledger_row_is_refl.
  now rewrite orb_true_r.
Qed.

Lemma mark_when_used db now job h f o b :
  is_combination_used db job h = true ->
  insert_used_combination db now job h f o b = None /\
  mark_combination_used db now job h f o b = db.
Proof.
  unfold mark_combination_used, insert_used_combination, is_combination_used.
  intros ->. split; reflexivity.
Qed.

Lemma mark_keeps_used db now job h f o b job' h' :
  is_combination_used db job' h' = true ->
  is_combination_used (mark_combination_used db now job h f o b) job' h' = true.
Proof.
  unfold mark_combination_used, insert_used_combination, is_combination_used.
  intros Hu.
  destruct (existsb (ledger_row_is job h) (used_combinations db)); [exact Hu |].
  simpl. rewrite existsb_app, Hu. reflexivity.
Qed.

Lemma mark_keeps_tasks db now job h f o b :
  generation_tasks (mark_combination_used db now job h f o b) = generation_tasks db.
Proof.
  unfold mark_combination_used, insert_used_combination.
  destruct (existsb _ _); reflexivity.
Qed.

Lemma mark_keeps_unique db now job h f o b :
  ledger_unique db -> ledger_unique (mark_combination_used db now job h f o b).
Proof.
  intros Hu job' h'. specialize (Hu job' h').
  unfold mark_combination_used, insert_used_combination, ledger_rows in *.
  destruct (existsb (ledger_row_is job h) (used_combinations db)) eqn:E; [exact Hu |].
  simpl. rewrite List.filter_app, length_app. simpl.
  destruct (ledger_row_is job' h' _) eqn:E'; simpl; [| lia].
  assert (job' = job /\ h' = h) as [-> ->].
  { unfold ledger_row_is in E'. simpl in E'.
    apply andb_true_iff in E' as [E1 E2].
    apply Z.eqb_eq in E1. apply String.eqb_eq in E2. split; congruence. }
  rewrite (existsb_false_filter _ _ E). simpl. lia.
Qed.

(** C9. mark_combination_used is idempotent: on a ledger that satisfies its
    uniqueness constraint, calling it twice with the same job and hash leaves
    exactly one row for the pair; the second INSERT is refused (the
    IntegrityError the method swallows) and the second call changes nothing. *)
Theorem C9_mark_combination_used_idempotent :
  forall db now1 now2 job h f1 o1 b1 f2 o2 b2,
    ledger_unique db ->
    let db1 := mark_combination_used db now1 job h f1 o1 b1 in
    let db2 := mark_combination_used db1 now2 job h f2 o2 b2 in
    length (ledger_rows db2 job h) = 1%nat /\
    db2 = db1 /\
    insert_used_combination db1 now2 job h f2 o2 b2 = None.
Proof.
  intros db now1 now2 job h f1 o1 b1 f2 o2 b2 Hu db1 db2.
  pose proof (is_used_after_mark db now1 job h f1 o1 b1) as Hused.
  fold db1 in Hused.
  destruct (mark_when_used db1 now2 job h f2 o2 b2 Hused) as [Hins Hsame].
  fold db2 in Hsame. rewrite Hsame. split; [| split; [reflexivity | exact Hins]].
  pose proof (mark_keeps_unique db now1 job h f1 o1 b1 Hu job h) as Hle.
  fold db1 in Hle.
  unfold is_combination_used in Hused. apply existsb_filter_length in Hused.
  unfold ledger_rows in *. lia.
Qed.

Lemma demo_ledger_unique : ledger_unique demo_ledger.
Proof.
  apply mark_keeps_unique, mark_keeps_unique. intros job h. simpl. lia.
Qed.

Lemma C9_mark_combination_used_idempotent_witness :
  ledger_unique demo_ledger /\
  length (ledger_rows
            (mark_combination_used
               (mark_combination_used demo_ledger 12 1 "e6701e4263ad2af1d5134ebafb0c03c7"
                                      "a.jpg" "" "")
               13 1 "e6701e4263ad2af1d5134ebafb0c03c7" "a.jpg" "" "")
            1 "e6701e4263ad2af1d5134ebafb0c03c7") = 1%nat.
Proof.
  split; [exact demo_ledger_unique |].
  exact (proj1 (C9_mark_combination_used_idempotent demo_ledger 12 13 1
                  "e6701e4263ad2af1d5134ebafb0c03c7" "a.jpg" "" "" "a.jpg" "" ""
                  demo_ledger_unique)).
Defined.

Section Store.

Context `{Runtime}.

Lemma updated_row_columns now st rid url lp err (resp : option Dict) r :
  let updates := [Set_status st; Set_updated_at_current_timestamp] in
  let updates := append_if_truthy rid Set_api_request_id updates in
  let updates := append_if_truthy url Set_result_url updates in
  let updates := append_if_truthy lp Set_local_path updates in
  let updates := append_if_truthy err Set_error_message updates in
  let updates :=
    match resp with
    | Some d => if truthy_dict (Some d) then updates ++ [Set_api_response (json_dumps d)]
                else updates
    | None => updates
    end in
  let r' := fold_left (assign now) updates r in
  same_fixed_columns r r' /\
  status r' = st /\ updated_at r' = now /\
  api_request_id r' = written rid (api_request_id r) /\
  result_url r' = written url (result_url r) /\
  local_path r' = written lp (local_path r) /\
  error_message r' = written err (error_message r) /\
  api_response r' = (if truthy_dict resp then json_dumps <$> resp else api_response r).
Proof.
  unfold same_fixed_columns, written.
  destruct rid as [[|? ?]|], url as [[|? ?]|], lp as [[|? ?]|], err as [[|? ?]|],
           resp as [[|? ?]|]; cbn; repeat split; reflexivity.
Qed.

(** C10. update_task_status writes, in the row it addresses, the status and
    updated_at columns and those of api_request_id, result_url, local_path,
    error_message and api_response whose argument is truthy; an argument that
    is None or empty leaves the stored value as it was.  The other columns of
    that row, every other row, and the other tables are unchanged. *)
Theorem C10_update_task_status_frame :
  forall db now task st rid url lp err resp,
    let db' := update_task_status db now task st rid url lp err resp in
    batch_jobs db' = batch_jobs db /\
    used_combinations db' = used_combinations db /\
    length (generation_tasks db') = length (generation_tasks db) /\
    forall (i : nat) r, generation_tasks db !! i = Some r ->
      exists r', generation_tasks db' !! i = Some r' /\
        (id r <> task -> r' = r) /\
        (id r = task ->
           same_fixed_columns r r' /\
           status r' = st /\ updated_at r' = now /\
           api_request_id r' = written rid (api_request_id r) /\
           result_url r' = written url (result_url r) /\
           local_path r' = written lp (local_path r) /\
           error_message r' = written err (error_message r) /\
           api_response r' =
             (if truthy_dict resp then json_dumps <$> resp else api_response r)).
Proof.
  intros db now task st rid url lp err resp db'.
  split; [reflexivity | split; [reflexivity | split]].
  - unfold db', update_task_status, with_generation_tasks, sql_update_generation_tasks.
    cbn [generation_tasks]. now rewrite length_map.
  - intros i r Hr.
    unfold db', update_task_status, with_generation_tasks, sql_update_generation_tasks.
    cbn [generation_tasks].
    change (@map generation_task generation_task) with (@fmap list _ generation_task generation_task).
    rewrite list_lookup_fmap, Hr. cbn [fmap option_fmap option_map].
    eexists. split; [reflexivity |]. split.
    + intros Hne. apply Z.eqb_neq in Hne. now rewrite Hne.
    + intros Heq. apply Z.eqb_eq in Heq. rewrite Heq.
      exact (updated_row_columns now st rid url lp err resp r).
Qed.

End Store.

Lemma C10_update_task_status_frame_witness :
  exists r',
    generation_tasks
      (@update_task_status python_runtime demo_tasks_db 130 7 "failed"
         None None (Some "") (Some "HTTP 503") None) !! 1%nat = Some r' /\
    status r' = "failed" /\ updated_at r' = 130 /\
    result_url r' = Some "https://cdn/7.png" /\
    api_request_id r' = Some "req-7" /\
    local_path r' = None /\
    error_message r' = Some "HTTP 503".
Proof.
  destruct (proj2 (proj2 (proj2
              (@C10_update_task_status_frame python_runtime demo_tasks_db 130 7 "failed"
                 None None (Some "") (Some "HTTP 503") None)))
              1%nat demo_task_row eq_refl) as [r' [Hr' [_ Hcols]]].
  exists r'. split; [exact Hr' |].
  destruct (Hcols eq_refl) as (_ & Hs & Hu & Ha & Hr & Hl & He & _).
  repeat split; assumption.
Defined.

(** ** Source pools *)

Lemma sorted_spec (files : list string) :
  Sorted str_le (sorted files) /\ sorted files ≡ₚ files.
Proof.
  split; [apply (Sorted_merge_sort str_le) | apply merge_sort_Permutation].
Qed.

Lemma iterdir_spec (fs : FileSystem) (folder f : string) :
  f ∈ iterdir fs folder <-> Path.parent f = folder /\ exists_ fs f = true.
Proof.
  unfold iterdir, exists_. rewrite list_elem_of_filter.
  change (map fst (map_to_list fs)) with ((map_to_list fs).*1).
  rewrite list_elem_of_fmap. split.
  - intros [Hp [[p n] [-> Hin]]]. apply elem_of_map_to_list in Hin.
    simpl in *. rewrite Hin. split; [exact Hp | reflexivity].
  - intros [Hp He]. split; [exact Hp |].
    destruct (fs !! f) as [n|] eqn:E; [| discriminate].
    exists (f, n). split; [reflexivity | now apply elem_of_map_to_list].
Qed.

Lemma iterdir_NoDup (fs : FileSystem) (folder : string) : NoDup (iterdir fs folder).
Proof.
  unfold iterdir. apply NoDup_filter.
  change (map fst (map_to_list fs)) with ((map_to_list fs).*1).
  apply NoDup_fst_map_to_list.
Qed.

Lemma is_file_exists (fs : FileSystem) (f : string) :
  is_file fs f = true -> exists_ fs f = true.
Proof. unfold is_file, exists_. destruct (fs !! f) as [[|]|]; easy. Qed.

Lemma is_file_not_dir (fs : FileSystem) (f : string) :
  is_file fs f = true -> is_dir fs f = false.
Proof. unfold is_file, is_dir. destruct (fs !! f) as [[|]|]; easy. Qed.

(** A scanned folder yields, sorted and without repeats, exactly the regular
    files directly in it whose lower-cased suffix is allowed. *)
Lemma image_scan_folder_spec (fs : FileSystem) (folder : string) :
  Sorted str_le (image_scan_folder fs folder) /\
  NoDup (image_scan_folder fs folder) /\
  forall f, f ∈ image_scan_folder fs folder <->
            Path.parent f = folder /\ is_file fs f = true /\
            has_extension image_extensions f = true.
Proof.
  unfold image_scan_folder.
  destruct (sorted_spec (filter (fun f => is_file fs f && has_extension image_extensions f)
                                (iterdir fs folder))) as [Hs Hp].
  split; [exact Hs | split].
  - rewrite Hp. apply NoDup_filter, iterdir_NoDup.
  - intros f. rewrite Hp, list_elem_of_filter, iterdir_spec.
    rewrite andb_True, !Is_true_true. split.
    + intros [[Hf He] [Hpar _]]. auto.
    + intros [Hpar [Hf He]]. auto using is_file_exists.
Qed.

Lemma prompt_scan_folder_spec (fs : FileSystem) (folder : string) :
  Sorted str_le (prompt_scan_folder fs folder) /\
  NoDup (prompt_scan_folder fs folder) /\
  forall f, f ∈ prompt_scan_folder fs folder <->
            Path.parent f = folder /\ is_file fs f = true /\
            Py.lower (Path.suffix f) = ".txt".
Proof.
  unfold prompt_scan_folder.
  destruct (sorted_spec (filter (fun f => is_file fs f &&
                                          String.eqb (Py.lower (Path.suffix f)) ".txt")
                                (iterdir fs folder))) as [Hs Hp].
  split; [exact Hs | split].
  - rewrite Hp. apply NoDup_filter, iterdir_NoDup.
  - intros f. rewrite Hp, list_elem_of_filter, iterdir_spec.
    rewrite andb_True, !Is_true_true, String.eqb_eq. split.
    + intros [[Hf He] [Hpar _]]. auto.
    + intros [Hpar [Hf He]]. auto using is_file_exists.
Qed.

(** The prompt pool does what the specification says of a pool, in its three
    cases. *)
Lemma prompt_pool_cases (fs : FileSystem) (path : string) :
  Py.truthy path = true ->
  (is_dir fs path = true ->
     ps_files (PromptSource_init fs path) = prompt_scan_folder fs path) /\
  (is_file fs path = true -> Py.lower (Path.suffix path) = ".txt" ->
     ps_files (PromptSource_init fs path) = [path]) /\
  (is_file fs path = true -> Py.lower (Path.suffix path) <> ".txt" ->
     ps_files (PromptSource_init fs path) = []) /\
  (exists_ fs path = false -> ps_files (PromptSource_init fs path) = []).
Proof.
  intros Ht. unfold PromptSource_init. rewrite Ht. cbn [negb].
  repeat split.
  - intros ->. reflexivity.
  - intros Hf He. rewrite (is_file_not_dir _ _ Hf), Hf.
    apply String.eqb_eq in He. rewrite He. reflexivity.
  - intros Hf He. rewrite (is_file_not_dir _ _ Hf), Hf.
    apply String.eqb_neq in He. rewrite He. reflexivity.
  - unfold exists_, is_dir, is_file. destruct (fs !! path) as [[|]|]; easy.
Qed.

(** The image pool does so for a directory, for a file with an allowed
    suffix, and for a path that does not exist. *)
Lemma image_pool_cases (fs : FileSystem) (path : string) :
  (is_dir fs path = true ->
     img_files (ImageSource_init fs path) = image_scan_folder fs path) /\
  (is_file fs path = true -> has_extension image_extensions path = true ->
     img_files (ImageSource_init fs path) = [path]) /\
  (exists_ fs path = false -> img_files (ImageSource_init fs path) = []).
Proof.
  unfold ImageSource_init. repeat split.
  - intros ->. reflexivity.
  - intros Hf _. rewrite (is_file_not_dir _ _ Hf), Hf. reflexivity.
  - unfold exists_, is_dir, is_file. destruct (fs !! path) as [[|]|]; easy.
Qed.

(** A single file becomes the one entry of an image pool whatever its
    suffix: __post_init__ tests is_file alone. *)
Lemma image_pool_single_file (fs : FileSystem) (path : string) :
  is_file fs path = true -> img_files (ImageSource_init fs path) = [path].
Proof.
  intros Hf. unfold ImageSource_init.
  rewrite (is_file_not_dir _ _ Hf), Hf. reflexivity.
Qed.

(** C7, at the input where the code departs from it.  "in/scan.pdf" is a
    regular file whose suffix is not in the image allowlist: the
    specification says the pool built from it is empty, and ImageSource
    builds the one-entry pool; PromptSource, on the same path, builds the
    empty pool. *)
Theorem C7_image_pool_single_file_not_filtered :
  is_file demo_fs "in/scan.pdf" = true /\
  has_extension image_extensions "in/scan.pdf" = false /\
  img_files (ImageSource_init demo_fs "in/scan.pdf") = ["in/scan.pdf"] /\
  ps_files (PromptSource_init demo_fs "in/scan.pdf") = [].
Proof. vm_compute. repeat split; reflexivity. Qed.

(** ** The prompt cache *)

(** The three ways of _read_file: a hit, a read that succeeds, and one that
    fails. *)
Lemma read_file_cases (w : World) (p : string) :
  match w_contents_cache w !! p with
  | Some content => _read_file p w = Returns content w
  | None =>
      match read_text (w_fs w) p with
      | Some text =>
          _read_file p w =
          Returns (Py.strip text)
                  (with_cache_and_event w (<[p := Py.strip text]> (w_contents_cache w))
                                        (Ev_read_text p))
      | None =>
          _read_file p w =
          Returns "" (with_cache_and_event w (w_contents_cache w) (Ev_read_text p))
      end
  end.
Proof.
  unfold _read_file, mbind, M_bind, get_cache. destruct w as [d fs cache job t log].
  cbn [w_contents_cache w_fs]. destruct (cache !! p) as [content|] eqn:Hc.
  - reflexivity.
  - unfold try_except, mbind, M_bind, emit, get_fs. cbn.
    destruct (read_text fs p) as [text|]; reflexivity.
Qed.

Lemma reads_of_app p l1 l2 : reads_of p (l1 ++ l2) = (reads_of p l1 + reads_of p l2)%nat.
Proof. unfold reads_of. now rewrite List.filter_app, length_app. Qed.

(** A request never raises, keeps what the cache holds, and reads the disk
    only for a path the cache does not hold. *)
Lemma get_content_returns (w : World) (q : string) :
  exists content w',
    get_content q w = Returns content w' /\
    (forall p c, w_contents_cache w !! p = Some c -> w_contents_cache w' !! p = Some c) /\
    (forall p, is_Some (w_contents_cache w !! p) ->
               reads_of p (w_log w') = reads_of p (w_log w)) /\
    (forall c, w_contents_cache w !! q = Some c -> content = c /\ w' = w).
Proof.
  unfold get_content. pose proof (read_file_cases w q) as Hcases.
  destruct (w_contents_cache w !! q) as [c0|] eqn:Hq.
  - exists c0, w. split; [exact Hcases |]. repeat split; auto; congruence.
  - assert (Hlog : forall w' p, is_Some (w_contents_cache w !! p) ->
                w_log w' = w_log w ++ [Ev_read_text q] ->
                reads_of p (w_log w') = reads_of p (w_log w)).
    { intros w' p [c Hp] ->. rewrite reads_of_app. unfold reads_of at 2. simpl.
      destruct (String.eqb q p) eqn:E; [| simpl; lia].
      apply String.eqb_eq in E. congruence. }
    destruct (read_text (w_fs w) q) as [text|].
    + eexists _, _. split; [exact Hcases |]. split; [| split].
      * intros p c Hp. cbn. rewrite lookup_insert_ne; [exact Hp | congruence].
      * intros p Hp. apply Hlog; [exact Hp | reflexivity].
      * intros c Hc. discriminate.
    + eexists _, _. split; [exact Hcases |]. split; [| split].
      * intros p c Hp. exact Hp.
      * intros p Hp. apply Hlog; [exact Hp | reflexivity].
      * intros c Hc. discriminate.
Qed.

Lemma serve_cached (requests : list (FileSystem * string)) :
  forall (w : World) (p c : string),
    w_contents_cache w !! p = Some c ->
    exists contents w',
      serve requests w = Returns contents w' /\
      length contents = length requests /\
      (forall (i : nat) disk, requests !! i = Some (disk, p) -> contents !! i = Some c) /\
      reads_of p (w_log w') = reads_of p (w_log w) /\
      w_contents_cache w' !! p = Some c.
Proof.
  induction requests as [|[disk q] rest IH]; intros w p c Hp.
  - exists [], w. repeat split; auto. intros i disk Hi. destruct i; discriminate.
  - cbn [serve]. unfold mbind at 1, M_bind at 1. unfold put_fs at 1.
    fold (with_fs w disk).
    destruct (get_content_returns (with_fs w disk) q)
      as (content & w1 & Hget & Hkeep & Hreads & Hhit).
    unfold mbind at 1, M_bind at 1. rewrite Hget.
    destruct (IH w1 p c (Hkeep p c Hp)) as (contents & w2 & Hrest & Hlen & Hall & Hr & Hc).
    unfold mbind at 1, M_bind at 1. rewrite Hrest.
    exists (content :: contents), w2. split; [reflexivity |].
    split; [simpl; now rewrite Hlen |]. split; [| split; [| exact Hc]].
    + intros [|i] disk' Hi.
      * injection Hi as _ ->. destruct (Hhit c Hp) as [-> _]. reflexivity.
      * exact (Hall i disk' Hi).
    + rewrite Hr. apply (Hreads p). exists c. exact Hp.
Qed.

(** C6, as the code has it.  A content request never raises.  A read that
    fails yields the empty string and caches nothing.  Once a read of a path
    has succeeded, the stripped text is cached: every later request for that
    path on the same prompt pool returns that same string and reads the disk
    no more, whatever has become of the file in between. *)
Theorem C6_prompt_cache_after_successful_read :
  (forall w p, exists content w', get_content p w = Returns content w') /\
  (forall w p,
     w_contents_cache w !! p = None -> read_text (w_fs w) p = None ->
     get_content p w =
     Returns "" (with_cache_and_event w (w_contents_cache w) (Ev_read_text p))) /\
  (forall w p text,
     w_contents_cache w !! p = None -> read_text (w_fs w) p = Some text ->
     exists w1,
       get_content p w = Returns (Py.strip text) w1 /\
       reads_of p (w_log w1) = S (reads_of p (w_log w)) /\
       forall requests, exists contents w2,
         serve requests w1 = Returns contents w2 /\
         (forall (i : nat) disk, requests !! i = Some (disk, p) ->
                                 contents !! i = Some (Py.strip text)) /\
         reads_of p (w_log w2) = reads_of p (w_log w1)).
Proof.
  split; [| split].
  - intros w p. destruct (get_content_returns w p) as (c & w' & Hget & _). eauto.
  - intros w p Hc Hr. pose proof (read_file_cases w p) as Hcases.
    rewrite Hc, Hr in Hcases. exact Hcases.
  - intros w p text Hc Hr. pose proof (read_file_cases w p) as Hcases.
    rewrite Hc, Hr in Hcases. eexists. split; [exact Hcases |]. split.
    + cbn [with_cache_and_event w_log]. rewrite reads_of_app. unfold reads_of at 2.
      simpl. rewrite String.eqb_refl. simpl. lia.
    + intros requests.
      destruct (serve_cached requests
                  (with_cache_and_event w (<[p := Py.strip text]> (w_contents_cache w))
                                        (Ev_read_text p))
                  p (Py.strip text)) as (contents & w2 & Hs & _ & Hall & Hreads & _).
      { cbn. apply lookup_insert_eq. }
      exists contents, w2. auto.
Qed.

Lemma C6_prompt_cache_after_successful_read_witness :
  exists w1,
    get_content "in/p.txt" (fresh_world demo_fs) = Returns "a cat" w1 /\
    reads_of "in/p.txt" (w_log w1) = 1%nat /\
    exists contents w2,
      serve [ ((∅ : FileSystem), "in/p.txt"); (demo_fs, "in/faces/notes.txt");
              ((∅ : FileSystem), "in/p.txt") ] w1 = Returns contents w2 /\
      contents !! 0%nat = Some "a cat" /\ contents !! 2%nat = Some "a cat" /\
      reads_of "in/p.txt" (w_log w2) = 1%nat.
Proof.
  destruct (proj2 (proj2 C6_prompt_cache_after_successful_read)
              (fresh_world demo_fs) "in/p.txt" "  a cat
" eq_refl eq_refl) as (w1 & Hget & Hreads & Hlater).
  exists w1. split; [exact Hget | split; [exact Hreads |]].
  destruct (Hlater [ ((∅ : FileSystem), "in/p.txt"); (demo_fs, "in/faces/notes.txt");
                     ((∅ : FileSystem), "in/p.txt") ])
    as (contents & w2 & Hs & Hall & Hr).
  exists contents, w2. split; [exact Hs |].
  split; [exact (Hall 0%nat ∅ eq_refl) |].
  split; [exact (Hall 2%nat ∅ eq_refl) |].
  rewrite Hr. exact Hreads.
Defined.

(** C6 as stated fails: a read that fails is not cached.  The first request
    finds no file and yields the empty string; the file is there at the
    second request, which reads the disk again and returns another string. *)
Lemma C6_failed_read_is_read_again :
  exists w',
    serve [ ((∅ : FileSystem), "in/p.txt"); (demo_fs, "in/p.txt") ] (fresh_world ∅)
    = Returns [""; "a cat"] w' /\
    reads_of "in/p.txt" (w_log w') = 2%nat.
Proof. eexists. split; vm_compute; reflexivity. Qed.

(** ** The program logic *)

Lemma run_spec_ret {A} (a : A) w Q E H : Q a w -> run_spec (mret a) w Q E H.
Proof. intros Hq. exact Hq. Qed.

Lemma run_spec_bind {A B} (m : M A) (k : A -> M B) w Q E H :
  run_spec m w (fun a w1 => run_spec (k a) w1 Q E H) E H ->
  run_spec (m ≫= k) w Q E H.
Proof.
  unfold run_spec, mbind, M_bind. destruct (m w); auto.
Qed.

Lemma run_spec_mono {A} (m : M A) w (Q Q' : A -> World -> Prop)
    (E E' : string -> World -> Prop) (H H' : Prop) :
  run_spec m w Q E H ->
  (forall a w', Q a w' -> Q' a w') -> (forall e w', E e w' -> E' e w') -> (H -> H') ->
  run_spec m w Q' E' H'.
Proof. unfold run_spec. destruct (m w); auto. Qed.

Lemma run_spec_try_except {A} (body : M A) (handler : string -> M A) w Q E H :
  run_spec body w Q (fun e w1 => run_spec (handler e) w1 Q E H) H ->
  run_spec (try_except body handler) w Q E H.
Proof. unfold run_spec, try_except. destruct (body w); auto. Qed.

Lemma run_spec_try_finally {A} (body : M A) (cleanup : M unit) w Q E H :
  run_spec body w
    (fun a w1 => run_spec cleanup w1 (fun _ w2 => Q a w2) E H)
    (fun e w1 => run_spec cleanup w1 (fun _ w2 => E e w2) E H) H ->
  run_spec (try_finally body cleanup) w Q E H.
Proof.
  unfold run_spec, try_finally, mbind, M_bind. destruct (body w) as [a w1|e w1|]; auto;
    destruct (cleanup w1); auto.
Qed.

Lemma returns_intro {A} (m : M A) w Q :
  returns m w Q <-> exists a w', m w = Returns a w' /\ Q a w'.
Proof.
  unfold returns, run_spec. destruct (m w) as [a w'| |]; split.
  - intros Hq. eauto.
  - intros (a' & w'' & Heq & Hq). congruence.
  - intros [].
  - intros (? & ? & ? & _). discriminate.
  - intros [].
  - intros (? & ? & ? & _). discriminate.
Qed.

Lemma wp_elim {A} (m : M A) w Q a w' : wp m w Q -> m w = Returns a w' -> Q a w'.
Proof. unfold wp, run_spec. intros Hq Heq. now rewrite Heq in Hq. Qed.

Lemma returns_wp {A} (m : M A) w Q : returns m w Q -> wp m w Q.
Proof. intros Hr. eapply run_spec_mono; [exact Hr | auto | intros ? ? [] | intros []]. Qed.

Lemma log_grows_refl P w : log_grows P w w.
Proof. exists []. split; [now rewrite app_nil_r | constructor]. Qed.

Lemma log_grows_trans P w1 w2 w3 :
  log_grows P w1 w2 -> log_grows P w2 w3 -> log_grows P w1 w3.
Proof.
  intros (e1 & H1 & F1) (e2 & H2 & F2). exists (e1 ++ e2).
  split; [rewrite H2, H1; now rewrite app_assoc | now apply Forall_app].
Qed.

Lemma log_grows_weaken (P P' : event -> Prop) w w' :
  (forall e, P e -> P' e) -> log_grows P w w' -> log_grows P' w w'.
Proof.
  intros Himp (evs & Hl & Hf). exists evs. split; [exact Hl |].
  eapply Forall_impl; eauto.
Qed.

(** ** Selection *)

Lemma quiet_refl w : quiet w w.
Proof. split; [reflexivity | apply log_grows_refl]. Qed.

Lemma quiet_trans w1 w2 w3 : quiet w1 w2 -> quiet w2 w3 -> quiet w1 w3.
Proof.
  intros [D1 L1] [D2 L2]. split; [congruence | eapply log_grows_trans; eauto].
Qed.

Lemma quiet_ledger_calls w w' :
  quiet w w' -> ledger_calls (w_log w') = ledger_calls (w_log w).
Proof.
  intros [_ (evs & -> & Hf)]. unfold ledger_calls. rewrite List.filter_app.
  replace (List.filter is_ledger_call evs) with (@nil event); [now rewrite app_nil_r |].
  induction Hf as [|e evs He _ IH]; [reflexivity |].
  simpl. destruct e; try contradiction. exact IH.
Qed.

Section Selection.

Context `{Runtime} `{Environment}.

Lemma observe_spec {A} (f : nat -> A) w Q E H' :
  (forall w', w_db w' = w_db w -> w_log w' = w_log w -> w_fs w' = w_fs w ->
              w_contents_cache w' = w_contents_cache w -> Q (f (w_tick w)) w') ->
  run_spec (observe f) w Q E H'.
Proof. intros HQ. apply HQ; reflexivity. Qed.

Lemma emit_spec e w Q E H' :
  (forall w', w_db w' = w_db w -> w_log w' = w_log w ++ [e] -> w_fs w' = w_fs w ->
              w_contents_cache w' = w_contents_cache w -> Q tt w') ->
  run_spec (emit e) w Q E H'.
Proof. intros HQ. apply HQ; reflexivity. Qed.

Lemma choice_returns (xs : list string) w :
  xs <> [] ->
  returns (choice xs) w (fun x w' => x ∈ xs /\ w_db w' = w_db w /\ w_log w' = w_log w).
Proof.
  intros Hne. unfold returns, choice. apply run_spec_bind, observe_spec.
  intros w' Hd Hl _ _.
  destruct (xs !! (random_index (w_tick w) mod length xs)%nat) as [x|] eqn:Hx.
  - apply run_spec_ret. split; [| split; assumption].
    apply list_elem_of_lookup. eauto.
  - exfalso. apply lookup_ge_None in Hx.
    assert (length xs <> 0)%nat by (destruct xs; [congruence | simpl; lia]).
    pose proof (Nat.mod_upper_bound (random_index (w_tick w)) (length xs)). lia.
Qed.

Lemma ImageSource_get_random_quiet (self : ImageSource) exclude w :
  returns (ImageSource_get_random self exclude) w (fun _ w' => quiet w w').
Proof.
  unfold ImageSource_get_random.
  destruct (img_files self); [apply run_spec_ret, quiet_refl |].
  destruct (available _ exclude) as [|a av] eqn:Hav; [apply run_spec_ret, quiet_refl |].
  unfold returns. apply run_spec_bind.
  eapply run_spec_mono; [apply (choice_returns (a :: av) w); discriminate | | auto | auto].
  intros x w' (_ & Hd & Hl). apply run_spec_ret.
  split; [exact Hd |]. exists []. rewrite app_nil_r. split; [exact Hl | constructor].
Qed.

Lemma draw_image_quiet (source : option ImageSource) w :
  returns (draw_image source) w (fun _ w' => quiet w w').
Proof.
  unfold draw_image. destruct source as [s|]; [| apply run_spec_ret, quiet_refl].
  destruct (has_files (Some s)); [| apply run_spec_ret, quiet_refl].
  unfold returns. apply run_spec_bind.
  eapply run_spec_mono; [apply ImageSource_get_random_quiet | | auto | auto].
  intros r w' Hq. apply run_spec_ret. exact Hq.
Qed.

Lemma read_file_quiet (p : string) w :
  returns (_read_file p) w (fun _ w' => quiet w w').
Proof.
  apply returns_intro. pose proof (read_file_cases w p) as Hcases.
  destruct (w_contents_cache w !! p).
  - eexists _, _. split; [exact Hcases | apply quiet_refl].
  - destruct (read_text (w_fs w) p); eexists _, _; (split; [exact Hcases |]);
      (split; [reflexivity |]); exists [Ev_read_text p];
      (split; [reflexivity | repeat constructor]).
Qed.

Lemma PromptSource_get_random_quiet (self : PromptSource) exclude w :
  returns (PromptSource_get_random self exclude) w (fun _ w' => quiet w w').
Proof.
  unfold PromptSource_get_random.
  destruct (ps_files self); [apply run_spec_ret, quiet_refl |].
  destruct (available _ exclude) as [|a av] eqn:Hav; [apply run_spec_ret, quiet_refl |].
  unfold returns. apply run_spec_bind.
  eapply run_spec_mono; [apply (choice_returns (a :: av) w); discriminate | | auto | auto].
  intros x w1 (_ & Hd & Hl). apply run_spec_bind.
  eapply run_spec_mono; [apply read_file_quiet | | auto | auto].
  intros c w2 Hq. apply run_spec_ret.
  eapply quiet_trans; [| exact Hq].
  split; [exact Hd |]. exists []. rewrite app_nil_r. split; [exact Hl | constructor].
Qed.

Lemma draw_prompt_quiet (config : BatchConfig) used w :
  returns (draw_prompt config used) w (fun _ w' => quiet w w').
Proof.
  unfold draw_prompt. destruct (prompt_source config) as [ps|];
    [| apply run_spec_ret, quiet_refl].
  destruct (has_prompt_files (Some ps)); [| apply run_spec_ret, quiet_refl].
  unfold returns. apply run_spec_bind.
  eapply run_spec_mono; [apply PromptSource_get_random_quiet | | auto | auto].
  intros [r|] w1 Hq1; [apply run_spec_ret, Hq1 |].
  apply run_spec_bind.
  eapply run_spec_mono; [apply PromptSource_get_random_quiet | | auto | auto].
  intros [r|] w2 Hq2; apply run_spec_ret; eapply quiet_trans; eauto.
Qed.

(** The four draws that open an attempt. *)
Lemma draws_quiet (config : BatchConfig) used w
    (k : string -> string -> string -> string * string -> M combination) Q :
  (forall face outfit background pr w', quiet w w' ->
     returns (k face outfit background pr) w' Q) ->
  returns (face ← draw_image (face_source config);
           outfit ← draw_image (outfit_source config);
           background ← draw_image (background_source config);
           pr ← draw_prompt config used;
           k face outfit background pr) w Q.
Proof.
  intros Hk. unfold returns. apply run_spec_bind.
  eapply run_spec_mono; [apply draw_image_quiet | | auto | auto].
  intros face w1 Hq1. apply run_spec_bind.
  eapply run_spec_mono; [apply draw_image_quiet | | auto | auto].
  intros outfit w2 Hq2. apply run_spec_bind.
  eapply run_spec_mono; [apply draw_image_quiet | | auto | auto].
  intros background w3 Hq3. apply run_spec_bind.
  eapply run_spec_mono; [apply draw_prompt_quiet | | auto | auto].
  intros pr w4 Hq4. apply Hk.
  apply (quiet_trans w w1 w4 Hq1), (quiet_trans w1 w2 w4 Hq2), (quiet_trans w2 w3 w4 Hq3).
  exact Hq4.
Qed.

Lemma select_attempts_unfold attempts config job used :
  select_attempts (S attempts) config job used =
  (face ← draw_image (face_source config);
   outfit ← draw_image (outfit_source config);
   background ← draw_image (background_source config);
   pr ← draw_prompt config used;
   (fun face outfit background (pr : string * string) =>
      let '(prompt_file, prompt_content) := pr in
      if negb (allow_duplicate_combinations config) then
        let combo_hash := _generate_combination_hash face outfit background prompt_file in
        used_ ← db_is_combination_used job combo_hash;
        if used_ : bool then select_attempts attempts config job used
        else
          db_mark_combination_used job combo_hash face outfit background;;
          mret (face, outfit, background, prompt_file, prompt_content)
      else mret (face, outfit, background, prompt_file, prompt_content))
     face outfit background pr).
Proof. reflexivity. Qed.

(** With duplicates allowed a selection is one round of draws. *)
Lemma select_combination_duplicates_allowed config job used w :
  allow_duplicate_combinations config = true ->
  returns (_select_combination config job used) w (fun _ w' => quiet w w').
Proof.
  intros Hdup. unfold _select_combination, max_attempts.
  rewrite select_attempts_unfold. apply draws_quiet.
  intros face outfit background [pf pc] w' Hq. rewrite Hdup. cbn [negb].
  apply run_spec_ret. exact Hq.
Qed.

End Selection.

(** C8. With allow_duplicate_combinations set, _select_combination returns
    after one round of draws without calling is_combination_used or
    mark_combination_used: the store is unchanged and the log gains no ledger
    call.  A tuple can then come back: two calls in a row return the same
    one. *)
Theorem C8_duplicates_allowed_ledger_untouched :
  (forall (R : Runtime) (E : Environment) config job used w,
     allow_duplicate_combinations config = true ->
     exists c w',
       _select_combination config job used w = Returns c w' /\
       w_db w' = w_db w /\
       ledger_calls (w_log w') = ledger_calls (w_log w)) /\
  (exists c w',
     (c1 ← @_select_combination python_runtime steady_env (faces_config 2 true) 1 None;
      c2 ← @_select_combination python_runtime steady_env (faces_config 2 true) 1 None;
      mret (c1, c2)) (fresh_world demo_fs) = Returns (c, c) w').
Proof.
  split.
  - intros R E config job used w Hdup.
    pose proof (select_combination_duplicates_allowed config job used w Hdup) as Hr.
    apply returns_intro in Hr as (c & w' & Heq & Hq).
    exists c, w'. split; [exact Heq |]. split; [apply Hq | now apply quiet_ledger_calls].
  - eexists _, _. vm_compute. reflexivity.
Qed.

Lemma C8_duplicates_allowed_ledger_untouched_witness :
  exists c w',
    @_select_combination python_runtime steady_env (faces_config 2 true) 1 None
      (fresh_world demo_fs) = Returns c w' /\
    w_db w' = empty_db /\
    ledger_calls (w_log w') = [].
Proof.
  exact (proj1 C8_duplicates_allowed_ledger_untouched python_runtime steady_env
           (faces_config 2 true) 1 None (fresh_world demo_fs) eq_refl).
Defined.

(** ** Task preparation without duplicates *)

Lemma creations_app l1 l2 : creations (l1 ++ l2) = creations l1 ++ creations l2.
Proof.
  induction l1 as [|e l1 IH]; [reflexivity |].
  destruct e; simpl; rewrite ?IH; reflexivity.
Qed.

Lemma creations_selection evs : Forall is_selection_event evs -> creations evs = [].
Proof.
  induction 1 as [|e evs He _ IH]; [reflexivity |].
  destruct e; try contradiction; exact IH.
Qed.

Lemma distinct_or_empty_snoc cs c :
  distinct_or_empty cs -> (c ∈ cs -> c = empty_tuple) -> distinct_or_empty (cs ++ [c]).
Proof.
  intros Hd Hc i j x Hij Hi Hj.
  apply lookup_snoc_Some in Hi as [[Hi1 Hi2] | [Hi1 Hi2]];
    apply lookup_snoc_Some in Hj as [[Hj1 Hj2] | [Hj1 Hj2]].
  - exact (Hd i j x Hij Hi2 Hj2).
  - subst x. apply Hc. apply list_elem_of_lookup. eauto.
  - subst x. apply Hc. apply list_elem_of_lookup. eauto.
  - lia.
Qed.

Section Preparation.

Context `{Runtime} `{Environment}.

Lemma quiet_selection w w' : quiet w w' -> log_grows is_selection_event w w'.
Proof.
  intros [_ Hl]. eapply log_grows_weaken; [| exact Hl].
  intros e He. destruct e; try contradiction; exact I.
Qed.

Lemma db_is_combination_used_spec job h w Q E H' :
  (forall w', w_db w' = w_db w ->
              w_log w' = w_log w ++ [Ev_is_combination_used job h] ->
              Q (is_combination_used (w_db w) job h) w') ->
  run_spec (db_is_combination_used job h) w Q E H'.
Proof. intros HQ. apply HQ; reflexivity. Qed.

Lemma db_mark_combination_used_spec job h f o b w Q E H' :
  (forall w' now,
     w_db w' = mark_combination_used (w_db w) now job h f o b ->
     w_log w' = w_log w ++ [Ev_mark_combination_used job h] ->
     Q tt w') ->
  run_spec (db_mark_combination_used job h f o b) w Q E H'.
Proof. intros HQ. eapply HQ; reflexivity. Qed.

Lemma db_create_generation_task_spec job face outfit background pf pc text w Q E H' :
  (forall w' rowid now,
     used_combinations (w_db w') = used_combinations (w_db w) ->
     generation_tasks (w_db w') =
       generation_tasks (w_db w) ++
         [mkTask rowid job None "pending" face outfit background text
                 None None None None now now] ->
     w_log w' = w_log w ++ [Ev_create_generation_task rowid face outfit background pf] ->
     Q rowid w') ->
  run_spec (db_create_generation_task job (face, outfit, background, pf, pc) text) w Q E H'.
Proof. intros HQ. eapply HQ; reflexivity. Qed.

Lemma select_attempts_selected attempts config job used :
  allow_duplicate_combinations config = false ->
  forall w, returns (select_attempts attempts config job used) w (selected job w).
Proof.
  intros Hdup. induction attempts as [|attempts IH]; intros w.
  - apply run_spec_ret. split; [apply log_grows_refl |].
    split; [reflexivity |]. split; [auto | left; reflexivity].
  - rewrite select_attempts_unfold. apply draws_quiet.
    intros face outfit background [pf pc] w1 Hq1. rewrite Hdup. cbn [negb].
    unfold returns. apply run_spec_bind, db_is_combination_used_spec.
    intros w2 Hd2 Hl2.
    assert (Hg2 : log_grows is_selection_event w w2).
    { eapply log_grows_trans; [apply quiet_selection, Hq1 |].
      exists [Ev_is_combination_used job (_generate_combination_hash face outfit background pf)].
      split; [exact Hl2 | repeat constructor]. }
    assert (Hdb2 : w_db w2 = w_db w) by (rewrite Hd2; apply Hq1).
    destruct (is_combination_used (w_db w1) job _) eqn:Hused.
    + eapply run_spec_mono; [apply (IH w2) | | auto | auto].
      intros c w3 (Hg3 & Ht3 & Hmono & Hc). split; [eapply log_grows_trans; eauto |].
      rewrite Hdb2 in Ht3, Hmono, Hc. repeat split; assumption.
    + apply run_spec_bind, db_mark_combination_used_spec.
      intros w3 now Hd3 Hl3. apply run_spec_ret. split; [| split; [| split]].
      * eapply log_grows_trans; [exact Hg2 |].
        eexists. split; [exact Hl3 | repeat constructor].
      * rewrite Hd3, Hdb2. apply mark_keeps_tasks.
      * intros h Hh. rewrite Hd3, Hdb2. now apply mark_keeps_used.
      * right. cbn [tuple_of hash_of]. split.
        -- destruct Hq1 as [Hd1 _]. now rewrite <- Hd1.
        -- rewrite Hd3. apply is_used_after_mark.
Qed.

Lemma prepared_selection job evs0 evs db db' :
  prepared job evs0 db ->
  creations evs = [] ->
  (forall h, is_combination_used db job h = true -> is_combination_used db' job h = true) ->
  prepared job (evs0 ++ evs) db'.
Proof.
  intros [Hd Hu] He Hmono. unfold prepared.
  rewrite creations_app, He, app_nil_r. split; [exact Hd | auto].
Qed.

Lemma prepare_loop_prepared remaining job config :
  allow_duplicate_combinations config = false ->
  forall w used n evs0,
    prepared job evs0 (w_db w) ->
    returns (prepare_loop remaining job config used n) w
      (fun n' w' => exists evs rows,
         w_log w' = w_log w ++ evs /\
         prepared job (evs0 ++ evs) (w_db w') /\
         n' = (n + length (creations evs))%nat /\
         generation_tasks (w_db w') = generation_tasks (w_db w) ++ rows /\
         map images_of_task rows = map images_of_tuple (creations evs)).
Proof.
  intros Hdup. induction remaining as [|remaining IH]; intros w used n evs0 Hinv.
  - apply run_spec_ret. exists [], []. rewrite !app_nil_r. simpl. auto with lia.
  - cbn [prepare_loop]. unfold returns. apply run_spec_bind.
    eapply run_spec_mono;
      [apply (select_attempts_selected max_attempts config job (Some used) Hdup w)
      | | auto | auto].
    intros [[[[face outfit] background] pf] pc] w1
           ((evs1 & Hl1 & Hf1) & Ht1 & Hmono1 & Hc1).
    pose proof (creations_selection evs1 Hf1) as Hcr1.
    destruct (Py.truthy (_build_prompt pc face outfit background)); cbn [negb].
    + apply run_spec_bind, db_create_generation_task_spec.
      intros w2 rowid now Hu2 Ht2 Hl2.
      set (ev := Ev_create_generation_task rowid face outfit background pf) in *.
      assert (Hsame : forall h, is_combination_used (w_db w2) job h
                                = is_combination_used (w_db w1) job h).
      { intros h. unfold is_combination_used. now rewrite Hu2. }
      assert (Hinv2 : prepared job (evs0 ++ evs1 ++ [ev]) (w_db w2)).
      { destruct Hinv as [Hd Hu]. unfold prepared.
        rewrite !creations_app, Hcr1. cbn [creations app]. split.
        - apply distinct_or_empty_snoc; [exact Hd |].
          intros Hin. destruct Hc1 as [Hc1 | [Hc1 _]]; [exact Hc1 |].
          destruct (decide ((face, outfit, background, pf) = empty_tuple)) as [|Hne];
            [assumption |].
          specialize (Hu _ Hin Hne). cbn [tuple_of] in Hc1. congruence.
        - intros c Hin Hne. rewrite Hsame.
          apply elem_of_app in Hin as [Hin | Hin].
          + apply Hmono1, Hu; assumption.
          + apply list_elem_of_singleton in Hin. subst c.
            destruct Hc1 as [Hc1 | [_ Hc1]]; [contradiction | exact Hc1]. }
      eapply run_spec_mono; [apply (IH w2 _ (S n) _ Hinv2) | | auto | auto].
      intros n' w3 (evs3 & rows3 & Hl3 & Hinv3 & Hn3 & Ht3 & Hr3).
      eexists ((evs1 ++ [ev]) ++ evs3), (_ :: rows3). split; [| split; [| split; [| split]]].
      * rewrite Hl3, Hl2, Hl1. now rewrite <- !app_assoc.
      * rewrite <- !app_assoc in *. exact Hinv3.
      * rewrite Hn3, !creations_app, Hcr1, !length_app. simpl. lia.
      * rewrite Ht3, Ht2, Ht1, <- app_assoc. reflexivity.
      * rewrite !creations_app, Hcr1. cbn. now rewrite Hr3.
    + apply run_spec_bind, emit_spec. intros w2 Hd2 Hl2 _ _.
      assert (Hinv2 : prepared job (evs0 ++ evs1 ++ [Ev_notify None None None]) (w_db w2)).
      { apply (prepared_selection job evs0 _ (w_db w) (w_db w2));
          [exact Hinv | | rewrite Hd2; exact Hmono1].
        rewrite creations_app, Hcr1. reflexivity. }
      eapply run_spec_mono; [apply (IH w2 _ n _ Hinv2) | | auto | auto].
      intros n' w3 (evs3 & rows3 & Hl3 & Hinv3 & Hn3 & Ht3 & Hr3).
      exists ((evs1 ++ [Ev_notify None None None]) ++ evs3), rows3.
      split; [| split; [| split; [| split]]].
      * rewrite Hl3, Hl2, Hl1. now rewrite <- !app_assoc.
      * rewrite <- !app_assoc in *. exact Hinv3.
      * rewrite Hn3, !creations_app, Hcr1, !length_app. simpl. lia.
      * rewrite Ht3, Hd2, Ht1. reflexivity.
      * rewrite !creations_app, Hcr1. cbn. exact Hr3.
Qed.

End Preparation.

(** C1, as the code has it.  With duplicate combinations disallowed,
    prepare_tasks returns; the tasks it creates are those its log records,
    with these image paths, and any two of them that have the same
    (face, outfit, background, prompt_file) tuple have the all-empty tuple,
    the fallback _select_combination gives up with after 100 attempts.  This
    holds for any pools and any ledger the job starts with. *)
Theorem C1_prepared_tuples_distinct_or_empty :
  forall (R : Runtime) (E : Environment) job config w,
    allow_duplicate_combinations config = false ->
    exists n w' evs rows,
      prepare_tasks job config w = Returns n w' /\
      w_log w' = w_log w ++ evs /\
      generation_tasks (w_db w') = generation_tasks (w_db w) ++ rows /\
      map images_of_task rows = map images_of_tuple (creations evs) /\
      n = length (creations evs) /\
      distinct_or_empty (creations evs).
Proof.
  intros R E job config w Hdup.
  assert (Hinv : prepared job [] (w_db w)).
  { split; [intros i j c _ Hi; destruct i; discriminate | intros c Hc; inversion Hc]. }
  pose proof (prepare_loop_prepared (Z.to_nat (cfg_total_count config)) job config Hdup
                w ∅ 0%nat [] Hinv) as Hr.
  apply returns_intro in Hr as (n & w' & Heq & evs & rows & Hl & [Hd _] & Hn & Ht & Hrows).
  exists n, w', evs, rows. repeat split; assumption.
Qed.

Lemma C1_prepared_tuples_distinct_or_empty_witness :
  exists n w' evs rows,
    @prepare_tasks python_runtime steady_env 1 (faces_config 3 false) (fresh_world demo_fs)
    = Returns n w' /\
    w_log w' = [] ++ evs /\
    generation_tasks (w_db w') = [] ++ rows /\
    map images_of_task rows = map images_of_tuple (creations evs) /\
    n = length (creations evs) /\
    distinct_or_empty (creations evs).
Proof.
  exact (C1_prepared_tuples_distinct_or_empty python_runtime steady_env 1
           (faces_config 3 false) (fresh_world demo_fs) eq_refl).
Defined.

(** C1 as stated fails.  One face pool of three images and three tasks
    requested: when the draws keep giving the first image, the second and the
    third selection exhaust their 100 attempts and both fall back to the
    all-empty tuple, and both tasks are created.  With no pool at all the same
    happens whatever the draws are. *)
Lemma C1_fallback_tuple_repeats :
  (exists w',
     @prepare_tasks python_runtime steady_env 1 (faces_config 3 false) (fresh_world demo_fs)
     = Returns 3%nat w' /\
     creations (w_log w') = [("in/faces/a.jpg", "", "", ""); empty_tuple; empty_tuple] /\
     map images_of_task (generation_tasks (w_db w'))
     = [("in/faces/a.jpg", "", ""); ("", "", ""); ("", "", "")]) /\
  (exists w',
     @prepare_tasks python_runtime steady_env 1
        (mkConfig "no pools" 2 "a cat" None None None None "m" "2K" "1:1" false "")
        (fresh_world demo_fs)
     = Returns 2%nat w' /\
     creations (w_log w') = [empty_tuple; empty_tuple]).
Proof.
  split; eexists; vm_compute; repeat split; reflexivity.
Qed.

(** ** The store during a run *)

Lemma find_map_preserving {A} (p : A -> bool) (f : A -> A) (l : list A) :
  (forall x, p (f x) = p x) -> find p (map f l) = option_map f (find p l).
Proof.
  intros Hp. induction l as [|x l IH]; [reflexivity |].
  simpl. rewrite Hp. destruct (p x); [reflexivity | exact IH].
Qed.

Lemma counts_advance_refl job db : counts_advance job 0 0 db db.
Proof. intros j Hj. exists j. rewrite !Z.add_0_r. auto. Qed.

Lemma counts_advance_trans job dc1 df1 dc2 df2 db1 db2 db3 :
  counts_advance job dc1 df1 db1 db2 -> counts_advance job dc2 df2 db2 db3 ->
  counts_advance job (dc1 + dc2) (df1 + df2) db1 db3.
Proof.
  intros H1 H2 j Hj. destruct (H1 j Hj) as (j2 & Hj2 & Hc2 & Hf2).
  destruct (H2 j2 Hj2) as (j3 & Hj3 & Hc3 & Hf3).
  exists j3. split; [exact Hj3 | lia].
Qed.

Lemma counts_advance_same_jobs job db db' :
  batch_jobs db' = batch_jobs db -> counts_advance job 0 0 db db'.
Proof.
  intros Hb j Hj. exists j. unfold get_batch_job in *. rewrite Hb, !Z.add_0_r. auto.
Qed.

Lemma increment_advances job now (completed_ : bool) db :
  counts_advance job (if completed_ then 1 else 0) (if completed_ then 0 else 1)
                 db (increment_batch_job_count db now job completed_).
Proof.
  intros j Hj. unfold get_batch_job, increment_batch_job_count in *. cbn [batch_jobs with_batch_jobs].
  rewrite find_map_preserving, Hj.
  - apply find_some in Hj as [_ Hid]. cbn [option_map]. rewrite Hid.
    destruct completed_; eexists; (split; [reflexivity |]); cbn; lia.
  - intros x. destruct (Z.eqb (job_id x) job) eqn:E; [| exact E].
    destruct completed_; cbn; exact E.
Qed.

Lemma job_status_keeps_counts job now st db :
  counts_advance job 0 0 db (update_batch_job_status db now job st).
Proof.
  intros j Hj. unfold get_batch_job, update_batch_job_status in *. cbn [batch_jobs with_batch_jobs].
  rewrite find_map_preserving, Hj.
  - apply find_some in Hj as [_ Hid]. cbn [option_map]. rewrite Hid.
    eexists; (split; [reflexivity |]); cbn; lia.
  - intros x. destruct (Z.eqb (job_id x) job) eqn:E; [cbn |]; exact E.
Qed.

Lemma job_status_written job now st db j :
  get_batch_job db job = Some j ->
  exists j', get_batch_job (update_batch_job_status db now job st) job = Some j' /\
             job_status j' = st.
Proof.
  intros Hj. unfold get_batch_job, update_batch_job_status in *. cbn [batch_jobs with_batch_jobs].
  rewrite find_map_preserving, Hj.
  - apply find_some in Hj as [_ Hid]. cbn [option_map]. rewrite Hid.
    eexists; split; reflexivity.
  - intros x. destruct (Z.eqb (job_id x) job) eqn:E; [cbn |]; exact E.
Qed.

Lemma tasks_settle_refl db : tasks_settle [] db db.
Proof. split; [reflexivity | intros i Hi; inversion Hi]. Qed.

Lemma tasks_settle_same_tasks db db' :
  generation_tasks db' = generation_tasks db -> tasks_settle [] db db'.
Proof.
  intros Ht. split; [| intros i Hi; inversion Hi].
  intros i _. unfold get_task. now rewrite Ht.
Qed.

Lemma tasks_settle_trans t1 t2 db1 db2 db3 :
  tasks_settle t1 db1 db2 -> tasks_settle t2 db2 db3 -> tasks_settle (t1 ++ t2) db1 db3.
Proof.
  intros [Hk1 Hs1] [Hk2 Hs2]. split.
  - intros i Hi. rewrite not_elem_of_app in Hi. destruct Hi as [Hi1 Hi2].
    rewrite (Hk2 i Hi2). exact (Hk1 i Hi1).
  - intros i Hi t Ht.
    destruct (decide (i ∈ t2)) as [Hi2|Hi2].
    + destruct (decide (i ∈ t1)) as [Hi1|Hi1].
      * destruct (Hs1 i Hi1 t Ht) as (t' & Ht' & _). exact (Hs2 i Hi2 t' Ht').
      * rewrite <- (Hk1 i Hi1) in Ht. exact (Hs2 i Hi2 t Ht).
    + apply elem_of_app in Hi as [Hi1|Hi]; [| contradiction].
      destruct (Hs1 i Hi1 t Ht) as (t' & Ht' & Hterm).
      exists t'. rewrite (Hk2 i Hi2). auto.
Qed.

Section StoreRun.

Context `{Runtime}.

Lemma update_task_status_jobs db now task st a b c d e :
  batch_jobs (update_task_status db now task st a b c d e) = batch_jobs db.
Proof. reflexivity. Qed.

Lemma updated_row_id now task st a b c d (e : option Dict) i x :
  Z.eqb (id (if Z.eqb (id x) task
             then fold_left (assign now)
                    (let updates := [Set_status st; Set_updated_at_current_timestamp] in
                     let updates := append_if_truthy a Set_api_request_id updates in
                     let updates := append_if_truthy b Set_result_url updates in
                     let updates := append_if_truthy c Set_local_path updates in
                     let updates := append_if_truthy d Set_error_message updates in
                     match e with
                     | Some dd => if truthy_dict (Some dd)
                                  then updates ++ [Set_api_response (json_dumps dd)]
                                  else updates
                     | None => updates
                     end) x
             else x)) i = Z.eqb (id x) i.
Proof.
  destruct (Z.eqb (id x) task); [| reflexivity].
  pose proof (updated_row_columns now st a b c d e x) as Hx. cbv zeta in Hx.
  destruct Hx as ((Hid & _) & _). cbv zeta. now rewrite Hid.
Qed.

Lemma get_task_update_other db now task st a b c d e i :
  i <> task -> get_task (update_task_status db now task st a b c d e) i = get_task db i.
Proof.
  intros Hne. unfold get_task, update_task_status, sql_update_generation_tasks.
  cbn [generation_tasks with_generation_tasks].
  rewrite find_map_preserving by (intros x; apply updated_row_id).
  destruct (find _ (generation_tasks db)) as [t|] eqn:Hf; [| reflexivity].
  apply find_some in Hf as [_ Hid]. apply Z.eqb_eq in Hid. cbn [option_map].
  assert (Z.eqb (id t) task = false) as -> by (apply Z.eqb_neq; congruence).
  reflexivity.
Qed.

Lemma get_task_update_same db now task st a b c d e t :
  get_task db task = Some t ->
  exists t', get_task (update_task_status db now task st a b c d e) task = Some t' /\
             status t' = st.
Proof.
  intros Ht. unfold get_task, update_task_status, sql_update_generation_tasks in *.
  cbn [generation_tasks with_generation_tasks].
  rewrite find_map_preserving by (intros x; apply updated_row_id).
  rewrite Ht. apply find_some in Ht as [_ Hid]. cbn [option_map]. rewrite Hid.
  eexists. split; [reflexivity |].
  pose proof (updated_row_columns now st a b c d e t) as Hx. cbv zeta in Hx.
  destruct Hx as (_ & Hst & _). exact Hst.
Qed.

(** The two writes of a dispatched task: "processing", then a terminal
    status. *)
Lemma dispatch_settles db now1 now2 task st a b c d e :
  terminal st ->
  tasks_settle [task] db
    (update_task_status
       (update_task_status db now1 task "processing" None None None None None)
       now2 task st a b c d e).
Proof.
  intros Hterm. split.
  - intros i Hi. rewrite list_elem_of_singleton in Hi.
    now rewrite !get_task_update_other.
  - intros i Hi t Ht. apply list_elem_of_singleton in Hi. subst i.
    destruct (get_task_update_same db now1 task "processing" None None None None None t Ht)
      as (t1 & Ht1 & _).
    destruct (get_task_update_same _ now2 task st a b c d e t1 Ht1) as (t2 & Ht2 & Hst).
    exists t2. split; [exact Ht2 | now rewrite Hst].
Qed.

End StoreRun.

(** ** Moving a flagged image *)

Lemma fs_step_refl src folder w : fs_step src folder w w.
Proof. split; [reflexivity | apply log_grows_refl]. Qed.

Lemma fs_step_same src folder w w' :
  w_db w' = w_db w -> w_log w' = w_log w -> fs_step src folder w w'.
Proof.
  intros Hd Hl. split; [exact Hd |]. exists []. rewrite app_nil_r. split; [exact Hl | constructor].
Qed.

Lemma fs_step_trans src folder w1 w2 w3 :
  fs_step src folder w1 w2 -> fs_step src folder w2 w3 -> fs_step src folder w1 w3.
Proof.
  intros [D1 L1] [D2 L2]. split; [congruence | eapply log_grows_trans; eauto].
Qed.

Lemma fs_only_ret src folder {A} (a : A) : fs_only src folder (mret a).
Proof. intros w. apply fs_step_refl. Qed.

Lemma fs_only_raise src folder {A} (e : string) : fs_only src folder (@raise A e).
Proof. intros w. apply fs_step_refl. Qed.

Lemma fs_only_bind src folder {A B} (m : M A) (k : A -> M B) :
  fs_only src folder m -> (forall a, fs_only src folder (k a)) ->
  fs_only src folder (m ≫= k).
Proof.
  intros Hm Hk w. apply run_spec_bind.
  eapply run_spec_mono; [apply Hm | | auto | auto].
  intros a w1 H1. eapply run_spec_mono; [apply Hk | | | auto];
    intros ? w2 H2; exact (fs_step_trans _ _ _ _ _ H1 H2).
Qed.

Section Move.

Context `{Environment}.

Lemma fs_only_observe src folder {A} (f : nat -> A) : fs_only src folder (observe f).
Proof. intros w. apply fs_step_same; reflexivity. Qed.

Lemma fs_only_path_exists src folder p : fs_only src folder (path_exists p).
Proof. intros w. apply fs_step_refl. Qed.

Lemma fs_only_mkdir src folder p : fs_only src folder (mkdir p).
Proof.
  unfold mkdir. apply fs_only_bind; [apply fs_only_observe |].
  intros [|]; [apply fs_only_raise |].
  intros w. unfold run_spec, mbind, M_bind, get_fs.
  destruct (mkdir_parents _ _ _); cbn; apply fs_step_same; reflexivity.
Qed.

Lemma fs_only_shutil_move src folder x :
  fs_only src folder (shutil_move src (Path.joinpath folder x)).
Proof.
  unfold shutil_move. apply fs_only_bind; [apply fs_only_observe |].
  intros [|]; [apply fs_only_raise |].
  intros w. unfold run_spec, mbind, M_bind, get_fs.
  destruct (w_fs w !! src) as [n|]; [| apply fs_step_refl].
  set (dst := Path.joinpath folder x).
  set (real_dst := if is_dir (w_fs w) dst then Path.joinpath dst (Path.name src) else dst).
  assert (Hmoved : fs_step src folder w
            (mkWorld (w_db w) (rename_entries src real_dst (w_fs w)) (w_contents_cache w)
                     (w_current_job_id w) (w_tick w)
                     (w_log w ++ [Ev_shutil_move src real_dst]))).
  { split; [reflexivity |]. exists [Ev_shutil_move src real_dst].
    split; [reflexivity |]. constructor; [| constructor].
    split; [reflexivity |]. exists x. unfold real_dst, dst.
    destruct (is_dir _ _); auto. }
  destruct (is_dir (w_fs w) dst && exists_ (w_fs w) real_dst); [apply fs_step_refl |].
  destruct n; [cbn; apply Hmoved |].
  destruct (w_fs w !! real_dst); cbn; [apply fs_step_refl | apply Hmoved].
Qed.

(** _move_error_image never raises: it logs its call, then at most moves
    the image into the folder. *)
Lemma move_error_image_returns image_path folder w :
  returns (_move_error_image image_path folder) w
    (fun _ w' => w_db w' = w_db w /\
                 exists moved, w_log w' = w_log w ++ Ev_move_error_image image_path folder :: moved /\
                               Forall (is_move_into image_path folder) moved).
Proof.
  unfold returns, _move_error_image. apply run_spec_bind.
  unfold run_spec at 1. cbn [emit].
  set (w1 := mkWorld _ _ _ _ _ _).
  assert (Hpost : forall w', fs_step image_path folder w1 w' ->
            w_db w' = w_db w /\
            exists moved, w_log w' = w_log w ++ Ev_move_error_image image_path folder :: moved /\
                          Forall (is_move_into image_path folder) moved).
  { intros w' [Hd (moved & Hl & Hf)]. split; [exact Hd |].
    exists moved. split; [| exact Hf]. rewrite Hl. unfold w1. cbn [w_log].
    now rewrite <- app_assoc. }
  destruct (negb (Py.truthy image_path) || negb (Py.truthy folder)).
  - apply run_spec_ret, Hpost, fs_step_refl.
  - apply run_spec_try_except.
    eapply run_spec_mono; [| | | exact (fun f : False => f)].
    + assert (Hbody : fs_only image_path folder
        (src_exists ← path_exists image_path;
         if negb src_exists then mret false
         else
           mkdir folder;;
           let dest_path := Path.joinpath folder (Path.name image_path) in
           dest_exists ← path_exists dest_path;
           dest_path ←
             (if dest_exists : bool then
                timestamp ← observe strftime_now;
                mret (Path.joinpath folder
                        (Path.stem image_path +:+ "_" +:+ timestamp +:+ Path.suffix image_path))
              else mret dest_path);
           shutil_move image_path dest_path;;
           mret true)).
      { apply fs_only_bind; [apply fs_only_path_exists |].
        intros [|]; cbn [negb]; [| apply fs_only_ret].
        apply fs_only_bind; [apply fs_only_mkdir | intros _].
        apply fs_only_bind; [apply fs_only_path_exists | intros dest_exists].
        destruct dest_exists.
        - intros w2. apply run_spec_bind, run_spec_bind.
          eapply run_spec_mono; [apply (fs_only_observe image_path folder) | | auto | auto].
          intros ts w3 H3. apply run_spec_ret.
          eapply run_spec_mono;
            [apply (fs_only_bind image_path folder _ (fun _ => mret true));
               [apply fs_only_shutil_move | intros _; apply fs_only_ret]
            | | | auto];
            intros ? w4 H4; exact (fs_step_trans _ _ _ _ _ H3 H4).
        - intros w2. apply run_spec_bind, run_spec_ret.
          apply (fs_only_bind image_path folder _ (fun _ => mret true));
            [apply fs_only_shutil_move | intros _; apply fs_only_ret]. }
      apply (Hbody w1).
    + intros b w' Hs. apply Hpost, Hs.
    + intros e w' Hs. apply run_spec_ret, Hpost, Hs.
Qed.

End Move.

Lemma mkdir_parents_keeps fuel : forall (fs fs' : FileSystem) p q n,
  mkdir_parents fuel fs p = Some fs' -> fs !! q = Some n -> fs' !! q = Some n.
Proof.
  induction fuel as [|fuel IH]; intros fs fs' p q n Hm Hq; cbn [mkdir_parents] in Hm.
  - destruct (fs !! p) as [[|]|]; try discriminate; [congruence |].
    destruct (String.eqb p "." || String.eqb p "/"); [congruence | discriminate].
  - destruct (fs !! p) as [[|]|] eqn:Hp; try discriminate; [congruence |].
    destruct (String.eqb p "." || String.eqb p "/"); [congruence |].
    destruct (mkdir_parents fuel fs (Path.parent p)) as [fs''|] eqn:Hr; [| discriminate].
    injection Hm as <-. rewrite lookup_insert_ne; [exact (IH _ _ _ _ _ Hr Hq) | congruence].
Qed.

Section MoveSucceeds.

Context `{Environment}.

(** When the image is there, the folder can be made, no file of that name is
    in it and the two file operations go through, the call moves the image
    under its own name and returns True. *)
Lemma move_error_image_moves image folder w fs1 n :
  Py.truthy image = true -> Py.truthy folder = true ->
  w_fs w !! image = Some n ->
  io_fails (w_tick w) = false -> io_fails (S (w_tick w)) = false ->
  mkdir_parents (S (String.length folder)) (w_fs w) folder = Some fs1 ->
  fs1 !! Path.joinpath folder (Path.name image) = None ->
  _move_error_image image folder w =
  Returns true
    (mkWorld (w_db w)
             (rename_entries image (Path.joinpath folder (Path.name image)) fs1)
             (w_contents_cache w) (w_current_job_id w) (S (S (w_tick w)))
             (w_log w ++ [Ev_move_error_image image folder;
                          Ev_shutil_move image (Path.joinpath folder (Path.name image))])).
Proof.
  intros Hi Hf Hsrc Hio1 Hio2 Hmk Hfree.
  pose proof (mkdir_parents_keeps _ _ _ _ _ _ Hmk Hsrc) as Hsrc1.
  destruct w as [d fs c j t l].
  cbn [w_fs w_tick w_db w_log w_contents_cache w_current_job_id] in *.
  cbv beta iota delta [_move_error_image try_except mbind M_bind emit path_exists get_fs
    mkdir shutil_move observe put_fs mret M_ret exists_ is_dir raise
    w_fs w_tick w_db w_log w_contents_cache w_current_job_id].
  repeat (progress (rewrite ?Hi, ?Hf, ?Hsrc, ?Hio1, ?Hmk, ?Hfree, ?Hio2, ?Hsrc1;
                    cbn [negb orb andb];
                    cbv beta iota delta [w_fs w_tick w_db w_log w_contents_cache
                                         w_current_job_id])).
  destruct n; rewrite <- app_assoc; reflexivity.
Qed.

End MoveSucceeds.

(** ** One task of a run *)

Lemma counts_advance_after job dc df db db1 db2 :
  batch_jobs db1 = batch_jobs db -> counts_advance job dc df db1 db2 ->
  counts_advance job dc df db db2.
Proof.
  intros Hb Hc j Hj. apply Hc. unfold get_batch_job in *. now rewrite Hb.
Qed.

Lemma tasks_settle_after touched db db1 db2 :
  tasks_settle touched db db1 -> generation_tasks db2 = generation_tasks db1 ->
  tasks_settle touched db db2.
Proof.
  intros Hs Ht. pose proof (tasks_settle_trans _ _ _ _ _ Hs (tasks_settle_same_tasks _ _ Ht)) as Hr.
  now rewrite app_nil_r in Hr.
Qed.

Section Task.

Context `{Runtime} `{Environment}.

Lemma db_update_task_status_spec task st a b c d e w Q E H' :
  (forall w' now,
     w_db w' = update_task_status (w_db w) now task st a b c d e ->
     w_log w' = w_log w ++ [Ev_update_task_status task st] ->
     Q tt w') ->
  run_spec (db_update_task_status task st a b c d e) w Q E H'.
Proof. intros HQ. eapply HQ; reflexivity. Qed.

Lemma db_increment_batch_job_count_spec job c w Q E H' :
  (forall w' now,
     w_db w' = increment_batch_job_count (w_db w) now job c ->
     w_log w' = w_log w ++ [Ev_increment_batch_job_count job c] ->
     Q tt w') ->
  run_spec (db_increment_batch_job_count job c) w Q E H'.
Proof. intros HQ. eapply HQ; reflexivity. Qed.

Lemma db_update_batch_job_status_spec job st w Q E H' :
  (forall w' now,
     w_db w' = update_batch_job_status (w_db w) now job st ->
     w_log w' = w_log w ++ [Ev_update_batch_job_status job st] ->
     Q tt w') ->
  run_spec (db_update_batch_job_status job st) w Q E H'.
Proof. intros HQ. eapply HQ; reflexivity. Qed.

Lemma process_task_processed job config task results w :
  wp (process_task job config task results) w (processed job config task results w).
Proof.
  unfold wp, process_task.
  apply run_spec_bind, emit_spec. intros w1 Hd1 Hl1 _ _.
  apply run_spec_bind, db_update_task_status_spec. intros w2 now2 Hd2 Hl2.
  apply run_spec_bind. unfold api_generate_and_wait.
  apply run_spec_bind, observe_spec. intros w3 Hd3 Hl3 _ _.
  set (call := mkCall _ _ _ _ _).
  destruct (generate_and_wait (w_tick w2) call) as [r|e] eqn:Hanswer;
    apply run_spec_bind, emit_spec; intros w4 Hd4 Hl4 _ _; [| exact I].
  apply run_spec_ret. fold (task_ok r).
  assert (Hlog4 : w_log w4 = w_log w ++
            [ Ev_notify (Some "processing") (Some (id task)) None;
              Ev_update_task_status (id task) "processing";
              Ev_generate_and_wait task call (ApiReturns r) ]).
  { rewrite Hl4, Hl3, Hl2, Hl1, <- !app_assoc. reflexivity. }
  assert (Hdb4 : w_db w4 =
            update_task_status (w_db w) now2 (id task) "processing" None None None None None).
  { rewrite Hd4, Hd3, Hd2, Hd1. reflexivity. }
  clearbody call. clear Hl4 Hl3 Hl2 Hl1 Hd4 Hd3 Hd2 Hd1 Hanswer w1 w2 w3.
  destruct (task_ok r) eqn:Hok.
  - unfold on_success.
    apply run_spec_bind, db_update_task_status_spec. intros w5 now5 Hd5 Hl5.
    apply run_spec_bind, db_increment_batch_job_count_spec. intros w6 now6 Hd6 Hl6.
    apply run_spec_bind, emit_spec. intros w7 Hd7 Hl7 _ _.
    apply run_spec_ret. exists call, r, []. unfold task_events, outcome_events.
    rewrite Hok. split; [| split; [constructor |]].
    { rewrite Hl7, Hl6, Hl5, Hlog4, <- !app_assoc. reflexivity. }
    repeat split; try reflexivity; try (cbn; lia).
    + rewrite Hd7, Hd6. eapply counts_advance_after; [| apply (increment_advances job now6 true)].
      rewrite Hd5, Hdb4. reflexivity.
    + rewrite Hd7, Hd6. eapply tasks_settle_after; [| reflexivity].
      rewrite Hd5, Hdb4. apply dispatch_settles. left. reflexivity.
    + rewrite Hd7, Hd6. eapply tasks_settle_after; [| reflexivity].
      rewrite Hd5, Hdb4. apply dispatch_settles. left. reflexivity.
  - unfold on_failure. fold (error_text r).
    apply run_spec_bind, db_update_task_status_spec. intros w5 now5 Hd5 Hl5.
    apply run_spec_bind, db_increment_batch_job_count_spec. intros w6 now6 Hd6 Hl6.
    assert (Hc6 : counts_advance job 0 1 (w_db w) (w_db w6)).
    { rewrite Hd6. eapply counts_advance_after; [| apply (increment_advances job now6 false)].
      rewrite Hd5, Hdb4. reflexivity. }
    assert (Ht6 : tasks_settle [id task] (w_db w) (w_db w6)).
    { rewrite Hd6. eapply tasks_settle_after; [| reflexivity].
      rewrite Hd5, Hdb4. apply dispatch_settles. right. reflexivity. }
    assert (Hlog6 : w_log w6 = w_log w ++
              [ Ev_notify (Some "processing") (Some (id task)) None;
                Ev_update_task_status (id task) "processing";
                Ev_generate_and_wait task call (ApiReturns r);
                Ev_update_task_status (id task) "failed";
                Ev_increment_batch_job_count job false ]).
    { rewrite Hl6, Hl5, Hlog4, <- !app_assoc. reflexivity. }
    clear Hl6 Hl5 Hd6 Hd5 Hlog4 Hdb4 w4 w5.
    apply run_spec_bind.
    assert (Hfinish : forall (res1 : Results) moved w7,
              w_db w7 = w_db w6 ->
              w_log w7 = w_log w6 ++
                (if move_due config task r
                 then Ev_move_error_image (outfit_image_path task) (error_folder config) :: moved
                 else []) ->
              Forall (is_move_into (outfit_image_path task) (error_folder config)) moved ->
              total res1 = total results -> stopped res1 = stopped results ->
              completed res1 = completed results -> failed res1 = S (failed results) ->
              run_spec
                (emit (Ev_notify (Some "failed") (Some (id task)) (Some (error_text r)));;
                 mret res1) w7
                (processed job config task results w) (fun _ _ => True) True).
    { intros res1 moved w7 Hd7 Hl7 Hmoved Ht Hs Hc Hf.
      apply run_spec_bind, emit_spec. intros w8 Hd8 Hl8 _ _. apply run_spec_ret.
      exists call, r, moved. unfold task_events, outcome_events. rewrite Hok.
      split; [| split; [exact Hmoved |]].
      { rewrite Hl8, Hl7, Hlog6, <- !app_assoc. reflexivity. }
      rewrite Hd8, Hd7. repeat split; try assumption; try (rewrite ?Hc, ?Hf; lia).
      - apply Ht6.
      - apply Ht6. }
    unfold move_due in Hfinish.
    destruct (Py.truthy (error_folder config) && Py.truthy (outfit_image_path task)) eqn:Hcfg;
      cbn [andb] in Hfinish.
    + destruct (_is_content_policy_error (error_text r)) eqn:Hpolicy.
      * apply run_spec_bind.
        eapply run_spec_mono;
          [apply returns_wp, move_error_image_returns | | auto | auto].
        intros moved_ok w7 (Hd7 & moved & Hl7 & Hmoved).
        destruct moved_ok; apply run_spec_ret;
          apply (Hfinish _ moved w7); auto.
      * apply run_spec_ret. apply (Hfinish _ [] w6); auto using app_nil_r.
    + apply run_spec_ret. apply (Hfinish _ [] w6); auto using app_nil_r.
Qed.

End Task.

(** ** What a log says of a run *)

Lemma increments_app job c l1 l2 :
  increments job c (l1 ++ l2) = (increments job c l1 + increments job c l2)%nat.
Proof. unfold increments. now rewrite flat_map_app, length_app. Qed.

Lemma moves_justified_app config l1 l2 :
  moves_justified config l1 -> moves_justified config l2 ->
  moves_justified config (l1 ++ l2).
Proof.
  intros H1 H2 s d Hin. unfold move_calls. rewrite flat_map_app.
  apply in_app_or in Hin as [Hin | Hin].
  - destruct (H1 s d Hin) as [Hc Hm]. split; [apply in_or_app; left; exact Hc | exact Hm].
  - destruct (H2 s d Hin) as [Hc Hm]. split; [apply in_or_app; right; exact Hc | exact Hm].
Qed.

Lemma run_segment_app job config ts1 ts2 e1 e2 :
  run_segment job config ts1 e1 -> run_segment job config ts2 e2 ->
  run_segment job config (ts1 ++ ts2) (e1 ++ e2).
Proof.
  intros (D1 & P1 & I1 & M1 & J1) (D2 & P2 & I2 & M2 & J2).
  unfold run_segment, dispatched, processing_transitions, move_calls, expected_move_calls in *.
  rewrite !flat_map_app, !increments_app, map_app, length_app.
  split; [congruence | split; [congruence | split; [lia | split; [congruence |]]]].
  now apply moves_justified_app.
Qed.

Lemma run_segment_control job config evs :
  Forall is_control evs -> run_segment job config [] evs.
Proof.
  induction 1 as [|e evs He _ IH].
  - do 4 (split; [reflexivity |]). intros s d [].
  - change (e :: evs) with ([e] ++ evs). change (@nil generation_task) with (@nil generation_task ++ []).
    apply run_segment_app; [| exact IH].
    destruct e; try contradiction; do 4 (split; [reflexivity |]);
      intros s d [Hin | []]; discriminate.
Qed.

Lemma increments_control job c evs : Forall is_control evs -> increments job c evs = 0%nat.
Proof.
  induction 1 as [|e evs He _ IH]; [reflexivity |].
  change (e :: evs) with ([e] ++ evs). rewrite increments_app, IH.
  destruct e; try contradiction; reflexivity.
Qed.

Lemma increments_moved job c src folder moved :
  Forall (is_move_into src folder) moved -> increments job c moved = 0%nat.
Proof.
  induction 1 as [|e evs He _ IH]; [reflexivity |].
  change (e :: evs) with ([e] ++ evs). rewrite increments_app, IH.
  destruct e; try contradiction; reflexivity.
Qed.

Lemma moved_plain src folder moved :
  Forall (is_move_into src folder) moved ->
  dispatched moved = [] /\ processing_transitions moved = [] /\
  move_calls moved = [] /\ no_stop_seen moved /\
  forall config, expected_move_calls config moved = [].
Proof.
  induction 1 as [|e evs He _ (D & P & M & N & X)].
  - repeat split; constructor.
  - destruct e; try contradiction.
    do 3 (split; [assumption |]). split; [| exact X].
    constructor; [discriminate | exact N].
Qed.

Lemma no_stop_seen_app l1 l2 : no_stop_seen l1 -> no_stop_seen l2 -> no_stop_seen (l1 ++ l2).
Proof. apply Forall_app_2. Qed.

Lemma task_events_segment job config task call r moved :
  Forall (is_move_into (outfit_image_path task) (error_folder config)) moved ->
  run_segment job config [task] (task_events job config task call r moved) /\
  increments job true (task_events job config task call r moved)
    = (if task_ok r then 1 else 0)%nat /\
  increments job false (task_events job config task call r moved)
    = (if task_ok r then 0 else 1)%nat /\
  no_stop_seen (task_events job config task call r moved).
Proof.
  intros Hmoved.
  destruct (moved_plain _ _ _ Hmoved) as (Dm & Pm & Mm & Nm & Xm).
  pose proof (increments_moved job true _ _ _ Hmoved) as It.
  pose proof (increments_moved job false _ _ _ Hmoved) as If.
  unfold task_events, outcome_events, run_segment.
  destruct (task_ok r) eqn:Hok.
  - unfold increments. cbn. rewrite Z.eqb_refl. cbn. rewrite Hok. cbn.
    split; [| split; [reflexivity | split; [reflexivity |]]].
    + do 4 (split; [reflexivity |]). intros s d Hin. cbn in Hin.
      repeat (destruct Hin as [Hin | Hin]; [discriminate Hin |]). destruct Hin.
    + repeat (constructor; [discriminate |]). constructor.
  - set (head := [Ev_notify (Some "processing") (Some (id task)) None;
                  Ev_update_task_status (id task) "processing";
                  Ev_generate_and_wait task call (ApiReturns r)] ++
                 [Ev_update_task_status (id task) "failed";
                  Ev_increment_batch_job_count job false]).
    set (last := [Ev_notify (Some "failed") (Some (id task)) (Some (error_text r))]).
    set (mid := if move_due config task r
                then Ev_move_error_image (outfit_image_path task) (error_folder config) :: moved
                else []).
    change (_ ++ _ ++ mid ++ last) with (head ++ mid ++ last).
    assert (Hmid : dispatched mid = [] /\ processing_transitions mid = [] /\
                   increments job true mid = 0%nat /\ increments job false mid = 0%nat /\
                   expected_move_calls config mid = [] /\ no_stop_seen mid /\
                   move_calls mid =
                     (if move_due config task r
                      then [(outfit_image_path task, error_folder config)] else []) /\
                   moves_justified config mid).
    { unfold mid. destruct (move_due config task r).
      - change (?e :: moved) with ([e] ++ moved).
        unfold dispatched, processing_transitions, move_calls, expected_move_calls in *.
        rewrite !increments_app, !flat_map_app, It, If. cbn [flat_map app].
        rewrite Dm, Pm, Mm, Xm.
        do 5 (split; [reflexivity |]).
        split; [constructor; [discriminate | exact Nm] |].
        split; [reflexivity |].
        intros s d [Hin | Hin]; [discriminate Hin |].
        rewrite Forall_forall in Hmoved. specialize (Hmoved _ (proj2 (list_elem_of_In _ _) Hin)).
        destruct Hmoved as [Hs Hx]. subst s.
        split; [left; reflexivity | split; [reflexivity | exact Hx]].
      - do 5 (split; [reflexivity |]). split; [constructor |].
        split; [reflexivity | intros s d []]. }
    destruct Hmid as (D & P & I1 & I2 & X & N & M & J).
    assert (HJ : moves_justified config (head ++ mid ++ last)).
    { apply moves_justified_app; [| apply moves_justified_app; [exact J |]];
        intros s d Hin; cbn in Hin;
        repeat (destruct Hin as [Hin | Hin]; [discriminate Hin |]); destruct Hin. }
    assert (HN : no_stop_seen (head ++ mid ++ last)).
    { apply no_stop_seen_app; [| apply no_stop_seen_app; [exact N |]];
        repeat (constructor; [discriminate |]); constructor. }
    split; [| split; [| split; [| exact HN]]].
    + unfold dispatched, processing_transitions, move_calls, expected_move_calls in *.
      rewrite !increments_app, !flat_map_app, D, P, I1, I2, X, M.
      unfold increments, head, last. cbn. rewrite Z.eqb_refl, Hok. cbn.
      do 3 (split; [reflexivity |]).
      split; [destruct (move_due config task r); reflexivity | exact HJ].
    + rewrite !increments_app, I1. unfold increments, head, last. cbn.
      rewrite Z.eqb_refl. reflexivity.
    + rewrite !increments_app, I2. unfold increments, head, last. cbn.
      rewrite Z.eqb_refl. reflexivity.
Qed.

(** ** The loop of a run *)

Section Loop.

Context `{Runtime} `{Environment}.

Lemma is_set_stop_spec w Q E H' :
  (forall w' b, w_db w' = w_db w -> w_log w' = w_log w ++ [Ev_stop_check b] -> Q b w') ->
  run_spec is_set_stop w Q E H'.
Proof. intros HQ. eapply HQ; reflexivity. Qed.

Lemma is_set_pause_spec w Q E H' :
  (forall w' b, w_db w' = w_db w -> w_log w' = w_log w ++ [Ev_pause_check b] -> Q b w') ->
  run_spec is_set_pause w Q E H'.
Proof. intros HQ. eapply HQ; reflexivity. Qed.

Lemma pause_loop_waited polls : forall w, wp (pause_loop polls) w (waited w).
Proof.
  assert (Hstep : forall (next : M bool),
            (forall w, wp next w (waited w)) ->
            forall w, wp (paused ← is_set_pause;
                          if paused : bool then
                            emit Ev_sleep;;
                            stop ← is_set_stop;
                            if stop : bool then mret true else next
                          else mret false) w (waited w)).
  { intros next Hnext w. unfold wp.
    apply run_spec_bind, is_set_pause_spec. intros w1 b1 Hd1 Hl1.
    destruct b1.
    - apply run_spec_bind, emit_spec. intros w2 Hd2 Hl2 _ _.
      apply run_spec_bind, is_set_stop_spec. intros w3 b3 Hd3 Hl3.
      assert (Hl : w_log w3 = w_log w ++ [Ev_pause_check true; Ev_sleep; Ev_stop_check b3]).
      { rewrite Hl3, Hl2, Hl1, <- !app_assoc. reflexivity. }
      assert (Hd : w_db w3 = w_db w) by congruence.
      destruct b3.
      + apply run_spec_ret. split; [exact Hd |].
        eexists. split; [exact Hl |]. split; [repeat constructor |].
        exists [Ev_pause_check true; Ev_sleep]. split; [reflexivity |].
        repeat (constructor; [discriminate |]). constructor.
      + eapply run_spec_mono; [apply (Hnext w3) | | auto | auto].
        intros b w4 (Hd4 & evs & Hl4 & Hc4 & Hs4). split; [congruence |].
        exists ([Ev_pause_check true; Ev_sleep; Ev_stop_check false] ++ evs).
        split; [rewrite Hl4, Hl; now rewrite <- app_assoc |].
        split; [apply Forall_app_2; [repeat constructor | exact Hc4] |].
        destruct b.
        * destruct Hs4 as (pre & -> & Hpre).
          exists ([Ev_pause_check true; Ev_sleep; Ev_stop_check false] ++ pre).
          split; [now rewrite <- app_assoc |].
          apply no_stop_seen_app; [| exact Hpre].
          repeat (constructor; [discriminate |]). constructor.
        * apply no_stop_seen_app; [| exact Hs4].
          repeat (constructor; [discriminate |]). constructor.
    - apply run_spec_ret. split; [exact Hd1 |].
      exists [Ev_pause_check false]. split; [exact Hl1 |].
      split; repeat constructor. discriminate. }
  induction polls as [|polls IH]; intros w; cbn [pause_loop].
  - apply Hstep. intros w'. exact I.
  - apply Hstep. exact IH.
Qed.

Lemma counts_advance_eq job dc df dc' df' db db' :
  dc = dc' -> df = df' -> counts_advance job dc df db db' ->
  counts_advance job dc' df' db db'.
Proof. now intros -> ->. Qed.

(** Leaving the loop at once on a stop: nothing is dispatched. *)
Lemma looped_stop job config task rest results w w' ctrl :
  w_db w' = w_db w ->
  w_log w' = w_log w ++ ctrl ++ [Ev_stop_check true] ->
  Forall is_control ctrl -> no_stop_seen ctrl ->
  looped job config (task :: rest) results w (set_stopped results) w'.
Proof.
  intros Hd Hl Hc Hn. exists (ctrl ++ [Ev_stop_check true]), 0%nat.
  assert (Hctrl : Forall is_control (ctrl ++ [Ev_stop_check true])).
  { apply Forall_app_2; [exact Hc | repeat constructor]. }
  rewrite !(increments_control _ _ _ Hctrl), !Nat.add_0_r, Hd.
  split; [exact Hl |]. split; [simpl; lia |].
  split; [apply run_segment_control, Hctrl |].
  do 3 (split; [reflexivity |]).
  split; [apply counts_advance_refl |]. split; [apply tasks_settle_refl |].
  right. split; [reflexivity |]. split; [simpl; lia |]. exists ctrl. auto.
Qed.

Lemma run_loop_looped polls job config n :
  forall tasks i results w,
    wp (run_loop polls job config n i tasks results) w (looped job config tasks results w).
Proof.
  induction tasks as [|task rest IH]; intros i results w; cbn [run_loop].
  - apply run_spec_ret. exists [], 0%nat. rewrite app_nil_r, !Nat.add_0_r.
    split; [reflexivity |]. split; [reflexivity |].
    split; [apply run_segment_control; constructor |].
    do 3 (split; [reflexivity |]).
    split; [apply counts_advance_refl |]. split; [apply tasks_settle_refl |].
    left. repeat split. constructor.
  - unfold wp. apply run_spec_bind, is_set_stop_spec. intros w1 b1 Hd1 Hl1.
    destruct b1.
    { apply run_spec_ret. apply (looped_stop job config task rest results w w1 []);
        [exact Hd1 | exact Hl1 | constructor | constructor]. }
    apply run_spec_bind.
    eapply run_spec_mono; [apply (pause_loop_waited polls w1) | | auto | auto].
    intros b2 w2 (Hd2 & evs_p & Hl2 & Hc2 & Hs2).
    destruct b2.
    { destruct Hs2 as (pre & -> & Hpre). apply run_spec_ret.
      apply (looped_stop job config task rest results w w2 ([Ev_stop_check false] ++ pre)).
      - congruence.
      - rewrite Hl2, Hl1, <- !app_assoc. reflexivity.
      - apply Forall_app_2; [repeat constructor |].
        apply Forall_app in Hc2 as [Hc2 _]. exact Hc2.
      - apply no_stop_seen_app; [| exact Hpre]. constructor; [discriminate | constructor]. }
    apply run_spec_bind.
    eapply run_spec_mono; [apply (process_task_processed job config task results w2) | | auto | auto].
    intros res3 w3 (call & r & moved & Hl3 & Hmoved & Ht3 & Hst3 & Hco3 & Hfa3 & Hadv3 & Hset3).
    destruct (task_events_segment job config task call r moved Hmoved)
      as (Hseg & Hit & Hif & Hns).
    set (tev := task_events job config task call r moved) in *.
    set (ctrl := [Ev_stop_check false] ++ evs_p).
    assert (Hctrl : Forall is_control ctrl).
    { apply Forall_app_2; [repeat constructor | exact Hc2]. }
    assert (Hnctrl : no_stop_seen ctrl).
    { apply no_stop_seen_app; [| exact Hs2]. constructor; [discriminate | constructor]. }
    apply run_spec_bind.
    assert (Hrest : forall sl w4,
              Forall is_control sl -> no_stop_seen sl ->
              w_db w4 = w_db w3 -> w_log w4 = w_log w3 ++ sl ->
              run_spec (run_loop polls job config n (S i) rest res3) w4
                       (looped job config (task :: rest) results w) (fun _ _ => True) True).
    { intros sl w4 Hcsl Hnsl Hd4 Hl4.
      eapply run_spec_mono; [apply (IH (S i) res3 w4) | | auto | auto].
      intros res' w' (evs_r & k & Hl' & Hk & Hseg' & Ht' & Hco' & Hfa' & Hadv' & Hset' & Hshape).
      exists (ctrl ++ tev ++ sl ++ evs_r), (S k).
      rewrite !increments_app, !(increments_control _ _ _ Hctrl),
              !(increments_control _ _ _ Hcsl), Hit, Hif.
      split; [| split; [simpl; lia | split; [| split; [congruence | split; [| split]]]]].
      - rewrite Hl', Hl4, Hl3, Hl2, Hl1. unfold ctrl. now rewrite <- !app_assoc.
      - change (take (S k) (task :: rest)) with ([] ++ [task] ++ [] ++ take k rest).
        apply run_segment_app; [apply run_segment_control, Hctrl |].
        apply run_segment_app; [exact Hseg |].
        apply run_segment_app; [apply run_segment_control, Hcsl | exact Hseg'].
      - rewrite Hco', Hco3. simpl. lia.
      - rewrite Hfa', Hfa3. simpl. lia.
      - split; [| split].
        + rewrite Hd4 in Hadv'. rewrite Hd2, Hd1 in Hadv3.
          eapply counts_advance_eq;
            [| | exact (counts_advance_trans _ _ _ _ _ _ _ _ Hadv3 Hadv')];
            destruct (task_ok r); lia.
        + change (map id (take (S k) (task :: rest))) with ([id task] ++ map id (take k rest)).
          rewrite Hd4 in Hset'. rewrite Hd2, Hd1 in Hset3.
          exact (tasks_settle_trans _ _ _ _ _ Hset3 Hset').
        + destruct Hshape as [(Hs & Hkk & Hn) | (Hs & Hkk & pre & Hpre & Hn)].
          * left. split; [congruence |]. split; [simpl; lia |].
            apply no_stop_seen_app; [exact Hnctrl |].
            apply no_stop_seen_app; [exact Hns |].
            apply no_stop_seen_app; [exact Hnsl | exact Hn].
          * right. split; [exact Hs |]. split; [simpl; lia |].
            exists (ctrl ++ tev ++ sl ++ pre). split; [rewrite Hpre; now rewrite <- !app_assoc |].
            apply no_stop_seen_app; [exact Hnctrl |].
            apply no_stop_seen_app; [exact Hns |].
            apply no_stop_seen_app; [exact Hnsl | exact Hn]. }
    unfold when. destruct (i <? n - 1)%nat.
    + apply emit_spec. intros w4 Hd4 Hl4 _ _.
      apply (Hrest [Ev_sleep] w4); [repeat constructor | | exact Hd4 | exact Hl4].
      constructor; [discriminate | constructor].
    + apply run_spec_ret.
      apply (Hrest [] w3); [constructor | constructor | reflexivity | now rewrite app_nil_r].
Qed.

End Loop.

(** ** A whole run *)

Lemma run_spec_any {A} (m : M A) w : run_spec m w (fun _ _ => True) (fun _ _ => True) True.
Proof. unfold run_spec. destruct (m w); exact I. Qed.

Lemma pending_tasks_in_table db job t :
  t ∈ get_pending_tasks db job -> t ∈ generation_tasks db.
Proof.
  unfold get_pending_tasks. rewrite merge_sort_Permutation, list_elem_of_filter.
  now intros [_ Hin].
Qed.

Lemma pending_tasks_ids_NoDup db job :
  NoDup (map id (generation_tasks db)) -> NoDup (map id (get_pending_tasks db job)).
Proof.
  unfold get_pending_tasks. intros Hnd.
  change (@map generation_task Z id) with (@fmap list _ generation_task Z id) in *.
  rewrite merge_sort_Permutation.
  eapply sublist_NoDup; [exact Hnd |].
  apply fmap_sublist, sublist_filter.
Qed.

Lemma get_task_in_table db t :
  t ∈ generation_tasks db -> exists t0, get_task db (id t) = Some t0.
Proof.
  intros Hin. unfold get_task.
  destruct (find _ (generation_tasks db)) as [t0|] eqn:Hf; [eauto |].
  apply list_elem_of_In in Hin.
  pose proof (find_none _ _ Hf t Hin) as Hne. cbn in Hne.
  now rewrite Z.eqb_refl in Hne.
Qed.

Section Run.

Context `{Runtime} `{Environment}.

Lemma db_get_pending_tasks_spec job w Q E H' :
  Q (get_pending_tasks (w_db w) job) w ->
  run_spec (db_get_pending_tasks job) w Q E H'.
Proof. intros HQ. exact HQ. Qed.

Lemma run_batch_ran polls job config w :
  wp (run_batch polls job config) w (ran job config w).
Proof.
  unfold wp, run_batch.
  apply run_spec_bind. unfold run_spec at 1. cbn [set_current_job_id].
  set (w0 := mkWorld _ _ _ _ _ _).
  apply run_spec_bind, db_update_batch_job_status_spec. intros w1 now1 Hd1 Hl1.
  change (w_db w0) with (w_db w) in Hd1. change (w_log w0) with (w_log w) in Hl1.
  clearbody w0. clear w0.
  apply run_spec_try_finally, run_spec_try_except.
  eapply run_spec_mono with (E := fun _ _ => True) (H := True);
    [| intros a w2 Hq; exact Hq | | auto].
  2:{ intros e w2 _.
      unfold run_spec, mbind, M_bind, db_update_batch_job_status, emit, observe, get_db,
        put_db, raise, set_current_job_id. cbn. exact I. }
  apply run_spec_bind, db_get_pending_tasks_spec.
  assert (Htasks : get_pending_tasks (w_db w1) job = get_pending_tasks (w_db w) job).
  { rewrite Hd1. reflexivity. }
  rewrite Htasks. set (tasks := get_pending_tasks (w_db w) job).
  apply run_spec_bind.
  eapply run_spec_mono;
    [apply (run_loop_looped polls job config (length tasks) tasks 0
              (mkResults (length tasks) 0 0 false None) w1) | | auto | auto].
  intros res w2 (evs & k & Hl2 & Hk & Hseg & Ht & Hco & Hfa & Hadv & Hset & Hshape).
  cbn [total completed failed stopped] in Ht, Hco, Hfa, Hshape.
  fold (final_status res).
  apply run_spec_bind, db_update_batch_job_status_spec. intros w3 now3 Hd3 Hl3.
  apply run_spec_bind, emit_spec. intros w4 Hd4 Hl4 _ _.
  apply run_spec_ret. unfold run_spec. cbn [set_current_job_id].
  unfold ran. cbn [w_log w_db]. fold tasks. exists evs, k.
  assert (Hadv4 : counts_advance job (Z.of_nat (completed res)) (Z.of_nat (failed res))
                                 (w_db w) (w_db w4)).
  { rewrite Hd4, Hd3, Hco, Hfa.
    eapply counts_advance_eq;
      [| | exact (counts_advance_trans _ _ _ _ _ _ _ _
                    (counts_advance_trans _ _ _ _ _ _ _ _
                       (job_status_keeps_counts job now1 "running" (w_db w))
                       (eq_rect _ (fun d => counts_advance job _ _ d (w_db w2)) Hadv _ Hd1))
                    (job_status_keeps_counts job now3 (final_status res) (w_db w2)))]; lia. }
  split; [rewrite Hl4, Hl3, Hl2, Hl1, <- !app_assoc; reflexivity |].
  split; [exact Hk |]. split; [exact Hseg |]. split; [exact Ht |].
  split; [lia |]. split; [lia |]. split; [exact Hadv4 |].
  split; [| split].
  - intros j Hj. rewrite Hd4, Hd3.
    assert (Hj2 : exists j2, get_batch_job (w_db w2) job = Some j2).
    { destruct (job_status_keeps_counts job now1 "running" (w_db w) j Hj) as (j1 & Hj1 & _).
      rewrite <- Hd1 in Hj1. destruct (Hadv j1 Hj1) as (j2 & Hj2 & _). eauto. }
    destruct Hj2 as (j2 & Hj2). exact (job_status_written job now3 _ (w_db w2) j2 Hj2).
  - rewrite Hd4, Hd3. eapply tasks_settle_after; [| reflexivity].
    rewrite Hd1 in Hset.
    pose proof (tasks_settle_trans [] _ _ _ _
                  (tasks_settle_same_tasks (w_db w)
                     (update_batch_job_status (w_db w) now1 job "running") eq_refl) Hset) as Hs.
    exact Hs.
  - destruct Hshape as [(Hs & Hkk & Hn) | (Hs & Hkk & Hpre)]; [left | right]; auto.
Qed.

End Run.

(** ** The run, as the specification states it *)

(** The status writes and the summary around the loop count for nothing in
    what a log says of the tasks. *)
Lemma run_log_projections job config evs st1 st2 n :
  let all := [Ev_update_batch_job_status job st1] ++ evs ++
             [Ev_update_batch_job_status job st2; Ev_notify n None None] in
  dispatched all = dispatched evs /\
  processing_transitions all = processing_transitions evs /\
  increments job true all = increments job true evs /\
  increments job false all = increments job false evs /\
  move_calls all = move_calls evs /\
  expected_move_calls config all = expected_move_calls config evs /\
  (moves_justified config evs -> moves_justified config all).
Proof.
  intros all.
  assert (HJ : moves_justified config evs -> moves_justified config all).
  { intros HJ. apply moves_justified_app; [| apply moves_justified_app; [exact HJ |]];
      intros s d Hin; cbn in Hin;
      repeat (destruct Hin as [Hin | Hin]; [discriminate Hin |]); destruct Hin. }
  unfold all, dispatched, processing_transitions, increments, move_calls,
    expected_move_calls in *.
  rewrite !flat_map_app. cbn [flat_map app]. rewrite !app_nil_r.
  do 6 (split; [reflexivity |]). exact HJ.
Qed.

(** C2. When run_batch returns, the calls that increment completed_count and
    those that increment failed_count are together as many as the tasks
    dispatched, one call for each; the two numbers are the "completed" and
    "failed" of the result; the row of the job has advanced by exactly them;
    and the dispatched tasks are the first of the pending ones, the tasks a
    stop left out being counted in neither. *)
Theorem C2_counters_match_dispatched :
  forall (R : Runtime) (E : Environment) polls job config w results w',
    run_batch polls job config w = Returns results w' ->
    exists evs,
      w_log w' = w_log w ++ evs /\
      (increments job true evs + increments job false evs = length (dispatched evs))%nat /\
      completed results = increments job true evs /\
      failed results = increments job false evs /\
      processing_transitions evs = map id (dispatched evs) /\
      (exists k : nat, dispatched evs = take k (get_pending_tasks (w_db w) job)) /\
      forall j, get_batch_job (w_db w) job = Some j ->
        exists j', get_batch_job (w_db w') job = Some j' /\
          completed_count j' = completed_count j + Z.of_nat (increments job true evs) /\
          failed_count j' = failed_count j + Z.of_nat (increments job false evs).
Proof.
  intros R E polls job config w results w' Hrun.
  pose proof (wp_elim _ _ _ _ _ (run_batch_ran polls job config w) Hrun) as Hran.
  destruct Hran as (evs & k & Hl & Hk & (Hd & Hp & Hi & Hm & Hj) & Ht & Hco & Hfa & Hadv & _).
  destruct (run_log_projections job config evs "running" (final_status results)
              (Some (final_status results))) as (Pd & Pp & Pt & Pf & _).
  eexists. split; [exact Hl |].
  rewrite Pd, Pp, Pt, Pf, Hd, Hp, <- Hco, <- Hfa.
  split; [lia |]. split; [reflexivity |]. split; [reflexivity |]. split; [reflexivity |].
  split; [exists k; reflexivity |]. exact Hadv.
Qed.

Lemma C2_counters_match_dispatched_witness :
  exists results w',
    @run_batch python_runtime (scripted_env 24) 3 1 scripted_config scripted_world
    = Returns results w' /\
    completed results = 1%nat /\ failed results = 3%nat /\ total results = 5%nat /\
    exists evs,
      w_log w' = w_log scripted_world ++ evs /\
      (increments 1 true evs + increments 1 false evs = length (dispatched evs))%nat /\
      completed results = increments 1 true evs /\
      failed results = increments 1 false evs /\
      processing_transitions evs = map id (dispatched evs) /\
      (exists k : nat, dispatched evs = take k (get_pending_tasks (w_db scripted_world) 1)) /\
      forall j, get_batch_job (w_db scripted_world) 1 = Some j ->
        exists j', get_batch_job (w_db w') 1 = Some j' /\
          completed_count j' = completed_count j + Z.of_nat (increments 1 true evs) /\
          failed_count j' = failed_count j + Z.of_nat (increments 1 false evs).
Proof.
  eexists _, _. split; [vm_compute; reflexivity |].
  split; [reflexivity |]. split; [reflexivity |]. split; [reflexivity |].
  apply (C2_counters_match_dispatched python_runtime (scripted_env 24) 3 1
           scripted_config scripted_world).
  vm_compute. reflexivity.
Defined.

(** C3. When run_batch returns, a stop was observed at a check point exactly
    when the result is marked stopped.  In that case the observation is
    followed in the log by the final status write and the summary alone, so
    that no task is written "processing" after it; the status persisted for
    the job is "stopped"; the tasks dispatched are the first [k] pending ones,
    and, ids being unique, the row of every other pending task, the one at
    which the stop was observed first of all, is as it was.  Every task that
    was dispatched has a terminal status in the store. *)
Theorem C3_stop_halts_dispatch :
  forall (R : Runtime) (E : Environment) polls job config w results w',
    run_batch polls job config w = Returns results w' ->
    exists evs,
      w_log w' = w_log w ++ evs /\
      (In (Ev_stop_check true) evs <-> stopped results = true) /\
      (forall t, t ∈ dispatched evs ->
         exists t', get_task (w_db w') (id t) = Some t' /\ terminal (status t')) /\
      (stopped results = true ->
         exists pre (k : nat),
           evs = pre ++ [ Ev_stop_check true;
                          Ev_update_batch_job_status job "stopped";
                          Ev_notify (Some "stopped") None None ] /\
           no_stop_seen pre /\
           (k < length (get_pending_tasks (w_db w) job))%nat /\
           dispatched evs = take k (get_pending_tasks (w_db w) job) /\
           processing_transitions evs = map id (take k (get_pending_tasks (w_db w) job)) /\
           (forall j, get_batch_job (w_db w) job = Some j ->
              exists j', get_batch_job (w_db w') job = Some j' /\ job_status j' = "stopped") /\
           (NoDup (map id (generation_tasks (w_db w))) ->
            forall t, t ∈ drop k (get_pending_tasks (w_db w) job) ->
                      get_task (w_db w') (id t) = get_task (w_db w) (id t))).
Proof.
  intros R E polls job config w results w' Hrun.
  pose proof (wp_elim _ _ _ _ _ (run_batch_ran polls job config w) Hrun) as Hran.
  destruct Hran as (evs & k & Hl & Hk & (Hd & Hp & _) & _ & _ & _ & _ & Hst & Hset & Hshape).
  destruct (run_log_projections job config evs "running" (final_status results)
              (Some (final_status results))) as (Pd & Pp & _).
  set (tasks := get_pending_tasks (w_db w) job) in *.
  eexists. split; [exact Hl |]. rewrite Pd, Pp, Hd, Hp. split; [| split].
  - destruct Hshape as [(Hs & _ & Hn) | (Hs & _ & pre & -> & _)].
    + rewrite Hs. split; [| discriminate]. intros Hin. exfalso.
      apply in_app_or in Hin as [[Hin | []] | Hin]; [discriminate Hin |].
      apply in_app_or in Hin as [Hin | Hin].
      * unfold no_stop_seen in Hn. rewrite Forall_forall in Hn.
        apply (Hn _ (proj2 (list_elem_of_In _ _) Hin)). reflexivity.
      * cbn in Hin. destruct Hin as [Hin | [Hin | []]]; discriminate Hin.
    + split; [intros _; exact Hs | intros _].
      apply in_or_app. right. apply in_or_app. left. apply in_or_app. right. left. reflexivity.
  - intros t Ht. destruct Hset as [_ Hterm].
    assert (Hin : t ∈ generation_tasks (w_db w)).
    { apply (pending_tasks_in_table _ job). exact (subseteq_take k tasks t Ht). }
    destruct (get_task_in_table _ _ Hin) as (t0 & Ht0).
    apply (Hterm (id t)) with t0; [| exact Ht0].
    apply list_elem_of_In, in_map, list_elem_of_In, Ht.
  - intros Hstopped.
    destruct Hshape as [(Hs & _) | (_ & Hkk & pre & -> & Hn)]; [congruence |].
    exists ([Ev_update_batch_job_status job "running"] ++ pre), k.
    unfold final_status in *. rewrite Hstopped in *.
    split; [now rewrite <- !app_assoc |].
    split; [constructor; [discriminate | exact Hn] |].
    split; [exact Hkk |]. split; [reflexivity |]. split; [reflexivity |].
    split; [exact Hst |].
    intros Hnd t Ht. destruct Hset as [Hsame _]. apply Hsame.
    apply (pending_tasks_ids_NoDup _ job) in Hnd. fold tasks in Hnd.
    rewrite <- (take_drop k tasks), map_app in Hnd.
    apply NoDup_app in Hnd as (_ & Hdisj & _).
    intros Hin. apply (Hdisj _ Hin).
    apply list_elem_of_In, in_map, list_elem_of_In, Ht.
Qed.

Lemma C3_stop_halts_dispatch_witness :
  exists results w',
    @run_batch python_runtime (scripted_env 24) 3 1 scripted_config scripted_world
    = Returns results w' /\
    stopped results = true /\
    NoDup (map id (generation_tasks (w_db scripted_world))) /\
    (status <$> get_task (w_db w') 4) = Some "completed" /\
    (status <$> get_task (w_db w') 5) = Some "pending" /\
    (job_status <$> get_batch_job (w_db w') 1) = Some "stopped" /\
    exists evs,
      w_log w' = w_log scripted_world ++ evs /\
      (In (Ev_stop_check true) evs <-> stopped results = true) /\
      (forall t, t ∈ dispatched evs ->
         exists t', get_task (w_db w') (id t) = Some t' /\ terminal (status t')) /\
      (stopped results = true ->
         exists pre (k : nat),
           evs = pre ++ [ Ev_stop_check true;
                          Ev_update_batch_job_status 1 "stopped";
                          Ev_notify (Some "stopped") None None ] /\
           no_stop_seen pre /\
           (k < length (get_pending_tasks (w_db scripted_world) 1))%nat /\
           dispatched evs = take k (get_pending_tasks (w_db scripted_world) 1) /\
           processing_transitions evs
             = map id (take k (get_pending_tasks (w_db scripted_world) 1)) /\
           (forall j, get_batch_job (w_db scripted_world) 1 = Some j ->
              exists j', get_batch_job (w_db w') 1 = Some j' /\ job_status j' = "stopped") /\
           (NoDup (map id (generation_tasks (w_db scripted_world))) ->
            forall t, t ∈ drop k (get_pending_tasks (w_db scripted_world) 1) ->
                      get_task (w_db w') (id t) = get_task (w_db scripted_world) (id t))).
Proof.
  eexists _, _. split; [vm_compute; reflexivity |].
  split; [reflexivity |].
  split; [apply (bool_decide_unpack _); vm_compute; exact I |].
  split; [reflexivity |]. split; [reflexivity |]. split; [reflexivity |].
  apply (C3_stop_halts_dispatch python_runtime (scripted_env 24) 3 1
           scripted_config scripted_world).
  vm_compute. reflexivity.
Defined.

Lemma expected_move_calls_spec config evs p f :
  In (p, f) (expected_move_calls config evs) <->
  exists t call r,
    In (Ev_generate_and_wait t call (ApiReturns r)) evs /\
    task_ok r = false /\
    Py.truthy (error_folder config) = true /\
    Py.truthy (outfit_image_path t) = true /\
    _is_content_policy_error (error_text r) = true /\
    p = outfit_image_path t /\ f = error_folder config.
Proof.
  unfold expected_move_calls. rewrite in_flat_map. split.
  - intros (e & Hin & He). destruct e as [| | | |t call [r|]| | | | | | | | |]; try contradiction.
    destruct (task_ok r) eqn:Hok; [contradiction |].
    unfold move_due in He. cbn [negb andb] in He.
    destruct (Py.truthy (error_folder config)) eqn:Hf; [| contradiction].
    destruct (Py.truthy (outfit_image_path t)) eqn:Ho; [| contradiction].
    destruct (_is_content_policy_error (error_text r)) eqn:Hc; [| contradiction].
    destruct He as [He | []]. injection He as <- <-.
    exists t, call, r. auto 10.
  - intros (t & call & r & Hin & Hok & Hf & Ho & Hc & -> & ->).
    exists (Ev_generate_and_wait t call (ApiReturns r)). split; [exact Hin |].
    unfold move_due. rewrite Hok, Hf, Ho, Hc. left. reflexivity.
Qed.

(** ** The store: round trips, queries and statistics *)

#[global] Instance id_le_total : Total id_le.
Proof. intros a b. unfold id_le. lia. Qed.

#[global] Instance id_le_trans : Transitive id_le.
Proof. intros a b c. unfold id_le. lia. Qed.

Lemma NoDup_map_inj_on {A B} (f : A -> B) (l : list A) x y :
  NoDup (map f l) -> x ∈ l -> y ∈ l -> f x = f y -> x = y.
Proof.
  induction l as [|a l IH]; cbn; intros Hnd Hx Hy Hf.
  - inversion Hx.
  - apply NoDup_cons in Hnd as [Ha Hnd].
    apply elem_of_cons in Hx as [->|Hx], Hy as [->|Hy]; auto.
    + exfalso. apply Ha. rewrite Hf. apply list_elem_of_In, in_map, list_elem_of_In, Hy.
    + exfalso. apply Ha. rewrite <- Hf. apply list_elem_of_In, in_map, list_elem_of_In, Hx.
Qed.

Lemma NoDup_map_Permutation {A B} (f : A -> B) (l l' : list A) :
  l ≡ₚ l' -> NoDup (map f l) -> NoDup (map f l').
Proof.
  intros Hp Hnd.
  change (NoDup (f <$> l')). change (NoDup (f <$> l)) in Hnd.
  now rewrite <- Hp.
Qed.

Lemma NoDup_map_filter {A B} (f : A -> B) (P : A -> Prop) `{!forall x, Decision (P x)}
    (l : list A) :
  NoDup (map f l) -> NoDup (map f (filter P l)).
Proof.
  intros Hnd. change (NoDup (f <$> filter P l)).
  eapply sublist_NoDup; [exact Hnd |]. apply fmap_sublist, sublist_filter.
Qed.

(** Two id-sorted lists with the same rows are the same list when ids are
    unique. *)
Lemma by_id_unique (l1 l2 : list generation_task) :
  NoDup (map id l1) -> Sorted id_le l1 -> Sorted id_le l2 -> l1 ≡ₚ l2 -> l1 = l2.
Proof.
  intros Hnd H1 H2 Hp.
  apply (Sorted_unique_strong id_le); auto.
  intros x1 x2 Hx1 Hx2 Ha Hb.
  apply (NoDup_map_inj_on id l1); auto.
  - now rewrite Hp.
  - unfold id_le in *. lia.
Qed.

Lemma Sorted_filter_id (P : generation_task -> Prop) `{!forall x, Decision (P x)} l :
  Sorted id_le l -> Sorted id_le (filter P l).
Proof.
  intros Hs. apply Sorted_StronglySorted in Hs; [| apply _].
  apply StronglySorted_Sorted.
  induction Hs as [|x l Hs IH Hall]; [constructor |].
  rewrite filter_cons. destruct (decide (P x)); [| exact IH].
  constructor; [exact IH |].
  apply Forall_forall. intros y Hy.
  apply list_elem_of_filter in Hy as [_ Hy].
  rewrite Forall_forall in Hall. apply Hall, Hy.
Qed.

(** ORDER BY id and a WHERE clause commute on a table with unique ids. *)
Lemma sort_filter (P : generation_task -> Prop) `{!forall x, Decision (P x)} l :
  NoDup (map id l) ->
  merge_sort id_le (filter P l) = filter P (merge_sort id_le l).
Proof.
  intros Hnd. apply by_id_unique.
  - eapply NoDup_map_Permutation; [symmetry; apply merge_sort_Permutation |].
    now apply NoDup_map_filter.
  - apply Sorted_merge_sort, _.
  - apply Sorted_filter_id, Sorted_merge_sort, _.
  - rewrite !merge_sort_Permutation. reflexivity.
Qed.

Lemma filter_filter_and {A} (P Q : A -> Prop) `{!forall x, Decision (P x)}
    `{!forall x, Decision (Q x)} (l : list A) :
  filter P (filter Q l) = filter (fun x => Q x /\ P x) l.
Proof.
  induction l as [|x l IH]; [reflexivity |].
  rewrite !filter_cons.
  destruct (decide (Q x)) as [HQ|HQ].
  - rewrite filter_cons. destruct (decide (P x)) as [HP|HP].
    + rewrite decide_True by auto. now rewrite IH.
    + rewrite decide_False by tauto. exact IH.
  - rewrite decide_False by tauto. exact IH.
Qed.

Lemma filter_ext_in {A} (P Q : A -> Prop) `{!forall x, Decision (P x)}
    `{!forall x, Decision (Q x)} (l : list A) :
  (forall x, x ∈ l -> (P x <-> Q x)) -> filter P l = filter Q l.
Proof.
  induction l as [|x l IH]; intros Hpq; [reflexivity |].
  rewrite !filter_cons.
  assert (Hl : forall y, y ∈ l -> (P y <-> Q y)) by (intros y Hy; apply Hpq; now right).
  destruct (decide (P x)) as [HP|HP].
  - rewrite decide_True by (apply Hpq; [left | exact HP]). now rewrite IH.
  - rewrite decide_False by (rewrite <- Hpq; [exact HP | left]). now apply IH.
Qed.

(** ** Keys *)

Lemma keys_ok_empty : keys_ok empty_db.
Proof. repeat split; constructor. Qed.

Lemma get_task_Some db i t : get_task db i = Some t -> t ∈ generation_tasks db /\ id t = i.
Proof.
  unfold get_task. intros Hf. apply find_some in Hf as [Hin Hid].
  split; [now apply list_elem_of_In | now apply Z.eqb_eq].
Qed.

Lemma get_task_of_row db t :
  NoDup (map id (generation_tasks db)) -> t ∈ generation_tasks db ->
  get_task db (id t) = Some t.
Proof.
  intros Hnd Hin. destruct (get_task_in_table db t Hin) as [t0 Ht0].
  rewrite Ht0. f_equal. apply get_task_Some in Ht0 as [Hin0 Hid0].
  now apply (NoDup_map_inj_on id (generation_tasks db)).
Qed.

Lemma get_task_fresh db i :
  Forall (fun t => id t <= seq_generation_tasks db) (generation_tasks db) ->
  seq_generation_tasks db < i -> get_task db i = None.
Proof.
  intros Hall Hi. unfold get_task.
  destruct (find _ _) as [t|] eqn:Hf; [| reflexivity].
  apply find_some in Hf as [Hin Hid]. apply Z.eqb_eq in Hid.
  rewrite Forall_forall in Hall. apply list_elem_of_In in Hin. specialize (Hall t Hin). lia.
Qed.

Lemma find_app_l {A} (p : A -> bool) l1 l2 x :
  find p l1 = Some x -> find p (l1 ++ l2) = Some x.
Proof.
  induction l1 as [|a l1 IH]; cbn; [discriminate |].
  destruct (p a); auto.
Qed.

Lemma find_app_r {A} (p : A -> bool) l1 l2 :
  find p l1 = None -> find p (l1 ++ l2) = find p l2.
Proof.
  induction l1 as [|a l1 IH]; cbn; [reflexivity |].
  destruct (p a); [discriminate | auto].
Qed.

Lemma find_snoc_other {A} (p : A -> bool) l x :
  p x = false -> find p (l ++ [x]) = find p l.
Proof.
  intros Hx. destruct (find p l) as [y|] eqn:Hf.
  - now apply find_app_l.
  - rewrite find_app_r by exact Hf. cbn. now rewrite Hx.
Qed.

Lemma NoDup_snoc_fresh (l : list Z) (x : Z) :
  NoDup l -> Forall (fun y => y < x) l -> NoDup (l ++ [x]).
Proof.
  intros Hnd Hall. apply NoDup_app. split; [exact Hnd |]. split.
  - intros y Hy Hx. apply list_elem_of_singleton in Hx. subst y.
    rewrite Forall_forall in Hall. specialize (Hall _ Hy). lia.
  - apply NoDup_singleton.
Qed.

Lemma create_generation_task_keys db now job f o b p :
  keys_ok db -> keys_ok (fst (create_generation_task db now job f o b p)).
Proof.
  intros (Hnd & Hall & Hj & Hjall). unfold keys_ok, create_generation_task.
  cbn [fst generation_tasks batch_jobs seq_generation_tasks seq_batch_jobs].
  repeat split; auto.
  - rewrite map_app. cbn. apply NoDup_snoc_fresh; [exact Hnd |].
    apply Forall_forall. intros y Hy.
    apply list_elem_of_In, in_map_iff in Hy as (t & <- & Ht).
    apply list_elem_of_In in Ht. rewrite Forall_forall in Hall.
    specialize (Hall t Ht). cbn in Hall. lia.
  - apply Forall_app. split.
    + eapply Forall_impl; [exact Hall |]. cbn. intros; lia.
    + constructor; [cbn; lia | constructor].
Qed.

Lemma create_batch_job_keys db now name total template settings :
  keys_ok db -> keys_ok (fst (create_batch_job db now name total template settings)).
Proof.
  intros (Hnd & Hall & Hj & Hjall). unfold keys_ok, create_batch_job.
  cbn [fst generation_tasks batch_jobs seq_generation_tasks seq_batch_jobs].
  repeat split; auto.
  - rewrite map_app. cbn. apply NoDup_snoc_fresh; [exact Hj |].
    apply Forall_forall. intros y Hy.
    apply list_elem_of_In, in_map_iff in Hy as (t & <- & Ht).
    apply list_elem_of_In in Ht. rewrite Forall_forall in Hjall.
    specialize (Hjall t Ht). cbn in Hjall. lia.
  - apply Forall_app. split.
    + eapply Forall_impl; [exact Hjall |]. cbn. intros; lia.
    + constructor; [cbn; lia | constructor].
Qed.

Lemma Sorted_snoc_id (l : list generation_task) (x : generation_task) :
  Sorted id_le l -> Forall (fun y => id y <= id x) l -> Sorted id_le (l ++ [x]).
Proof.
  intros Hs Hall. apply Sorted_StronglySorted in Hs; [| apply _].
  apply StronglySorted_Sorted.
  induction Hs as [|y l Hs IH Hy]; cbn.
  - repeat constructor.
  - apply Forall_cons in Hall as [Hyx Hall].
    constructor; [apply IH, Hall |].
    apply Forall_app. split; [exact Hy | constructor; [exact Hyx | constructor]].
Qed.

(** X1. A task row can be read back: create_generation_task returns an id
    no row had, get_task on it gives the row just written (status pending, the
    four columns given, the nullable columns NULL), every other id reads as
    before, and the row is the last of the job's pending tasks. *)
Theorem X1_create_generation_task_round_trip :
  forall db now job f o b p,
    keys_ok db ->
    let row := mkTask (seq_generation_tasks db + 1) job None "pending" f o b p
                      None None None None now now in
    let db' := fst (create_generation_task db now job f o b p) in
    snd (create_generation_task db now job f o b p) = id row /\
    get_task db (id row) = None /\
    get_task db' (id row) = Some row /\
    (forall i, i <> id row -> get_task db' i = get_task db i) /\
    get_pending_tasks db' job = get_pending_tasks db job ++ [row] /\
    keys_ok db'.
Proof.
  intros db now job f o b p Hk row db'.
  pose proof (create_generation_task_keys db now job f o b p Hk) as Hk'. fold db' in Hk'.
  destruct Hk as (Hnd & Hall & _).
  assert (Hfresh : get_task db (id row) = None).
  { apply get_task_fresh; [exact Hall | cbn; lia]. }
  split; [reflexivity |]. split; [exact Hfresh |]. split; [| split; [| split]].
  - unfold get_task in *. cbn [db' fst create_generation_task generation_tasks].
    rewrite find_app_r by exact Hfresh. cbn. now rewrite Z.eqb_refl.
  - intros i Hi. unfold get_task. cbn [db' fst create_generation_task generation_tasks].
    apply find_snoc_other. cbn. apply Z.eqb_neq. cbn in Hi. congruence.
  - unfold get_pending_tasks. cbn [db' fst create_generation_task generation_tasks].
    fold row. rewrite filter_app, filter_cons, filter_nil.
    rewrite decide_True by (split; reflexivity).
    set (P := fun t => batch_job_id t = job /\ status t = "pending").
    apply by_id_unique.
    + eapply NoDup_map_Permutation; [symmetry; apply merge_sort_Permutation |].
      destruct Hk' as (Hnd' & _).
      cbn [db' fst create_generation_task generation_tasks] in Hnd'. fold row in Hnd'.
      pose proof (NoDup_map_filter id P _ Hnd') as Hf.
      rewrite filter_app, filter_cons, filter_nil in Hf.
      rewrite decide_True in Hf by (split; reflexivity). exact Hf.
    + apply Sorted_merge_sort, _.
    + apply Sorted_snoc_id; [apply Sorted_merge_sort, _ |].
      apply Forall_forall. intros y Hy. rewrite merge_sort_Permutation in Hy.
      apply list_elem_of_filter in Hy as [_ Hy].
      rewrite Forall_forall in Hall. specialize (Hall y Hy). cbn. lia.
    + rewrite !merge_sort_Permutation. reflexivity.
  - exact Hk'.
Qed.

Lemma scripted_db_keys : keys_ok scripted_db.
Proof. repeat split; apply (bool_decide_unpack _); vm_compute; exact I. Qed.

Lemma X1_create_generation_task_round_trip_witness :
  get_task (fst (create_generation_task scripted_db 1006 1 "f.png" "" "" "a cat")) 6 =
  Some (mkTask 6 1 None "pending" "f.png" "" "" "a cat" None None None None 1006 1006) /\
  length (get_pending_tasks
            (fst (create_generation_task scripted_db 1006 1 "f.png" "" "" "a cat")) 1) = 6%nat.
Proof.
  destruct (X1_create_generation_task_round_trip scripted_db 1006 1 "f.png" "" "" "a cat"
              scripted_db_keys) as (_ & _ & Hget & _ & Hpend & _).
  split; [exact Hget |]. rewrite Hpend. reflexivity.
Defined.

Lemma get_batch_job_fresh db i :
  Forall (fun j => job_id j <= seq_batch_jobs db) (batch_jobs db) ->
  seq_batch_jobs db < i -> get_batch_job db i = None.
Proof.
  intros Hall Hi. unfold get_batch_job.
  destruct (find _ _) as [t|] eqn:Hf; [| reflexivity].
  apply find_some in Hf as [Hin Hid]. apply Z.eqb_eq in Hid.
  rewrite Forall_forall in Hall. apply list_elem_of_In in Hin. specialize (Hall t Hin). lia.
Qed.

(** X2. A job row can be read back: create_batch_job returns an id no job
    had; get_batch_job on it gives a row with status pending, both counters at
    zero and the name, total, template and settings given; the other jobs and
    the task and ledger tables are as before. *)
Theorem X2_create_batch_job_round_trip :
  forall db now name total template settings,
    keys_ok db ->
    let row := mkJob (seq_batch_jobs db + 1) name "pending" total 0 0 template settings
                     now now in
    let db' := fst (create_batch_job db now name total template settings) in
    snd (create_batch_job db now name total template settings) = job_id row /\
    get_batch_job db (job_id row) = None /\
    get_batch_job db' (job_id row) = Some row /\
    (forall i, i <> job_id row -> get_batch_job db' i = get_batch_job db i) /\
    generation_tasks db' = generation_tasks db /\
    used_combinations db' = used_combinations db /\
    keys_ok db'.
Proof.
  intros db now name total template settings Hk row db'.
  pose proof (create_batch_job_keys db now name total template settings Hk) as Hk'.
  destruct Hk as (_ & _ & _ & Hall).
  assert (Hfresh : get_batch_job db (job_id row) = None).
  { apply get_batch_job_fresh; [exact Hall | cbn; lia]. }
  split; [reflexivity |]. split; [exact Hfresh |].
  split; [| split; [| split; [reflexivity | split; [reflexivity | exact Hk']]]].
  - unfold get_batch_job in *. cbn [db' fst create_batch_job batch_jobs].
    rewrite find_app_r by exact Hfresh. cbn. now rewrite Z.eqb_refl.
  - intros i Hi. unfold get_batch_job. cbn [db' fst create_batch_job batch_jobs].
    apply find_snoc_other. cbn. apply Z.eqb_neq. cbn in Hi. congruence.
Qed.

Lemma X2_create_batch_job_round_trip_witness :
  get_batch_job (fst (create_batch_job scripted_db 2000 "second" 3 "a dog" "{}")) 2 =
  Some (mkJob 2 "second" "pending" 3 0 0 "a dog" "{}" 2000 2000) /\
  get_batch_job scripted_db 2 = None.
Proof.
  destruct (X2_create_batch_job_round_trip scripted_db 2000 "second" 3 "a dog" "{}"
              scripted_db_keys) as (_ & Hnone & Hget & _).
  split; [exact Hget | exact Hnone].
Defined.

Lemma ledger_row_is_other job h job' h' i f o b t :
  (job', h') <> (job, h) -> ledger_row_is job' h' (mkUsed i job h f o b t) = false.
Proof.
  intros Hne. unfold ledger_row_is. cbn.
  destruct (Z.eqb job job') eqn:Ej; [| reflexivity].
  destruct (String.eqb h h') eqn:Eh; [| reflexivity].
  apply Z.eqb_eq in Ej. apply String.eqb_eq in Eh. subst. contradiction.
Qed.

(** X3. A combination marked as used is found by is_combination_used, and
    the answer for every other (job, hash) pair is what it was. *)
Theorem X3_mark_then_is_combination_used :
  forall db now job h f o b,
    let db' := mark_combination_used db now job h f o b in
    is_combination_used db' job h = true /\
    forall job' h', (job', h') <> (job, h) ->
      is_combination_used db' job' h' = is_combination_used db job' h'.
Proof.
  intros db now job h f o b db'. split; [apply is_used_after_mark |].
  intros job' h' Hne. unfold db', mark_combination_used, insert_used_combination,
    is_combination_used.
  destruct (existsb (ledger_row_is job h) (used_combinations db)); [reflexivity |].
  cbn [used_combinations]. rewrite existsb_app. cbn [existsb].
  rewrite ledger_row_is_other by exact Hne. now rewrite !orb_false_r.
Qed.

(** X4. mark_combination_used adds one row to the job's count of used
    combinations when the (job, hash) pair was not in the ledger and none when
    it was; the counts of the other jobs do not change. *)
Theorem X4_used_combination_count_after_mark :
  forall db now job h f o b,
    let db' := mark_combination_used db now job h f o b in
    get_used_combination_count db' job =
      (get_used_combination_count db job +
       if is_combination_used db job h then 0 else 1)%nat /\
    forall job', job' <> job ->
      get_used_combination_count db' job' = get_used_combination_count db job'.
Proof.
  intros db now job h f o b db'.
  unfold db', mark_combination_used, insert_used_combination, is_combination_used,
    get_used_combination_count.
  destruct (existsb (ledger_row_is job h) (used_combinations db)).
  - split; [lia | reflexivity].
  - cbn [used_combinations]. split.
    + rewrite List.filter_app, length_app. cbn. rewrite Z.eqb_refl. reflexivity.
    + intros job' Hne. rewrite List.filter_app, length_app. cbn.
      assert (Z.eqb job job' = false) as -> by (apply Z.eqb_neq; congruence).
      cbn. lia.
Qed.

Lemma sum_case_count st rows :
  rows <> [] -> sum_case st rows = Some (count_status st rows).
Proof.
  intros Hne. unfold sum_case, count_status. destruct rows as [|r rows]; [contradiction |].
  f_equal. clear Hne. generalize (r :: rows). intros l.
  induction l as [|x l IH]; [reflexivity |].
  cbn [foldr]. rewrite IH, filter_cons.
  destruct (String.eqb (status x) st) eqn:E.
  - apply String.eqb_eq in E. rewrite decide_True by exact E. reflexivity.
  - apply String.eqb_neq in E. rewrite decide_False by exact E. reflexivity.
Qed.

Lemma not_terminal_iff (s : string) :
  s ∉ ["completed"; "failed"] <-> s <> "completed" /\ s <> "failed".
Proof.
  rewrite !not_elem_of_cons. split; [tauto |].
  intros [? ?]. repeat split; auto. apply not_elem_of_nil.
Qed.

Lemma in_flight_iff (s : string) :
  s ∈ ["processing"; "pending"] <-> s = "processing" \/ s = "pending".
Proof. rewrite !elem_of_cons, elem_of_nil. tauto. Qed.

Lemma status_partition (rows : list generation_task) :
  (count_status "completed" rows + count_status "failed" rows +
   length (filter (fun t => status t ∉ ["completed"; "failed"]) rows) = length rows)%nat /\
  (count_status "pending" rows + count_status "processing" rows <=
   length (filter (fun t => status t ∉ ["completed"; "failed"]) rows))%nat.
Proof.
  unfold count_status. induction rows as [|x rows [IH1 IH2]]; [cbn; lia |].
  rewrite !filter_cons.
  destruct (decide (status x = "completed")) as [Hc|Hc];
  destruct (decide (status x = "failed")) as [Hf|Hf];
  destruct (decide (status x = "pending")) as [Hp|Hp];
  destruct (decide (status x = "processing")) as [Hr|Hr];
  try congruence;
  destruct (decide (status x ∉ ["completed"; "failed"])) as [Hn|Hn];
  rewrite not_terminal_iff in Hn; cbn [length]; try lia; tauto.
Qed.

(** X5. The numbers of get_batch_statistics agree with the queries: the
    total is the number of the job's tasks; for a job without task rows the
    four sums are NULL; otherwise the pending sum is the number of pending
    tasks, completed, failed and incomplete tasks add up to the total, and
    pending and processing together are at most the incomplete ones. *)
Theorem X5_batch_statistics_agree :
  forall db job,
    let s := get_batch_statistics db job in
    stat_total s = length (get_tasks_by_batch db job) /\
    (get_tasks_by_batch db job = [] ->
       stat_completed s = None /\ stat_failed s = None /\
       stat_pending s = None /\ stat_processing s = None) /\
    (get_tasks_by_batch db job <> [] ->
       exists c f p r,
         stat_completed s = Some c /\ stat_failed s = Some f /\
         stat_pending s = Some p /\ stat_processing s = Some r /\
         p = length (get_pending_tasks db job) /\
         (c + f + length (get_incomplete_tasks db job) = stat_total s)%nat /\
         (p + r <= length (get_incomplete_tasks db job))%nat).
Proof.
  intros db job s.
  set (rows := filter (fun t => batch_job_id t = job) (generation_tasks db)).
  assert (Hlen : length (get_tasks_by_batch db job) = length rows).
  { unfold get_tasks_by_batch. now rewrite merge_sort_Permutation. }
  split; [symmetry; exact Hlen |]. split.
  - intros Hnil. rewrite Hnil in Hlen. symmetry in Hlen. apply length_zero_iff_nil in Hlen.
    unfold s, get_batch_statistics. fold rows. rewrite Hlen. cbn. auto.
  - intros Hne.
    assert (Hrows : rows <> []).
    { intros Hr. apply Hne. apply length_zero_iff_nil. rewrite Hlen, Hr. reflexivity. }
    unfold s, get_batch_statistics. fold rows.
    cbn [stat_total stat_completed stat_failed stat_pending stat_processing].
    rewrite !sum_case_count by exact Hrows.
    do 4 eexists. do 4 (split; [reflexivity |]).
    assert (Hinc : length (get_incomplete_tasks db job) =
                   length (filter (fun t => status t ∉ ["completed"; "failed"]) rows)).
    { unfold get_incomplete_tasks. rewrite merge_sort_Permutation.
      unfold rows. now rewrite filter_filter_and. }
    destruct (status_partition rows) as [Hp1 Hp2]. rewrite Hinc.
    split; [| split; [exact Hp1 | exact Hp2]].
    unfold get_pending_tasks, count_status. rewrite merge_sort_Permutation.
    unfold rows. now rewrite filter_filter_and.
Qed.

Lemma sort_filter_and (P Q : generation_task -> Prop) `{!forall x, Decision (P x)}
    `{!forall x, Decision (Q x)} l :
  NoDup (map id l) ->
  merge_sort id_le (filter (fun t => P t /\ Q t) l) = filter Q (merge_sort id_le (filter P l)).
Proof.
  intros Hnd. rewrite <- filter_filter_and. apply sort_filter.
  now apply NoDup_map_filter.
Qed.

(** X6. On a table with unique ids the task queries refine one another, in
    the same id order: the downloadable tasks are the tasks with results that
    have no local path, the tasks with results are the completed tasks of the
    job with a result URL, the pending tasks are the incomplete tasks with
    status pending, and no task with a result is incomplete. *)
Theorem X6_task_queries_nest :
  forall db job,
    NoDup (map id (generation_tasks db)) ->
    get_downloadable_tasks db job =
      filter (fun t => local_path t = None) (get_tasks_with_results db job) /\
    get_tasks_with_results db job =
      filter (fun t => status t = "completed" /\ result_url t <> None)
             (get_tasks_by_batch db job) /\
    get_incomplete_tasks db job =
      filter (fun t => status t ∉ ["completed"; "failed"]) (get_tasks_by_batch db job) /\
    get_pending_tasks db job =
      filter (fun t => status t = "pending") (get_incomplete_tasks db job) /\
    get_processing_tasks db job =
      filter (fun t => status t ∈ ["processing"; "pending"] /\ api_request_id t <> None)
             (get_incomplete_tasks db job) /\
    (forall t, t ∈ get_tasks_with_results db job -> t ∉ get_incomplete_tasks db job).
Proof.
  intros db job Hnd.
  unfold get_downloadable_tasks, get_tasks_with_results, get_incomplete_tasks,
    get_pending_tasks, get_processing_tasks, get_tasks_by_batch.
  split; [| split; [| split; [| split; [| split]]]].
  - rewrite <- sort_filter by (now apply NoDup_map_filter).
    rewrite filter_filter_and. f_equal. apply filter_ext_in. intros; tauto.
  - now rewrite <- sort_filter_and.
  - now rewrite <- sort_filter_and.
  - rewrite <- sort_filter by (now apply NoDup_map_filter).
    rewrite filter_filter_and. f_equal. apply filter_ext_in. intros x _.
    rewrite not_terminal_iff.
    split; [intros [? Hp]; rewrite Hp; repeat split; auto; discriminate | tauto].
  - rewrite <- sort_filter by (now apply NoDup_map_filter).
    rewrite filter_filter_and. f_equal. apply filter_ext_in. intros x _.
    rewrite not_terminal_iff, in_flight_iff.
    split; [| tauto]. intros (? & [Hp|Hp] & ?); rewrite Hp; repeat split; auto; discriminate.
  - intros t. rewrite !merge_sort_Permutation, !list_elem_of_filter.
    intros [(_ & Hc & _) _] [(_ & Hn) _]. apply not_terminal_iff in Hn. tauto.
Qed.

Lemma demo_tasks_db_ids : NoDup (map id (generation_tasks demo_tasks_db)).
Proof. apply (bool_decide_unpack _); vm_compute; exact I. Qed.

Lemma X6_task_queries_nest_witness :
  get_downloadable_tasks demo_tasks_db 1 = [demo_task_row] /\
  demo_task_row ∉ get_incomplete_tasks demo_tasks_db 1.
Proof.
  destruct (X6_task_queries_nest demo_tasks_db 1 demo_tasks_db_ids)
    as (Hd & _ & _ & _ & _ & Hn).
  split; [rewrite Hd; reflexivity |].
  apply Hn. change (get_tasks_with_results demo_tasks_db 1) with [demo_task_row].
  apply list_elem_of_here.
Defined.

Lemma filter_map_update (P : generation_task -> Prop) `{!forall x, Decision (P x)}
    (g : generation_task -> generation_task) (i : Z) (l : list generation_task) :
  (forall r, id r <> i -> g r = r) ->
  (forall r, id r = i -> ~ P (g r)) ->
  filter P (map g l) = filter (fun t => P t /\ id t <> i) l.
Proof.
  intros Hother Hsame. induction l as [|x l IH]; [reflexivity |].
  cbn [map]. rewrite !filter_cons, IH.
  destruct (decide (id x = i)) as [Hi|Hi].
  - rewrite decide_False by (now apply Hsame).
    rewrite decide_False by tauto. reflexivity.
  - rewrite (Hother x Hi). destruct (decide (P x)) as [HP|HP].
    + rewrite decide_True by tauto. reflexivity.
    + rewrite decide_False by tauto. reflexivity.
Qed.

Lemma Sorted_map_id (l : list generation_task) : Sorted id_le l -> Sorted Z.le (map id l).
Proof.
  induction 1 as [|x l Hs IH Hhd]; cbn; constructor; auto.
  destruct Hhd; cbn; constructor; auto.
Qed.

Lemma sorted_ids_unique (l1 l2 : list generation_task) :
  Sorted id_le l1 -> Sorted id_le l2 -> map id l1 ≡ₚ map id l2 -> map id l1 = map id l2.
Proof.
  intros H1 H2 Hp. apply (Sorted_unique Z.le); auto using Sorted_map_id; apply _.
Qed.

Section StoreQueries.

Context `{Runtime}.

Lemma update_task_status_rows db now i st rid url lp err resp :
  exists g,
    generation_tasks (update_task_status db now i st rid url lp err resp) =
      map g (generation_tasks db) /\
    (forall r, id r <> i -> g r = r) /\
    (forall r, id r = i ->
       same_fixed_columns r (g r) /\ status (g r) = st /\
       local_path (g r) = written lp (local_path r)).
Proof.
  eexists. split; [reflexivity |]. split.
  - intros r Hr. apply Z.eqb_neq in Hr. now rewrite Hr.
  - intros r Hr. apply Z.eqb_eq in Hr. rewrite Hr.
    pose proof (updated_row_columns now st rid url lp err resp r) as Hx. cbv zeta in Hx.
    destruct Hx as (Hfix & Hst & _ & _ & _ & Hlp & _). auto.
Qed.

(** X7. What a status write does to the queries, on a table with unique
    ids: a status other than pending takes the task out of the pending list,
    a non-empty local path takes it out of the downloadable list, in both
    cases leaving the other tasks listed as they were; and no write adds a
    task to a job or takes one away. *)
Theorem X7_update_task_status_and_queries :
  forall db now i st rid url lp err resp job,
    NoDup (map id (generation_tasks db)) ->
    let db' := update_task_status db now i st rid url lp err resp in
    (st <> "pending" ->
       get_pending_tasks db' job = filter (fun t => id t <> i) (get_pending_tasks db job)) /\
    (Py.truthy_opt lp = true ->
       get_downloadable_tasks db' job =
         filter (fun t => id t <> i) (get_downloadable_tasks db job)) /\
    map id (get_tasks_by_batch db' job) = map id (get_tasks_by_batch db job).
Proof.
  intros db now i st rid url lp err resp job Hnd db'.
  destruct (update_task_status_rows db now i st rid url lp err resp)
    as (g & Hrows & Hother & Hsame).
  fold db' in Hrows.
  split; [| split].
  - intros Hst. unfold get_pending_tasks. rewrite Hrows.
    rewrite (filter_map_update _ g i) by
      (auto; intros r Hr [_ Hp]; destruct (Hsame r Hr) as (_ & Hs & _); congruence).
    now apply sort_filter_and.
  - intros Hlp. unfold get_downloadable_tasks. rewrite Hrows.
    rewrite (filter_map_update _ g i); [now apply sort_filter_and | exact Hother |].
    intros r Hr (_ & _ & _ & Hnone). destruct (Hsame r Hr) as (_ & _ & Hw).
    unfold written in Hw. rewrite Hlp in Hw. rewrite Hw in Hnone.
    destruct lp; discriminate.
  - apply sorted_ids_unique; try (apply Sorted_merge_sort, _).
    unfold get_tasks_by_batch. rewrite Hrows.
    change (@map generation_task Z id) with (@fmap list _ generation_task Z id).
    rewrite !merge_sort_Permutation.
    assert (Heq : forall l : list generation_task,
              id <$> filter (fun t => batch_job_id t = job) (map g l) =
              id <$> filter (fun t => batch_job_id t = job) l).
    { induction l as [|x l IH]; [reflexivity |].
      cbn [map]. rewrite !filter_cons.
      assert (Hx : batch_job_id (g x) = batch_job_id x /\ id (g x) = id x).
      { destruct (decide (id x = i)) as [Hi|Hi].
        - destruct (Hsame x Hi) as ((Hid & Hjob & _) & _). auto.
        - rewrite (Hother x Hi). auto. }
      destruct Hx as [Hj Hid]. rewrite Hj.
      destruct (decide (batch_job_id x = job)); [| exact IH].
      cbn [fmap list_fmap]. rewrite Hid. f_equal. exact IH. }
    now rewrite Heq.
Qed.

Lemma map_fixed {A} (g : A -> A) (l : list A) : (forall x, In x l -> g x = x) -> map g l = l.
Proof.
  intros Hg. rewrite <- (map_id l) at 2. now apply map_ext_in.
Qed.

(** X8. A write addressed to an id that has no row changes nothing:
    update_task_status on a task id not in the table, and
    update_batch_job_status and increment_batch_job_count on a job id not in
    the table, leave the store as it was (the UPDATE matches no row, and no
    row is created). *)
Theorem X8_writes_to_missing_rows :
  forall db now i st rid url lp err resp completed_,
    (get_task db i = None ->
       update_task_status db now i st rid url lp err resp = db) /\
    (get_batch_job db i = None ->
       update_batch_job_status db now i st = db /\
       increment_batch_job_count db now i completed_ = db).
Proof.
  intros db now i st rid url lp err resp completed_. split.
  - intros Hnone. unfold update_task_status, with_generation_tasks,
      sql_update_generation_tasks.
    rewrite map_fixed; [destruct db; reflexivity |].
    intros x Hx. unfold get_task in Hnone.
    pose proof (find_none _ _ Hnone x Hx) as Hne. cbn in Hne. now rewrite Hne.
  - intros Hnone. unfold get_batch_job in Hnone.
    unfold update_batch_job_status, increment_batch_job_count, with_batch_jobs.
    rewrite !map_fixed; [destruct db; split; reflexivity | |];
      intros x Hx; pose proof (find_none _ _ Hnone x Hx) as Hne; cbn in Hne;
      now rewrite Hne.
Qed.

End StoreQueries.

Lemma X7_update_task_status_and_queries_witness :
  get_downloadable_tasks
    (@update_task_status python_runtime demo_tasks_db 130 7 "completed"
       None None (Some "out/task_0007.png") None None) 1 = [] /\
  map id (get_pending_tasks
            (@update_task_status python_runtime demo_tasks_db 130 6 "processing"
               None None None None None) 1) = [].
Proof.
  split.
  - rewrite (proj1 (proj2 (@X7_update_task_status_and_queries python_runtime
               demo_tasks_db 130 7 "completed" None None (Some "out/task_0007.png")
               None None 1 demo_tasks_db_ids)) eq_refl).
    reflexivity.
  - rewrite (proj1 (@X7_update_task_status_and_queries python_runtime
               demo_tasks_db 130 6 "processing" None None None None None 1
               demo_tasks_db_ids)) by discriminate.
    reflexivity.
Defined.

(** X9. The two writes on a job row: update_batch_job_status sets the status
    and updated_at of the row addressed, increment_batch_job_count adds one to
    the counter chosen and sets updated_at; the other columns of the row, the
    rows of the other jobs, and the task and ledger tables stay as they
    were. *)
Theorem X9_batch_job_writes :
  forall db now job st (completed_ : bool) j,
    get_batch_job db job = Some j ->
    get_batch_job (update_batch_job_status db now job st) job =
      Some (mkJob (job_id j) (job_name j) st (total_count j) (completed_count j)
                  (failed_count j) (job_prompt_template j) (job_settings j)
                  (job_created_at j) now) /\
    get_batch_job (increment_batch_job_count db now job completed_) job =
      Some (mkJob (job_id j) (job_name j) (job_status j) (total_count j)
                  (completed_count j + if completed_ then 1 else 0)
                  (failed_count j + if completed_ then 0 else 1)
                  (job_prompt_template j) (job_settings j) (job_created_at j) now) /\
    (forall job', job' <> job ->
       get_batch_job (update_batch_job_status db now job st) job' = get_batch_job db job' /\
       get_batch_job (increment_batch_job_count db now job completed_) job' =
         get_batch_job db job') /\
    generation_tasks (update_batch_job_status db now job st) = generation_tasks db /\
    generation_tasks (increment_batch_job_count db now job completed_) =
      generation_tasks db /\
    used_combinations (update_batch_job_status db now job st) = used_combinations db /\
    used_combinations (increment_batch_job_count db now job completed_) =
      used_combinations db.
Proof.
  intros db now job st completed_ j Hj.
  assert (Hid : Z.eqb (job_id j) job = true).
  { unfold get_batch_job in Hj. now apply find_some in Hj as [_ Hid]. }
  split; [| split; [| split; [| repeat split]]].
  - unfold get_batch_job, update_batch_job_status in *. cbn [batch_jobs with_batch_jobs].
    rewrite find_map_preserving, Hj.
    + cbn [option_map]. now rewrite Hid.
    + intros x. destruct (Z.eqb (job_id x) job) eqn:E; [cbn |]; exact E.
  - unfold get_batch_job, increment_batch_job_count in *. cbn [batch_jobs with_batch_jobs].
    rewrite find_map_preserving, Hj.
    + cbn [option_map]. rewrite Hid. destruct completed_; now rewrite Z.add_0_r.
    + intros x. destruct (Z.eqb (job_id x) job) eqn:E; [| exact E].
      destruct completed_; cbn; exact E.
  - intros job' Hne.
    unfold get_batch_job, update_batch_job_status, increment_batch_job_count.
    cbn [batch_jobs with_batch_jobs]. split.
    + rewrite find_map_preserving.
      * destruct (find _ (batch_jobs db)) as [x|] eqn:Hf; [| reflexivity].
        apply find_some in Hf as [_ Hx]. apply Z.eqb_eq in Hx. cbn [option_map].
        assert (Z.eqb (job_id x) job = false) as -> by (apply Z.eqb_neq; congruence).
        reflexivity.
      * intros x. destruct (Z.eqb (job_id x) job) eqn:E; [cbn |]; reflexivity.
    + rewrite find_map_preserving.
      * destruct (find _ (batch_jobs db)) as [x|] eqn:Hf; [| reflexivity].
        apply find_some in Hf as [_ Hx]. apply Z.eqb_eq in Hx. cbn [option_map].
        assert (Z.eqb (job_id x) job = false) as -> by (apply Z.eqb_neq; congruence).
        reflexivity.
      * intros x. destruct (Z.eqb (job_id x) job) eqn:E; [| reflexivity].
        destruct completed_; reflexivity.
Qed.

Lemma X9_batch_job_writes_witness :
  get_batch_job (increment_batch_job_count scripted_db 1100 1 false) 1 =
  Some (mkJob 1 "demo" "pending" 5 0 1 "a portrait" "{}" 1000 1100).
Proof.
  exact (proj1 (proj2 (X9_batch_job_writes scripted_db 1100 1 "running" false
                         (mkJob 1 "demo" "pending" 5 0 0 "a portrait" "{}" 1000 1000)
                         eq_refl))).
Defined.

(** ** Draws from the pools *)

Lemma reads_only_refl w : reads_only w w.
Proof. repeat split. Qed.

Lemma reads_only_trans w1 w2 w3 : reads_only w1 w2 -> reads_only w2 w3 -> reads_only w1 w3.
Proof. intros (a & b & c) (d & e & f). repeat split; congruence. Qed.

Lemma available_spec files exclude f :
  f ∈ available files exclude <-> f ∈ files /\ allowed exclude f.
Proof.
  unfold available, allowed. destruct exclude as [ex|].
  - destruct (bool_decide (ex = ∅)) eqn:E.
    + apply bool_decide_eq_true in E. subst ex. split; [| tauto].
      intros Hf. split; [exact Hf |]. intros ex [= <-]. apply not_elem_of_empty.
    + rewrite list_elem_of_filter. split.
      * intros [Hn Hf]. split; [exact Hf |]. now intros ex' [= <-].
      * intros [Hf Hn]. split; [now apply Hn | exact Hf].
  - split; [| tauto]. intros Hf. split; [exact Hf | discriminate].
Qed.

Lemma available_nil files exclude :
  available files exclude = [] <->
  forall f, f ∈ files -> exists ex, exclude = Some ex /\ f ∈ ex.
Proof.
  split.
  - intros Hnil f Hf.
    destruct exclude as [ex|].
    + exists ex. split; [reflexivity |].
      destruct (decide (f ∈ ex)) as [|Hn]; [assumption |]. exfalso.
      assert (Hin : f ∈ available files (Some ex)).
      { apply available_spec. split; [exact Hf |]. now intros ex' [= <-]. }
      rewrite Hnil in Hin. inversion Hin.
    + exfalso. cbn in Hnil. subst files. inversion Hf.
  - intros Hall. destruct (available files exclude) as [|f av] eqn:E; [reflexivity |].
    exfalso. assert (Hin : f ∈ available files exclude) by (rewrite E; left).
    apply available_spec in Hin as [Hf Hal].
    destruct (Hall f Hf) as (ex & Hex & Hfex). exact (Hal ex Hex Hfex).
Qed.

Section Draws.

Context `{Runtime} `{Environment}.

Lemma choice_drawn (xs : list string) w :
  xs <> [] ->
  returns (choice xs) w
    (fun x w' => x ∈ xs /\ reads_only w w' /\
                 w_contents_cache w' = w_contents_cache w /\ w_log w' = w_log w).
Proof.
  intros Hne. unfold returns, choice. apply run_spec_bind. unfold run_spec at 1. cbn [observe].
  destruct (xs !! (random_index (w_tick w) mod length xs)%nat) as [x|] eqn:Hx.
  - apply run_spec_ret. split; [| repeat split].
    apply list_elem_of_lookup. eauto.
  - exfalso. apply lookup_ge_None in Hx.
    assert (length xs <> 0)%nat by (destruct xs; [congruence | simpl; lia]).
    pose proof (Nat.mod_upper_bound (random_index (w_tick w)) (length xs)). lia.
Qed.

Lemma image_get_random_spec (self : ImageSource) exclude w :
  returns (ImageSource_get_random self exclude) w
    (fun r w' =>
       match r with
       | Some x => x ∈ img_files self /\ allowed exclude x
       | None => forall f, f ∈ img_files self -> exists ex, exclude = Some ex /\ f ∈ ex
       end /\
       reads_only w w' /\ w_contents_cache w' = w_contents_cache w /\ w_log w' = w_log w).
Proof.
  unfold ImageSource_get_random.
  destruct (img_files self) as [|f0 files] eqn:Hfiles.
  { apply run_spec_ret. split; [| repeat split]. intros f Hf. inversion Hf. }
  destruct (available (f0 :: files) exclude) as [|a av] eqn:Hav.
  { apply run_spec_ret. split; [| repeat split]. now apply available_nil. }
  unfold returns. apply run_spec_bind.
  eapply run_spec_mono; [apply (choice_drawn (a :: av) w); discriminate | | auto | auto].
  intros x w' (Hx & Hr & Hc & Hl). apply run_spec_ret.
  split; [| auto]. rewrite <- Hav in Hx. now apply available_spec in Hx.
Qed.

Lemma read_file_spec (p : string) w :
  returns (_read_file p) w
    (fun c w' =>
       c = content_of (w_contents_cache w) (w_fs w) p /\
       reads_only w w' /\
       w_contents_cache w' =
         match w_contents_cache w !! p, read_text (w_fs w) p with
         | None, Some text => <[p := Py.strip text]> (w_contents_cache w)
         | _, _ => w_contents_cache w
         end).
Proof.
  apply returns_intro. pose proof (read_file_cases w p) as Hcases. unfold content_of.
  destruct (w_contents_cache w !! p).
  - eexists _, _. split; [exact Hcases |]. repeat split.
  - destruct (read_text (w_fs w) p); eexists _, _; (split; [exact Hcases |]); repeat split.
Qed.

Lemma prompt_get_random_spec (self : PromptSource) exclude w :
  returns (PromptSource_get_random self exclude) w
    (fun r w' =>
       match r with
       | Some (f, c) =>
           f ∈ ps_files self /\ allowed exclude f /\
           c = content_of (w_contents_cache w) (w_fs w) f /\
           w_contents_cache w' =
             match w_contents_cache w !! f, read_text (w_fs w) f with
             | None, Some text => <[f := Py.strip text]> (w_contents_cache w)
             | _, _ => w_contents_cache w
             end
       | None =>
           (forall f, f ∈ ps_files self -> exists ex, exclude = Some ex /\ f ∈ ex) /\
           w_contents_cache w' = w_contents_cache w
       end /\
       reads_only w w').
Proof.
  unfold PromptSource_get_random.
  destruct (ps_files self) as [|f0 files] eqn:Hfiles.
  { apply run_spec_ret. split; [| repeat split]. split; [| reflexivity].
    intros f Hf. inversion Hf. }
  destruct (available (f0 :: files) exclude) as [|a av] eqn:Hav.
  { apply run_spec_ret. split; [| repeat split]. split; [| reflexivity].
    now apply available_nil. }
  unfold returns. apply run_spec_bind.
  eapply run_spec_mono; [apply (choice_drawn (a :: av) w); discriminate | | auto | auto].
  intros x w1 (Hx & Hr1 & Hc1 & Hl1). apply run_spec_bind.
  eapply run_spec_mono; [apply read_file_spec | | auto | auto].
  intros c w2 (Hc & Hr2 & Hc2). apply run_spec_ret.
  rewrite <- Hav in Hx. apply available_spec in Hx as [Hx Hal].
  destruct Hr1 as (Hd1 & Hf1 & Hj1).
  rewrite Hc1, Hf1 in Hc, Hc2.
  split; [| apply (reads_only_trans w w1 w2); [repeat split; assumption | exact Hr2]].
  repeat split; assumption.
Qed.

End Draws.

(** X10. ImageSource.get_random never raises and changes nothing; it gives a
    file of the pool that is not in the exclusion set, and gives None exactly
    when every file of the pool is excluded (so also for an empty pool); an
    empty exclusion set excludes nothing. *)
Theorem X10_image_get_random :
  forall `{Environment} (self : ImageSource) (exclude : option (gset string)) (w : World),
    returns (ImageSource_get_random self exclude) w
      (fun r w' =>
         match r with
         | Some x => x ∈ img_files self /\ allowed exclude x
         | None => forall f, f ∈ img_files self -> exists ex, exclude = Some ex /\ f ∈ ex
         end /\
         w_db w' = w_db w /\ w_fs w' = w_fs w /\
         w_contents_cache w' = w_contents_cache w /\ w_log w' = w_log w).
Proof.
  intros E self exclude w.
  eapply run_spec_mono; [apply image_get_random_spec | | auto | auto].
  intros r w' (Hr & (Hd & Hf & _) & Hc & Hl). auto.
Qed.

(** X11. PromptSource.get_random never raises and leaves store and disk
    alone; it gives a file of the pool that is not excluded, with the content
    the pool has for it (the cached one, else the stripped text read from
    disk, which it then caches, else the empty string for an unreadable
    file), and gives None exactly when every file of the pool is excluded. *)
Theorem X11_prompt_get_random :
  forall `{Environment} (self : PromptSource) (exclude : option (gset string)) (w : World),
    returns (PromptSource_get_random self exclude) w
      (fun r w' =>
         match r with
         | Some (f, c) =>
             f ∈ ps_files self /\ allowed exclude f /\
             c = content_of (w_contents_cache w) (w_fs w) f /\
             w_contents_cache w' =
               match w_contents_cache w !! f, read_text (w_fs w) f with
               | None, Some text => <[f := Py.strip text]> (w_contents_cache w)
               | _, _ => w_contents_cache w
               end
         | None =>
             (forall f, f ∈ ps_files self -> exists ex, exclude = Some ex /\ f ∈ ex) /\
             w_contents_cache w' = w_contents_cache w
         end /\
         w_db w' = w_db w /\ w_fs w' = w_fs w).
Proof.
  intros E self exclude w.
  eapply run_spec_mono; [apply prompt_get_random_spec | | auto | auto].
  intros r w' (Hr & (Hd & Hf & _)). auto.
Qed.

(** ** Selection and preparation *)

Lemma same_contents_refl w : same_contents w w.
Proof. intros p. reflexivity. Qed.

Lemma same_contents_trans w1 w2 w3 :
  same_contents w1 w2 -> same_contents w2 w3 -> same_contents w1 w3.
Proof. intros H1 H2 p. now rewrite H2, H1. Qed.

(** Caching what a read gave does not change what the pool answers. *)
Lemma content_of_cached cache fs f p :
  content_of (match cache !! f, read_text fs f with
              | None, Some text => <[f := Py.strip text]> cache
              | _, _ => cache
              end) fs p = content_of cache fs p.
Proof.
  destruct (cache !! f) as [c|] eqn:Hc; [reflexivity |].
  destruct (read_text fs f) as [text|] eqn:Hr; [| reflexivity].
  unfold content_of. destruct (decide (p = f)) as [->|Hne].
  - now rewrite lookup_insert_eq, Hc, Hr.
  - now rewrite lookup_insert_ne by congruence.
Qed.

Lemma preparing_refl w : preparing w w.
Proof. repeat split. Qed.

Lemma preparing_trans w1 w2 w3 : preparing w1 w2 -> preparing w2 w3 -> preparing w1 w3.
Proof.
  intros (a & b & c & d & e) (a' & b' & c' & d' & e').
  split; [congruence |]. split; [congruence |].
  split; [eapply same_contents_trans; eauto |]. split; congruence.
Qed.

Lemma reads_only_preparing w w' :
  reads_only w w' -> same_contents w w' -> preparing w w'.
Proof.
  intros (Hd & Hf & Hj) Hc. unfold preparing. rewrite Hd.
  split; [exact Hf |]. split; [exact Hj |]. split; [exact Hc |]. split; reflexivity.
Qed.

Lemma candidates_files (files : list string) f : files <> [] -> f ∈ files -> f ∈ candidates files.
Proof. intros Hne Hf. destruct files; [contradiction | exact Hf]. Qed.

Lemma has_files_candidates s :
  has_files (Some s) = true -> image_candidates (Some s) = img_files s.
Proof. cbn. destruct (img_files s); [discriminate | reflexivity]. Qed.

Lemma no_files_candidates source :
  has_files source = false -> image_candidates source = [""].
Proof.
  destruct source as [s|]; [| reflexivity]. cbn.
  destruct (img_files s); [reflexivity | discriminate].
Qed.

Section SelectionProofs.

Context `{Runtime} `{Environment}.

Lemma draw_image_spec (source : option ImageSource) w :
  returns (draw_image source) w
    (fun x w' => x ∈ image_candidates source /\ reads_only w w' /\
                 w_contents_cache w' = w_contents_cache w).
Proof.
  unfold draw_image. destruct source as [s|];
    [| apply run_spec_ret; split; [left | split; [apply reads_only_refl | reflexivity]]].
  destruct (has_files (Some s)) eqn:Hhas.
  - unfold returns. apply run_spec_bind.
    eapply run_spec_mono; [apply image_get_random_spec | | auto | auto].
    intros r w' (Hr & Hro & Hc & _). apply run_spec_ret.
    split; [| auto]. rewrite (has_files_candidates s Hhas).
    destruct r as [x|].
    + destruct Hr as [Hx _]. cbn. destruct x; [exact Hx | exact Hx].
    + exfalso. cbn in Hhas. destruct (img_files s) as [|f fs] eqn:Hfs; [discriminate |].
      destruct (Hr f) as (ex & Hex & _); [left | discriminate].
  - apply run_spec_ret. rewrite (no_files_candidates _ Hhas).
    split; [left | split; [apply reads_only_refl | reflexivity]].
Qed.

Lemma draw_prompt_spec (config : BatchConfig) used w :
  returns (draw_prompt config used) w
    (fun pr w' =>
       fst pr ∈ prompt_candidates (prompt_source config) /\
       snd pr = prompt_content_in config w (fst pr) /\
       reads_only w w' /\ same_contents w w').
Proof.
  unfold draw_prompt, prompt_content_in.
  destruct (prompt_source config) as [ps|];
    [| apply run_spec_ret; cbn; split; [left | repeat split]].
  destruct (has_prompt_files (Some ps)) eqn:Hhas.
  2:{ apply run_spec_ret. cbn. cbn in Hhas.
      destruct (ps_files ps); [| discriminate]. split; [left | repeat split]. }
  assert (Hcand : prompt_candidates (Some ps) = ps_files ps).
  { cbn. cbn in Hhas. destruct (ps_files ps); [discriminate | reflexivity]. }
  rewrite Hcand.
  unfold returns. apply run_spec_bind.
  eapply run_spec_mono; [apply prompt_get_random_spec | | auto | auto].
  intros [[f c]|] w1 (Hr1 & Hro1).
  - apply run_spec_ret. cbn [fst snd]. destruct Hr1 as (Hf & _ & Hc & Hcache).
    repeat split; try tauto; try apply Hro1.
    intros p. destruct Hro1 as (_ & Hfs & _). rewrite Hcache, Hfs. apply content_of_cached.
  - destruct Hr1 as (_ & Hcache1).
    assert (Hsc1 : same_contents w w1).
    { intros p. destruct Hro1 as (_ & Hfs & _). now rewrite Hcache1, Hfs. }
    apply run_spec_bind.
    eapply run_spec_mono; [apply prompt_get_random_spec | | auto | auto].
    intros [[f c]|] w2 (Hr2 & Hro2).
    + apply run_spec_ret. cbn [fst snd]. destruct Hr2 as (Hf & _ & Hc & Hcache).
      split; [exact Hf |]. split; [| split].
      * rewrite Hc. apply Hsc1.
      * eapply reads_only_trans; eauto.
      * eapply same_contents_trans; [exact Hsc1 |].
        intros p. destruct Hro2 as (_ & Hfs & _). rewrite Hcache, Hfs.
        apply content_of_cached.
    + exfalso. destruct Hr2 as (Hall & _). cbn in Hhas.
      destruct (ps_files ps) as [|f fs]; [discriminate |].
      destruct (Hall f) as (ex & Hex & _); [left | discriminate].
Qed.

Lemma db_is_combination_used_full job h w Q E H' :
  Q (is_combination_used (w_db w) job h)
    (mkWorld (w_db w) (w_fs w) (w_contents_cache w) (w_current_job_id w) (w_tick w)
             (w_log w ++ [Ev_is_combination_used job h])) ->
  run_spec (db_is_combination_used job h) w Q E H'.
Proof. intros HQ. exact HQ. Qed.

Lemma db_mark_combination_used_full job h f o b w Q E H' :
  Q tt (mkWorld (mark_combination_used (w_db w) (current_timestamp (w_tick w)) job h f o b)
                (w_fs w) (w_contents_cache w) (w_current_job_id w) (S (w_tick w))
                (w_log w ++ [Ev_mark_combination_used job h])) ->
  run_spec (db_mark_combination_used job h f o b) w Q E H'.
Proof. intros HQ. exact HQ. Qed.

Lemma db_create_generation_task_full job face outfit background pf pc text w Q E H' :
  Q (seq_generation_tasks (w_db w) + 1)
    (mkWorld (fst (create_generation_task (w_db w) (current_timestamp (w_tick w)) job
                     face outfit background text))
             (w_fs w) (w_contents_cache w) (w_current_job_id w) (S (w_tick w))
             (w_log w ++ [Ev_create_generation_task (seq_generation_tasks (w_db w) + 1)
                            face outfit background pf])) ->
  run_spec (db_create_generation_task job (face, outfit, background, pf, pc) text) w Q E H'.
Proof. intros HQ. exact HQ. Qed.

Lemma in_all_tuples config face outfit background pf :
  face ∈ image_candidates (face_source config) ->
  outfit ∈ image_candidates (outfit_source config) ->
  background ∈ image_candidates (background_source config) ->
  pf ∈ prompt_candidates (prompt_source config) ->
  (face, outfit, background, pf) ∈ all_tuples config.
Proof.
  intros Hf Ho Hb Hp. unfold all_tuples.
  apply list_elem_of_In, in_prod; [apply in_prod; [apply in_prod |] |];
    now apply list_elem_of_In.
Qed.

Lemma selection_fallback config job w :
  selection config job w ("", "", "", "", cfg_prompt_template config) w.
Proof.
  split; [apply preparing_refl |]. split; [reflexivity |]. split; [reflexivity |].
  split; [left; reflexivity |]. exists []. rewrite app_nil_r. auto.
Qed.

Lemma select_attempts_selection attempts config job used :
  forall w, returns (select_attempts attempts config job used) w (selection config job w).
Proof.
  induction attempts as [|attempts IH]; intros w.
  - apply run_spec_ret, selection_fallback.
  - rewrite select_attempts_unfold. unfold returns.
    apply run_spec_bind.
    eapply run_spec_mono; [apply draw_image_spec | | auto | auto].
    intros face w1 (Hface & Hro1 & Hc1). apply run_spec_bind.
    eapply run_spec_mono; [apply draw_image_spec | | auto | auto].
    intros outfit w2 (Houtfit & Hro2 & Hc2). apply run_spec_bind.
    eapply run_spec_mono; [apply draw_image_spec | | auto | auto].
    intros background w3 (Hbg & Hro3 & Hc3). apply run_spec_bind.
    eapply run_spec_mono; [apply draw_prompt_spec | | auto | auto].
    intros [pf pc] w4 (Hpf & Hpc & Hro4 & Hsc4). cbn [fst snd] in Hpf, Hpc.
    assert (Hro : reads_only w w4).
    { eapply reads_only_trans; [exact Hro1 |]. eapply reads_only_trans; [exact Hro2 |].
      eapply reads_only_trans; [exact Hro3 | exact Hro4]. }
    assert (Hsc : same_contents w w4).
    { intros p. rewrite Hsc4. destruct Hro3 as (_ & Hf3 & _), Hro2 as (_ & Hf2 & _),
        Hro1 as (_ & Hf1 & _). now rewrite Hc3, Hc2, Hc1, Hf3, Hf2, Hf1. }
    assert (Hpc' : pc = prompt_content_in config w pf).
    { rewrite Hpc. unfold prompt_content_in.
      destruct (has_prompt_files _); [| reflexivity].
      destruct Hro3 as (_ & Hf3 & _), Hro2 as (_ & Hf2 & _), Hro1 as (_ & Hf1 & _).
      now rewrite Hc3, Hc2, Hc1, Hf3, Hf2, Hf1. }
    pose proof (in_all_tuples config face outfit background pf Hface Houtfit Hbg Hpf)
      as Hin.
    assert (Hsel : selectable config w (face, outfit, background, pf, pc)).
    { right. split; [exact Hin | exact Hpc']. }
    destruct (allow_duplicate_combinations config) eqn:Hdup; cbn [negb].
    + apply run_spec_ret. destruct Hro as (Hd & Hf & Hj).
      split; [apply reads_only_preparing; [repeat split; assumption | exact Hsc] |].
      rewrite Hd. split; [reflexivity |]. split; [reflexivity |].
      split; [exact Hsel |]. exists []. rewrite app_nil_r. auto.
    + apply run_spec_bind, db_is_combination_used_full.
      set (h := _generate_combination_hash face outfit background pf).
      set (w5 := mkWorld _ _ _ _ _ _).
      assert (Hro5 : reads_only w w5) by (destruct Hro as (? & ? & ?); repeat split; assumption).
      assert (Hsc5 : same_contents w w5) by exact Hsc.
      destruct (is_combination_used (w_db w4) job h) eqn:Hused.
      * eapply run_spec_mono; [apply (IH w5) | | auto | auto].
        intros c w6 (Hp6 & Ht6 & Hs6 & Hsel6 & ext & Hext & Hcase).
        assert (Hd5 : w_db w5 = w_db w) by apply Hro5.
        split; [eapply preparing_trans; [apply reads_only_preparing; eassumption | exact Hp6] |].
        rewrite Hd5 in *. split; [exact Ht6 |]. split; [exact Hs6 |]. split.
        { destruct Hsel6 as [Hfb | [Hin6 Hc6]]; [left; exact Hfb | right].
          split; [exact Hin6 |]. rewrite Hc6. unfold prompt_content_in.
          destruct (has_prompt_files _); [| reflexivity]. apply Hsc5. }
        exists ext. split; [exact Hext | exact Hcase].
      * apply run_spec_bind, db_mark_combination_used_full.
        apply run_spec_ret.
        destruct Hro as (Hd & Hf & Hj).
        cbn [w_db w_fs w_contents_cache w_current_job_id w5].
        unfold mark_combination_used, insert_used_combination.
        unfold is_combination_used in Hused. rewrite Hused.
        split; [| split; [| split; [| split]]].
        -- unfold preparing. cbn. rewrite Hd.
           split; [exact Hf |]. split; [exact Hj |]. split; [exact Hsc |].
           split; reflexivity.
        -- cbn. now rewrite Hd.
        -- cbn. now rewrite Hd.
        -- exact Hsel.
        -- eexists [_]. split; [cbn; rewrite Hd; reflexivity |]. right.
           split; [exact Hdup |]. split; [exact Hin |]. split.
           ++ rewrite <- Hd. exact Hused.
           ++ eexists. split; [reflexivity |]. repeat split.
Qed.

End SelectionProofs.

Lemma map_seq_shift (s : Z) (a k : nat) :
  map (fun i => s + Z.of_nat i) (seq (1 + a) k) =
  map (fun i => s + Z.of_nat a + Z.of_nat i) (seq 1 k).
Proof.
  generalize 1%nat as b. induction k as [|k IH]; intros b; [reflexivity |].
  cbn [seq map]. f_equal; [lia | apply (IH (S b))].
Qed.

Lemma is_used_app_false db job h (used' : list used_combination) ext :
  used' = used_combinations db ++ ext ->
  existsb (ledger_row_is job h) used' = false ->
  is_combination_used db job h = false /\
  forall r, r ∈ ext -> uc_batch_job_id r = job -> combination_hash r <> h.
Proof.
  intros -> Hex. rewrite existsb_app in Hex. apply orb_false_iff in Hex as [H1 H2].
  split; [exact H1 |]. intros r Hr Hjob Hh.
  rewrite <- not_true_iff_false in H2. apply H2. apply existsb_exists.
  exists r. split; [now apply list_elem_of_In |].
  unfold ledger_row_is. now rewrite Hjob, Hh, Z.eqb_refl, String.eqb_refl.
Qed.

Section PreparationProofs.

Context `{Runtime} `{Environment}.

Lemma selectable_same config w w' c :
  same_contents w w' -> selectable config w' c -> selectable config w c.
Proof.
  intros Hsc [Hfb | [Hin Hc]]; [left; exact Hfb | right].
  split; [exact Hin |]. rewrite Hc. unfold prompt_content_in.
  destruct (has_prompt_files _); [apply Hsc | reflexivity].
Qed.

Lemma preparation_refl config job w : preparation config job w 0 w.
Proof.
  split; [apply preparing_refl |]. exists [], []. rewrite !app_nil_r.
  cbn [Z.of_nat]. rewrite Z.add_0_r. repeat split; auto; constructor.
Qed.

Lemma preparation_trans config job w1 w2 w3 k1 k2 :
  preparation config job w1 k1 w2 -> preparation config job w2 k2 w3 ->
  preparation config job w1 (k1 + k2) w3.
Proof.
  intros (Hp1 & rows1 & ext1 & Ht1 & Hl1 & Hi1 & Hs1 & Hr1 & Hu1 & Hd1 & He1 & Hn1)
         (Hp2 & rows2 & ext2 & Ht2 & Hl2 & Hi2 & Hs2 & Hr2 & Hu2 & Hd2 & He2 & Hn2).
  split; [eapply preparing_trans; eauto |].
  exists (rows1 ++ rows2), (ext1 ++ ext2).
  split; [rewrite Ht2, Ht1; now rewrite app_assoc |].
  split; [rewrite length_app; lia |].
  split; [| split; [| split; [| split; [| split; [| split]]]]].
  - rewrite map_app, Hi1, Hi2, Hs1, seq_app, map_app. f_equal.
    symmetry. apply map_seq_shift.
  - rewrite Hs2, Hs1. lia.
  - apply Forall_app. split; [exact Hr1 |].
    eapply Forall_impl; [exact Hr2 |]. intros t (c & Hc & Hrow).
    exists c. split; [| exact Hrow].
    eapply selectable_same; [| exact Hc]. apply Hp1.
  - rewrite Hu2, Hu1. now rewrite app_assoc.
  - intros Hdup. now rewrite (Hd1 Hdup), (Hd2 Hdup).
  - apply Forall_app. split; [exact He1 |].
    eapply Forall_impl; [exact He2 |]. intros r (Hj & Hin & Hnot).
    split; [exact Hj |]. split; [exact Hin |].
    unfold is_combination_used in Hnot.
    now apply (is_used_app_false (w_db w1) job _ _ ext1 Hu1) in Hnot as [Hnot _].
  - change (NoDup (combination_hash <$> ext1 ++ ext2)). rewrite fmap_app.
    apply NoDup_app. split; [exact Hn1 |]. split; [| exact Hn2].
    intros h Hh1 Hh2.
    apply list_elem_of_fmap in Hh1 as (r1 & -> & Hr1in).
    apply list_elem_of_fmap in Hh2 as (r2 & Heq & Hr2in).
    rewrite Forall_forall in He1, He2.
    destruct (He1 r1 Hr1in) as (Hj1 & _ & _).
    destruct (He2 r2 Hr2in) as (Hj2 & _ & Hnot).
    unfold is_combination_used in Hnot.
    apply (is_used_app_false (w_db w1) job _ _ ext1 Hu1) in Hnot as [_ Hnot].
    apply (Hnot r1 Hr1in Hj1). congruence.
Qed.

Lemma selection_preparation config job w c w' :
  selection config job w c w' -> preparation config job w 0 w'.
Proof.
  intros (Hp & Ht & Hs & Hsel & ext & Hu & Hcase).
  split; [exact Hp |]. exists [], ext. rewrite app_nil_r, Z.add_0_r.
  split; [exact Ht |]. split; [reflexivity |]. split; [reflexivity |].
  split; [exact Hs |]. split; [constructor |]. split; [exact Hu |].
  destruct Hcase as [-> | (Hdup & Hin & Hnot & r & -> & Hj & Hh & _)].
  - repeat split; auto; constructor.
  - split; [congruence |]. split.
    + constructor; [| constructor]. split; [exact Hj |]. rewrite Hh.
      split; [| exact Hnot].
      apply list_elem_of_In, in_map, list_elem_of_In, Hin.
    + cbn. apply NoDup_singleton.
Qed.

Lemma prepare_loop_preparation remaining job config :
  forall w used n,
    returns (prepare_loop remaining job config used n) w
      (fun n' w' => exists k, n' = (n + k)%nat /\ (k <= remaining)%nat /\
                              preparation config job w k w').
Proof.
  induction remaining as [|remaining IH]; intros w used n.
  - apply run_spec_ret. exists 0%nat. split; [lia |]. split; [lia |].
    apply preparation_refl.
  - cbn [prepare_loop]. unfold returns. apply run_spec_bind.
    eapply run_spec_mono;
      [apply (select_attempts_selection max_attempts config job (Some used) w)
      | | auto | auto].
    intros [[[[face outfit] background] pf] pc] w1 Hsel.
    pose proof (selection_preparation _ _ _ _ _ Hsel) as Hprep1.
    destruct (Py.truthy (_build_prompt pc face outfit background)) eqn:Htruthy;
      cbn [negb].
    + apply run_spec_bind, db_create_generation_task_full.
      set (w2 := mkWorld _ _ _ _ _ _).
      assert (Hprep2 : preparation config job w1 1 w2).
      { split; [repeat split |].
        eexists [_], []. rewrite app_nil_r. cbn [w_db w2 fst create_generation_task
          generation_tasks seq_generation_tasks used_combinations length map seq].
        split; [reflexivity |]. split; [reflexivity |]. split; [reflexivity |].
        split; [reflexivity |]. split; [| repeat split; auto; constructor].
        constructor; [| constructor].
        exists (face, outfit, background, pf, pc). split.
        - destruct Hsel as (Hp & _ & _ & Hs & _).
          destruct Hs as [Hfb | [Hin Hc]]; [left; exact Hfb | right].
          split; [exact Hin |]. rewrite Hc. unfold prompt_content_in.
          destruct (has_prompt_files _); [| reflexivity].
          destruct Hp as (_ & _ & Hsc & _). symmetry. apply Hsc.
        - cbn. repeat split; auto. }
      eapply run_spec_mono; [apply (IH w2 _ (S n)) | | auto | auto].
      intros n' w3 (k & Hn' & Hk & Hprep3).
      exists (S k). split; [lia |]. split; [lia |].
      change (S k) with (0 + (1 + k))%nat.
      eapply preparation_trans; [exact Hprep1 |].
      eapply preparation_trans; [exact Hprep2 | exact Hprep3].
    + apply run_spec_bind. unfold run_spec at 1. cbn [emit].
      set (w2 := mkWorld _ _ _ _ _ _).
      eapply run_spec_mono; [apply (IH w2 _ n) | | auto | auto].
      intros n' w3 (k & Hn' & Hk & Hprep3).
      exists k. split; [lia |]. split; [lia |].
      change k with (0 + (0 + k))%nat.
      eapply preparation_trans; [exact Hprep1 |].
      eapply preparation_trans; [| exact Hprep3].
      subst w2. split; [repeat split |]. exists [], []. rewrite !app_nil_r.
      cbn [w_db]. rewrite Z.add_0_r. repeat split; auto; constructor.
Qed.

End PreparationProofs.

(** ** Prompts *)

Lemma replace_from_absent (old new s : string) :
  Py.str_in old s = false -> Py.replace_from 0 old new s = s.
Proof.
  induction s as [|c s IH]; [reflexivity |].
  cbn [Py.str_in Py.replace_from]. intros Hin.
  apply orb_false_iff in Hin as [Hp Hs]. rewrite Hp. f_equal. exact (IH Hs).
Qed.

Lemma replace_absent (old new s : string) :
  Py.str_in old s = false -> Py.replace old new s = s.
Proof.
  intros Hin. unfold Py.replace. destruct old; [reflexivity |].
  now apply replace_from_absent.
Qed.

(** X12. A template in which none of the three placeholders occurs is the
    prompt _build_prompt returns, whatever the images are; in particular the
    empty template gives the empty prompt. *)
Theorem X12_build_prompt_without_placeholders :
  forall template face outfit background,
    Py.str_in "{face}" template = false ->
    Py.str_in "{outfit}" template = false ->
    Py.str_in "{background}" template = false ->
    _build_prompt template face outfit background = template.
Proof.
  intros template face outfit background Hf Ho Hb. unfold _build_prompt.
  rewrite (replace_absent "{face}" _ template Hf).
  rewrite (replace_absent "{outfit}" _ template Ho).
  exact (replace_absent "{background}" _ template Hb).
Qed.

Lemma X12_build_prompt_without_placeholders_witness :
  _build_prompt "a portrait, soft light" "in/faces/a.jpg" "" "in/bg/sea.png" =
  "a portrait, soft light".
Proof.
  exact (X12_build_prompt_without_placeholders "a portrait, soft light" "in/faces/a.jpg" ""
           "in/bg/sea.png" eq_refl eq_refl eq_refl).
Defined.

Lemma build_prompt_empty face outfit background : _build_prompt "" face outfit background = "".
Proof. reflexivity. Qed.

(** ** What prepare_tasks writes *)

Lemma Sorted_app_id (l1 l2 : list generation_task) :
  Sorted id_le l1 -> Sorted id_le l2 ->
  (forall x y, x ∈ l1 -> y ∈ l2 -> id x <= id y) -> Sorted id_le (l1 ++ l2).
Proof.
  intros H1 H2 Hle. apply Sorted_StronglySorted in H1; [| apply _].
  apply Sorted_StronglySorted in H2; [| apply _]. apply StronglySorted_Sorted.
  induction H1 as [|x l1 H1 IH Hx]; [exact H2 |].
  cbn. constructor.
  - apply IH. intros a b Ha Hb. apply Hle; [now right | exact Hb].
  - apply Forall_app. split; [exact Hx |]. apply Forall_forall. intros y Hy.
    apply Hle; [left | exact Hy].
Qed.

Lemma Sorted_increasing_ids (rows : list generation_task) (s : Z) (n : nat) :
  map id rows = map (fun k => s + Z.of_nat k) (seq 1 n) ->
  Sorted id_le rows /\ NoDup (map id rows) /\ Forall (fun t => s < id t <= s + Z.of_nat n) rows.
Proof.
  revert s n. induction rows as [|r rows IH]; intros s n Hids.
  - repeat split; constructor.
  - destruct n as [|n]; [discriminate |]. cbn [seq map] in Hids.
    injection Hids as Hr Hrest.
    change (seq 2 n) with (seq (1 + 1) n) in Hrest. rewrite map_seq_shift in Hrest.
    destruct (IH (s + Z.of_nat 1) n Hrest) as (Hs & Hnd & Hall).
    rewrite Forall_forall in Hall. split; [| split].
    + constructor; [exact Hs |]. destruct rows as [|r' rows]; constructor.
      unfold id_le. specialize (Hall r' ltac:(left)). lia.
    + cbn. apply NoDup_cons. split; [| exact Hnd].
      intros Hin. apply list_elem_of_In, in_map_iff in Hin as (t & Ht & Hin).
      apply list_elem_of_In in Hin. specialize (Hall t Hin). lia.
    + constructor; [lia |]. apply Forall_forall. intros t Ht. specialize (Hall t Ht). lia.
Qed.

(** Appending rows with the next ids keeps the keys, and the pending ones of
    them come last in their job's pending list. *)
Lemma appended_rows_pending db db' rows n job :
  keys_ok db ->
  generation_tasks db' = generation_tasks db ++ rows ->
  map id rows = map (fun k => seq_generation_tasks db + Z.of_nat k) (seq 1 n) ->
  seq_generation_tasks db' = seq_generation_tasks db + Z.of_nat n ->
  batch_jobs db' = batch_jobs db -> seq_batch_jobs db' = seq_batch_jobs db ->
  Forall (fun t => batch_job_id t = job /\ status t = "pending") rows ->
  keys_ok db' /\
  get_pending_tasks db' job = get_pending_tasks db job ++ rows /\
  (forall job', job' <> job -> get_pending_tasks db' job' = get_pending_tasks db job').
Proof.
  intros (Hnd & Hall & Hj & Hjall) Ht Hids Hseq Hjobs Hjseq Hrows.
  destruct (Sorted_increasing_ids rows _ n Hids) as (Hsorted & Hndr & Hbound).
  rewrite Forall_forall in Hall, Hbound, Hrows.
  assert (Hnd' : NoDup (map id (generation_tasks db'))).
  { rewrite Ht, map_app. apply NoDup_app. split; [exact Hnd |]. split; [| exact Hndr].
    intros i Hi1 Hi2.
    apply list_elem_of_In, in_map_iff in Hi1 as (t1 & <- & Ht1).
    apply list_elem_of_In, in_map_iff in Hi2 as (t2 & Heq & Ht2).
    apply list_elem_of_In in Ht1, Ht2.
    specialize (Hall t1 Ht1). specialize (Hbound t2 Ht2). cbn in Hall. lia. }
  split; [| split].
  - split; [exact Hnd' |]. split; [| rewrite Hjobs, Hjseq; auto].
    rewrite Ht, Hseq. apply Forall_app. split; apply Forall_forall; intros t Hin.
    + specialize (Hall t Hin). cbn in Hall. lia.
    + specialize (Hbound t Hin). lia.
  - unfold get_pending_tasks. rewrite Ht, filter_app.
    assert (Hfr : filter (fun t => batch_job_id t = job /\ status t = "pending") rows = rows).
    { clear -Hrows. induction rows as [|r rows IH]; [reflexivity |].
      rewrite filter_cons, decide_True by (apply Hrows; left).
      f_equal. apply IH. intros t Hin. apply Hrows. now right. }
    rewrite Hfr. apply by_id_unique.
    + eapply NoDup_map_Permutation; [symmetry; apply merge_sort_Permutation |].
      pose proof (NoDup_map_filter id
                    (fun t => batch_job_id t = job /\ status t = "pending") _ Hnd') as Hf.
      rewrite Ht, filter_app, Hfr in Hf. exact Hf.
    + apply Sorted_merge_sort, _.
    + apply Sorted_app_id; [apply Sorted_merge_sort, _ | exact Hsorted |].
      intros x y Hx Hy. rewrite merge_sort_Permutation in Hx.
      apply list_elem_of_filter in Hx as [_ Hx].
      specialize (Hall x Hx). specialize (Hbound y Hy). cbn in Hall. lia.
    + rewrite !merge_sort_Permutation. reflexivity.
  - intros job' Hne. unfold get_pending_tasks. rewrite Ht, filter_app.
    assert (Hfr : filter (fun t => batch_job_id t = job' /\ status t = "pending") rows = []).
    { clear -Hrows Hne. induction rows as [|r rows IH]; [reflexivity |].
      rewrite filter_cons, decide_False.
      - apply IH. intros t Hin. apply Hrows. now right.
      - intros [Hj _]. destruct (Hrows r ltac:(left)) as [Hj' _]. congruence. }
    now rewrite Hfr, app_nil_r.
Qed.

Lemma prepared_row_pending `{Runtime} config job w t :
  prepared_row config job w t -> batch_job_id t = job /\ status t = "pending".
Proof.
  intros ([[[[face outfit] background] pf] pc] & _ & Hrow). cbn in Hrow. tauto.
Qed.

(** X13. prepare_tasks never raises; it returns the number of rows it
    appended to the task table, at most total_count; the rows have the next
    ids of the table in order, belong to the job, are pending with the
    nullable columns NULL, and each carries the images of a combination that
    is the fallback or a tuple of the pools, and the non-empty prompt built
    from that combination's content.  The rows already there, the job table
    and the disk are untouched. *)
Theorem X13_prepare_tasks_rows :
  forall `{Runtime} `{Environment} (job : Z) (config : BatchConfig) (w : World),
    returns (prepare_tasks job config) w
      (fun n w' =>
         (n <= Z.to_nat (cfg_total_count config))%nat /\
         w_fs w' = w_fs w /\ batch_jobs (w_db w') = batch_jobs (w_db w) /\
         exists rows,
           generation_tasks (w_db w') = generation_tasks (w_db w) ++ rows /\
           length rows = n /\
           map id rows =
             map (fun k => seq_generation_tasks (w_db w) + Z.of_nat k) (seq 1 n) /\
           Forall (prepared_row config job w) rows).
Proof.
  intros R E job config w. unfold prepare_tasks.
  eapply run_spec_mono; [apply prepare_loop_preparation | | auto | auto].
  intros n w' (k & -> & Hk & (Hfs & _ & _ & Hjobs & _) & rows & ext & Ht & Hl & Hi & _ & Hr & _).
  cbn [Nat.add]. split; [exact Hk |]. split; [exact Hfs |]. split; [exact Hjobs |].
  exists rows. auto.
Qed.

(** X14. The tasks prepare_tasks creates are what a run will find: on a
    store with sound keys, the job's pending list after the call is the one
    before followed by the new rows, as many as the number returned; the
    pending lists of the other jobs are as before, and the keys stay
    sound. *)
Theorem X14_prepared_tasks_are_pending :
  forall `{Runtime} `{Environment} (job : Z) (config : BatchConfig) (w : World),
    keys_ok (w_db w) ->
    returns (prepare_tasks job config) w
      (fun n w' =>
         keys_ok (w_db w') /\
         (exists rows,
            length rows = n /\
            get_pending_tasks (w_db w') job = get_pending_tasks (w_db w) job ++ rows) /\
         forall job', job' <> job ->
           get_pending_tasks (w_db w') job' = get_pending_tasks (w_db w) job').
Proof.
  intros R E job config w Hk. unfold prepare_tasks.
  eapply run_spec_mono; [apply prepare_loop_preparation | | auto | auto].
  intros n w' (k & -> & _ & (_ & _ & _ & Hjobs & Hjseq) &
               rows & ext & Ht & Hl & Hi & Hs & Hr & _).
  cbn [Nat.add].
  destruct (appended_rows_pending (w_db w) (w_db w') rows k job Hk Ht Hi Hs Hjobs Hjseq)
    as (Hk' & Hp & Ho).
  { eapply Forall_impl; [exact Hr |]. intros t. apply prepared_row_pending. }
  split; [exact Hk' |]. split; [exists rows; auto | exact Ho].
Qed.

Lemma X14_prepared_tasks_are_pending_witness :
  exists n w',
    @prepare_tasks python_runtime steady_env 1 (faces_config 3 false)
      (mkWorld scripted_db demo_fs ∅ None 0 []) = Returns n w' /\
    length (get_pending_tasks (w_db w') 1) = (5 + n)%nat.
Proof.
  destruct (proj1 (returns_intro _ _ _)
              (@X14_prepared_tasks_are_pending python_runtime steady_env 1
                 (faces_config 3 false) (mkWorld scripted_db demo_fs ∅ None 0 [])
                 scripted_db_keys)) as (n & w' & Heq & _ & (rows & Hl & Hp) & _).
  exists n, w'. split; [exact Heq |]. rewrite Hp, length_app, Hl. reflexivity.
Defined.

(** X15. Without prompt files to draw from and with an empty template (a
    prompt folder that holds no .txt file and no text typed in), prepare_tasks
    creates no task: it returns 0 and leaves the task table as it was. *)
Theorem X15_no_prompt_no_tasks :
  forall `{Runtime} `{Environment} (job : Z) (config : BatchConfig) (w : World),
    has_prompt_files (prompt_source config) = false ->
    cfg_prompt_template config = "" ->
    returns (prepare_tasks job config) w
      (fun n w' => n = 0%nat /\ generation_tasks (w_db w') = generation_tasks (w_db w)).
Proof.
  intros R E job config w Hnone Hempty. unfold prepare_tasks.
  eapply run_spec_mono; [apply prepare_loop_preparation | | auto | auto].
  intros n w' (k & -> & _ & _ & rows & ext & Ht & Hl & _ & _ & Hr & _).
  cbn [Nat.add]. destruct rows as [|t rows].
  - cbn in Hl. subst k. split; [reflexivity |]. now rewrite Ht, app_nil_r.
  - exfalso. apply Forall_cons in Hr as [(c & Hsel & Hrow) _].
    destruct c as [[[[face outfit] background] pf] pc].
    assert (Hpc : pc = "").
    { destruct Hsel as [Hfb | [_ Hc]].
      - unfold is_fallback in Hfb. injection Hfb as _ _ _ _ ->. exact Hempty.
      - cbn [snd] in Hc. unfold prompt_content_in in Hc. rewrite Hnone in Hc.
        now rewrite Hc. }
    subst pc. destruct Hrow as (_ & _ & _ & Hp & Htr & _).
    rewrite build_prompt_empty in Hp. rewrite Hp in Htr. discriminate.
Qed.

Lemma X15_no_prompt_no_tasks_witness :
  exists w',
    @prepare_tasks python_runtime steady_env 1 folder_without_prompts
      (mkWorld scripted_db outfits_fs ∅ None 0 []) = Returns 0%nat w' /\
    generation_tasks (w_db w') = generation_tasks scripted_db.
Proof.
  destruct (proj1 (returns_intro _ _ _)
              (@X15_no_prompt_no_tasks python_runtime steady_env 1 folder_without_prompts
                 (mkWorld scripted_db outfits_fs ∅ None 0 []) eq_refl eq_refl))
    as (n & w' & Heq & -> & Ht).
  exists w'. split; [exact Heq | exact Ht].
Defined.

(** ** The ledger and the number of combinations *)

Lemma candidates_length (files : list string) :
  length (candidates files) = Nat.max 1 (length files).
Proof. destruct files as [|f [|g files]]; cbn; lia. Qed.

Lemma all_tuples_length config :
  length (all_tuples config) =
  (length (image_candidates (face_source config)) *
   length (image_candidates (outfit_source config)) *
   length (image_candidates (background_source config)) *
   length (prompt_candidates (prompt_source config)))%nat.
Proof. unfold all_tuples, tuple. now rewrite !length_prod. Qed.

Lemma image_count_candidates (source : option ImageSource) :
  let n := match source with Some s => length (img_files s) | None => 1%nat end in
  n = 0%nat \/ n = length (image_candidates source).
Proof.
  destruct source as [s|]; cbn; [| right; reflexivity].
  destruct (img_files s); cbn; [left | right]; reflexivity.
Qed.

Lemma prompt_count_candidates (source : option PromptSource) :
  let n := match source with Some s => length (ps_files s) | None => 1%nat end in
  n = 0%nat \/ n = length (prompt_candidates source).
Proof.
  destruct source as [s|]; cbn; [| right; reflexivity].
  destruct (ps_files s); cbn; [left | right]; reflexivity.
Qed.

Lemma max_combinations_tuples config :
  get_max_combinations config = 0%nat \/
  get_max_combinations config = length (all_tuples config).
Proof.
  rewrite all_tuples_length. unfold get_max_combinations.
  destruct (image_count_candidates (face_source config)) as [-> | ->]; [left; lia |].
  destruct (image_count_candidates (outfit_source config)) as [-> | ->]; [left; lia |].
  destruct (image_count_candidates (background_source config)) as [-> | ->]; [left; lia |].
  destruct (prompt_count_candidates (prompt_source config)) as [-> | ->]; [left; lia |].
  right. reflexivity.
Qed.

Lemma count_after_append db db' job ext :
  used_combinations db' = used_combinations db ++ ext ->
  Forall (fun r => uc_batch_job_id r = job) ext ->
  get_used_combination_count db' job = (get_used_combination_count db job + length ext)%nat /\
  forall job', job' <> job ->
    get_used_combination_count db' job' = get_used_combination_count db job'.
Proof.
  intros Hu Hall. unfold get_used_combination_count. rewrite Hu, List.filter_app, length_app.
  clear Hu. split.
  - f_equal. induction Hall as [|r ext Hr _ IH]; [reflexivity |].
    cbn. rewrite Hr, Z.eqb_refl. cbn. now rewrite IH.
  - intros job' Hne. rewrite List.filter_app, length_app.
    replace (List.filter (fun r => Z.eqb (uc_batch_job_id r) job') ext)
      with (@nil used_combination); [cbn [length]; now rewrite Nat.add_0_r |].
    induction Hall as [|r ext Hr _ IH]; [reflexivity |].
    cbn. rewrite Hr. assert (Z.eqb job job' = false) as -> by (apply Z.eqb_neq; congruence).
    exact IH.
Qed.

(** X16. prepare_tasks and the ledger: the call never raises; the job's
    count of used combinations grows by at most the number of tuples the
    pools can give, which is what get_max_combinations returns unless that is
    0 (a configured pool without files); the counts of the other jobs do not
    change, and with duplicates allowed the ledger is left as it was. *)
Theorem X16_ledger_growth_bounded :
  forall `{Runtime} `{Environment} (job : Z) (config : BatchConfig) (w : World),
    (get_max_combinations config = 0%nat \/
     get_max_combinations config = length (all_tuples config)) /\
    returns (prepare_tasks job config) w
      (fun _ w' =>
         (get_used_combination_count (w_db w') job <=
          get_used_combination_count (w_db w) job + length (all_tuples config))%nat /\
         (forall job', job' <> job ->
            get_used_combination_count (w_db w') job' =
            get_used_combination_count (w_db w) job') /\
         (allow_duplicate_combinations config = true ->
            used_combinations (w_db w') = used_combinations (w_db w))).
Proof.
  intros R E job config w. split; [apply max_combinations_tuples |].
  unfold prepare_tasks.
  eapply run_spec_mono; [apply prepare_loop_preparation | | auto | auto].
  intros n w' (k & _ & _ & _ & rows & ext & _ & _ & _ & _ & _ & Hu & Hd & He & Hn).
  destruct (count_after_append (w_db w) (w_db w') job ext Hu) as [Hc Ho].
  { eapply Forall_impl; [exact He |]. now intros r (Hj & _). }
  split; [| split; [exact Ho |]].
  - rewrite Hc. apply Nat.add_le_mono_l.
    rewrite <- (length_map combination_hash ext), <- (length_map hash_of (all_tuples config)).
    apply submseteq_length, NoDup_submseteq; [exact Hn |].
    intros h Hh. apply list_elem_of_fmap in Hh as (r & -> & Hr).
    rewrite Forall_forall in He. now destruct (He r Hr) as (_ & Hin & _).
  - intros Hdup. now rewrite Hu, (Hd Hdup), app_nil_r.
Qed.

(** X17. _select_combination never raises and writes no task row, no job
    row and no file; the combination it returns is the fallback (empty paths
    with the template) or a tuple drawn from the pools (each component a file
    of its pool, or empty for a pool without files) with the content of its
    prompt file, or the template when there are no prompt files; the ledger
    gains nothing, or, with duplicates disallowed, exactly the row of the
    tuple returned, whose hash was not in the ledger. *)
Theorem X17_select_combination :
  forall `{Runtime} `{Environment} (config : BatchConfig) (job : Z)
         (used_prompts : option (gset string)) (w : World),
    returns (_select_combination config job used_prompts) w (selection config job w).
Proof.
  intros R E config job used_prompts w. apply select_attempts_selection.
Qed.

(** ** Steps of a run *)

Section StepRules.

Variable R : World -> World -> Prop.
Hypothesis R_refl : forall w, R w w.
Hypothesis R_trans : forall w1 w2 w3, R w1 w2 -> R w2 w3 -> R w1 w3.

Lemma steps_ret {A} (a : A) : steps R (mret a).
Proof. intros w. apply R_refl. Qed.

Lemma steps_bind {A B} (m : M A) (k : A -> M B) :
  steps R m -> (forall a, steps R (k a)) -> steps R (m ≫= k).
Proof.
  intros Hm Hk w. apply run_spec_bind.
  eapply run_spec_mono; [apply Hm | | auto | auto].
  intros a w1 H1. eapply run_spec_mono; [apply Hk | | auto | auto].
  intros b w2 H2. exact (R_trans _ _ _ H1 H2).
Qed.

Variable X : string -> World -> World -> Prop.
Hypothesis RX : forall e w1 w2 w3, R w1 w2 -> X e w2 w3 -> X e w1 w3.

Lemma steps_tracks {A} (m : M A) : steps R m -> tracks R X m.
Proof.
  intros Hm w. eapply run_spec_mono; [apply Hm | auto | intros ? ? [] | auto].
Qed.

Lemma tracks_bind {A B} (m : M A) (k : A -> M B) :
  tracks R X m -> (forall a, tracks R X (k a)) -> tracks R X (m ≫= k).
Proof.
  intros Hm Hk w. apply run_spec_bind.
  eapply run_spec_mono; [apply Hm | | auto | auto].
  intros a w1 H1. eapply run_spec_mono; [apply Hk | | | auto].
  - intros b w2 H2. exact (R_trans _ _ _ H1 H2).
  - intros e w2 H2. exact (RX _ _ _ _ H1 H2).
Qed.

End StepRules.

(** ** The store through a run *)

Lemma same_fixed_columns_refl t : same_fixed_columns t t.
Proof. repeat split. Qed.

Lemma same_fixed_columns_trans t1 t2 t3 :
  same_fixed_columns t1 t2 -> same_fixed_columns t2 t3 -> same_fixed_columns t1 t3.
Proof.
  unfold same_fixed_columns. intros (a & b & c & d & e & f & g) (a' & b' & c' & d' & e' & f' & g').
  repeat split; congruence.
Qed.

Lemma task_kept_refl ids t : task_kept ids t t.
Proof. split; [apply same_fixed_columns_refl | reflexivity]. Qed.

Lemma task_kept_trans ids t1 t2 t3 :
  task_kept ids t1 t2 -> task_kept ids t2 t3 -> task_kept ids t1 t3.
Proof.
  intros [Hf1 Hk1] [Hf2 Hk2]. split; [eapply same_fixed_columns_trans; eauto |].
  intros Hn. specialize (Hk1 Hn). subst t2. exact (Hk2 Hn).
Qed.

Lemma job_kept_refl job j : job_kept job j j.
Proof. unfold job_kept. repeat split; lia. Qed.

Lemma job_kept_trans job j1 j2 j3 : job_kept job j1 j2 -> job_kept job j2 j3 -> job_kept job j1 j3.
Proof.
  unfold job_kept.
  intros (a & b & c & d & e & f & g & h & i) (a' & b' & c' & d' & e' & f' & g' & h' & i').
  repeat split; try congruence; try lia.
  intros Hn. pose proof (i Hn) as E. subst j2. exact (i' Hn).
Qed.

Lemma Forall2_refl_on {A} (P : A -> A -> Prop) (l : list A) :
  (forall x, P x x) -> Forall2 P l l.
Proof. intros Hp. induction l; constructor; auto. Qed.

Lemma Forall2_trans_on {A} (P : A -> A -> Prop) (l1 l2 l3 : list A) :
  (forall x y z, P x y -> P y z -> P x z) ->
  Forall2 P l1 l2 -> Forall2 P l2 l3 -> Forall2 P l1 l3.
Proof.
  intros Hp H12. revert l3. induction H12; intros l3 H23; inversion H23; subst;
    constructor; eauto.
Qed.

Lemma Forall2_map_r {A} (P : A -> A -> Prop) (g : A -> A) (l : list A) :
  (forall x, P x (g x)) -> Forall2 P l (map g l).
Proof. intros Hp. induction l; cbn; constructor; auto. Qed.

Lemma store_kept_refl ids job db : store_kept ids job db db.
Proof.
  split; [apply Forall2_refl_on, task_kept_refl |].
  split; [apply Forall2_refl_on, job_kept_refl | repeat split].
Qed.

Lemma store_kept_trans ids job db1 db2 db3 :
  store_kept ids job db1 db2 -> store_kept ids job db2 db3 -> store_kept ids job db1 db3.
Proof.
  intros (t1 & j1 & u1 & a1 & b1 & c1) (t2 & j2 & u2 & a2 & b2 & c2).
  split; [eapply Forall2_trans_on; eauto using task_kept_trans |].
  split; [eapply Forall2_trans_on; eauto using job_kept_trans |].
  repeat split; congruence.
Qed.

Lemma update_batch_job_status_kept ids job db now st :
  store_kept ids job db (update_batch_job_status db now job st).
Proof.
  split; [apply Forall2_refl_on, task_kept_refl |]. split; [| repeat split].
  unfold update_batch_job_status. cbn [batch_jobs with_batch_jobs].
  apply Forall2_map_r. intros j. destruct (Z.eqb (job_id j) job) eqn:E.
  - apply Z.eqb_eq in E. unfold job_kept. cbn. repeat split; try lia; congruence.
  - apply job_kept_refl.
Qed.

Lemma increment_batch_job_count_kept ids job db now c :
  store_kept ids job db (increment_batch_job_count db now job c).
Proof.
  split; [apply Forall2_refl_on, task_kept_refl |]. split; [| repeat split].
  unfold increment_batch_job_count. cbn [batch_jobs with_batch_jobs].
  apply Forall2_map_r. intros j. destruct (Z.eqb (job_id j) job) eqn:E.
  - apply Z.eqb_eq in E. unfold job_kept. destruct c; cbn; repeat split; try lia; congruence.
  - apply job_kept_refl.
Qed.

Section RunFrame.

Context `{Runtime} `{Environment}.

Lemma update_task_status_kept ids job db now i st rid url lp err resp :
  i ∈ ids -> store_kept ids job db (update_task_status db now i st rid url lp err resp).
Proof.
  intros Hi. destruct (update_task_status_rows db now i st rid url lp err resp)
    as (g & Hrows & Hother & Hsame).
  split; [| split; [apply Forall2_refl_on, job_kept_refl | repeat split]].
  rewrite Hrows. apply Forall2_map_r. intros t.
  destruct (decide (id t = i)) as [Heq|Hne].
  - split; [apply (Hsame t Heq) |]. intros Hn. exfalso. apply Hn. now rewrite Heq.
  - rewrite (Hother t Hne). apply task_kept_refl.
Qed.

Lemma update_task_status_writes db now i st rid url lp err resp :
  Forall (fun t1 => id t1 = i -> status t1 = st)
         (generation_tasks (update_task_status db now i st rid url lp err resp)).
Proof.
  destruct (update_task_status_rows db now i st rid url lp err resp)
    as (g & Hrows & Hother & Hsame).
  rewrite Hrows. apply Forall_forall. intros t1 Hin Hid.
  apply list_elem_of_In, in_map_iff in Hin as (t & <- & _).
  destruct (decide (id t = i)) as [Heq|Hne].
  - apply (Hsame t Heq).
  - rewrite (Hother t Hne) in Hid. contradiction.
Qed.

Variable ids : list Z.
Variable job : Z.

Lemma run_step_refl w : run_step ids job w w.
Proof. split; [apply store_kept_refl |]. exists []. now rewrite app_nil_r. Qed.

Lemma run_step_trans w1 w2 w3 :
  run_step ids job w1 w2 -> run_step ids job w2 w3 -> run_step ids job w1 w3.
Proof.
  intros [Hs1 (e1 & Hl1)] [Hs2 (e2 & Hl2)]. split; [eapply store_kept_trans; eauto |].
  exists (e1 ++ e2). rewrite Hl2, Hl1. now rewrite app_assoc.
Qed.

Lemma run_step_same_db w w' evs :
  w_db w' = w_db w -> w_log w' = w_log w ++ evs -> run_step ids job w w'.
Proof. intros Hd Hl. split; [rewrite Hd; apply store_kept_refl | eauto]. Qed.

Lemma step_ret {A} (a : A) : steps (run_step ids job) (mret a).
Proof. apply steps_ret, run_step_refl. Qed.

Lemma step_bind {A B} (m : M A) (k : A -> M B) :
  steps (run_step ids job) m -> (forall a, steps (run_step ids job) (k a)) ->
  steps (run_step ids job) (m ≫= k).
Proof. apply steps_bind, run_step_trans. Qed.

Lemma steps_emit e : steps (run_step ids job) (emit e).
Proof. intros w. apply (run_step_same_db _ _ [e]); reflexivity. Qed.

Lemma steps_observe {A} (f : nat -> A) : steps (run_step ids job) (observe f).
Proof. intros w. apply (run_step_same_db _ _ []); [reflexivity | cbn; now rewrite app_nil_r]. Qed.

Lemma steps_update_task_status i st rid url lp err resp :
  i ∈ ids -> steps (run_step ids job) (db_update_task_status i st rid url lp err resp).
Proof.
  intros Hi w. split; [apply update_task_status_kept, Hi |].
  exists [Ev_update_task_status i st]. reflexivity.
Qed.

Lemma steps_increment c : steps (run_step ids job) (db_increment_batch_job_count job c).
Proof.
  intros w. split; [apply increment_batch_job_count_kept |].
  exists [Ev_increment_batch_job_count job c]. reflexivity.
Qed.

Lemma steps_update_batch_job_status st :
  steps (run_step ids job) (db_update_batch_job_status job st).
Proof.
  intros w. split; [apply update_batch_job_status_kept |].
  exists [Ev_update_batch_job_status job st]. reflexivity.
Qed.

Lemma steps_move_error_image p folder : steps (run_step ids job) (_move_error_image p folder).
Proof.
  intros w. eapply run_spec_mono; [apply move_error_image_returns | | auto | auto].
  intros b w' (Hd & moved & Hl & _). eapply run_step_same_db; eauto.
Qed.

Lemma steps_is_set_stop : steps (run_step ids job) is_set_stop.
Proof.
  intros w. apply (run_step_same_db _ _ [Ev_stop_check (stop_flag_is_set (w_tick w))]);
    reflexivity.
Qed.

Lemma steps_is_set_pause : steps (run_step ids job) is_set_pause.
Proof.
  intros w. apply (run_step_same_db _ _ [Ev_pause_check (pause_flag_is_set (w_tick w))]);
    reflexivity.
Qed.

Lemma steps_pause_loop polls : steps (run_step ids job) (pause_loop polls).
Proof.
  assert (Hstep : forall next : M bool,
            steps (run_step ids job) next ->
            steps (run_step ids job)
              (paused ← is_set_pause;
               if paused : bool then
                 emit Ev_sleep;;
                 stop ← is_set_stop;
                 if stop : bool then mret true else next
               else mret false)).
  { intros next Hnext.
    apply step_bind; [apply steps_is_set_pause |].
    intros [|]; [| apply step_ret].
    apply step_bind; [apply steps_emit |]. intros _.
    apply step_bind; [apply steps_is_set_stop |].
    intros [|]; [apply step_ret | exact Hnext]. }
  induction polls as [|polls IH]; cbn [pause_loop]; apply Hstep; [| exact IH].
  intros w. exact I.
Qed.

Lemma steps_on_success task result results :
  id task ∈ ids -> steps (run_step ids job) (on_success job task result results).
Proof.
  intros Hi. unfold on_success.
  apply step_bind;
    [now apply steps_update_task_status |]. intros _.
  apply step_bind; [apply steps_increment |]. intros _.
  apply step_bind; [apply steps_emit |]. intros _.
  apply step_ret.
Qed.

Lemma steps_on_failure config task result results :
  id task ∈ ids -> steps (run_step ids job) (on_failure job config task result results).
Proof.
  intros Hi. unfold on_failure.
  apply step_bind;
    [now apply steps_update_task_status |]. intros _.
  apply step_bind; [apply steps_increment |]. intros _.
  apply step_bind.
  - destruct (Py.truthy (error_folder config) && Py.truthy (outfit_image_path task));
      [| apply step_ret].
    destruct (_is_content_policy_error _); [| apply step_ret].
    apply step_bind; [apply steps_move_error_image |].
    intros [|]; apply step_ret.
  - intros res. apply step_bind; [apply steps_emit |].
    intros _. apply step_ret.
Qed.

End RunFrame.

Lemma find_Forall2 {A} (P : A -> A -> Prop) (p : A -> bool) (l l' : list A) x :
  Forall2 P l l' -> (forall a b, P a b -> p b = p a) ->
  find p l = Some x -> exists y, find p l' = Some y /\ P x y.
Proof.
  intros Hall Hp. induction Hall as [|a b l l' Hab _ IH]; cbn; [discriminate |].
  rewrite (Hp a b Hab). destruct (p a).
  - intros [= <-]. eauto.
  - exact IH.
Qed.

Lemma store_kept_get_task ids job db db' i t :
  store_kept ids job db db' -> get_task db i = Some t ->
  exists t', get_task db' i = Some t' /\ task_kept ids t t'.
Proof.
  intros (Ht & _) Hget. unfold get_task in *.
  eapply find_Forall2; [exact Ht | | exact Hget].
  intros a b ((Hid & _) & _). cbn. now rewrite Hid.
Qed.

Lemma store_kept_get_batch_job ids job db db' i j :
  store_kept ids job db db' -> get_batch_job db i = Some j ->
  exists j', get_batch_job db' i = Some j' /\ job_kept job j j'.
Proof.
  intros (_ & Hj & _) Hget. unfold get_batch_job in *.
  eapply find_Forall2; [exact Hj | | exact Hget].
  intros a b (Hid & _). cbn. now rewrite Hid.
Qed.

Lemma update_batch_job_status_writes db now job st :
  Forall (fun j => job_id j = job -> job_status j = st)
         (batch_jobs (update_batch_job_status db now job st)).
Proof.
  unfold update_batch_job_status. cbn [batch_jobs with_batch_jobs].
  apply Forall_forall. intros j Hin Hid.
  apply list_elem_of_In, in_map_iff in Hin as (j0 & <- & _).
  destruct (Z.eqb (job_id j0) job) eqn:E; [reflexivity |].
  apply Z.eqb_neq in E. contradiction.
Qed.

Section RunTracks.

Context `{Runtime} `{Environment}.

Variable all : list generation_task.
Variable job : Z.

Lemma run_step_raised e w1 w2 w3 :
  run_step (map id all) job w1 w2 -> raised_in all job e w2 w3 -> raised_in all job e w1 w3.
Proof.
  intros [Hs1 (evs & Hl1)] [Hs2 (pre & t & call & Hl2 & Hin & Hst)].
  split; [eapply store_kept_trans; eauto |].
  exists (evs ++ pre), t, call. split; [| auto].
  rewrite Hl2, Hl1. now rewrite <- !app_assoc.
Qed.

Lemma track_bind {A B} (m : M A) (k : A -> M B) :
  tracks (run_step (map id all) job) (raised_in all job) m ->
  (forall a, tracks (run_step (map id all) job) (raised_in all job) (k a)) ->
  tracks (run_step (map id all) job) (raised_in all job) (m ≫= k).
Proof. apply tracks_bind; [apply run_step_trans | apply run_step_raised]. Qed.

Lemma track_steps {A} (m : M A) :
  steps (run_step (map id all) job) m ->
  tracks (run_step (map id all) job) (raised_in all job) m.
Proof. apply steps_tracks. Qed.

Lemma tracks_process_task config task results :
  task ∈ all ->
  tracks (run_step (map id all) job) (raised_in all job)
         (process_task job config task results).
Proof.
  intros Hin w.
  assert (Hid : id task ∈ map id all).
  { apply list_elem_of_In, in_map, list_elem_of_In, Hin. }
  unfold process_task.
  apply run_spec_bind, emit_spec. intros w1 Hd1 Hl1 _ _.
  apply run_spec_bind, db_update_task_status_spec. intros w2 now2 Hd2 Hl2.
  apply run_spec_bind. unfold api_generate_and_wait.
  apply run_spec_bind, observe_spec. intros w3 Hd3 Hl3 _ _.
  set (call := mkCall _ _ _ _ _).
  assert (Hdb3 : w_db w3 =
            update_task_status (w_db w) now2 (id task) "processing" None None None None None).
  { rewrite Hd3, Hd2, Hd1. reflexivity. }
  assert (Hkept3 : store_kept (map id all) job (w_db w) (w_db w3)).
  { rewrite Hdb3. now apply update_task_status_kept. }
  destruct (generate_and_wait (w_tick w2) call) as [r|e] eqn:Hanswer;
    apply run_spec_bind, emit_spec; intros w4 Hd4 Hl4 _ _.
  - apply run_spec_ret.
    assert (Hstep4 : run_step (map id all) job w w4).
    { split; [rewrite Hd4; exact Hkept3 |].
      eexists. rewrite Hl4, Hl3, Hl2, Hl1, <- !app_assoc. reflexivity. }
    destruct (success r && is_completed (result_status r)).
    + eapply run_spec_mono; [apply (steps_on_success (map id all) job task r results Hid w4)
                            | | intros ? ? [] | auto].
      intros res w5 Hstep5. eapply run_step_trans; eauto.
    + eapply run_spec_mono;
        [apply (steps_on_failure (map id all) job config task r results Hid w4)
        | | intros ? ? [] | auto].
      intros res w5 Hstep5. eapply run_step_trans; eauto.
  - unfold run_spec. cbn [raise]. split; [rewrite Hd4; exact Hkept3 |].
    exists [Ev_notify (Some "processing") (Some (id task)) None;
            Ev_update_task_status (id task) "processing"], task, call.
    split; [rewrite Hl4, Hl3, Hl2, Hl1, <- !app_assoc; reflexivity |].
    split; [exact Hin |]. rewrite Hd4, Hdb3. apply update_task_status_writes.
Qed.

Lemma tracks_run_loop polls config n :
  forall tasks i results,
    (forall t, t ∈ tasks -> t ∈ all) ->
    tracks (run_step (map id all) job) (raised_in all job)
           (run_loop polls job config n i tasks results).
Proof.
  induction tasks as [|task rest IH]; intros i results Hsub; cbn [run_loop].
  - apply track_steps, step_ret.
  - apply track_bind; [apply track_steps, steps_is_set_stop |].
    intros [|]; [apply track_steps, step_ret |].
    apply track_bind; [apply track_steps, steps_pause_loop |].
    intros [|]; [apply track_steps, step_ret |].
    apply track_bind; [apply tracks_process_task, Hsub; left |].
    intros res. apply track_bind.
    + apply track_steps. unfold when. destruct (_ <? _)%nat; [apply steps_emit | apply step_ret].
    + intros _. apply IH. intros t Ht. apply Hsub. now right.
Qed.

End RunTracks.

Section RunEnds.

Context `{Runtime} `{Environment}.

Lemma run_batch_tracked polls job config w :
  run_spec (run_batch polls job config) w
    (fun _ w' => run_ended job w w') (fun e w' => run_raised job e w w') True.
Proof.
  set (all := get_pending_tasks (w_db w) job).
  unfold run_batch.
  apply run_spec_bind. unfold run_spec at 1. cbn [set_current_job_id].
  set (w0 := mkWorld _ _ _ _ _ _).
  apply run_spec_bind, db_update_batch_job_status_spec. intros w1 now1 Hd1 Hl1.
  change (w_db w0) with (w_db w) in Hd1. change (w_log w0) with (w_log w) in Hl1.
  clearbody w0. clear w0.
  assert (Hk1 : store_kept (map id all) job (w_db w) (w_db w1)).
  { rewrite Hd1. apply update_batch_job_status_kept. }
  apply run_spec_try_finally, run_spec_try_except.
  apply run_spec_bind, db_get_pending_tasks_spec.
  assert (Htasks : get_pending_tasks (w_db w1) job = all).
  { rewrite Hd1. reflexivity. }
  rewrite Htasks. apply run_spec_bind.
  eapply run_spec_mono;
    [apply (tracks_run_loop all job polls config (length all) all 0%nat
              (mkResults (length all) 0 0 false None) (fun t Ht => Ht) w1) | | | auto].
  - intros res w2 [Hk2 _].
    apply run_spec_bind, db_update_batch_job_status_spec. intros w3 now3 Hd3 Hl3.
    apply run_spec_bind, emit_spec. intros w4 Hd4 Hl4 _ _.
    apply run_spec_ret. unfold run_spec. cbn [set_current_job_id].
    split; [| reflexivity]. cbn [w_db]. rewrite Hd4, Hd3.
    eapply store_kept_trans; [exact Hk1 |]. eapply store_kept_trans; [exact Hk2 |].
    apply update_batch_job_status_kept.
  - intros e w2 [Hk2 (pre & t & call & Hl2 & Hin & Hst)].
    apply run_spec_bind, db_update_batch_job_status_spec. intros w3 now3 Hd3 Hl3.
    apply run_spec_bind, emit_spec. intros w4 Hd4 Hl4 _ _.
    unfold run_spec at 1. cbn [raise]. unfold run_spec. cbn [set_current_job_id].
    unfold run_raised, run_ended. cbn [w_db w_log w_current_job_id]. fold all.
    rewrite Hd4, Hd3. split; [split; [| reflexivity] |].
    + eapply store_kept_trans; [exact Hk1 |]. eapply store_kept_trans; [exact Hk2 |].
      apply update_batch_job_status_kept.
    + split; [apply update_batch_job_status_writes |].
      exists ([Ev_update_batch_job_status job "running"] ++ pre), t, call.
      split; [rewrite Hl4, Hl3, Hl2, Hl1, <- !app_assoc; reflexivity |].
      split; [exact Hin | exact Hst].
Qed.

End RunEnds.

(** X18. However run_batch ends, by returning or by raising, it has added
    and removed no row: every task row keeps its id, job, image paths, prompt
    and creation time, and is untouched unless it was pending for the job
    when the run started; every job row keeps its id, name, total, template,
    settings and creation time, its counters have not decreased, and the rows
    of the other jobs are untouched; the ledger and the id sequences are as
    they were; and the processor's current job is cleared. *)
Theorem X18_run_batch_frame :
  forall `{Runtime} `{Environment} (polls : nat) (job : Z) (config : BatchConfig) (w : World),
    run_spec (run_batch polls job config) w
      (fun _ w' => run_ended job w w') (fun _ w' => run_ended job w w') True.
Proof.
  intros R E polls job config w.
  eapply run_spec_mono; [apply run_batch_tracked | auto | | auto].
  intros e w' [Hend _]. exact Hend.
Qed.

(** ** What a run leaves pending *)

Lemma Forall2_impl_elem {A} (P Q : A -> A -> Prop) (l l' : list A) :
  Forall2 P l l' ->
  (forall a b, a ∈ l -> b ∈ l' -> P a b -> Q a b) -> Forall2 Q l l'.
Proof.
  induction 1 as [|a b l l' Hab _ IH]; intros Himp; constructor.
  - apply Himp; [left | left | exact Hab].
  - apply IH. intros x y Hx Hy. apply Himp; now right.
Qed.

Lemma filter_Forall2 {A} (P Q : A -> Prop) `{!forall x, Decision (P x)}
    `{!forall x, Decision (Q x)} (l l' : list A) :
  Forall2 (fun a b => (P b <-> Q a) /\ (Q a -> b = a)) l l' ->
  filter P l' = filter Q l.
Proof.
  induction 1 as [|a b l l' [Hiff Heq] _ IH]; [reflexivity |].
  rewrite !filter_cons, IH. destruct (decide (Q a)) as [Hq|Hq].
  - rewrite decide_True by (now apply Hiff). now rewrite (Heq Hq).
  - rewrite decide_False by (now rewrite Hiff). reflexivity.
Qed.

Lemma Forall2_map_id_eq ids (l l' : list generation_task) :
  Forall2 (task_kept ids) l l' -> map id l' = map id l.
Proof.
  induction 1 as [|a b l l' [(Hid & _) _] _ IH]; [reflexivity |].
  cbn. now rewrite Hid, IH.
Qed.

Lemma filter_not_taken (l : list generation_task) (k : nat) :
  NoDup (map id l) ->
  filter (fun t => id t ∉ map id (take k l)) l = drop k l.
Proof.
  revert k. induction l as [|x l IH]; intros k Hnd; [now destruct k |].
  cbn [map] in Hnd. apply NoDup_cons in Hnd as [Hx Hnd].
  destruct k as [|k].
  - cbn [take map drop]. clear. induction (x :: l) as [|y l' IH]; [reflexivity |].
    rewrite filter_cons, decide_True by apply not_elem_of_nil. now rewrite IH.
  - cbn [take map drop]. rewrite filter_cons, decide_False by (intros Hn; apply Hn; left).
    rewrite <- (IH k Hnd). apply filter_ext_in. intros y Hy.
    rewrite not_elem_of_cons. split; [tauto |]. intros Hn. split; [| exact Hn].
    intros Heq. apply Hx. rewrite <- Heq.
    apply list_elem_of_In, in_map, list_elem_of_In, Hy.
Qed.

Lemma settled_pending_tasks ids job db db' k :
  NoDup (map id (generation_tasks db)) ->
  store_kept ids job db db' ->
  tasks_settle (map id (take k (get_pending_tasks db job))) db db' ->
  NoDup (map id (generation_tasks db')) /\
  get_pending_tasks db' job = drop k (get_pending_tasks db job).
Proof.
  intros Hnd (Hkept & _) [Hsame Hterm].
  assert (Hids : map id (generation_tasks db') = map id (generation_tasks db)).
  { eapply Forall2_map_id_eq, Hkept. }
  assert (Hnd' : NoDup (map id (generation_tasks db'))) by now rewrite Hids.
  split; [exact Hnd' |].
  set (touched := map id (take k (get_pending_tasks db job))) in *.
  assert (Hpairs : Forall2
            (fun a b => ((batch_job_id b = job /\ status b = "pending") <->
                         ((batch_job_id a = job /\ status a = "pending") /\ id a ∉ touched)) /\
                        (((batch_job_id a = job /\ status a = "pending") /\ id a ∉ touched) ->
                         b = a))
            (generation_tasks db) (generation_tasks db')).
  { eapply Forall2_impl_elem; [exact Hkept |].
    intros a b Ha Hb [(Hid & _) _].
    pose proof (get_task_of_row db a Hnd Ha) as Hga.
    pose proof (get_task_of_row db' b Hnd' Hb) as Hgb. rewrite Hid in Hgb.
    destruct (decide (id a ∈ touched)) as [Hin|Hout].
    - destruct (Hterm (id a) Hin a Hga) as (b' & Hgb' & Hst).
      rewrite Hgb in Hgb'. injection Hgb' as <-.
      split; [| tauto]. split; [| tauto].
      intros [_ Hp]. rewrite Hp in Hst. destruct Hst; discriminate.
    - rewrite (Hsame (id a) Hout), Hga in Hgb. injection Hgb as ->. tauto. }
  unfold get_pending_tasks at 1. rewrite (filter_Forall2 _ _ _ _ Hpairs).
  rewrite sort_filter_and by exact Hnd. fold (get_pending_tasks db job).
  apply filter_not_taken, pending_tasks_ids_NoDup, Hnd.
Qed.

Section RunAgain.

Context `{Runtime} `{Environment}.

Lemma run_batch_rest polls job config w results w' :
  NoDup (map id (generation_tasks (w_db w))) ->
  run_batch polls job config w = Returns results w' ->
  NoDup (map id (generation_tasks (w_db w'))) /\
  total results = length (get_pending_tasks (w_db w) job) /\
  (completed results + failed results <= total results)%nat /\
  get_pending_tasks (w_db w') job =
    drop (completed results + failed results) (get_pending_tasks (w_db w) job) /\
  (stopped results = false -> (completed results + failed results)%nat = total results).
Proof.
  intros Hnd Hrun.
  pose proof (wp_elim _ _ _ _ _ (run_batch_ran polls job config w) Hrun) as Hran.
  pose proof (run_batch_tracked polls job config w) as Hspec.
  unfold run_spec in Hspec. rewrite Hrun in Hspec. destruct Hspec as [Hkept _].
  destruct Hran as (evs & k & _ & Hk & (Hd & _ & Hi & _) & Ht & Hco & Hfa & _ & _ & Hset & Hshape).
  rewrite length_take in Hi.
  assert (Hsum : (completed results + failed results)%nat = k) by lia.
  destruct (settled_pending_tasks _ job _ _ k Hnd Hkept Hset) as [Hnd' Hp].
  split; [exact Hnd' |]. split; [exact Ht |]. split; [lia |].
  split; [rewrite Hsum; exact Hp |].
  intros Hs. destruct Hshape as [(_ & -> & _) | (Hs' & _)]; [lia | congruence].
Qed.

End RunAgain.

(** X20. A run leaves pending exactly what it did not dispatch: on a store
    with unique task ids, when run_batch returns, the job's pending list is
    the old one less its first completed + failed tasks, in the same order,
    so that a later run starts where a stopped one ended; a run that was not
    stopped leaves no pending task, and its completed and failed counts add
    up to its total. *)
Theorem X20_run_batch_leaves_the_rest_pending :
  forall `{Runtime} `{Environment} (polls : nat) (job : Z) (config : BatchConfig)
         (w : World) (results : Results) (w' : World),
    NoDup (map id (generation_tasks (w_db w))) ->
    run_batch polls job config w = Returns results w' ->
    get_pending_tasks (w_db w') job =
      drop (completed results + failed results) (get_pending_tasks (w_db w) job) /\
    (stopped results = false ->
       get_pending_tasks (w_db w') job = [] /\
       (completed results + failed results)%nat = total results) /\
    NoDup (map id (generation_tasks (w_db w'))).
Proof.
  intros R E polls job config w results w' Hnd Hrun.
  destruct (run_batch_rest polls job config w results w' Hnd Hrun)
    as (Hnd' & Ht & Hle & Hp & Hall).
  split; [exact Hp |]. split; [| exact Hnd'].
  intros Hs. specialize (Hall Hs). split; [| exact Hall].
  rewrite Hp, Hall, Ht. apply drop_all.
Qed.

Lemma scripted_world_ids : NoDup (map id (generation_tasks (w_db scripted_world))).
Proof. apply (bool_decide_unpack _); vm_compute; exact I. Qed.

Lemma X20_run_batch_leaves_the_rest_pending_witness :
  exists results w',
    @run_batch python_runtime (scripted_env 24) 3 1 scripted_config scripted_world
    = Returns results w' /\
    stopped results = true /\
    map id (get_pending_tasks (w_db w') 1) = [5] /\
    get_pending_tasks (w_db w') 1 =
      drop (completed results + failed results) (get_pending_tasks (w_db scripted_world) 1).
Proof.
  eexists _, _. split; [vm_compute; reflexivity |].
  split; [reflexivity |]. split; [reflexivity |].
  apply (@X20_run_batch_leaves_the_rest_pending python_runtime (scripted_env 24) 3 1
           scripted_config scripted_world _ _ scripted_world_ids).
  vm_compute. reflexivity.
Defined.

(** X21. With nothing pending for the job (a job whose tasks are all
    dispatched, a job without tasks, an id that names no job) run_batch
    returns at once: all counts are zero and the result is not stopped; it
    reads no flag, calls neither the remote service nor the listener for a
    task, and writes the job's status twice, "running" and then
    "completed". *)
Theorem X21_run_batch_nothing_pending :
  forall `{Runtime} `{Environment} (polls : nat) (job : Z) (config : BatchConfig) (w : World),
    get_pending_tasks (w_db w) job = [] ->
    exists w',
      run_batch polls job config w = Returns (mkResults 0 0 0 false None) w' /\
      w_log w' = w_log w ++ [Ev_update_batch_job_status job "running";
                             Ev_update_batch_job_status job "completed";
                             Ev_notify (Some "completed") None None] /\
      generation_tasks (w_db w') = generation_tasks (w_db w) /\
      used_combinations (w_db w') = used_combinations (w_db w) /\
      w_fs w' = w_fs w /\ w_current_job_id w' = None.
Proof.
  intros R E polls job config w Hnil. destruct w as [d fs cache cj tick log].
  cbn [w_db w_log w_fs w_current_job_id] in *.
  cbv beta iota zeta delta [run_batch try_finally try_except mbind M_bind set_current_job_id
    db_update_batch_job_status db_get_pending_tasks emit observe get_db put_db mret M_ret
    raise w_db w_fs w_contents_cache w_current_job_id w_tick w_log].
  change (get_pending_tasks (update_batch_job_status d _ job "running") job)
    with (get_pending_tasks d job).
  rewrite Hnil.
  cbv beta iota zeta delta [run_loop length stopped mret M_ret
    w_db w_fs w_contents_cache w_current_job_id w_tick w_log].
  eexists. split; [reflexivity |].
  cbn [w_db w_fs w_contents_cache w_current_job_id w_tick w_log].
  split; [now rewrite <- !app_assoc |]. repeat split.
Qed.

Lemma X21_run_batch_nothing_pending_witness :
  exists w',
    @run_batch python_runtime steady_env 3 9 scripted_config scripted_world
    = Returns (mkResults 0 0 0 false None) w' /\
    generation_tasks (w_db w') = generation_tasks (w_db scripted_world).
Proof.
  destruct (@X21_run_batch_nothing_pending python_runtime steady_env 3 9 scripted_config
              scripted_world eq_refl) as (w' & Hrun & _ & Ht & _).
  exists w'. split; [exact Hrun | exact Ht].
Defined.

(** X22. What prepare_tasks returns is what the run that follows counts: on
    a store with sound keys, when prepare_tasks returns [n] and the run_batch
    that follows returns, the total of the run is the number of tasks that
    were pending for the job before the preparation plus [n]; completed and
    failed never exceed the total, and add up to it when the run was not
    stopped, which then leaves nothing pending. *)
Theorem X22_prepare_then_run :
  forall `{Runtime} `{Environment} (polls : nat) (job : Z) (config : BatchConfig)
         (w : World) (n : nat) (w1 : World) (results : Results) (w2 : World),
    keys_ok (w_db w) ->
    prepare_tasks job config w = Returns n w1 ->
    run_batch polls job config w1 = Returns results w2 ->
    total results = (length (get_pending_tasks (w_db w) job) + n)%nat /\
    (completed results + failed results <= total results)%nat /\
    (stopped results = false ->
       (completed results + failed results)%nat = total results /\
       get_pending_tasks (w_db w2) job = []).
Proof.
  intros R E polls job config w n w1 results w2 Hk Hprep Hrun.
  pose proof (prepare_loop_preparation (Z.to_nat (cfg_total_count config)) job config
                w ∅ 0%nat) as Hp.
  fold (prepare_tasks job config) in Hp.
  unfold returns, run_spec in Hp. rewrite Hprep in Hp.
  destruct Hp as (k & -> & _ & (_ & _ & _ & Hjobs & Hjseq) &
                  rows & ext & Ht & Hl & Hi & Hs & Hr & _).
  cbn [Nat.add].
  destruct (appended_rows_pending (w_db w) (w_db w1) rows k job Hk Ht Hi Hs Hjobs Hjseq)
    as ((Hnd1 & _) & Hpend & _).
  { eapply Forall_impl; [exact Hr |]. intros t. apply prepared_row_pending. }
  destruct (run_batch_rest polls job config w1 results w2 Hnd1 Hrun)
    as (_ & Htot & Hle & Hrest & Hall).
  rewrite Hpend, length_app, Hl in Htot.
  split; [exact Htot |]. split; [exact Hle |].
  intros Hst. specialize (Hall Hst). split; [exact Hall |].
  rewrite Hrest, Hall, Htot, Hpend, <- Hl, <- length_app. apply drop_all.
Qed.

Lemma X22_prepare_then_run_witness :
  exists n w1 results w2,
    @prepare_tasks python_runtime steady_env 1 (faces_config 3 false)
      (mkWorld scripted_db demo_fs ∅ None 0 []) = Returns n w1 /\
    @run_batch python_runtime steady_env 3 1 (faces_config 3 false) w1
      = Returns results w2 /\
    n = 3%nat /\ completed results = 8%nat /\ stopped results = false /\
    total results = (length (get_pending_tasks scripted_db 1) + n)%nat /\
    (completed results + failed results <= total results)%nat /\
    (stopped results = false ->
       (completed results + failed results)%nat = total results /\
       get_pending_tasks (w_db w2) 1 = []).
Proof.
  eexists _, _, _, _. split; [vm_compute; reflexivity |].
  split; [vm_compute; reflexivity |].
  split; [reflexivity |]. split; [reflexivity |]. split; [reflexivity |].
  eapply (@X22_prepare_then_run python_runtime steady_env 3 1 (faces_config 3 false)
            (mkWorld scripted_db demo_fs ∅ None 0 []) _ _ _ _ scripted_db_keys).
  - vm_compute. reflexivity.
  - vm_compute. reflexivity.
Defined.

(** ** Moving a regular file *)

(** Renaming a regular file (nothing is under it) to a free or other path
    puts it there and leaves the other entries alone. *)
Lemma rename_entries_file (fs : FileSystem) (src dst : string) (n : node) :
  fs !! src = Some n ->
  (forall k, String.prefix (src +:+ "/") k = true -> fs !! k = None) ->
  src <> dst ->
  rename_entries src dst fs = <[dst := n]> (delete src fs).
Proof.
  intros Hsrc Hfile Hne. unfold rename_entries.
  set (g := fun k : string =>
              if String.eqb k src then dst
              else if String.prefix (src +:+ "/") k
                   then dst +:+ String.substring (String.length src)
                                  (String.length k - String.length src) k
                   else k).
  set (l := map_to_list (delete dst fs)).
  assert (Hg : forall k v, (k, v) ∈ l -> g k = if String.eqb k src then dst else k).
  { intros k v Hin. apply elem_of_map_to_list in Hin.
    apply lookup_delete_Some in Hin as [_ Hk]. unfold g.
    destruct (String.eqb k src); [reflexivity |].
    destruct (String.prefix (src +:+ "/") k) eqn:Hp; [| reflexivity].
    rewrite (Hfile k Hp) in Hk. discriminate. }
  assert (Hnd : NoDup (map (fun e : string * node => (g (fst e), snd e)) l).*1).
  { change (NoDup (fst <$> ((fun e : string * node => (g (fst e), snd e)) <$> l))).
    rewrite <- list_fmap_compose.
    apply NoDup_fmap_2_strong; [| apply NoDup_map_to_list].
    intros [k1 v1] [k2 v2] H1 H2. cbn. intros Heq.
    pose proof (Hg _ _ H1) as G1. pose proof (Hg _ _ H2) as G2.
    rewrite G1, G2 in Heq.
    apply elem_of_map_to_list in H1, H2.
    apply lookup_delete_Some in H1 as [Hd1 Hk1], H2 as [Hd2 Hk2].
    assert (k1 = k2) as ->.
    { destruct (String.eqb k1 src) eqn:E1, (String.eqb k2 src) eqn:E2.
      - apply String.eqb_eq in E1, E2. congruence.
      - congruence.
      - congruence.
      - exact Heq. }
    f_equal. congruence. }
  apply map_eq. intros k. apply option_eq. intros v.
  etrans; [symmetry; apply (elem_of_list_to_map (M := gmap string) _ k v Hnd) |].
  change (map (fun e : string * node => (g (fst e), snd e)) l)
    with ((fun e : string * node => (g (fst e), snd e)) <$> l).
  rewrite list_elem_of_fmap. rewrite lookup_insert_Some, lookup_delete_Some.
  split.
  - intros ([k0 v0] & Heq & Hin). cbn in Heq. injection Heq as -> ->.
    rewrite (Hg _ _ Hin). apply elem_of_map_to_list in Hin.
    apply lookup_delete_Some in Hin as [Hd Hk].
    destruct (String.eqb k0 src) eqn:E.
    + apply String.eqb_eq in E. subst k0. left. split; [reflexivity | congruence].
    + apply String.eqb_neq in E. right. repeat split; congruence.
  - intros [[<- <-] | (Hkd & Hks & Hk)].
    + exists (src, n). cbn. unfold g. rewrite String.eqb_refl. split; [reflexivity |].
      apply elem_of_map_to_list, lookup_delete_Some. split; [congruence | exact Hsrc].
    + exists (k, v). cbn. split.
      * f_equal. symmetry.
        assert (Hin : (k, v) ∈ l).
        { apply elem_of_map_to_list, lookup_delete_Some. split; congruence. }
        rewrite (Hg _ _ Hin).
        assert (String.eqb k src = false) as -> by (apply String.eqb_neq; congruence).
        reflexivity.
      * apply elem_of_map_to_list, lookup_delete_Some. split; congruence.
Qed.

Section MoveEffects.

Context `{Environment}.

(** A regular image, a folder that can be made, a free name in it and file
    operations that go through: the image is moved. *)
Lemma move_error_image_file_effect (image folder : string) (c : option string)
    (fs1 : FileSystem) (w : World) :
  Py.truthy image = true -> Py.truthy folder = true ->
  w_fs w !! image = Some (File c) ->
  (forall k, String.prefix (image +:+ "/") k = true -> fs1 !! k = None) ->
  io_fails (w_tick w) = false ->
  mkdir_parents (S (String.length folder)) (w_fs w) folder = Some fs1 ->
  let plain := Path.joinpath folder (Path.name image) in
  let taken := exists_ fs1 plain in
  let dest :=
    if taken
    then Path.joinpath folder
           (Path.stem image +:+ "_" +:+ strftime_now (S (w_tick w)) +:+ Path.suffix image)
    else plain in
  io_fails (if taken then S (S (w_tick w)) else S (w_tick w)) = false ->
  fs1 !! dest = None ->
  exists w',
    _move_error_image image folder w = Returns true w' /\
    w_fs w' = <[dest := File c]> (delete image fs1) /\
    (forall p, p <> image -> p <> dest -> w_fs w' !! p = fs1 !! p) /\
    w_db w' = w_db w /\
    w_log w' = w_log w ++ [Ev_move_error_image image folder; Ev_shutil_move image dest].
Proof.
  intros Hi Hf Hsrc Hfile Hio1 Hmk plain taken dest Hio2 Hfree.
  pose proof (mkdir_parents_keeps _ _ _ _ _ _ Hmk Hsrc) as Hsrc1.
  assert (Hne : image <> dest) by (intros Heq; rewrite <- Heq, Hsrc1 in Hfree; discriminate).
  pose proof (rename_entries_file fs1 image dest (File c) Hsrc1 Hfile Hne) as Hren.
  destruct w as [d fs cache j t l].
  cbn [w_fs w_tick w_db w_log w_contents_cache w_current_job_id] in *.
  exists (mkWorld d (<[dest := File c]> (delete image fs1)) cache j
                  (if taken then S (S (S t)) else S (S t))
                  (l ++ [Ev_move_error_image image folder; Ev_shutil_move image dest])).
  split; [| split; [reflexivity | split; [| split; reflexivity]]].
  - cbv beta iota delta [_move_error_image try_except mbind M_bind emit path_exists get_fs
      mkdir shutil_move observe put_fs mret M_ret is_dir raise
      w_fs w_tick w_db w_log w_contents_cache w_current_job_id].
    rewrite Hi, Hf. cbn [negb orb].
    cbv beta iota delta [w_fs w_tick w_db w_log w_contents_cache w_current_job_id].
    unfold exists_ at 1. rewrite Hsrc. cbn [negb].
    rewrite Hio1, Hmk.
    cbv beta iota delta [w_fs w_tick w_db w_log w_contents_cache w_current_job_id].
    fold plain. fold taken. unfold dest in *. clear dest.
    destruct taken;
      cbv beta iota delta [w_fs w_tick w_db w_log w_contents_cache w_current_job_id];
      rewrite Hio2, Hsrc1, Hfree; cbn [andb]; rewrite Hren, <- app_assoc; reflexivity.
  - intros p Hp1 Hp2. cbn [w_fs].
    rewrite lookup_insert_ne by congruence. now rewrite lookup_delete_ne by congruence.
Qed.

(** Without a path, without a folder, or with no file at the path, the call
    moves nothing and returns False. *)
Lemma move_error_image_declines (image folder : string) (w : World) :
  Py.truthy image = false \/ Py.truthy folder = false \/ exists_ (w_fs w) image = false ->
  _move_error_image image folder w =
  Returns false
    (mkWorld (w_db w) (w_fs w) (w_contents_cache w) (w_current_job_id w) (w_tick w)
             (w_log w ++ [Ev_move_error_image image folder])).
Proof.
  intros Hcase. destruct w as [d fs cache j t l].
  cbn [w_fs w_tick w_db w_log w_contents_cache w_current_job_id] in *.
  cbv beta iota delta [_move_error_image try_except mbind M_bind emit path_exists get_fs
    mret M_ret w_fs w_tick w_db w_log w_contents_cache w_current_job_id].
  destruct (Py.truthy image) eqn:Hi; [| reflexivity].
  destruct (Py.truthy folder) eqn:Hf; [| reflexivity].
  destruct Hcase as [Hx | [Hx | Hx]]; try discriminate.
  cbn [negb orb]. cbv beta iota delta [w_fs].
  destruct (exists_ fs image); [discriminate | reflexivity].
Qed.

End MoveEffects.

(** X23. Moving a regular image into the error folder, when the folder can
    be made and the file operations go through: the image goes under its own
    name if that name is free there, and under stem_timestamp.suffix if it is
    taken and this second name is free; it is then at the destination with
    its content and gone from where it was, every other path is as it was (so
    a file of the same name already in the folder is kept), and the call
    returns True. *)
Theorem X23_move_error_image_file :
  forall `{Environment} (image folder : string) (c : option string) (fs1 : FileSystem)
         (w : World),
    Py.truthy image = true -> Py.truthy folder = true ->
    w_fs w !! image = Some (File c) ->
    (forall k, String.prefix (image +:+ "/") k = true -> fs1 !! k = None) ->
    io_fails (w_tick w) = false ->
    mkdir_parents (S (String.length folder)) (w_fs w) folder = Some fs1 ->
    let plain := Path.joinpath folder (Path.name image) in
    let taken := exists_ fs1 plain in
    let dest :=
      if taken
      then Path.joinpath folder
             (Path.stem image +:+ "_" +:+ strftime_now (S (w_tick w)) +:+ Path.suffix image)
      else plain in
    io_fails (if taken then S (S (w_tick w)) else S (w_tick w)) = false ->
    fs1 !! dest = None ->
    exists w',
      _move_error_image image folder w = Returns true w' /\
      w_fs w' = <[dest := File c]> (delete image fs1) /\
      (forall p, p <> image -> p <> dest -> w_fs w' !! p = fs1 !! p) /\
      w_db w' = w_db w /\
      w_log w' = w_log w ++ [Ev_move_error_image image folder; Ev_shutil_move image dest].
Proof.
  intros E image folder c fs1 w Hi Hf Hsrc Hfile Hio1 Hmk plain taken dest Hio2 Hfree.
  exact (move_error_image_file_effect image folder c fs1 w Hi Hf Hsrc Hfile Hio1 Hmk
           Hio2 Hfree).
Qed.

Lemma crowded_fs_file (k : string) :
  String.prefix ("in/outfits/o1.png" +:+ "/") k = true -> crowded_fs !! k = None.
Proof.
  intros Hk. destruct (crowded_fs !! k) as [n|] eqn:E; [| reflexivity].
  exfalso. apply elem_of_map_to_list in E.
  let l := eval vm_compute in (map_to_list crowded_fs) in
  change (map_to_list crowded_fs) with l in E.
  repeat (apply elem_of_cons in E as [E | E];
          [injection E as -> _; vm_compute in Hk; discriminate |]).
  inversion E.
Qed.

Lemma X23_move_error_image_file_witness :
  exists w',
    @_move_error_image steady_env "in/outfits/o1.png" "in/err"
      (mkWorld empty_db crowded_fs ∅ None 0 []) = Returns true w' /\
    w_fs w' !! "in/err/o1.png" = Some (File (Some "older")) /\
    w_fs w' !! "in/err/o1_20231114_221320.png" = Some (File (Some "png")) /\
    w_fs w' !! "in/outfits/o1.png" = None.
Proof.
  destruct (@X23_move_error_image_file steady_env "in/outfits/o1.png" "in/err" (Some "png")
              crowded_fs (mkWorld empty_db crowded_fs ∅ None 0 []))
    as (w' & Hrun & Hfs & Hother & _); try reflexivity.
  { exact crowded_fs_file. }
  exists w'. split; [exact Hrun |].
  rewrite Hfs. repeat split; vm_compute; reflexivity.
Defined.

(** ** The client *)

(** X24. The mime type given to a file: for every file an image pool takes
    (its extension, in lower case, is one of the five image extensions) it is
    the table's entry for that extension, and for every other path it is
    image/png. *)
Theorem X24_get_mime_type :
  forall p : string,
    (has_extension image_extensions p = true ->
     KieAPI.mime_types !! Py.lower (Path.suffix p) = Some (KieAPI._get_mime_type p)) /\
    (has_extension image_extensions p = false -> KieAPI._get_mime_type p = "image/png") /\
    KieAPI._get_mime_type p ∈ ["image/jpeg"; "image/png"; "image/webp"; "image/gif"].
Proof.
  intros p. unfold has_extension, KieAPI._get_mime_type, image_extensions.
  set (s := Py.lower (Path.suffix p)).
  assert (Hcases : s ∈ [".jpg"; ".jpeg"; ".png"; ".webp"; ".gif"] \/
                   KieAPI.mime_types !! s = None).
  { destruct (KieAPI.mime_types !! s) as [m|] eqn:E; [left | now right].
    apply elem_of_list_to_map_2 in E.
    repeat (apply elem_of_cons in E as [E | E]; [injection E as -> _; set_solver |]).
    inversion E. }
  split; [| split].
  - intros Hin. apply bool_decide_eq_true in Hin.
    repeat (apply elem_of_cons in Hin as [-> | Hin]; [reflexivity |]). inversion Hin.
  - intros Hout. apply bool_decide_eq_false in Hout.
    destruct Hcases as [Hin | ->]; [contradiction | reflexivity].
  - destruct Hcases as [Hin | ->]; [| set_solver].
    repeat (apply elem_of_cons in Hin as [-> | Hin]; [vm_compute; set_solver |]).
    inversion Hin.
Qed.

Section ClientProofs.

Context `{KieAPI.Service}.

Lemma wait_for_completion_result (polls : nat) :
  forall n tid timeout r,
    KieAPI.wait_for_completion polls n tid timeout = Some r ->
    success r = true ->
    result_status r = COMPLETED /\
    exists m, (n <= m)%nat /\ r = KieAPI.query_task m tid /\
              forall i, (n <= i <= m)%nat -> KieAPI.timeout_exceeded i = false.
Proof.
  induction polls as [|polls IH]; intros n tid timeout r Hr Hs; cbn in Hr; [discriminate |].
  destruct (KieAPI.timeout_exceeded n) eqn:Ht.
  { injection Hr as <-. discriminate. }
  assert (Hrec : KieAPI.wait_for_completion polls (S n) tid timeout = Some r ->
                 result_status r = COMPLETED /\
                 exists m, (n <= m)%nat /\ r = KieAPI.query_task m tid /\
                           forall i, (n <= i <= m)%nat -> KieAPI.timeout_exceeded i = false).
  { intros Hrec. destruct (IH _ _ _ _ Hrec Hs) as (Hc & m & Hm & Hq & Hno).
    split; [exact Hc |]. exists m. split; [lia |]. split; [exact Hq |].
    intros i Hi. destruct (decide (i = n)) as [-> | Hne]; [exact Ht | apply Hno; lia]. }
  destruct (result_status (KieAPI.query_task n tid)) eqn:Hst; auto.
  - injection Hr as <-. split; [exact Hst |]. exists n. split; [lia |].
    split; [reflexivity |]. intros i Hi. assert (i = n) as -> by lia. exact Ht.
  - injection Hr as <-. discriminate.
Qed.

Lemma wait_for_completion_returns (polls : nat) :
  forall n k tid timeout,
    KieAPI.timeout_exceeded k = true -> (n <= k)%nat -> (k < n + polls)%nat ->
    exists r, KieAPI.wait_for_completion polls n tid timeout = Some r.
Proof.
  induction polls as [|polls IH]; intros n k tid timeout Hk Hnk Hlt; [lia |].
  cbn. destruct (KieAPI.timeout_exceeded n) eqn:Ht; [eauto |].
  assert (n <> k) by congruence.
  destruct (result_status (KieAPI.query_task n tid)); eauto;
    apply (IH (S n) k); auto; lia.
Qed.

(** X25. A call of generate_and_wait whose clock is found past the timeout at
    some reading, given at least that many rounds, returns.  When the task
    cannot be created the result of create_task is returned as it is.  The
    result reports success only with the status COMPLETED, and is then the
    answer of a query for the created task, made before the timeout: the test
    run_batch makes on it (success and status COMPLETED) is decided by
    success alone. *)
Theorem X25_generate_and_wait :
  forall (polls k : nat) (call : ApiCall) (timeout : string),
    KieAPI.timeout_exceeded k = true -> (k < polls)%nat ->
    exists r,
      KieAPI.generate_and_wait polls call timeout = Some r /\
      (success (KieAPI.create_task call) = false -> r = KieAPI.create_task call) /\
      (success r = true ->
       result_status r = COMPLETED /\
       exists m, (m < k)%nat /\
                 r = KieAPI.query_task m (task_id (KieAPI.create_task call))) /\
      task_ok r = success r.
Proof.
  intros polls k call timeout Hk Hlt. unfold KieAPI.generate_and_wait.
  destruct (success (KieAPI.create_task call)) eqn:Hc; cbn [negb].
  - destruct (wait_for_completion_returns polls 0 k (task_id (KieAPI.create_task call))
                timeout Hk) as [r Hr]; [lia | lia |].
    exists r. split; [exact Hr |]. split; [discriminate |].
    assert (Hsucc : success r = true ->
                    result_status r = COMPLETED /\
                    exists m, (m < k)%nat /\
                              r = KieAPI.query_task m (task_id (KieAPI.create_task call))).
    { intros Hs. destruct (wait_for_completion_result _ _ _ _ _ Hr Hs) as (Hst & m & _ & Hq & Hno).
      split; [exact Hst |]. exists m. split; [| exact Hq].
      destruct (decide (m < k)%nat) as [|Hge]; [assumption |].
      rewrite (Hno k) in Hk; [discriminate | lia]. }
    split; [exact Hsucc |]. unfold task_ok.
    destruct (success r) eqn:Hs; [| reflexivity].
    destruct (Hsucc eq_refl) as [-> _]. reflexivity.
  - exists (KieAPI.create_task call). split; [reflexivity |]. split; [reflexivity |].
    split; [intros Hs; congruence |]. unfold task_ok. now rewrite Hc.
Qed.

End ClientProofs.

Lemma X25_generate_and_wait_witness :
  exists r,
    @KieAPI.generate_and_wait slow_service 9 (mkCall "p" None "m" "1K" "1:1") "300.0" = Some r /\
    image_url r = Some "https://cdn/out.png" /\ task_ok r = true.
Proof.
  destruct (@X25_generate_and_wait slow_service 9 5 (mkCall "p" None "m" "1K" "1:1") "300.0")
    as (r & Hr & _ & _ & Hok); [reflexivity | lia |].
  exists r. split; [exact Hr |].
  vm_compute in Hr. injection Hr as <-. split; reflexivity.
Defined.

(** ** Downloads *)

Lemma keeps_files_refl fs : keeps_files fs fs.
Proof. intros q Hq. exact Hq. Qed.

Lemma keeps_files_trans fs1 fs2 fs3 :
  keeps_files fs1 fs2 -> keeps_files fs2 fs3 -> keeps_files fs1 fs3.
Proof. intros H1 H2 q Hq. apply H2, H1, Hq. Qed.

Lemma mkdir_parents_keeps_files fuel fs fs' p :
  mkdir_parents fuel fs p = Some fs' -> keeps_files fs fs'.
Proof.
  intros Hm q Hq. unfold is_file in *.
  destruct (fs !! q) as [[c|]|] eqn:E; try discriminate.
  now rewrite (mkdir_parents_keeps _ _ _ _ _ _ Hm E).
Qed.

Lemma write_file_keeps_files (fs : FileSystem) p c :
  keeps_files fs (<[p := File c]> fs) /\ is_file (<[p := File c]> fs) p = true.
Proof.
  split.
  - intros q Hq. unfold is_file. destruct (decide (q = p)) as [-> | Hne].
    + now rewrite lookup_insert_eq.
    + rewrite lookup_insert_ne by congruence. exact Hq.
  - unfold is_file. now rewrite lookup_insert_eq.
Qed.

Section DownloadProofs.

Context `{Runtime} `{Environment} `{Network}.

Lemma download_single_effect url p w :
  exists ok w',
    download_single url p w = Returns ok w' /\
    w_db w' = w_db w /\ w_log w' = w_log w /\
    keeps_files (w_fs w) (w_fs w') /\
    (ok = true -> is_file (w_fs w') p = true).
Proof.
  destruct w as [d fs cache j t l].
  unfold download_single, try_except, mkdir.
  cbv beta iota delta [mbind M_bind observe mret M_ret raise get_fs put_fs
    w_fs w_tick w_db w_log w_contents_cache w_current_job_id].
  destruct (http_get t url) as [e | content complete].
  { exists false. eexists. split; [reflexivity |]. cbn.
    repeat split; auto using keeps_files_refl; discriminate. }
  destruct (io_fails (S t)).
  { exists false. eexists. split; [reflexivity |]. cbn.
    repeat split; auto using keeps_files_refl; discriminate. }
  destruct (mkdir_parents (S (String.length (Path.parent p))) fs (Path.parent p))
    as [fs1|] eqn:Hmk.
  2:{ exists false. eexists. split; [reflexivity |]. cbn.
      repeat split; auto using keeps_files_refl; discriminate. }
  pose proof (mkdir_parents_keeps_files _ _ _ _ Hmk) as Hk1.
  cbv beta iota delta [w_fs w_tick w_db w_log w_contents_cache w_current_job_id].
  destruct (io_fails (S (S t))).
  { exists false. eexists. split; [reflexivity |]. cbn.
    repeat split; auto; discriminate. }
  destruct (is_dir fs1 p).
  { exists false. eexists. split; [reflexivity |]. cbn.
    repeat split; auto; discriminate. }
  destruct (write_file_keeps_files fs1 p content) as [Hk2 Hf].
  destruct complete.
  - exists true. eexists. split; [reflexivity |]. cbn.
    repeat split; eauto using keeps_files_trans.
  - exists false. eexists. split; [reflexivity |]. cbn.
    repeat split; eauto using keeps_files_trans; discriminate.
Qed.

Lemma download_task_effect job_dir task w :
  exists st w',
    download_task job_dir task w = Returns (id task, st) w' /\
    w_db w' = w_db w /\ w_log w' = w_log w /\
    keeps_files (w_fs w) (w_fs w') /\
    (forall p, st = Success p ->
       is_file (w_fs w') p = true /\
       exists ext, ext ∈ [".jpg"; ".png"] /\ p = task_file job_dir (id task) ext).
Proof.
  unfold download_task.
  destruct (result_url task) as [url|].
  2:{ exists Skipped, w. split; [reflexivity |].
      repeat split; auto using keeps_files_refl; discriminate. }
  destruct (Py.truthy url); cbn [negb].
  2:{ exists Skipped, w. split; [reflexivity |].
      repeat split; auto using keeps_files_refl; discriminate. }
  set (ext := if Py.str_in "jpg" (Py.lower url) || Py.str_in "jpeg" (Py.lower url)
              then ".jpg" else ".png").
  assert (Hext : ext ∈ [".jpg"; ".png"]).
  { unfold ext. destruct (_ || _); set_solver. }
  destruct (download_single_effect url
              (Path.joinpath job_dir ("task_" +:+ format_04d (id task) +:+ ext)) w)
    as (ok & w' & Hrun & Hd & Hl & Hk & Hok).
  unfold mbind, M_bind. rewrite Hrun.
  destruct ok.
  - exists (Success (Path.joinpath job_dir ("task_" +:+ format_04d (id task) +:+ ext))), w'.
    split; [reflexivity |]. split; [exact Hd |]. split; [exact Hl |]. split; [exact Hk |].
    intros p [= <-]. split; [auto |]. exists ext. split; [exact Hext | reflexivity].
  - exists Failed, w'. split; [reflexivity |]. repeat split; auto; discriminate.
Qed.

Lemma collect_results_effect job_dir total (futures : list generation_task) :
  forall i results w,
  exists r w' (done : list download),
    collect_results job_dir total i futures results w = Returns r w' /\
    sublist (map (fun x : download => x.1.1) done) futures /\
    w_db w' = foldl mark_downloaded (w_db w) done /\
    dl_downloaded r = (dl_downloaded results + length done)%nat /\
    (dl_failed r + dl_skipped r + length done =
     dl_failed results + dl_skipped results + length futures)%nat /\
    dl_paths r = (fun ps => ps ++ map (fun x : download => x.1.2) done) <$> dl_paths results /\
    Forall (fun x : download =>
              is_file (w_fs w') x.1.2 = true /\
              exists ext, ext ∈ [".jpg"; ".png"] /\
                          x.1.2 = task_file job_dir (id x.1.1) ext) done /\
    keeps_files (w_fs w) (w_fs w').
Proof.
  induction futures as [|task futures IH]; intros i results w.
  - exists results, w, []. split; [reflexivity |]. cbn.
    split; [constructor |]. split; [reflexivity |]. split; [lia |]. split; [lia |].
    split; [| split; [constructor | apply keeps_files_refl]].
    destruct (dl_paths results); cbn; [now rewrite app_nil_r | reflexivity].
  - cbn [collect_results].
    destruct (download_task_effect job_dir task w) as (st & w1 & Hrun & Hd1 & Hl1 & Hk1 & Hst).
    unfold mbind at 1, M_bind at 1. rewrite Hrun.
    destruct st as [path | |].
    + destruct (Hst path eq_refl) as [Hfile Hname].
      set (results1 := mkDownloads _ _ _ _).
      set (w2 := mkWorld (update_task_status (w_db w1) (current_timestamp (w_tick w1))
                            (id task) "completed" None None (Some path) None None)
                         (w_fs w1) (w_contents_cache w1) (w_current_job_id w1)
                         (S (w_tick w1))
                         ((w_log w1 ++ [Ev_update_task_status (id task) "completed"]) ++
                          [Ev_notify None None
                             (Some ("Downloaded " +:+ pretty (S i) +:+ "/" +:+ pretty total))])).
      destruct (IH (S i) results1 w2) as (r & w' & done & Hloop & Hsub & Hdb & Hn & Hc & Hp & Hf & Hk).
      exists r, w', ((task, path, current_timestamp (w_tick w1)) :: done).
      split; [exact Hloop |]. split; [| split; [| split; [| split; [| split; [| split]]]]].
      * cbn. now apply sublist_skip.
      * rewrite Hdb. cbn [foldl w2 w_db]. unfold mark_downloaded at 2. cbn. now rewrite Hd1.
      * rewrite Hn. cbn. lia.
      * cbn in Hc |- *. lia.
      * rewrite Hp. unfold results1. cbn [dl_paths].
        destruct (dl_paths results); cbn; [now rewrite <- app_assoc | reflexivity].
      * constructor; [| exact Hf]. cbn. split; [| exact Hname]. apply Hk. exact Hfile.
      * eapply keeps_files_trans; [exact Hk1 | exact Hk].
    + set (results1 := mkDownloads _ _ _ _).
      set (w2 := mkWorld (w_db w1) (w_fs w1) (w_contents_cache w1) (w_current_job_id w1)
                         (w_tick w1)
                         (w_log w1 ++
                          [Ev_notify None None
                             (Some ("Downloaded " +:+ pretty (S i) +:+ "/" +:+ pretty total))])).
      destruct (IH (S i) results1 w2) as (r & w' & done & Hloop & Hsub & Hdb & Hn & Hc & Hp & Hf & Hk).
      exists r, w', done.
      split; [exact Hloop |]. split; [| split; [| split; [| split; [| split; [| split]]]]].
      * now apply sublist_cons.
      * rewrite Hdb. cbn. now rewrite Hd1.
      * rewrite Hn. reflexivity.
      * cbn in Hc |- *. lia.
      * exact Hp.
      * exact Hf.
      * eapply keeps_files_trans; [exact Hk1 | exact Hk].
    + set (results1 := mkDownloads _ _ _ _).
      set (w2 := mkWorld (w_db w1) (w_fs w1) (w_contents_cache w1) (w_current_job_id w1)
                         (w_tick w1)
                         (w_log w1 ++
                          [Ev_notify None None
                             (Some ("Downloaded " +:+ pretty (S i) +:+ "/" +:+ pretty total))])).
      destruct (IH (S i) results1 w2) as (r & w' & done & Hloop & Hsub & Hdb & Hn & Hc & Hp & Hf & Hk).
      exists r, w', done.
      split; [exact Hloop |]. split; [| split; [| split; [| split; [| split; [| split]]]]].
      * now apply sublist_cons.
      * rewrite Hdb. cbn. now rewrite Hd1.
      * rewrite Hn. reflexivity.
      * cbn in Hc |- *. lia.
      * exact Hp.
      * exact Hf.
      * eapply keeps_files_trans; [exact Hk1 | exact Hk].
Qed.

Lemma download_batch_results_effect output_dir job w :
  let tasks := get_downloadable_tasks (w_db w) job in
  match download_batch_results output_dir job w with
  | Hangs => False
  | Raises _ w' => tasks <> [] /\ w_db w' = w_db w /\ keeps_files (w_fs w) (w_fs w')
  | Returns r w' =>
      (tasks = [] /\ r = mkDownloads 0 0 0 None /\ w' = w) \/
      (tasks <> [] /\
       exists job_dir (done : list download),
         map (fun x : download => x.1.1) done ⊆+ tasks /\
         w_db w' = foldl mark_downloaded (w_db w) done /\
         dl_downloaded r = length done /\
         (dl_failed r + dl_skipped r + length done = length tasks)%nat /\
         dl_paths r = Some (map (fun x : download => x.1.2) done) /\
         Forall (fun x : download =>
                   is_file (w_fs w') x.1.2 = true /\
                   exists ext, ext ∈ [".jpg"; ".png"] /\
                               x.1.2 = task_file job_dir (id x.1.1) ext) done /\
         keeps_files (w_fs w) (w_fs w'))
  end.
Proof.
  intros tasks. unfold download_batch_results.
  unfold mbind at 1, M_bind at 1, get_db at 1. fold tasks.
  destruct tasks as [|t0 tasks0] eqn:Ht.
  { left. auto. }
  rewrite <- Ht. assert (Hne : tasks <> []) by (rewrite Ht; discriminate). clearbody tasks.
  clear Ht t0 tasks0.
  set (job_name_ := match get_batch_job (w_db w) job with
                    | Some j => job_name j
                    | None => "job_" +:+ pretty job
                    end).
  unfold mbind at 1, M_bind at 1, observe at 1.
  set (job_dir := Path.joinpath output_dir (job_name_ +:+ "_" +:+ strftime_now (w_tick w))).
  set (w1 := mkWorld _ _ _ _ _ _).
  unfold mbind at 1, M_bind at 1, mkdir.
  unfold mbind at 1, M_bind at 1, observe at 1.
  destruct (io_fails (w_tick w1)).
  { cbn. auto using keeps_files_refl. }
  unfold mbind at 1, M_bind at 1, get_fs at 1.
  set (w2 := mkWorld _ _ _ _ _ _).
  destruct (mkdir_parents (S (String.length job_dir)) (w_fs w2) job_dir) as [fs1|] eqn:Hmk.
  2:{ cbn. auto using keeps_files_refl. }
  cbn [put_fs]. unfold mbind at 1, M_bind at 1, observe at 1.
  set (w3 := mkWorld _ _ _ _ _ _).
  match goal with
  | |- context [collect_results ?a ?b ?c ?fut ?res ?w0] =>
      destruct (collect_results_effect a b fut c res w0)
        as (r & w' & done & Hloop & Hsub & Hdb & Hn & Hc & Hp & Hf & Hk)
  end.
  rewrite Hloop. right. split; [exact Hne |]. exists job_dir, done.
  split; [| split; [| split; [| split; [| split; [| split]]]]].
  - apply sublist_submseteq in Hsub. etrans; [exact Hsub |].
    unfold as_completed. now rewrite merge_sort_Permutation.
  - exact Hdb.
  - rewrite Hn. reflexivity.
  - cbn in Hc. unfold as_completed in Hc. rewrite Hc.
    now rewrite (Permutation_length (merge_sort_Permutation _ tasks)).
  - rewrite Hp. reflexivity.
  - exact Hf.
  - eapply keeps_files_trans; [| exact Hk]. cbn.
    exact (mkdir_parents_keeps_files _ _ _ _ Hmk).
Qed.

Lemma mark_downloaded_rows (done : list download) :
  forall d,
    NoDup (map (fun x : download => id x.1.1) done) ->
    Forall (fun x : download => Py.truthy x.1.2 = true) done ->
    exists g,
      generation_tasks (foldl mark_downloaded d done) = map g (generation_tasks d) /\
      batch_jobs (foldl mark_downloaded d done) = batch_jobs d /\
      used_combinations (foldl mark_downloaded d done) = used_combinations d /\
      seq_generation_tasks (foldl mark_downloaded d done) = seq_generation_tasks d /\
      (forall r, id r ∉ map (fun x : download => id x.1.1) done -> g r = r) /\
      (forall r x, x ∈ done -> id r = id x.1.1 ->
         status (g r) = "completed" /\ local_path (g r) = Some x.1.2 /\
         result_url (g r) = result_url r /\ api_request_id (g r) = api_request_id r /\
         error_message (g r) = error_message r /\ api_response (g r) = api_response r /\
         same_fixed_columns r (g r)).
Proof.
  induction done as [|x done IH]; intros d Hnd Htr.
  - exists (fun r => r). cbn. rewrite map_id.
    split; [reflexivity |]. split; [reflexivity |]. split; [reflexivity |].
    split; [reflexivity |]. split; [reflexivity |]. intros r x Hx. inversion Hx.
  - cbn [map] in Hnd. apply NoDup_cons in Hnd as [Hx Hnd].
    apply Forall_cons in Htr as [Hp Htr].
    destruct (IH (mark_downloaded d x) Hnd Htr) as (g1 & Hrows & Hj & Hu & Hs & Hother & Hsame).
    set (g0 := fun r : generation_task =>
                 if Z.eqb (id r) (id x.1.1)
                 then fold_left (assign x.2)
                        [Set_status "completed"; Set_updated_at_current_timestamp;
                         Set_local_path x.1.2] r
                 else r).
    assert (Hg0 : generation_tasks (mark_downloaded d x) = map g0 (generation_tasks d)).
    { unfold mark_downloaded, update_task_status. cbn [append_if_truthy].
      rewrite Hp. reflexivity. }
    assert (Hcols : forall r, id r = id x.1.1 ->
              status (g0 r) = "completed" /\ local_path (g0 r) = Some x.1.2 /\
              result_url (g0 r) = result_url r /\ api_request_id (g0 r) = api_request_id r /\
              error_message (g0 r) = error_message r /\ api_response (g0 r) = api_response r /\
              same_fixed_columns r (g0 r)).
    { intros r Hr. unfold g0. apply Z.eqb_eq in Hr. rewrite Hr. cbn.
      unfold same_fixed_columns. cbn. repeat split. }
    assert (Hid0 : forall r, id (g0 r) = id r).
    { intros r. unfold g0. destruct (Z.eqb (id r) (id x.1.1)); reflexivity. }
    exists (fun r => g1 (g0 r)).
    split; [| split; [| split; [| split; [| split]]]].
    + cbn [foldl]. rewrite Hrows, Hg0, map_map. reflexivity.
    + cbn [foldl]. rewrite Hj. reflexivity.
    + cbn [foldl]. rewrite Hu. reflexivity.
    + cbn [foldl]. rewrite Hs. reflexivity.
    + intros r Hr. cbn [map] in Hr. apply not_elem_of_cons in Hr as [Hr1 Hr2].
      assert (g0 r = r) as ->.
      { unfold g0. apply Z.eqb_neq in Hr1. now rewrite Hr1. }
      apply Hother, Hr2.
    + intros r y Hy Hr. apply elem_of_cons in Hy as [-> | Hy].
      * rewrite Hother; [apply Hcols, Hr |].
        rewrite Hid0, Hr. exact Hx.
      * assert (Hne : id r <> id x.1.1).
        { intros Heq. apply Hx. rewrite <- Heq, Hr.
          apply list_elem_of_In, (in_map (fun x : download => id x.1.1)), list_elem_of_In, Hy. }
        assert (g0 r = r) as ->.
        { unfold g0. apply Z.eqb_neq in Hne. now rewrite Hne. }
        apply (Hsame r y Hy Hr).
Qed.

Lemma task_file_truthy job_dir i ext : Py.truthy (task_file job_dir i ext) = true.
Proof.
  unfold task_file, Path.joinpath.
  destruct (String.eqb job_dir "."); [reflexivity |].
  destruct (String.eqb job_dir "/"); [reflexivity |].
  destruct job_dir; reflexivity.
Qed.

Lemma filter_map_updates (P : generation_task -> Prop) `{!forall x, Decision (P x)}
    (g : generation_task -> generation_task) (ids : list Z) (l : list generation_task) :
  (forall r, id r ∉ ids -> g r = r) ->
  (forall r, id r ∈ ids -> ~ P (g r)) ->
  filter P (map g l) = filter (fun t => P t /\ id t ∉ ids) l.
Proof.
  intros Hother Hsame. induction l as [|x l IH]; [reflexivity |].
  cbn [map]. rewrite !filter_cons, IH.
  destruct (decide (id x ∈ ids)) as [Hi|Hi].
  - rewrite decide_False by (now apply Hsame).
    rewrite decide_False by tauto. reflexivity.
  - rewrite (Hother x Hi). destruct (decide (P x)) as [HP|HP].
    + rewrite decide_True by tauto. reflexivity.
    + rewrite decide_False by tauto. reflexivity.
Qed.

Lemma filter_none_length {A} (P : A -> Prop) `{!forall x, Decision (P x)} (l : list A) :
  Forall (fun x => ~ P x) l -> filter P l = [].
Proof.
  induction 1 as [|x l Hx _ IH]; [reflexivity |].
  rewrite filter_cons, decide_False by exact Hx. exact IH.
Qed.

Lemma filter_all {A} (P : A -> Prop) `{!forall x, Decision (P x)} (l : list A) :
  Forall P l -> filter P l = l.
Proof.
  induction 1 as [|x l Hx _ IH]; [reflexivity |].
  rewrite filter_cons, decide_True by exact Hx. now rewrite IH.
Qed.

Lemma filter_out_length (tasks taken : list generation_task) :
  NoDup (map id tasks) -> taken ⊆+ tasks ->
  (length (filter (fun t => id t ∉ map id taken) tasks) + length taken = length tasks)%nat.
Proof.
  intros Hnd Hsub. apply submseteq_Permutation in Hsub as [k Hk].
  assert (Hnd' : NoDup (map id (taken ++ k))).
  { eapply NoDup_map_Permutation; [exact Hk | exact Hnd]. }
  rewrite (Permutation_length Hk), length_app.
  assert (Hlen : length (filter (fun t => id t ∉ map id taken) tasks) =
                 length (filter (fun t => id t ∉ map id taken) (taken ++ k))).
  { apply Permutation_length. now rewrite Hk. }
  rewrite Hlen, filter_app, length_app.
  rewrite filter_none_length, filter_all; [cbn; lia | |].
  - apply Forall_forall. intros t Ht Hin.
    rewrite map_app in Hnd'. apply NoDup_app in Hnd' as (_ & Hdis & _).
    apply (Hdis (id t) Hin).
    apply list_elem_of_In, in_map, list_elem_of_In, Ht.
  - apply Forall_forall. intros t Ht Hn. apply Hn.
    apply list_elem_of_In, in_map, list_elem_of_In, Ht.
Qed.

Lemma downloadable_task db job t :
  t ∈ get_downloadable_tasks db job ->
  t ∈ generation_tasks db /\ batch_job_id t = job /\ status t = "completed" /\
  result_url t <> None /\ local_path t = None.
Proof.
  unfold get_downloadable_tasks. rewrite merge_sort_Permutation.
  intros Ht. apply list_elem_of_filter in Ht as [Hp Ht]. tauto.
Qed.

End DownloadProofs.

(** ** The names of the downloaded files *)

Lemma pretty_N_go_first (x : N) :
  forall s, (0 < x)%N ->
    exists c rest, pretty_N_go x s = String c rest /\ c <> "0"%char /\ c <> "-"%char.
Proof.
  induction (N.lt_wf_0 x) as [x _ IH]. intros s Hx.
  rewrite pretty_N_go_step by exact Hx.
  destruct (decide (x `div` 10 = 0)%N) as [Hz | Hnz].
  - rewrite Hz, pretty_N_go_0. eexists _, _. split; [reflexivity |].
    assert (Hlt : (x < 10)%N).
    { destruct (N.lt_ge_cases x 10) as [Hlt | Hge]; [exact Hlt |]. exfalso.
      assert (1 <= x `div` 10)%N by (apply N.div_le_lower_bound; lia). lia. }
    rewrite N.mod_small by exact Hlt.
    assert (x = 1 \/ x = 2 \/ x = 3 \/ x = 4 \/ x = 5 \/ x = 6 \/ x = 7 \/ x = 8 \/ x = 9)%N
      as Hc by lia.
    destruct Hc as [-> | [-> | [-> | [-> | [-> | [-> | [-> | [-> | ->]]]]]]]];
      split; discriminate.
  - apply IH; [apply N.div_lt; [exact Hx | reflexivity] | now apply N.neq_0_lt_0].
Qed.

Lemma pretty_N_first (x : N) :
  exists c rest, pretty x = String c rest /\ c <> "-"%char /\
                 (c = "0"%char -> x = 0%N) /\ (x = 0%N -> rest = "").
Proof.
  unfold pretty, pretty_N. destruct (decide (x = 0%N)) as [-> | Hx].
  - exists "0"%char, "". repeat split; auto; discriminate.
  - destruct (pretty_N_go_first x "") as (c & rest & -> & Hc0 & Hcd); [lia |].
    exists c, rest. repeat split; auto; contradiction.
Qed.

Lemma lstrip_zeros_zeros (k : nat) (s : string) :
  lstrip_zeros (zeros k +:+ s) = lstrip_zeros s.
Proof. induction k as [|k IH]; [reflexivity | exact IH]. Qed.

Lemma lstrip_zeros_pretty (x : N) :
  lstrip_zeros (pretty x) = if decide (x = 0%N) then "" else pretty x.
Proof.
  destruct (pretty_N_first x) as (c & rest & Hp & _ & Hc0 & Hrest).
  destruct (decide (x = 0%N)) as [-> | Hx]; [reflexivity |].
  rewrite Hp. cbn. destruct (decide (c = "0"%char)) as [-> | Hne]; [now specialize (Hc0 eq_refl) |].
  destruct c as [[] [] [] [] [] [] [] []]; try reflexivity. contradiction.
Qed.

Lemma padded_inj (a b : nat) (x y : N) :
  zeros a +:+ pretty x = zeros b +:+ pretty y -> x = y.
Proof.
  intros Heq. apply (f_equal lstrip_zeros) in Heq.
  rewrite !lstrip_zeros_zeros, !lstrip_zeros_pretty in Heq.
  destruct (decide (x = 0%N)) as [-> | Hx], (decide (y = 0%N)) as [-> | Hy]; auto.
  - destruct (pretty_N_first y) as (c & rest & Hp & _). rewrite Hp in Heq. discriminate.
  - destruct (pretty_N_first x) as (c & rest & Hp & _). rewrite Hp in Heq. discriminate.
  - now apply (inj pretty).
Qed.

Lemma format_04d_nonneg (n : Z) :
  0 <= n ->
  format_04d n = zeros (4 - String.length (pretty (Z.to_N n))) +:+ pretty (Z.to_N n).
Proof. destruct n as [|p|p]; [reflexivity | reflexivity | lia]. Qed.

Lemma padded_first (a : nat) (x : N) :
  exists c rest, zeros a +:+ pretty x = String c rest /\ c <> "-"%char.
Proof.
  destruct a as [|a].
  - destruct (pretty_N_first x) as (c & rest & Hp & Hd & _). exists c, rest. auto.
  - exists "0"%char, (zeros a +:+ pretty x). split; [reflexivity | discriminate].
Qed.

Lemma format_04d_inj (i j : Z) : format_04d i = format_04d j -> i = j.
Proof.
  destruct (Z.neg_nonneg_cases i) as [Hi | Hi], (Z.neg_nonneg_cases j) as [Hj | Hj].
  - destruct i as [|p|p], j as [|q|q]; try lia. unfold format_04d.
    intros Heq. apply (inj (String.append "-")) in Heq.
    apply (padded_inj _ _ (Npos p) (Npos q)) in Heq. congruence.
  - rewrite (format_04d_nonneg j Hj). destruct i as [|p|p]; try lia. unfold format_04d.
    destruct (padded_first (4 - String.length (pretty (Z.to_N j))) (Z.to_N j))
      as (c & rest & -> & Hc). intros [= Heq _]. congruence.
  - rewrite (format_04d_nonneg i Hi). destruct j as [|q|q]; try lia. unfold format_04d.
    destruct (padded_first (4 - String.length (pretty (Z.to_N i))) (Z.to_N i))
      as (c & rest & -> & Hc). intros [= Heq _]. congruence.
  - rewrite (format_04d_nonneg i Hi), (format_04d_nonneg j Hj). intros Heq.
    apply padded_inj in Heq. lia.
Qed.

Lemma append_length (a b : string) :
  String.length (a +:+ b) = (String.length a + String.length b)%nat.
Proof.
  induction a as [|c a IH]; [reflexivity |].
  change (S (String.length (a +:+ b)) = S (String.length a + String.length b)).
  now rewrite IH.
Qed.

Lemma append_inj_r (a b e1 e2 : string) :
  a +:+ e1 = b +:+ e2 -> String.length e1 = String.length e2 -> a = b.
Proof.
  revert b. induction a as [|c a IH]; intros [|c' b] Heq Hlen.
  - reflexivity.
  - apply (f_equal String.length) in Heq.
    change (String.length e1 = String.length (String c' (b +:+ e2))) in Heq.
    cbn [String.length] in Heq. rewrite append_length in Heq. lia.
  - apply (f_equal String.length) in Heq.
    change (String.length (String c (a +:+ e1)) = String.length e2) in Heq.
    cbn [String.length] in Heq. rewrite append_length in Heq. lia.
  - change (String c (a +:+ e1) = String c' (b +:+ e2)) in Heq.
    injection Heq as -> Heq. f_equal. now apply IH.
Qed.

Lemma joinpath_inj (folder n1 n2 : string) :
  Path.joinpath folder n1 = Path.joinpath folder n2 -> n1 = n2.
Proof.
  unfold Path.joinpath.
  destruct (String.eqb folder "."); [auto |].
  destruct (String.eqb folder "/"); [apply (inj (String.append "/")) |].
  intros Heq. apply (inj (String.append folder)) in Heq.
  now apply (inj (String.append "/")) in Heq.
Qed.

Lemma task_file_inj job_dir i j ext1 ext2 :
  ext1 ∈ [".jpg"; ".png"] -> ext2 ∈ [".jpg"; ".png"] ->
  task_file job_dir i ext1 = task_file job_dir j ext2 -> i = j.
Proof.
  intros H1 H2 Heq. unfold task_file in Heq. apply joinpath_inj in Heq.
  apply (inj (String.append "task_")) in Heq.
  apply format_04d_inj. eapply append_inj_r; [exact Heq |].
  repeat (apply elem_of_cons in H1 as [-> | H1]);
    repeat (apply elem_of_cons in H2 as [-> | H2]);
    try reflexivity; try inversion H1; inversion H2.
Qed.

(** X27. The file a result is saved to: job_dir/task_NNNN.jpg or .png, NNNN
    the id of the task filled with zeros to four digits.  When download_task
    reports a success the file is on disk, and two calls for the same folder
    that report the same path were made for tasks of the same id: no result
    is saved over that of another task. *)
Theorem X27_download_task_files :
  forall `{Environment} `{Network} (job_dir : string) (t1 t2 : generation_task)
         (w1 w2 w1' w2' : World) (i1 i2 : Z) (p : string),
    download_task job_dir t1 w1 = Returns (i1, Success p) w1' ->
    download_task job_dir t2 w2 = Returns (i2, Success p) w2' ->
    id t1 = id t2 /\ i1 = id t1 /\
    is_file (w_fs w1') p = true /\
    exists ext, ext ∈ [".jpg"; ".png"] /\
                p = Path.joinpath job_dir ("task_" +:+ format_04d (id t1) +:+ ext).
Proof.
  intros E N job_dir t1 t2 w1 w2 w1' w2' i1 i2 p H1 H2.
  destruct (download_task_effect job_dir t1 w1) as (st1 & v1 & Hr1 & _ & _ & _ & Hs1).
  destruct (download_task_effect job_dir t2 w2) as (st2 & v2 & Hr2 & _ & _ & _ & Hs2).
  rewrite Hr1 in H1. rewrite Hr2 in H2.
  injection H1 as <- -> ->. injection H2 as <- -> ->.
  destruct (Hs1 p eq_refl) as (Hfile & ext1 & He1 & Hp1).
  destruct (Hs2 p eq_refl) as (_ & ext2 & He2 & Hp2).
  split; [| split; [reflexivity | split; [exact Hfile |]]].
  - rewrite Hp1 in Hp2. exact (task_file_inj _ _ _ _ _ He1 He2 Hp2).
  - exists ext1. split; [exact He1 | exact Hp1].
Qed.

Lemma results_db_ids : NoDup (map id (generation_tasks results_db)).
Proof. apply (bool_decide_unpack _). vm_compute. exact I. Qed.

Lemma X27_download_task_files_witness :
  exists w',
    @download_task steady_env sample_network "outputs/demo" demo_task_row
      (fresh_world demo_fs) = Returns (7, Success "outputs/demo/task_0007.png") w' /\
    is_file (w_fs w') "outputs/demo/task_0007.png" = true.
Proof.
  eexists. split; [vm_compute; reflexivity |].
  eapply (@X27_download_task_files steady_env sample_network "outputs/demo"
            demo_task_row demo_task_row (fresh_world demo_fs) (fresh_world demo_fs)).
  - vm_compute. reflexivity.
  - vm_compute. reflexivity.
Defined.

(** ** The download statistics *)

Lemma download_stats_fold (l : list generation_task) :
  forall s,
    fold_left
      (fun stats task =>
         let stats :=
           if String.eqb (status task) "completed"
           then mkStats (ds_total stats) (S (ds_completed stats)) (ds_with_url stats)
                        (ds_downloaded stats) (ds_pending_download stats)
           else stats in
         let stats :=
           if Py.truthy_opt (result_url task)
           then mkStats (ds_total stats) (ds_completed stats) (S (ds_with_url stats))
                        (ds_downloaded stats) (ds_pending_download stats)
           else stats in
         if Py.truthy_opt (local_path task)
         then mkStats (ds_total stats) (ds_completed stats) (ds_with_url stats)
                      (S (ds_downloaded stats)) (ds_pending_download stats)
         else stats)
      l s =
    mkStats (ds_total s)
            (ds_completed s + length (filter (fun t => status t = "completed") l))
            (ds_with_url s + length (filter (fun t => Py.truthy_opt (result_url t) = true) l))
            (ds_downloaded s + length (filter (fun t => Py.truthy_opt (local_path t) = true) l))
            (ds_pending_download s).
Proof.
  induction l as [|t l IH]; intros s.
  - rewrite !filter_nil. destruct s. cbn. f_equal; lia.
  - cbn [fold_left]. rewrite IH. rewrite !filter_cons.
    destruct (String.eqb (status t) "completed") eqn:Hst;
      [apply String.eqb_eq in Hst; rewrite (decide_True (P := status t = "completed")) by exact Hst
      |apply String.eqb_neq in Hst; rewrite (decide_False (P := status t = "completed")) by exact Hst];
      destruct (Py.truthy_opt (result_url t)) eqn:Hu;
      destruct (Py.truthy_opt (local_path t)) eqn:Hl;
      rewrite ?(decide_True (P := true = true)) by reflexivity;
      rewrite ?(decide_False (P := false = true)) by discriminate;
      cbn; f_equal; lia.
Qed.

Lemma get_download_stats_counts db job :
  let tasks := get_tasks_by_batch db job in
  let with_url := length (filter (fun t => Py.truthy_opt (result_url t) = true) tasks) in
  let downloaded := length (filter (fun t => Py.truthy_opt (local_path t) = true) tasks) in
  get_download_stats db job =
    mkStats (length tasks) (length (filter (fun t => status t = "completed") tasks))
            with_url downloaded (Z.of_nat with_url - Z.of_nat downloaded).
Proof.
  intros tasks with_url downloaded. unfold get_download_stats. fold tasks.
  rewrite download_stats_fold. reflexivity.
Qed.

Lemma length_filter_map {A} (P P' : A -> Prop) `{!forall x, Decision (P x)}
    `{!forall x, Decision (P' x)} (g : A -> A) (l : list A) :
  (forall x, x ∈ l -> P' (g x) <-> P x) ->
  length (filter P' (map g l)) = length (filter P l).
Proof.
  induction l as [|x l IH]; intros Hg; [reflexivity |].
  cbn [map]. rewrite !filter_cons.
  assert (Hx : P' (g x) <-> P x) by (apply Hg; left).
  assert (Hl : length (filter P' (map g l)) = length (filter P l)).
  { apply IH. intros y Hy. apply Hg. now right. }
  destruct (decide (P x)) as [HP | HP].
  - rewrite decide_True by tauto. cbn. now rewrite Hl.
  - rewrite decide_False by tauto. exact Hl.
Qed.

Lemma length_filter_or {A} (P Q : A -> Prop) `{!forall x, Decision (P x)}
    `{!forall x, Decision (Q x)} (l : list A) :
  (forall x, x ∈ l -> P x -> ~ Q x) ->
  length (filter (fun x => P x \/ Q x) l) = (length (filter P l) + length (filter Q l))%nat.
Proof.
  induction l as [|x l IH]; intros Hex; [reflexivity |].
  rewrite !filter_cons.
  assert (Hl : length (filter (fun x => P x \/ Q x) l) =
               (length (filter P l) + length (filter Q l))%nat).
  { apply IH. intros y Hy. apply Hex. now right. }
  assert (Hx : P x -> ~ Q x) by (apply Hex; left).
  destruct (decide (P x)) as [HP | HP], (decide (Q x)) as [HQ | HQ].
  - tauto.
  - rewrite decide_True by tauto. cbn. rewrite Hl. lia.
  - rewrite decide_True by tauto. cbn. rewrite Hl. lia.
  - rewrite decide_False by tauto. exact Hl.
Qed.

Lemma length_filter_not {A} (P : A -> Prop) `{!forall x, Decision (P x)} (l : list A) :
  (length (filter P l) + length (filter (fun x => ~ P x) l) = length l)%nat.
Proof.
  induction l as [|x l IH]; [reflexivity |].
  rewrite !filter_cons. destruct (decide (P x)) as [HP | HP].
  - rewrite decide_False by tauto. cbn. lia.
  - rewrite decide_True by tauto. cbn. lia.
Qed.

Lemma length_filter_sorted (P : generation_task -> Prop) `{!forall x, Decision (P x)}
    (l : list generation_task) :
  length (filter P (merge_sort id_le l)) = length (filter P l).
Proof. apply Permutation_length. now rewrite merge_sort_Permutation. Qed.

Section DownloadStats.

Context `{Runtime} `{Environment} `{Network}.

(** X28. The download statistics of a job before and after a call of
    download_batch_results that returns, on a table with unique ids: the
    total, the completed count and the count of rows with a URL are as they
    were, the downloaded count has grown by the number of downloads the call
    reports, and pending_download has gone down by that number. *)
Theorem X28_download_stats_after_download :
  forall (output_dir : string) (job : Z) (w w' : World) (r : download_results),
    NoDup (map id (generation_tasks (w_db w))) ->
    download_batch_results output_dir job w = Returns r w' ->
    let s := get_download_stats (w_db w) job in
    let s' := get_download_stats (w_db w') job in
    ds_total s' = ds_total s /\ ds_completed s' = ds_completed s /\
    ds_with_url s' = ds_with_url s /\
    ds_downloaded s' = (ds_downloaded s + dl_downloaded r)%nat /\
    ds_pending_download s' = ds_pending_download s - Z.of_nat (dl_downloaded r).
Proof.
  intros output_dir job w w' r Hnd Hrun.
  pose proof (download_batch_results_effect output_dir job w) as Heff. cbv zeta in Heff.
  rewrite Hrun in Heff.
  destruct Heff as [(Ht & -> & ->) | (Hne & job_dir & done & Hsub & Hdb & Hn & Hc & Hp & Hf & _)].
  { cbn. repeat split; lia. }
  set (tasks := get_downloadable_tasks (w_db w) job) in *.
  set (ids := map (fun x : download => id x.1.1) done).
  assert (Hids : ids = map id (map (fun x : download => x.1.1) done)).
  { unfold ids. now rewrite map_map. }
  assert (Hrows_sub : map (fun x : download => x.1.1) done ⊆+ generation_tasks (w_db w)).
  { etrans; [exact Hsub |]. unfold tasks, get_downloadable_tasks.
    rewrite merge_sort_Permutation. apply sublist_submseteq, sublist_filter. }
  assert (Hnd_done : NoDup ids).
  { rewrite Hids. apply submseteq_Permutation in Hrows_sub as [k Hk].
    pose proof (NoDup_map_Permutation id _ _ Hk Hnd) as Hx.
    rewrite map_app in Hx. now apply NoDup_app in Hx as (Hx & _). }
  assert (Htruthy : Forall (fun x : download => Py.truthy x.1.2 = true) done).
  { eapply Forall_impl; [exact Hf |]. intros x (_ & ext & _ & ->). apply task_file_truthy. }
  destruct (mark_downloaded_rows done (w_db w) Hnd_done Htruthy)
    as (g & Hrows & _ & _ & _ & Hother & Hsame).
  rewrite <- Hdb in Hrows. fold ids in Hother.
  assert (Hin_ids : forall t, t ∈ generation_tasks (w_db w) -> id t ∈ ids ->
            exists x, x ∈ done /\ id t = id x.1.1 /\ batch_job_id t = job /\
                      status t = "completed" /\ local_path t = None).
  { intros t Ht Hr. apply list_elem_of_In, in_map_iff in Hr as (x & Hx & Hin).
    apply list_elem_of_In in Hin. exists x. split; [exact Hin |]. split; [congruence |].
    assert (Hxt : x.1.1 ∈ tasks).
    { eapply elem_of_submseteq; [| exact Hsub].
      apply list_elem_of_In, (in_map (fun x : download => x.1.1)), list_elem_of_In, Hin. }
    destruct (downloadable_task _ _ _ Hxt) as (Hrow & Hjob & Hst & _ & Hlp).
    assert (t = x.1.1) as ->; [| auto].
    apply (NoDup_map_inj_on id (generation_tasks (w_db w))); auto. }
  assert (Hcols : forall t, t ∈ generation_tasks (w_db w) ->
            batch_job_id (g t) = batch_job_id t /\ status (g t) = status t /\
            result_url (g t) = result_url t /\
            (id t ∉ ids -> local_path (g t) = local_path t) /\
            (id t ∈ ids -> Py.truthy_opt (local_path (g t)) = true)).
  { intros t Ht. destruct (decide (id t ∈ ids)) as [Hin | Hout].
    - destruct (Hin_ids t Ht Hin) as (x & Hx & Hid & _ & Hst & _).
      destruct (Hsame t x Hx Hid) as (Hst' & Hlp & Hurl & _ & _ & _ & (_ & Hb & _)).
      repeat split; try congruence; try contradiction.
      intros _. rewrite Hlp. rewrite Forall_forall in Htruthy. exact (Htruthy x Hx).
    - rewrite (Hother t Hout). repeat split; auto; contradiction. }
  assert (Hcount : length (filter (fun t => id t ∈ ids) (generation_tasks (w_db w))) =
                   length done).
  { pose proof (filter_out_length (generation_tasks (w_db w)) _ Hnd Hrows_sub) as Hlen.
    rewrite <- Hids in Hlen. rewrite List.length_map in Hlen.
    pose proof (length_filter_not (fun t => id t ∈ ids) (generation_tasks (w_db w))) as Hsum.
    lia. }
  cbv zeta. rewrite !get_download_stats_counts. cbv zeta. cbn [ds_total ds_completed
    ds_with_url ds_downloaded ds_pending_download].
  unfold get_tasks_by_batch. rewrite !length_filter_sorted.
  rewrite (Permutation_length (merge_sort_Permutation _ _)).
  rewrite (Permutation_length (merge_sort_Permutation _ _)).
  rewrite !filter_filter_and. rewrite Hrows.
  assert (Htotal : length (filter (fun t => batch_job_id t = job)
                             (map g (generation_tasks (w_db w)))) =
                   length (filter (fun t => batch_job_id t = job) (generation_tasks (w_db w)))).
  { apply length_filter_map. intros t Ht. destruct (Hcols t Ht) as (-> & _). tauto. }
  assert (Hcompleted :
            length (filter (fun t => batch_job_id t = job /\ status t = "completed")
                      (map g (generation_tasks (w_db w)))) =
            length (filter (fun t => batch_job_id t = job /\ status t = "completed")
                      (generation_tasks (w_db w)))).
  { apply length_filter_map. intros t Ht. destruct (Hcols t Ht) as (-> & -> & _). tauto. }
  assert (Hurl :
            length (filter (fun t => batch_job_id t = job /\
                                     Py.truthy_opt (result_url t) = true)
                      (map g (generation_tasks (w_db w)))) =
            length (filter (fun t => batch_job_id t = job /\
                                     Py.truthy_opt (result_url t) = true)
                      (generation_tasks (w_db w)))).
  { apply length_filter_map. intros t Ht. destruct (Hcols t Ht) as (-> & _ & -> & _). tauto. }
  assert (Hlocal :
            length (filter (fun t => batch_job_id t = job /\
                                     Py.truthy_opt (local_path t) = true)
                      (map g (generation_tasks (w_db w)))) =
            (length (filter (fun t => batch_job_id t = job /\
                                      Py.truthy_opt (local_path t) = true)
                       (generation_tasks (w_db w))) + length done)%nat).
  { rewrite <- Hcount, <- length_filter_or.
    - apply length_filter_map. intros t Ht.
      destruct (Hcols t Ht) as (Hb & _ & _ & Hout & Hin). rewrite Hb.
      destruct (decide (id t ∈ ids)) as [Hi | Hi].
      + destruct (Hin_ids t Ht Hi) as (_ & _ & _ & Hj & _). specialize (Hin Hi). tauto.
      + rewrite (Hout Hi). tauto.
    - intros t Ht [_ Hlp] Hi.
      destruct (Hin_ids t Ht Hi) as (_ & _ & _ & _ & _ & Hnone).
      rewrite Hnone in Hlp. discriminate. }
  rewrite Htotal, Hcompleted, Hurl, Hlocal, Hn.
  repeat split; lia.
Qed.

End DownloadStats.

Lemma X28_download_stats_after_download_witness :
  exists r w',
    @download_batch_results python_runtime steady_env sample_network "outputs" 1 results_world
      = Returns r w' /\
    ds_pending_download (get_download_stats results_db 1) = 3 /\
    ds_pending_download (get_download_stats (w_db w') 1) = 1.
Proof.
  eexists _, _. split; [vm_compute; reflexivity |]. split; [reflexivity |].
  eapply eq_trans.
  - eapply (@X28_download_stats_after_download python_runtime steady_env sample_network
              "outputs" 1 results_world _ _ results_db_ids).
    vm_compute. reflexivity.
  - reflexivity.
Defined.

(** ** What a run records *)

Section Records.

Context `{Runtime} `{Environment}.

Lemma get_task_update_row db now i st a b c d e t :
  get_task db i = Some t ->
  exists t',
    get_task (update_task_status db now i st a b c d e) i = Some t' /\
    same_fixed_columns t t' /\ status t' = st /\
    api_request_id t' = written a (api_request_id t) /\
    result_url t' = written b (result_url t) /\
    local_path t' = written c (local_path t) /\
    error_message t' = written d (error_message t) /\
    api_response t' = (if truthy_dict e then json_dumps <$> e else api_response t).
Proof.
  intros Ht. unfold get_task, update_task_status, sql_update_generation_tasks in *.
  cbn [generation_tasks with_generation_tasks].
  rewrite find_map_preserving by (intros x; apply updated_row_id).
  rewrite Ht. apply find_some in Ht as [_ Hid]. cbn [option_map]. rewrite Hid.
  eexists. split; [reflexivity |].
  pose proof (updated_row_columns now st a b c d e t) as Hx. cbv zeta in Hx.
  destruct Hx as (Hfix & Hst & _ & Ha & Hb & Hc & Hd & He). auto 10.
Qed.

Lemma error_text_truthy r : Py.truthy_opt (Some (error_text r)) = true.
Proof.
  unfold error_text, Py.or_default. cbn.
  destruct (error r) as [s|]; [| reflexivity].
  destruct (Py.truthy s) eqn:Hs; [exact Hs | reflexivity].
Qed.

Lemma dispatch_recorded db now1 now2 now3 job i r t :
  get_task db i = Some t ->
  let db' :=
    increment_batch_job_count
      (if task_ok r
       then update_task_status
              (update_task_status db now1 i "processing" None None None None None)
              now2 i "completed" (task_id r) (stored_url r) None None (raw_response r)
       else update_task_status
              (update_task_status db now1 i "processing" None None None None None)
              now2 i "failed" (task_id r) None None (Some (error_text r)) (raw_response r))
      now3 job (task_ok r) in
  (exists t', get_task db' i = Some t' /\ recorded r t t') /\
  forall j, j <> i -> get_task db' j = get_task db j.
Proof.
  intros Ht db'. split.
  - destruct (get_task_update_row db now1 i "processing" None None None None None t Ht)
      as (t1 & Ht1 & Hf1 & _ & Ha1 & Hb1 & Hc1 & Hd1 & He1).
    unfold written in Ha1, Hb1, Hc1, Hd1. cbn in Ha1, Hb1, Hc1, Hd1, He1.
    unfold db', recorded. destruct (task_ok r).
    + destruct (get_task_update_row _ now2 i "completed" (task_id r) (stored_url r) None None
                  (raw_response r) t1 Ht1) as (t2 & Ht2 & Hf2 & Hs2 & Ha2 & Hb2 & Hc2 & Hd2 & He2).
      exists t2. split; [exact Ht2 |].
      unfold written in Hc2, Hd2. cbn in Hc2, Hd2.
      split; [eapply same_fixed_columns_trans; eauto |].
      rewrite Hc2, Hc1, Ha2, Ha1, He2, He1, Hb2, Hb1, Hd2, Hd1. auto 10.
    + destruct (get_task_update_row _ now2 i "failed" (task_id r) None None
                  (Some (error_text r)) (raw_response r) t1 Ht1)
        as (t2 & Ht2 & Hf2 & Hs2 & Ha2 & Hb2 & Hc2 & Hd2 & He2).
      exists t2. split; [exact Ht2 |].
      unfold written in Hb2, Hc2, Hd2. rewrite error_text_truthy in Hd2. cbn in Hb2, Hc2.
      split; [eapply same_fixed_columns_trans; eauto |].
      rewrite Hc2, Hc1, Ha2, Ha1, He2, He1, Hb2, Hb1, Hd2. auto 10.
  - intros j Hj. unfold db'.
    change (get_task (increment_batch_job_count ?d now3 job (task_ok r)) j)
      with (get_task d j).
    destruct (task_ok r); now rewrite !get_task_update_other.
Qed.

Lemma answer_in_task_events job config task call r moved :
  Ev_generate_and_wait task call (ApiReturns r) ∈ task_events job config task call r moved.
Proof. unfold task_events. cbn. do 2 right. left. Qed.

Lemma process_task_recorded job config task results w :
  wp (process_task job config task results) w
     (fun res' w' =>
        exists r moved,
          w_log w' = w_log w ++ task_events job config task (call_of config task) r moved /\
          (completed res' + failed res' = S (completed results + failed results))%nat /\
          (forall j, j <> id task -> get_task (w_db w') j = get_task (w_db w) j) /\
          (forall t0, get_task (w_db w) (id task) = Some t0 ->
             exists t', get_task (w_db w') (id task) = Some t' /\ recorded r t0 t')).
Proof.
  unfold wp, process_task.
  apply run_spec_bind, emit_spec. intros w1 Hd1 Hl1 _ _.
  apply run_spec_bind, db_update_task_status_spec. intros w2 now2 Hd2 Hl2.
  apply run_spec_bind. unfold api_generate_and_wait.
  apply run_spec_bind, observe_spec. intros w3 Hd3 Hl3 _ _.
  change (mkCall _ _ _ _ _) with (call_of config task).
  set (call := call_of config task).
  destruct (generate_and_wait (w_tick w2) call) as [r|e] eqn:Hanswer;
    apply run_spec_bind, emit_spec; intros w4 Hd4 Hl4 _ _; [| exact I].
  apply run_spec_ret. fold (task_ok r).
  assert (Hlog4 : w_log w4 = w_log w ++
            [ Ev_notify (Some "processing") (Some (id task)) None;
              Ev_update_task_status (id task) "processing";
              Ev_generate_and_wait task call (ApiReturns r) ]).
  { rewrite Hl4, Hl3, Hl2, Hl1, <- !app_assoc. reflexivity. }
  assert (Hdb4 : w_db w4 =
            update_task_status (w_db w) now2 (id task) "processing" None None None None None).
  { rewrite Hd4, Hd3, Hd2, Hd1. reflexivity. }
  clearbody call. clear Hl4 Hl3 Hl2 Hl1 Hd4 Hd3 Hd2 Hd1 Hanswer w1 w2 w3.
  assert (Hrows : forall now5 now6 w6,
            w_db w6 =
              increment_batch_job_count
                (if task_ok r
                 then update_task_status (w_db w4) now5 (id task) "completed" (task_id r)
                        (stored_url r) None None (raw_response r)
                 else update_task_status (w_db w4) now5 (id task) "failed" (task_id r)
                        None None (Some (error_text r)) (raw_response r))
                now6 job (task_ok r) ->
            (forall j, j <> id task -> get_task (w_db w6) j = get_task (w_db w) j) /\
            (forall t0, get_task (w_db w) (id task) = Some t0 ->
               exists t', get_task (w_db w6) (id task) = Some t' /\ recorded r t0 t')).
  { intros now5 now6 w6 Hd6. rewrite Hd6, Hdb4. split.
    - intros j Hj.
      change (get_task (increment_batch_job_count ?d now6 job (task_ok r)) j)
        with (get_task d j).
      destruct (task_ok r); now rewrite !get_task_update_other.
    - intros t0 Ht0.
      exact (proj1 (dispatch_recorded (w_db w) now2 now5 now6 job (id task) r t0 Ht0)). }
  destruct (task_ok r) eqn:Hok.
  - unfold on_success. fold (stored_url r).
    apply run_spec_bind, db_update_task_status_spec. intros w5 now5 Hd5 Hl5.
    apply run_spec_bind, db_increment_batch_job_count_spec. intros w6 now6 Hd6 Hl6.
    apply run_spec_bind, emit_spec. intros w7 Hd7 Hl7 _ _.
    apply run_spec_ret. exists r, []. unfold task_events, outcome_events.
    rewrite Hok. split; [| split].
    { rewrite Hl7, Hl6, Hl5, Hlog4, <- !app_assoc. reflexivity. }
    { cbn. lia. }
    rewrite Hd7. apply (Hrows now5 now6). rewrite Hd6, Hd5. reflexivity.
  - unfold on_failure. fold (error_text r).
    apply run_spec_bind, db_update_task_status_spec. intros w5 now5 Hd5 Hl5.
    apply run_spec_bind, db_increment_batch_job_count_spec. intros w6 now6 Hd6 Hl6.
    assert (Hlog6 : w_log w6 = w_log w ++
              [ Ev_notify (Some "processing") (Some (id task)) None;
                Ev_update_task_status (id task) "processing";
                Ev_generate_and_wait task call (ApiReturns r);
                Ev_update_task_status (id task) "failed";
                Ev_increment_batch_job_count job false ]).
    { rewrite Hl6, Hl5, Hlog4, <- !app_assoc. reflexivity. }
    assert (Hrows6 := Hrows now5 now6 w6 ltac:(rewrite Hd6, Hd5; reflexivity)).
    clear Hl6 Hl5 Hd6 Hd5 Hlog4 Hdb4 Hrows w4 w5.
    apply run_spec_bind.
    assert (Hfinish : forall (res1 : Results) moved w7,
              w_db w7 = w_db w6 ->
              w_log w7 = w_log w6 ++
                (if move_due config task r
                 then Ev_move_error_image (outfit_image_path task) (error_folder config) :: moved
                 else []) ->
              completed res1 = completed results -> failed res1 = S (failed results) ->
              run_spec
                (emit (Ev_notify (Some "failed") (Some (id task)) (Some (error_text r)));;
                 mret res1) w7
                (fun res' w' =>
                   exists r moved,
                     w_log w' = w_log w ++ task_events job config task call r moved /\
                     (completed res' + failed res' =
                      S (completed results + failed results))%nat /\
                     (forall j, j <> id task -> get_task (w_db w') j = get_task (w_db w) j) /\
                     (forall t0, get_task (w_db w) (id task) = Some t0 ->
                        exists t', get_task (w_db w') (id task) = Some t' /\ recorded r t0 t'))
                (fun _ _ => True) True).
    { intros res1 moved w7 Hd7 Hl7 Hc Hf.
      apply run_spec_bind, emit_spec. intros w8 Hd8 Hl8 _ _. apply run_spec_ret.
      exists r, moved. unfold task_events, outcome_events. rewrite Hok.
      split; [| split].
      { rewrite Hl8, Hl7, Hlog6, <- !app_assoc. reflexivity. }
      { rewrite Hc, Hf. lia. }
      rewrite Hd8, Hd7. exact Hrows6. }
    unfold move_due in Hfinish.
    destruct (Py.truthy (error_folder config) && Py.truthy (outfit_image_path task)) eqn:Hcfg;
      cbn [andb] in Hfinish.
    + destruct (_is_content_policy_error (error_text r)) eqn:Hpolicy.
      * apply run_spec_bind.
        eapply run_spec_mono;
          [apply returns_wp, move_error_image_returns | | auto | auto].
        intros moved_ok w7 (Hd7 & moved & Hl7 & Hmoved).
        destruct moved_ok; apply run_spec_ret;
          apply (Hfinish _ moved w7); auto.
      * apply run_spec_ret. apply (Hfinish _ [] w6); auto using app_nil_r.
    + apply run_spec_ret. apply (Hfinish _ [] w6); auto using app_nil_r.
Qed.

Lemma run_loop_recorded polls job config n :
  forall tasks, NoDup (map id tasks) ->
  forall i results w,
    wp (run_loop polls job config n i tasks results) w
       (fun res' w' =>
          exists evs (k : nat),
            w_log w' = w_log w ++ evs /\ (k <= length tasks)%nat /\
            (completed res' + failed res' = completed results + failed results + k)%nat /\
            (forall j, j ∉ map id tasks -> get_task (w_db w') j = get_task (w_db w) j) /\
            forall t, t ∈ take k tasks ->
              exists r,
                Ev_generate_and_wait t (call_of config t) (ApiReturns r) ∈ evs /\
                forall t0, get_task (w_db w) (id t) = Some t0 ->
                  exists t', get_task (w_db w') (id t) = Some t' /\ recorded r t0 t').
Proof.
  induction tasks as [|task rest IH]; intros Hnd i results w; cbn [run_loop].
  - apply run_spec_ret. exists [], 0%nat. rewrite app_nil_r.
    split; [reflexivity |]. split; [reflexivity |]. split; [lia |].
    split; [reflexivity |]. intros t Ht. inversion Ht.
  - cbn [map] in Hnd. apply NoDup_cons in Hnd as [Hfresh Hnd].
    assert (Hstopped : forall w1, w_db w1 = w_db w -> (exists evs, w_log w1 = w_log w ++ evs) ->
              exists evs (k : nat),
                w_log w1 = w_log w ++ evs /\ (k <= length (task :: rest))%nat /\
                (completed (set_stopped results) + failed (set_stopped results) =
                 completed results + failed results + k)%nat /\
                (forall j, j ∉ map id (task :: rest) ->
                   get_task (w_db w1) j = get_task (w_db w) j) /\
                forall t, t ∈ take k (task :: rest) ->
                  exists r,
                    Ev_generate_and_wait t (call_of config t) (ApiReturns r) ∈ evs /\
                    forall t0, get_task (w_db w) (id t) = Some t0 ->
                      exists t', get_task (w_db w1) (id t) = Some t' /\ recorded r t0 t').
    { intros w1 Hd1 [evs Hl1]. exists evs, 0%nat.
      split; [exact Hl1 |]. split; [cbn; lia |]. split; [cbn; lia |].
      split; [intros j _; now rewrite Hd1 |]. intros t Ht. inversion Ht. }
    unfold wp. apply run_spec_bind, is_set_stop_spec. intros w1 b1 Hd1 Hl1.
    destruct b1.
    { apply run_spec_ret. apply Hstopped; [exact Hd1 | eauto]. }
    apply run_spec_bind.
    eapply run_spec_mono; [apply (pause_loop_waited polls w1) | | auto | auto].
    intros b2 w2 (Hd2 & evs_p & Hl2 & Hc2 & Hs2).
    destruct b2.
    { apply run_spec_ret. apply Hstopped; [congruence |].
      exists ([Ev_stop_check false] ++ evs_p). rewrite Hl2, Hl1, <- app_assoc. reflexivity. }
    apply run_spec_bind.
    eapply run_spec_mono; [apply (process_task_recorded job config task results w2) | | auto | auto].
    intros res3 w3 (r & moved & Hl3 & Hcount3 & Hframe3 & Hrow3).
    rewrite Hd2, Hd1 in Hframe3, Hrow3.
    set (tev := task_events job config task (call_of config task) r moved) in *.
    apply run_spec_bind.
    assert (Hrest : forall sl w4,
              w_db w4 = w_db w3 -> w_log w4 = w_log w3 ++ sl ->
              run_spec (run_loop polls job config n (S i) rest res3) w4
                (fun res' w' =>
                   exists evs (k : nat),
                     w_log w' = w_log w ++ evs /\ (k <= length (task :: rest))%nat /\
                     (completed res' + failed res' =
                      completed results + failed results + k)%nat /\
                     (forall j, j ∉ map id (task :: rest) ->
                        get_task (w_db w') j = get_task (w_db w) j) /\
                     forall t, t ∈ take k (task :: rest) ->
                       exists r,
                         Ev_generate_and_wait t (call_of config t) (ApiReturns r) ∈ evs /\
                         forall t0, get_task (w_db w) (id t) = Some t0 ->
                           exists t', get_task (w_db w') (id t) = Some t' /\ recorded r t0 t')
                (fun _ _ => True) True).
    { intros sl w4 Hd4 Hl4.
      eapply run_spec_mono; [apply (IH Hnd (S i) res3 w4) | | auto | auto].
      intros res' w' (evs_r & k & Hl' & Hk & Hcount' & Hframe' & Hrows').
      rewrite Hd4 in Hframe', Hrows'.
      exists (([Ev_stop_check false] ++ evs_p) ++ tev ++ sl ++ evs_r), (S k).
      split; [| split; [cbn; lia | split; [lia | split]]].
      - rewrite Hl', Hl4, Hl3, Hl2, Hl1, <- !app_assoc. reflexivity.
      - intros j Hj. cbn [map] in Hj. apply not_elem_of_cons in Hj as [Hj1 Hj2].
        rewrite (Hframe' j Hj2). apply Hframe3, Hj1.
      - intros t Ht. cbn [take] in Ht. apply elem_of_cons in Ht as [-> | Ht].
        + exists r. split.
          * apply elem_of_app. right. apply elem_of_app. left.
            apply answer_in_task_events.
          * intros t0 Ht0. destruct (Hrow3 t0 Ht0) as (t' & Ht' & Hrec).
            exists t'. split; [| exact Hrec]. now rewrite (Hframe' _ Hfresh).
        + destruct (Hrows' t Ht) as (r' & Hev & Hrow).
          assert (Hne : id t <> id task).
          { intros Heq. apply Hfresh. rewrite <- Heq.
            apply list_elem_of_In, in_map, list_elem_of_In.
            eapply elem_of_submseteq; [exact Ht |].
            apply sublist_submseteq, sublist_take. }
          exists r'. split.
          * apply elem_of_app. right. apply elem_of_app. right.
            apply elem_of_app. right. exact Hev.
          * intros t0 Ht0. apply Hrow. now rewrite (Hframe3 _ Hne). }
    unfold when. destruct (i <? n - 1)%nat.
    + apply emit_spec. intros w4 Hd4 Hl4 _ _. apply (Hrest [Ev_sleep] w4); assumption.
    + apply run_spec_ret. apply (Hrest [] w3); [reflexivity | now rewrite app_nil_r].
Qed.

Lemma run_batch_recorded polls job config w :
  NoDup (map id (generation_tasks (w_db w))) ->
  wp (run_batch polls job config) w
     (fun res w' =>
        exists evs,
          w_log w' = w_log w ++ evs /\
          forall t, t ∈ take (completed res + failed res) (get_pending_tasks (w_db w) job) ->
            exists r t',
              Ev_generate_and_wait t (call_of config t) (ApiReturns r) ∈ evs /\
              get_task (w_db w') (id t) = Some t' /\ recorded r t t').
Proof.
  intros Hnd. unfold wp, run_batch.
  apply run_spec_bind. unfold run_spec at 1. cbn [set_current_job_id].
  set (w0 := mkWorld _ _ _ _ _ _).
  apply run_spec_bind, db_update_batch_job_status_spec. intros w1 now1 Hd1 Hl1.
  change (w_db w0) with (w_db w) in Hd1. change (w_log w0) with (w_log w) in Hl1.
  clearbody w0. clear w0.
  apply run_spec_try_finally, run_spec_try_except.
  eapply run_spec_mono with (E := fun _ _ => True) (H := True);
    [| intros a w2 Hq; exact Hq | | auto].
  2:{ intros e w2 _.
      unfold run_spec, mbind, M_bind, db_update_batch_job_status, emit, observe, get_db,
        put_db, raise, set_current_job_id. cbn. exact I. }
  apply run_spec_bind, db_get_pending_tasks_spec.
  assert (Htasks : get_pending_tasks (w_db w1) job = get_pending_tasks (w_db w) job).
  { rewrite Hd1. reflexivity. }
  rewrite Htasks. set (tasks := get_pending_tasks (w_db w) job).
  apply run_spec_bind.
  eapply run_spec_mono;
    [apply (run_loop_recorded polls job config (length tasks) tasks
              (pending_tasks_ids_NoDup _ job Hnd) 0
              (mkResults (length tasks) 0 0 false None) w1) | | auto | auto].
  intros res w2 (evs & k & Hl2 & Hk & Hcount & _ & Hrows).
  cbn [completed failed] in Hcount.
  apply run_spec_bind, db_update_batch_job_status_spec. intros w3 now3 Hd3 Hl3.
  apply run_spec_bind, emit_spec. intros w4 Hd4 Hl4 _ _.
  apply run_spec_ret. unfold run_spec. cbn [set_current_job_id w_log w_db].
  eexists. split.
  { rewrite Hl4, Hl3, Hl2, Hl1, <- !app_assoc. reflexivity. }
  intros t Ht. replace (completed res + failed res)%nat with k in Ht by lia.
  destruct (Hrows t Ht) as (r & Hev & Hrow).
  assert (Hin : t ∈ tasks).
  { eapply elem_of_submseteq; [exact Ht |]. apply sublist_submseteq, sublist_take. }
  assert (Ht0 : get_task (w_db w1) (id t) = Some t).
  { rewrite Hd1.
    change (get_task (update_batch_job_status (w_db w) now1 job "running") (id t))
      with (get_task (w_db w) (id t)).
    apply get_task_of_row; [exact Hnd | exact (pending_tasks_in_table _ _ _ Hin)]. }
  destruct (Hrow t Ht0) as (t' & Ht' & Hrec).
  exists r, t'. split; [| split; [| exact Hrec]].
  - apply elem_of_cons. right. apply elem_of_app. left. exact Hev.
  - rewrite Hd4, Hd3. exact Ht'.
Qed.

(** X29. A run records in its row the answer each dispatched task got, on a
    table with unique ids: when run_batch returns, each of the first
    completed + failed pending tasks (the tasks it dispatched) was called for
    with its prompt and reference images, and its row holds the answer to
    that call: it is completed with the result URL (image_url, or the first
    of image_urls) for an answer that reports success with the status
    COMPLETED, and failed with the error message (or "Unknown error")
    otherwise; the request id and the raw response are stored when they are
    not empty, and the local path, the images, the prompt and the creation
    time are as they were. *)
Theorem X29_run_batch_records_answers :
  forall (polls : nat) (job : Z) (config : BatchConfig) (w : World)
         (results : Results) (w' : World),
    NoDup (map id (generation_tasks (w_db w))) ->
    run_batch polls job config w = Returns results w' ->
    exists evs,
      w_log w' = w_log w ++ evs /\
      forall t,
        t ∈ take (completed results + failed results) (get_pending_tasks (w_db w) job) ->
        exists r t',
          Ev_generate_and_wait t (call_of config t) (ApiReturns r) ∈ evs /\
          get_task (w_db w') (id t) = Some t' /\ recorded r t t'.
Proof.
  intros polls job config w results w' Hnd Hrun.
  pose proof (run_batch_recorded polls job config w Hnd) as Hwp.
  unfold wp, run_spec in Hwp. rewrite Hrun in Hwp. exact Hwp.
Qed.

End Records.

Lemma X29_run_batch_records_answers_witness :
  exists results w',
    @run_batch python_runtime (scripted_env 99) 3 1 scripted_config scripted_world
      = Returns results w' /\
    status <$> get_task (w_db w') 1 = Some "failed" /\
    get_task (w_db w') 1 ≫= error_message = Some "NSFW content detected" /\
    get_task (w_db w') 4 ≫= result_url = Some "https://cdn/out.png" /\
    exists evs,
      w_log w' = w_log scripted_world ++ evs /\
      forall t,
        t ∈ take (completed results + failed results)
                 (get_pending_tasks (w_db scripted_world) 1) ->
        exists r t',
          Ev_generate_and_wait t (call_of scripted_config t) (ApiReturns r) ∈ evs /\
          get_task (w_db w') (id t) = Some t' /\ @recorded python_runtime r t t'.
Proof.
  eexists _, _. split; [vm_compute; reflexivity |].
  split; [reflexivity |]. split; [reflexivity |]. split; [reflexivity |].
  apply (@X29_run_batch_records_answers python_runtime (scripted_env 99) 3 1
           scripted_config scripted_world _ _ scripted_world_ids).
  vm_compute. reflexivity.
Defined.

(** ** A run that raises *)

Lemma run_spec_conj {A} (m : M A) w (Q1 Q2 : A -> World -> Prop)
    (E1 E2 : string -> World -> Prop) (H1 H2 : Prop) :
  run_spec m w Q1 E1 H1 -> run_spec m w Q2 E2 H2 ->
  run_spec m w (fun a w' => Q1 a w' /\ Q2 a w') (fun e w' => E1 e w' /\ E2 e w') (H1 /\ H2).
Proof. unfold run_spec. destruct (m w); auto. Qed.

Lemma job_status_row job now st db j :
  get_batch_job db job = Some j ->
  exists j', get_batch_job (update_batch_job_status db now job st) job = Some j' /\
             job_status j' = st /\ completed_count j' = completed_count j /\
             failed_count j' = failed_count j.
Proof.
  intros Hj. unfold get_batch_job, update_batch_job_status in *. cbn [batch_jobs with_batch_jobs].
  rewrite find_map_preserving, Hj.
  - apply find_some in Hj as [_ Hid]. cbn [option_map]. rewrite Hid.
    eexists; repeat split; reflexivity.
  - intros x. destruct (Z.eqb (job_id x) job) eqn:E; [cbn |]; exact E.
Qed.

Section Raising.

Context `{Runtime} `{Environment}.

(** process_task raises only what the remote call raised, right after the
    call. *)
Lemma process_task_raises job config task results w :
  run_spec (process_task job config task results) w
    (fun _ _ => True)
    (fun e w' =>
       w_log w' = w_log w ++ raising_events task (call_of config task) e /\
       exists now,
         w_db w' = update_task_status (w_db w) now (id task) "processing"
                                     None None None None None)
    True.
Proof.
  unfold process_task.
  apply run_spec_bind, emit_spec. intros w1 Hd1 Hl1 _ _.
  apply run_spec_bind, db_update_task_status_spec. intros w2 now2 Hd2 Hl2.
  apply run_spec_bind. unfold api_generate_and_wait.
  apply run_spec_bind, observe_spec. intros w3 Hd3 Hl3 _ _.
  change (mkCall _ _ _ _ _) with (call_of config task).
  destruct (generate_and_wait (w_tick w2) (call_of config task)) as [r|e] eqn:Hanswer;
    apply run_spec_bind, emit_spec; intros w4 Hd4 Hl4 _ _.
  - apply run_spec_ret.
    assert (Hid : id task ∈ [id task]) by (apply list_elem_of_singleton; reflexivity).
    destruct (success r && is_completed (result_status r)).
    + eapply run_spec_mono;
        [apply (steps_on_success [id task] job task r results Hid w4)
        | auto | intros ? ? [] | auto].
    + eapply run_spec_mono;
        [apply (steps_on_failure [id task] job config task r results Hid w4)
        | auto | intros ? ? [] | auto].
  - unfold run_spec. cbn [raise]. split.
    + rewrite Hl4, Hl3, Hl2, Hl1, <- !app_assoc. reflexivity.
    + exists now2. rewrite Hd4, Hd3, Hd2, Hd1. reflexivity.
Qed.

Lemma run_loop_raised polls job config n :
  forall tasks i results w,
    run_spec (run_loop polls job config n i tasks results) w
      (fun _ _ => True) (fun e w' => loop_raised job config tasks e w w') True.
Proof.
  induction tasks as [|task rest IH]; intros i results w; cbn [run_loop].
  - apply run_spec_ret. exact I.
  - apply run_spec_bind, is_set_stop_spec. intros w1 b1 Hd1 Hl1.
    destruct b1; [apply run_spec_ret; exact I |].
    apply run_spec_bind.
    eapply run_spec_mono;
      [apply (run_spec_conj _ _ _ _ _ _ _ _ (pause_loop_waited polls w1)
                (steps_pause_loop [] job polls w1))
      | | intros ? ? [_ []] | auto].
    intros b2 w2 [(Hd2 & evs_p & Hl2 & Hc2 & Hs2) _].
    destruct b2; [apply run_spec_ret; exact I |].
    set (ctrl := [Ev_stop_check false] ++ evs_p).
    assert (Hctrl : Forall is_control ctrl).
    { apply Forall_app_2; [repeat constructor | exact Hc2]. }
    assert (Hnctrl : no_stop_seen ctrl).
    { apply no_stop_seen_app; [| exact Hs2]. constructor; [discriminate | constructor]. }
    assert (Hlog2 : w_log w2 = w_log w ++ ctrl).
    { rewrite Hl2, Hl1, <- app_assoc. reflexivity. }
    assert (Hdb2 : w_db w2 = w_db w) by congruence.
    apply run_spec_bind.
    eapply run_spec_mono;
      [apply (run_spec_conj _ _ _ _ _ _ _ _
                (process_task_processed job config task results w2)
                (process_task_raises job config task results w2))
      | | | auto].
    + intros res3 w3
        [(call & r & moved & Hl3 & Hmoved & Ht3 & Hst3 & Hco3 & Hfa3 & Hadv3 & Hset3) _].
      destruct (task_events_segment job config task call r moved Hmoved)
        as (Hseg & Hit & Hif & Hns).
      set (tev := task_events job config task call r moved) in *.
      rewrite Hdb2 in Hadv3, Hset3.
      apply run_spec_bind.
      assert (Hrest : forall sl w4,
                Forall is_control sl -> no_stop_seen sl ->
                w_db w4 = w_db w3 -> w_log w4 = w_log w3 ++ sl ->
                run_spec (run_loop polls job config n (S i) rest res3) w4
                  (fun _ _ => True)
                  (fun e w' => loop_raised job config (task :: rest) e w w') True).
      { intros sl w4 Hcsl Hnsl Hd4 Hl4.
        eapply run_spec_mono; [apply (IH (S i) res3 w4) | auto | | auto].
        intros e w' (evs_r & k & t & Hl' & Hk & Hseg' & Hns' & Hadv' & Hrow').
        rewrite Hd4 in Hadv', Hrow'.
        exists (ctrl ++ tev ++ sl ++ evs_r), (S k), t.
        rewrite !increments_app, !(increments_control _ _ _ Hctrl),
                !(increments_control _ _ _ Hcsl), Hit, Hif.
        split; [| split; [exact Hk | split; [| split; [| split]]]].
        - rewrite Hl', Hl4, Hl3, Hlog2, <- !app_assoc. reflexivity.
        - change (take (S k) (task :: rest)) with ([] ++ [task] ++ [] ++ take k rest).
          apply run_segment_app; [apply run_segment_control, Hctrl |].
          apply run_segment_app; [exact Hseg |].
          apply run_segment_app; [apply run_segment_control, Hcsl | exact Hseg'].
        - apply no_stop_seen_app; [exact Hnctrl |].
          apply no_stop_seen_app; [exact Hns |].
          apply no_stop_seen_app; [exact Hnsl | exact Hns'].
        - eapply counts_advance_eq;
            [| | exact (counts_advance_trans _ _ _ _ _ _ _ _ Hadv3 Hadv')];
            destruct (task_ok r); lia.
        - intros t0 Ht0. destruct Hset3 as [Hother Htouched].
          destruct (decide (id t = id task)) as [Heq | Hne].
          + destruct (Htouched (id t)) with (t := t0) as (t1 & Ht1 & _);
              [rewrite Heq; apply list_elem_of_singleton; reflexivity | exact Ht0 |].
            exact (Hrow' t1 Ht1).
          + apply (Hrow' t0). rewrite Hother; [exact Ht0 |].
            intros Hin. apply list_elem_of_singleton in Hin. contradiction. }
      unfold when. destruct (i <? n - 1)%nat.
      * apply emit_spec. intros w4 Hd4 Hl4 _ _.
        apply (Hrest [Ev_sleep] w4); [repeat constructor | | exact Hd4 | exact Hl4].
        constructor; [discriminate | constructor].
      * apply run_spec_ret.
        apply (Hrest [] w3); [constructor | constructor | reflexivity | now rewrite app_nil_r].
    + intros e w3 [_ (Hl3 & now3 & Hd3)].
      exists ctrl, 0%nat, task.
      rewrite !(increments_control _ _ _ Hctrl).
      split; [| split; [reflexivity | split; [| split; [exact Hnctrl | split]]]].
      * rewrite Hl3, Hlog2, <- app_assoc. reflexivity.
      * apply run_segment_control, Hctrl.
      * rewrite Hd3, Hdb2. intros j Hj. exists j.
        change (get_batch_job (update_task_status (w_db w) now3 (id task) "processing"
                                 None None None None None) job)
          with (get_batch_job (w_db w) job).
        split; [exact Hj | cbn; lia].
      * intros t0 Ht0. rewrite Hd3, Hdb2.
        exact (get_task_update_same _ now3 (id task) "processing" None None None None None
                 t0 Ht0).
Qed.

Lemma run_batch_raised polls job config w :
  run_spec (run_batch polls job config) w
    (fun _ _ => True) (fun e w' => batch_raised job config e w w') True.
Proof.
  unfold run_batch.
  apply run_spec_bind. unfold run_spec at 1. cbn [set_current_job_id].
  set (w0 := mkWorld _ _ _ _ _ _).
  apply run_spec_bind, db_update_batch_job_status_spec. intros w1 now1 Hd1 Hl1.
  change (w_db w0) with (w_db w) in Hd1. change (w_log w0) with (w_log w) in Hl1.
  clearbody w0. clear w0.
  apply run_spec_try_finally, run_spec_try_except.
  apply run_spec_bind, db_get_pending_tasks_spec.
  assert (Htasks : get_pending_tasks (w_db w1) job = get_pending_tasks (w_db w) job).
  { rewrite Hd1. reflexivity. }
  rewrite Htasks. set (tasks := get_pending_tasks (w_db w) job).
  apply run_spec_bind.
  eapply run_spec_mono;
    [apply (run_loop_raised polls job config (length tasks) tasks 0%nat
              (mkResults (length tasks) 0 0 false None) w1) | | | auto].
  - intros res w2 _.
    apply run_spec_bind, db_update_batch_job_status_spec. intros w3 now3 Hd3 Hl3.
    apply run_spec_bind, emit_spec. intros w4 Hd4 Hl4 _ _.
    apply run_spec_ret. unfold run_spec. cbn [set_current_job_id]. exact I.
  - intros e w2 (evs & k & t & Hl2 & Hk & Hseg & Hns & Hadv & Hrow).
    apply run_spec_bind, db_update_batch_job_status_spec. intros w3 now3 Hd3 Hl3.
    apply run_spec_bind, emit_spec. intros w4 Hd4 Hl4 _ _.
    unfold run_spec at 1. cbn [raise]. unfold run_spec. cbn [set_current_job_id].
    unfold batch_raised. cbn [w_db w_log w_current_job_id]. fold tasks.
    exists evs, k, t.
    split; [| split; [exact Hk | split; [exact Hseg | split; [exact Hns | split; [| split]]]]].
    + rewrite Hl4, Hl3, Hl2, Hl1, <- !app_assoc. reflexivity.
    + intros j Hj. rewrite Hd4, Hd3.
      destruct (job_status_row job now1 "running" (w_db w) j Hj) as (j1 & Hj1 & _ & Hc1 & Hf1).
      rewrite <- Hd1 in Hj1.
      destruct (Hadv j1 Hj1) as (j2 & Hj2 & Hc2 & Hf2).
      destruct (job_status_row job now3 "error" (w_db w2) j2 Hj2) as (j3 & Hj3 & Hs3 & Hc3 & Hf3).
      exists j3. split; [exact Hj3 |]. split; [exact Hs3 |]. split; congruence.
    + intros t0 Ht0. rewrite Hd4, Hd3.
      change (get_task (update_batch_job_status (w_db w2) now3 job "error") (id t))
        with (get_task (w_db w2) (id t)).
      apply (Hrow t0). rewrite Hd1. exact Ht0.
    + reflexivity.
Qed.

End Raising.

Section RaisingRun.

Context `{Runtime} `{Environment}.

(** X19. run_batch raises only what the remote call raised, and the task
    that call was made for is counted in neither counter.  When the run
    raises [e], its log is the "running" write, the events of the [k] tasks
    dispatched before, then the dispatch of the next pending task, whose call
    raised [e], the "error" write and the word to the listener; the two
    counters of the job have advanced by the increments made for those [k]
    tasks, [k] in all, and by nothing else; the job's status is "error"; the
    task whose call raised is left at "processing"; and the processor's
    current job is cleared. *)
Theorem X19_run_batch_raise_is_uncounted :
  forall (polls : nat) (job : Z) (config : BatchConfig) (w : World) (e : string)
         (w' : World),
    run_batch polls job config w = Raises e w' ->
    w_current_job_id w' = None /\
    exists evs (k : nat) t,
      w_log w' = w_log w ++
                 [Ev_update_batch_job_status job "running"] ++ evs ++
                 [Ev_notify (Some "processing") (Some (id t)) None;
                  Ev_update_task_status (id t) "processing";
                  Ev_generate_and_wait t (call_of config t) (ApiRaises e);
                  Ev_update_batch_job_status job "error";
                  Ev_notify (Some "error") None (Some e)] /\
      get_pending_tasks (w_db w) job !! k = Some t /\
      dispatched evs = take k (get_pending_tasks (w_db w) job) /\
      (increments job true evs + increments job false evs = k)%nat /\
      (forall j, get_batch_job (w_db w) job = Some j ->
         exists j', get_batch_job (w_db w') job = Some j' /\ job_status j' = "error" /\
                    completed_count j' =
                      completed_count j + Z.of_nat (increments job true evs) /\
                    failed_count j' =
                      failed_count j + Z.of_nat (increments job false evs)) /\
      (forall t0, get_task (w_db w) (id t) = Some t0 ->
         exists t', get_task (w_db w') (id t) = Some t' /\ status t' = "processing").
Proof.
  intros polls job config w e w' Hrun.
  pose proof (run_batch_raised polls job config w) as Hspec.
  unfold run_spec in Hspec. rewrite Hrun in Hspec.
  destruct Hspec as (evs & k & t & Hl & Hk & (Hd & _ & Hi & _) & _ & Hjob & Hrow & Hcur).
  split; [exact Hcur |]. exists evs, k, t.
  split; [exact Hl |]. split; [exact Hk |]. split; [exact Hd |].
  split; [| split; [exact Hjob | exact Hrow]].
  rewrite Hi, length_take. apply lookup_lt_Some in Hk. lia.
Qed.

End RaisingRun.

Lemma X19_run_batch_raise_is_uncounted_witness :
  exists w',
    @run_batch python_runtime unreachable_env 3 1 scripted_config scripted_world
    = Raises "ConnectionError" w' /\
    (status <$> get_task (w_db w') 3) = Some "processing" /\
    (status <$> get_task (w_db w') 4) = Some "pending" /\
    ((fun j => (job_status j, completed_count j, failed_count j))
       <$> get_batch_job (w_db w') 1) = Some ("error", 0, 2) /\
    w_current_job_id w' = None /\
    exists evs (k : nat) t,
      w_log w' = w_log scripted_world ++
                 [Ev_update_batch_job_status 1 "running"] ++ evs ++
                 [Ev_notify (Some "processing") (Some (id t)) None;
                  Ev_update_task_status (id t) "processing";
                  Ev_generate_and_wait t (call_of scripted_config t)
                                       (ApiRaises "ConnectionError");
                  Ev_update_batch_job_status 1 "error";
                  Ev_notify (Some "error") None (Some "ConnectionError")] /\
      get_pending_tasks (w_db scripted_world) 1 !! k = Some t /\
      dispatched evs = take k (get_pending_tasks (w_db scripted_world) 1) /\
      (increments 1 true evs + increments 1 false evs = k)%nat /\
      (forall j, get_batch_job (w_db scripted_world) 1 = Some j ->
         exists j', get_batch_job (w_db w') 1 = Some j' /\ job_status j' = "error" /\
                    completed_count j' =
                      completed_count j + Z.of_nat (increments 1 true evs) /\
                    failed_count j' =
                      failed_count j + Z.of_nat (increments 1 false evs)) /\
      (forall t0, get_task (w_db scripted_world) (id t) = Some t0 ->
         exists t', get_task (w_db w') (id t) = Some t' /\ status t' = "processing").
Proof.
  eexists. split; [vm_compute; reflexivity |].
  split; [reflexivity |]. split; [reflexivity |]. split; [reflexivity |].
  split; [reflexivity |].
  apply (@X19_run_batch_raise_is_uncounted python_runtime unreachable_env 3 1 scripted_config
           scripted_world "ConnectionError").
  vm_compute. reflexivity.
Defined.

Section DownloadOutcomes.

Context `{Runtime} `{Environment} `{Network}.

(** download_batch_results raises exactly when there is something to
    download and the job's folder cannot be made. *)
Lemma download_batch_results_folder output_dir job w :
  let tasks := get_downloadable_tasks (w_db w) job in
  let dir := job_folder output_dir job w in
  match download_batch_results output_dir job w with
  | Hangs => True
  | Raises e w' =>
      w_fs w' = w_fs w /\
      (io_fails (S (w_tick w)) = true \/
       mkdir_parents (S (String.length dir)) (w_fs w) dir = None)
  | Returns r w' =>
      tasks = [] \/
      (io_fails (S (w_tick w)) = false /\
       exists fs1, mkdir_parents (S (String.length dir)) (w_fs w) dir = Some fs1)
  end.
Proof.
  intros tasks dir. unfold download_batch_results.
  unfold mbind at 1, M_bind at 1, get_db at 1. fold tasks.
  destruct tasks as [|t0 tasks0] eqn:Ht.
  { left. reflexivity. }
  rewrite <- Ht. clearbody tasks. clear Ht t0 tasks0.
  unfold mbind at 1, M_bind at 1, observe at 1.
  fold (job_folder output_dir job w). fold dir.
  set (w1 := mkWorld _ _ _ _ _ _).
  unfold mbind at 1, M_bind at 1, mkdir.
  unfold mbind at 1, M_bind at 1, observe at 1.
  change (w_tick w1) with (S (w_tick w)).
  destruct (io_fails (S (w_tick w))) eqn:Hio.
  { cbn. auto. }
  unfold mbind at 1, M_bind at 1, get_fs at 1.
  set (w2 := mkWorld _ _ _ _ _ _).
  change (w_fs w2) with (w_fs w).
  destruct (mkdir_parents (S (String.length dir)) (w_fs w) dir) as [fs1|] eqn:Hmk.
  2:{ cbn. auto. }
  cbn [put_fs]. unfold mbind at 1, M_bind at 1, observe at 1.
  match goal with
  | |- context [collect_results ?a ?b ?c ?fut ?res ?w0] =>
      destruct (collect_results_effect a b fut c res w0) as (r & w' & done & Hloop & _)
  end.
  rewrite Hloop. right. split; [reflexivity | eauto].
Qed.

(** X26. download_batch_results on a table with unique ids.  It raises
    exactly when there is something to download and the job's folder cannot
    be made (a file operation fails, or a file is in the way of the folder),
    and has then written nothing to the store or to the disk.  When it
    returns, every downloadable task of the job was counted once, as
    downloaded, failed or skipped; the early return for an empty list is the
    only one without paths; each path listed is a file on disk and is the
    local path of a completed row of the job; a row of the table is as it
    was, or was downloadable and now has one of the listed paths as its local
    path, with its other columns (updated_at apart) as before; and the tasks
    that are still downloadable are a sub-list of those that were, as many as
    were counted failed or skipped, so that a second call retries them and
    nothing else.  The job rows and the ledger are not written. *)
Theorem X26_download_batch_results_outcomes :
  forall (output_dir : string) (job : Z) (w : World),
    NoDup (map id (generation_tasks (w_db w))) ->
    let tasks := get_downloadable_tasks (w_db w) job in
    let dir := job_folder output_dir job w in
    let folder_fails :=
      io_fails (S (w_tick w)) = true \/
      mkdir_parents (S (String.length dir)) (w_fs w) dir = None in
    match download_batch_results output_dir job w with
    | Hangs => False
    | Raises _ w' =>
        tasks <> [] /\ folder_fails /\ w_db w' = w_db w /\ w_fs w' = w_fs w
    | Returns r w' =>
        let paths := default [] (dl_paths r) in
        (tasks = [] \/ ~ folder_fails) /\
        (dl_downloaded r + dl_failed r + dl_skipped r = length tasks)%nat /\
        (dl_paths r = None <-> tasks = []) /\
        length paths = dl_downloaded r /\
        Forall (fun p => is_file (w_fs w') p = true /\
                         exists t', t' ∈ generation_tasks (w_db w') /\
                                    batch_job_id t' = job /\ status t' = "completed" /\
                                    local_path t' = Some p) paths /\
        Forall2 (fun t t' => t' = t \/
                             (t ∈ tasks /\ exists p, p ∈ paths /\ downloaded_row p t t'))
                (generation_tasks (w_db w)) (generation_tasks (w_db w')) /\
        sublist (get_downloadable_tasks (w_db w') job) tasks /\
        length (get_downloadable_tasks (w_db w') job) = (dl_failed r + dl_skipped r)%nat /\
        batch_jobs (w_db w') = batch_jobs (w_db w) /\
        used_combinations (w_db w') = used_combinations (w_db w)
    end.
Proof.
  intros output_dir job w Hnd tasks dir folder_fails.
  pose proof (download_batch_results_effect output_dir job w) as Heff. cbv zeta in Heff.
  pose proof (download_batch_results_folder output_dir job w) as Hfolder. cbv zeta in Hfolder.
  fold tasks in Heff, Hfolder. fold dir in Hfolder.
  destruct (download_batch_results output_dir job w) as [r w' | e w' |]; [| | exact Heff].
  2:{ destruct Heff as (Hne & Hdb & _). destruct Hfolder as (Hfs & Hcause). auto. }
  assert (Hmade : tasks = [] \/ ~ folder_fails).
  { destruct Hfolder as [Ht | (Hio & fs1 & Hmk)]; [now left | right].
    unfold folder_fails. rewrite Hio, Hmk. intros [Hx | Hx]; discriminate. }
  destruct Heff as [(Ht & -> & ->) | (Hne & job_dir & done & Hsub & Hdb & Hn & Hc & Hp & Hf & _)].
  { cbn. rewrite Ht. cbn. split; [now left |]. split; [reflexivity |]. split; [tauto |].
    split; [reflexivity |].
    split; [constructor |]. split.
    { apply Forall2_same_length_lookup_2; [reflexivity |].
      intros i x y Hx Hy. left. congruence. }
    fold tasks. rewrite Ht. split; [constructor |]. auto. }
  assert (Hnd_tasks : NoDup (map id tasks)).
  { unfold tasks, get_downloadable_tasks.
    eapply NoDup_map_Permutation; [symmetry; apply merge_sort_Permutation |].
    now apply NoDup_map_filter. }
  set (ids := map (fun x : download => id x.1.1) done).
  assert (Hids : ids = map id (map (fun x : download => x.1.1) done)).
  { unfold ids. now rewrite map_map. }
  assert (Hnd_done : NoDup ids).
  { rewrite Hids. apply submseteq_Permutation in Hsub as [k Hk].
    pose proof (NoDup_map_Permutation id _ _ Hk Hnd_tasks) as Hx.
    rewrite map_app in Hx. now apply NoDup_app in Hx as (Hx & _). }
  assert (Htruthy : Forall (fun x : download => Py.truthy x.1.2 = true) done).
  { eapply Forall_impl; [exact Hf |]. intros x (_ & ext & _ & ->). apply task_file_truthy. }
  destruct (mark_downloaded_rows done (w_db w) Hnd_done Htruthy)
    as (g & Hrows & Hjobs & Hused & _ & Hother & Hsame).
  rewrite <- Hdb in Hrows, Hjobs, Hused.
  assert (Hdone_task : forall x, x ∈ done -> x.1.1 ∈ tasks).
  { intros x Hx. eapply elem_of_submseteq; [| exact Hsub].
    apply list_elem_of_In, (in_map (fun x : download => x.1.1)), list_elem_of_In, Hx. }
  assert (Hin_ids : forall t, id t ∈ ids -> exists x, x ∈ done /\ id t = id x.1.1).
  { intros t Hr. apply list_elem_of_In, in_map_iff in Hr as (x & Hx & Hin).
    exists x. split; [apply list_elem_of_In, Hin | congruence]. }
  cbv zeta. rewrite Hp. cbn [default from_option]. unfold Datatypes.id.
  split; [exact Hmade |].
  split; [lia |]. split; [split; [discriminate | contradiction] |].
  split; [rewrite List.length_map; lia |].
  split; [| split; [| split; [| split; [| split]]]].
  - apply Forall_forall. intros p Hpin.
    apply list_elem_of_In, in_map_iff in Hpin as (x & <- & Hx). apply list_elem_of_In in Hx.
    rewrite Forall_forall in Hf. destruct (Hf x Hx) as [Hfile _]. split; [exact Hfile |].
    destruct (downloadable_task _ _ _ (Hdone_task x Hx)) as (Hrow & Hjob & _).
    destruct (Hsame x.1.1 x Hx eq_refl) as (Hst & Hlp & _ & _ & _ & _ & Hfix).
    exists (g x.1.1). split; [| split; [| split]]; auto.
    + rewrite Hrows. apply list_elem_of_In, in_map, list_elem_of_In, Hrow.
    + destruct Hfix as (_ & Hb & _). congruence.
  - rewrite Hrows. apply Forall2_fmap_r, Forall2_same_length_lookup_2; [reflexivity |].
    intros i t t' Ht Ht'. assert (t' = t) as -> by congruence.
    destruct (decide (id t ∈ ids)) as [Hin | Hout]; [right | left; now apply Hother].
    destruct (Hin_ids t Hin) as (x & Hx & Hid).
    assert (t = x.1.1) as Heq.
    { apply (NoDup_map_inj_on id (generation_tasks (w_db w))); auto.
      - apply list_elem_of_lookup_2 in Ht. exact Ht.
      - apply (downloadable_task _ _ _ (Hdone_task x Hx)). }
    split; [rewrite Heq; now apply Hdone_task |].
    exists x.1.2. split.
    + apply list_elem_of_In, (in_map (fun x : download => x.1.2)), list_elem_of_In, Hx.
    + destruct (Hsame t x Hx Hid) as (Hst & Hlp & Hurl & Hrid & Herr & Hresp & Hfix).
      destruct (downloadable_task (w_db w) job t) as (_ & _ & Hst0 & _).
      { rewrite Heq. now apply Hdone_task. }
      unfold downloaded_row. rewrite Hst0. auto 10.
  - unfold get_downloadable_tasks at 1. rewrite Hrows.
    rewrite (filter_map_updates _ g ids).
    + rewrite (sort_filter_and _ (fun t => id t ∉ ids)) by exact Hnd.
      apply sublist_filter.
    + exact Hother.
    + intros t Hr (_ & _ & _ & Hlp). destruct (Hin_ids t Hr) as (x & Hx & Hid).
      destruct (Hsame t x Hx Hid) as (_ & Hlp' & _). congruence.
  - unfold get_downloadable_tasks at 1. rewrite Hrows.
    rewrite (filter_map_updates _ g ids).
    + rewrite (sort_filter_and _ (fun t => id t ∉ ids)) by exact Hnd.
      pose proof (filter_out_length tasks _ Hnd_tasks Hsub) as Hlen.
      rewrite <- Hids in Hlen. rewrite List.length_map in Hlen.
      fold (get_downloadable_tasks (w_db w) job). fold tasks. lia.
    + exact Hother.
    + intros t Hr (_ & _ & _ & Hlp). destruct (Hin_ids t Hr) as (x & Hx & Hid).
      destruct (Hsame t x Hx Hid) as (_ & Hlp' & _). congruence.
  - exact Hjobs.
  - exact Hused.
Qed.

End DownloadOutcomes.

Lemma X26_download_batch_results_outcomes_witness :
  (exists r w',
     @download_batch_results python_runtime steady_env sample_network "outputs" 1
       results_world = Returns r w' /\
     r = mkDownloads 2 1 1 (Some ["outputs/demo_20231114_221320/task_0002.jpg";
                                  "outputs/demo_20231114_221320/task_0001.png"]) /\
     length (get_downloadable_tasks (w_db w') 1) = 2%nat) /\
  (exists w',
     @download_batch_results python_runtime failing_disk_env sample_network "outputs" 1
       results_world = Raises "OSError" w' /\
     w_db w' = results_db /\ w_fs w' = demo_fs).
Proof.
  split.
  - pose proof (@X26_download_batch_results_outcomes python_runtime steady_env sample_network
                  "outputs" 1 results_world results_db_ids) as Hx.
    cbv zeta in Hx.
    destruct (@download_batch_results python_runtime steady_env sample_network "outputs" 1
                results_world) as [r w' | e w' |] eqn:Hrun.
    + exists r, w'. split; [reflexivity |].
      destruct Hx as (_ & _ & _ & _ & _ & _ & _ & Hlen & _).
      vm_compute in Hrun. injection Hrun as <- <-. split; [reflexivity | exact Hlen].
    + vm_compute in Hrun. discriminate.
    + contradiction.
  - pose proof (@X26_download_batch_results_outcomes python_runtime failing_disk_env
                  sample_network "outputs" 1 results_world results_db_ids) as Hx.
    cbv zeta in Hx.
    destruct (@download_batch_results python_runtime failing_disk_env sample_network
                "outputs" 1 results_world) as [r w' | e w' |] eqn:Hrun.
    + vm_compute in Hrun. discriminate.
    + exists w'. destruct Hx as (_ & _ & Hdb & Hfs).
      vm_compute in Hrun. injection Hrun as <- <-. split; [reflexivity |].
      split; [exact Hdb | exact Hfs].
    + contradiction.
Defined.

(** ** Moving the images of refused tasks *)

Lemma raised_log_projections job config evs t call e :
  let all := [Ev_update_batch_job_status job "running"] ++ evs ++
             raising_events t call e ++
             [Ev_update_batch_job_status job "error";
              Ev_notify (Some "error") None (Some e)] in
  move_calls all = move_calls evs /\
  expected_move_calls config all = expected_move_calls config evs /\
  (moves_justified config evs -> moves_justified config all).
Proof.
  intros all.
  assert (HJ : moves_justified config evs -> moves_justified config all).
  { intros HJ. apply moves_justified_app; [| apply moves_justified_app; [exact HJ |]];
      intros s d Hin; cbn in Hin;
      repeat (destruct Hin as [Hin | Hin]; [discriminate Hin |]); destruct Hin. }
  unfold all, raising_events, move_calls, expected_move_calls in *.
  rewrite !flat_map_app. cbn [flat_map app]. rewrite !app_nil_r.
  do 2 (split; [reflexivity |]). exact HJ.
Qed.

(** C4. For every task the remote service answered, in a run that returns
    and in a run that raises alike, _move_error_image was called for the
    outfit image of the task, with the error folder, exactly when the task
    failed with a message the classifier flags, an error folder configured
    and a non-empty outfit path; no other call was made, and every file moved
    was moved by one of these calls, from the path of the call into the error
    folder.  The call never raises, whatever the file operations do: a move
    that fails leaves the batch running.  It moves a regular image, under its
    own name or under stem_timestamp.suffix when that name is taken, when the
    image is on disk, the folder can be made and the file operations go
    through; and when no file is at the path it moves nothing and returns
    False. *)
Theorem C4_move_called_iff_content_policy :
  (forall (R : Runtime) (E : Environment) polls job config w w',
     (exists results, run_batch polls job config w = Returns results w') \/
     (exists e, run_batch polls job config w = Raises e w') ->
     exists evs,
       w_log w' = w_log w ++ evs /\
       move_calls evs = expected_move_calls config evs /\
       (forall p f, In (p, f) (move_calls evs) <->
          exists t call r,
            In (Ev_generate_and_wait t call (ApiReturns r)) evs /\
            task_ok r = false /\
            Py.truthy (error_folder config) = true /\
            Py.truthy (outfit_image_path t) = true /\
            _is_content_policy_error (error_text r) = true /\
            p = outfit_image_path t /\ f = error_folder config) /\
       moves_justified config evs) /\
  (forall (E : Environment) image_path folder w,
     exists moved_ok w', _move_error_image image_path folder w = Returns moved_ok w') /\
  (forall (E : Environment) image_path folder (c : option string) fs1 w,
     Py.truthy image_path = true -> Py.truthy folder = true ->
     w_fs w !! image_path = Some (File c) ->
     (forall k, String.prefix (image_path +:+ "/") k = true -> fs1 !! k = None) ->
     io_fails (w_tick w) = false ->
     mkdir_parents (S (String.length folder)) (w_fs w) folder = Some fs1 ->
     let plain := Path.joinpath folder (Path.name image_path) in
     let taken := exists_ fs1 plain in
     let dest :=
       if taken
       then Path.joinpath folder
              (Path.stem image_path +:+ "_" +:+ strftime_now (S (w_tick w)) +:+
               Path.suffix image_path)
       else plain in
     io_fails (if taken then S (S (w_tick w)) else S (w_tick w)) = false ->
     fs1 !! dest = None ->
     exists w',
       _move_error_image image_path folder w = Returns true w' /\
       w_fs w' = <[dest := File c]> (delete image_path fs1) /\
       w_db w' = w_db w /\
       w_log w' = w_log w ++
                  [Ev_move_error_image image_path folder; Ev_shutil_move image_path dest]) /\
  (forall (E : Environment) image_path folder w,
     Py.truthy image_path = false \/ Py.truthy folder = false \/
     exists_ (w_fs w) image_path = false ->
     exists w',
       _move_error_image image_path folder w = Returns false w' /\
       w_fs w' = w_fs w /\ w_db w' = w_db w /\
       w_log w' = w_log w ++ [Ev_move_error_image image_path folder]).
Proof.
  split; [| split; [| split]].
  - intros R E polls job config w w' [[results Hrun] | [e Hrun]].
    + pose proof (wp_elim _ _ _ _ _ (run_batch_ran polls job config w) Hrun) as Hran.
      destruct Hran as (evs & k & Hl & _ & (_ & _ & _ & Hm & Hj) & _).
      destruct (run_log_projections job config evs "running" (final_status results)
                  (Some (final_status results))) as (_ & _ & _ & _ & Pm & Px & Pj).
      eexists. split; [exact Hl |].
      assert (Heq : move_calls ([Ev_update_batch_job_status job "running"] ++ evs ++
                       [Ev_update_batch_job_status job (final_status results);
                        Ev_notify (Some (final_status results)) None None])
                    = expected_move_calls config
                        ([Ev_update_batch_job_status job "running"] ++ evs ++
                         [Ev_update_batch_job_status job (final_status results);
                          Ev_notify (Some (final_status results)) None None])).
      { rewrite Pm, Px. exact Hm. }
      split; [exact Heq |]. split; [| exact (Pj Hj)].
      intros p f. rewrite Heq. apply expected_move_calls_spec.
    + pose proof (run_batch_raised polls job config w) as Hspec.
      unfold run_spec in Hspec. rewrite Hrun in Hspec.
      destruct Hspec as (evs & k & t & Hl & _ & (_ & _ & _ & Hm & Hj) & _).
      destruct (raised_log_projections job config evs t (call_of config t) e)
        as (Pm & Px & Pj).
      eexists. split; [exact Hl |].
      assert (Heq : move_calls ([Ev_update_batch_job_status job "running"] ++ evs ++
                       raising_events t (call_of config t) e ++
                       [Ev_update_batch_job_status job "error";
                        Ev_notify (Some "error") None (Some e)])
                    = expected_move_calls config
                        ([Ev_update_batch_job_status job "running"] ++ evs ++
                         raising_events t (call_of config t) e ++
                         [Ev_update_batch_job_status job "error";
                          Ev_notify (Some "error") None (Some e)])).
      { rewrite Pm, Px. exact Hm. }
      split; [exact Heq |]. split; [| exact (Pj Hj)].
      intros p f. rewrite Heq. apply expected_move_calls_spec.
  - intros E image_path folder w.
    pose proof (move_error_image_returns image_path folder w) as Hr.
    apply returns_intro in Hr as (b & w' & Heq & _). eauto.
  - intros E image_path folder c fs1 w Hi Hf Hsrc Hfile Hio1 Hmk plain taken dest Hio2 Hfree.
    destruct (move_error_image_file_effect image_path folder c fs1 w Hi Hf Hsrc Hfile Hio1
                Hmk Hio2 Hfree) as (w' & Hrun & Hfs & _ & Hdb & Hlog).
    exists w'. auto.
  - intros E image_path folder w Hcase.
    eexists. split; [exact (move_error_image_declines image_path folder w Hcase) |].
    repeat split.
Qed.

Lemma outfits_fs_o2_file (k : string) :
  String.prefix ("in/outfits/o2.png" +:+ "/") k = true ->
  (<["in/err" := Dir]> outfits_fs : FileSystem) !! k = None.
Proof.
  intros Hk. destruct ((<["in/err" := Dir]> outfits_fs : FileSystem) !! k) as [n|] eqn:E;
    [| reflexivity].
  exfalso. apply elem_of_map_to_list in E.
  let l := eval vm_compute in (map_to_list (<["in/err" := Dir]> outfits_fs : FileSystem)) in
  change (map_to_list (<["in/err" := Dir]> outfits_fs : FileSystem)) with l in E.
  repeat (apply elem_of_cons in E as [E | E];
          [injection E as -> _; vm_compute in Hk; discriminate |]).
  inversion E.
Qed.

Lemma C4_move_called_iff_content_policy_witness :
  exists results w',
    @run_batch python_runtime (scripted_env 1000) 3 1 scripted_config scripted_world
    = Returns results w' /\
    failed results = 3%nat /\ moved_images results = Some 1%nat /\
    is_file (w_fs w') "in/err/o1.png" = true /\
    is_file (w_fs w') "in/outfits/o1.png" = false /\
    is_file (w_fs w') "in/outfits/o2.png" = true /\
    (job_status <$> get_batch_job (w_db w') 1) = Some "completed" /\
    (exists evs,
       w_log w' = w_log scripted_world ++ evs /\
       move_calls evs = [("in/outfits/o1.png", "in/err"); ("in/outfits/gone.png", "in/err")] /\
       move_calls evs = expected_move_calls scripted_config evs /\
       moves_justified scripted_config evs) /\
    (exists w1,
       @_move_error_image (scripted_env 1000) "in/outfits/o2.png" "in/err" scripted_world
       = Returns true w1 /\
       is_file (w_fs w1) "in/err/o2.png" = true /\
       exists_ (w_fs w1) "in/outfits/o2.png" = false) /\
    (exists w2,
       @_move_error_image (scripted_env 1000) "in/outfits/gone.png" "in/err" scripted_world
       = Returns false w2 /\
       w_fs w2 = w_fs scripted_world).
Proof.
  destruct (@run_batch python_runtime (scripted_env 1000) 3 1 scripted_config scripted_world)
    as [results w' | e w' |] eqn:Hrun;
    [| vm_compute in Hrun; discriminate | vm_compute in Hrun; discriminate].
  exists results, w'. split; [reflexivity |].
  destruct (proj1 C4_move_called_iff_content_policy python_runtime (scripted_env 1000)
              3%nat 1 scripted_config scripted_world w'
              (or_introl (ex_intro _ results Hrun)))
    as (evs & Hl & Hm & _ & Hj).
  vm_compute in Hrun. injection Hrun as <- <-.
  do 6 (split; [vm_compute; reflexivity |]).
  split; [| split].
  - exists evs. split; [exact Hl |]. split; [| split; [exact Hm | exact Hj]].
    cbn [scripted_world w_log app] in Hl. rewrite <- Hl. vm_compute. reflexivity.
  - destruct (proj1 (proj2 (proj2 C4_move_called_iff_content_policy)) (scripted_env 1000)
                "in/outfits/o2.png" "in/err" (Some "png")
                (<["in/err" := Dir]> outfits_fs) scripted_world
                eq_refl eq_refl eq_refl outfits_fs_o2_file
                eq_refl eq_refl eq_refl eq_refl)
      as (w1 & Hmove & Hfs & _).
    exists w1. split; [exact Hmove |]. rewrite Hfs. split; vm_compute; reflexivity.
  - destruct (proj2 (proj2 (proj2 C4_move_called_iff_content_policy)) (scripted_env 1000)
                "in/outfits/gone.png" "in/err" scripted_world
                (or_intror (or_intror eq_refl)))
      as (w2 & Hmove & Hfs & _).
    exists w2. split; [exact Hmove | exact Hfs].
Defined.

(** C4 as stated fails: in this run two tasks fail with a message the
    classifier flags, an error folder configured and an outfit path, those
    of in/outfits/o1.png and in/outfits/gone.png; no file is at the second
    path, and only the first image is moved. *)
Lemma C4_flagged_image_not_moved :
  exists results w' evs,
    @run_batch python_runtime (scripted_env 1000) 3 1 scripted_config scripted_world
    = Returns results w' /\
    w_log w' = w_log scripted_world ++ evs /\
    expected_move_calls scripted_config evs =
      [("in/outfits/o1.png", "in/err"); ("in/outfits/gone.png", "in/err")] /\
    file_moves evs = [("in/outfits/o1.png", "in/err/o1.png")] /\
    exists_ (w_fs scripted_world) "in/outfits/gone.png" = false /\
    exists_ (w_fs w') "in/err/gone.png" = false.
Proof. eexists _, _, _. split; [vm_compute; reflexivity |]. repeat split. Qed.
